(* ===== verification/_CoqProject ===== *)
-Q . S2P
Prelude.v
Enums.v
Errors.v
Token.v
StateMachine.v
Ids.v
Compatibility.v
Types.v
Binary.v
Frame.v
Messages.v
MessageTypes.v
Transport.v
TransportTheorems.v
SocketOwnership.v
Crc.v
Double.v
FabricState.v
CLib.v
FabricFrame.v
FabricOps.v
Schedule.v
ScheduleTheorems.v
ScheduleProgress.v
Transaction.v
Executor.v
CpuExecutor.v
CpuTheorems.v
Pump.v
Kernel.v
CudaExecutor.v
CudaHost.v
CudaTheorems.v
Observability.v
Distributed.v
Programs.v
System.v
Persist.v
FilePersist.v
Cli.v
Bench.v
CliTheorems.v
Examples.v
FabricInvariants.v
ProtocolInvariants.v
FabricTheorems.v
Authorization.v
MemoryBooks.v
PumpTheorems.v
GroupProgress.v
PumpProgress.v
PumpCompletes.v
AcceptanceKey.v
DistributedTheorems.v
PersistTheorems.v
ProtocolSpec.v
SystemTheorems.v
WireExecutors.v
Scenario.v
PersistScenario.v
CpuScenario.v
DistributedScenario.v
SystemScenario.v
CliScenario.v
CudaScenario.v
ExampleRuns.v
