(* ===== verification/Prelude.v ===== *)
(** * Decode Fabric: verification library

    Decode Fabric schedules the token-by-token decoding of many sequences over workers.  A coordinator
    (the fabric) admits requests, groups compatible sequences, dispatches a group to a worker, and
    advances a sequence by one token only through a transaction: the worker prepares the step, the
    fabric answers with a one-use grant, the worker commits and returns a receipt, and the receipt
    consumes the grant.  The fabric's state can be serialized, sealed by a checksum, stored in a file
    and recovered, with the epoch of the image and every pending grant aborted.  This library models the C++ sources under src/include/decodefabric,
    src/src, src/cli, src/benchmarks and src/examples and proves what they promise.

    ** Parts of the program and the files that model them

    Foundations
    - [Prelude]: fixed-width integers as [Z] with their wrap-around ([wrap], [+64], [-64], [*64]), record
      update, generic lemmas, tactics and hint databases shared by all files.
    - [Enums], [Errors], [Ids]: error.hpp, backend.hpp, ids.hpp: every enumeration with its codes, names
      and casts (an unnamed value keeps its code), [Result] as a sum, identifiers tagged by category.
    - [Token], [StateMachine], [Compatibility], [Types]: token.hpp, state_machine.hpp and core.cpp, the
      compatibility key with its canonical text and hash, and the records of the other headers.
    - [Double]: IEEE binary64 as the Standard Library specifies it.

    Wire
    - [Binary]: binary.hpp; a reader is a state and error monad over a byte list, [decodes] is what a
      reader call and a writer call promise each other, and [Codec] the interface of a message.
    - [Frame]: the framing of protocol.cpp and the receive loop of transport.cpp on chunks of data.
    - [Transport]: transport.cpp, connections and listeners over a process with open sockets; how every
      system call ends is an input ([SendCall], [RecvCall], [ConnectOutcome], [ListenOutcome]).
      [SocketOwnership]: programs over connection and listener objects ([sock_step]).
    - [Messages], [MessageTypes]: all message codecs of protocol.cpp and distributed.cpp; decoded values
      are well typed for every input.

    The fabric (fabric.cpp), state [Impl]
    - [FabricState], [FabricFrame]: the state, its private helpers, and what they leave alone.
    - [FabricOps]: submit, cancel, retry, register_worker, mark_worker_dead, roll_epoch, advance.
    - [Schedule]: the scheduling cycle.  [Transaction]: completions, authorization, receipts, aborts.
    - [Pump]: pump_once and pump_until_idle.  [Observability]: snapshots, explanations, texts and JSON.
    - [Persist], [Crc]: serialize_state and recover_state with the CRC-32 seal.

    Executors
    - [Executor]: the interface of executor.hpp as a class with its laws.
    - [CpuExecutor]: cpu_executor.cpp.  [Kernel], [CudaExecutor]: cuda_executor.cu, the kernel as threads
      with a barrier and the host code over a device memory of live pointers.

    Outside
    - [Distributed]: the coordinator's, the worker's and the client's side of distributed.cpp.
    - [CLib], [Programs]: strtoull, atoi and c_str; coordinator_main and worker_main with their arguments,
      connection retries, output and exit codes.
    - [System]: a coordinator, worker processes and clients composed, with what is in flight on every
      connection, crashes and lost connections ([sys_step]).
    - [FilePersist]: persistence.cpp over a directory as a finite map.
    - [Cli]: the commands of src/cli/main.cpp.  [Examples]: the programs of src/examples.
      [Bench]: the program of src/benchmarks/bench.cpp.

    ** How the model corresponds to the code

    A public method of the fabric holds its lock for its whole body (cancel_request apart), so an
    operation is a function on [Impl]; a run is a list of operations ([FabricInvariants.Op], [step] and [run]:
    the thirteen operations a coordinator performs), the
    coordinator's run a list of events of its connections and of the dispatch thread in any order
    ([Distributed.serve]).  [recover_state] replaces the state as a whole and is not one of these operations: theorems
    about runs are about a fabric between recoveries, and [PersistTheorems] and [ProtocolSpec] say what a recovery
    does to it.  Errors are values of [Result].  What the language or the environment leaves
    open is an interface, quantified in every theorem: [Clock] and [SteadyClock] are streams of readings,
    [MapOrder] the iteration order of unordered maps, [Ostream] the text of a double, [Libm] and [Mathf]
    the transcendental functions (and, on a device, the contraction of multiply-adds), [CudaRuntime] which
    calls of the CUDA runtime fail and what they leave behind, [FsOutcome] which calls of a file write fail,
    [AtoiOverflow] what atoi does beyond the range of int, [PrintFixed] the text of a double with given decimals.

    ** What the theorems show

    - Exactly once: [FabricTheorems], [PumpTheorems] and [DistributedTheorems] show that every token,
      generation and step the fabric counts is paid for by exactly one consumed grant, in any sequence of
      operations, with any executor, and against any frames on the network; grants are used once, receipts
      are idempotent, generations form an unbroken chain, and only a worker's receipt commits.
    - [ProtocolSpec]: an abstract protocol of sequences and grants ([Proto], [pstep]) that mentions nothing of the
      implementation; every operation of the fabric is a run of it, and a recovery is a fence: it leaves no grant in flight.
    - [SystemTheorems], [WireExecutors]: in the composed system every grant the coordinator counts as consumed was
      committed by a worker's executor for exactly that grant, whatever is lost or crashes, as long as only workers
      introduce themselves as workers; the CPU and the CUDA executor are instances of what is asked of a worker.
    - [Authorization]: a grant is issued exactly to current authority, with the terms it carries; the commit cycle
      succeeds and advances a sequence by one token, and stale authority is refused.
    - [ScheduleTheorems]: groups are disjoint, homogeneous and within their limits; every dispatch goes to
      a fitting worker and is recorded as the authority in flight.  [ScheduleProgress]: when a cycle
      dispatches nothing, the groups it formed found no worker, or no memory for their members.
    - [PumpTheorems]: the pump ends, and every receipt of an executor that keeps the laws is finalized.
    - [GroupProgress], [PumpProgress] and [PumpCompletes]: with the CPU executor a cycle advances every sequence it
      dispatches by one token and leaves fabric and executor in agreement, and pumping without a bound ends within one
      cycle more than there are tokens left, with every request finished that open workers and their memory can
      serve.  The idempotency key of a step is a 64-bit hash, so these theorems assume that no step repeats the key
      of the step its sequence committed last; [AcceptanceKey] shows which inputs of the key never collide.
    - [MemoryBooks]: the live reservations on a device never exceed its memory.
    - [CpuTheorems]: the committed state of the CPU executor is a function of its position, commits happen
      once, receipts tell the truth, and a fresh executor rebuilds the state.
    - [Kernel], [CudaHost], [CudaTheorems]: the kernel computes the same under every schedule of its threads;
      whatever runtime calls fail, device memory is used safely, nothing leaks, and the executor stays
      transactional; it keeps the laws the pump relies on.
    - [PersistTheorems], [FilePersist]: recovery restores the durable state and the epoch of the image (images with a
      ledger of more than 2^22 grants are written and then refused), corrupted
      images are rejected without effect, receipts from before the recovery are fenced; a record file is replaced in one
      step by what reached the temporary file, and the directory implements a map from scopes to records.
    - [Frame], [Messages], [MessageTypes]: messages survive any chunking of the stream, truncated ones are
      rejected, and what is accepted is well typed.
    - [TransportTheorems], [SocketOwnership]: threads that share a connection put whole frames on the wire in the
      order of the lock up to the first send that fails, partial sends and interruptions lose and repeat nothing, the receive loop returns what
      the decoder returns on the data; no socket is used after it is closed, closed twice, shared or leaked.
    - [CliTheorems]: submit asks the fabric for what was typed and prints and returns what it decided.
    - [Observability]: each class counter of a snapshot counts the sequences in its states, and no sequence twice.
    The [Scenario] files and [ExampleRuns] evaluate the definitions on concrete runs (among them most example
    programs, which return 0) and instantiate the theorems there; some
    of their examples exhibit defects (a sequence stranded by recovery, a failed prepare or a
    re-registered worker, a re-queued sequence that never completes, a takeover under another attempt,
    a reservation released while members are in flight, a group placed on a worker without its adapter, a CUDA state spoiled by a failed copy, a receipt lost
    after its commit, a socket leaked by connecting twice, frames mixed without the lock).

    ** Bounds and fuel

    Loops over lists and maps are structural.  The catch-up loops of the executors run on the difference of
    the two counters they compare, which is the number of turns they make ([catch_up_exact]);
    the send and receive loops and a worker's session run on the list of calls they make;
    [pump_loop] runs on the bound the source passes, or on one turn more than the tokens left to generate where
    the source passes none, and [pump_until_idle_ends] and [pump_finishes_all] show that it returns;
    the decimal digits of a 64-bit number are at most 20 and are computed with fuel 24.
    Theorems that count with 64-bit counters assume that these did not overflow ([bounded]).

    ** Not modelled

    Sleeps and the passing of real time; the tests; the liveness of the distributed loops and of the CUDA executor
    (the pump's is shown for the CPU executor); the fields of a status reply are read at one
    moment although the code reads them with several calls of the fabric; [cancel_request] is one step although
    it releases the lock in between; the buckets of hash maps, since maps are finite maps with an arbitrary
    iteration order (the hash functors are modelled over an arbitrary hash of numbers); reads of an existing record file that fail;
    the field prev_group_members, which nothing reads; the reply that cancel of the command line receives and ignores; and
    the overflow of time differences in [score_candidate], which are exact integers here. *)

From stdpp Require Export prelude gmap strings.
From Stdlib Require Export ZArith Lia.

Set Warnings "-postfix-notation-not-level-1".

Open Scope Z_scope.

(** ** Machine integers

    A w-bit unsigned integer is a [Z] in [0, 2^w); arithmetic that the source
    performs at that width is written with its wrap-around. *)

Definition wrap (w z : Z) : Z := z mod 2 ^ w.

Definition UINT64_MAX : Z := 2 ^ 64 - 1.

Declare Scope machine_scope.
Delimit Scope machine_scope with mach.
Notation "x +64 y" := (wrap 64 (x + y)) (at level 50, left associativity) : machine_scope.
Notation "x -64 y" := (wrap 64 (x - y)) (at level 50, left associativity) : machine_scope.
Notation "x *64 y" := (wrap 64 (x * y)) (at level 40, left associativity) : machine_scope.
Open Scope machine_scope.

(** The two's-complement reading of a 64-bit pattern ([static_cast<int64_t>]). *)
Definition to_s64 (z : Z) : Z :=
  if wrap 64 z <? 2 ^ 63 then wrap 64 z else wrap 64 z - 2 ^ 64.

(** The values of an unsigned w-bit type and of [int64_t]. *)
Definition in_range (w z : Z) : bool := (0 <=? z) && (z <? 2 ^ w).
Definition in_srange (z : Z) : bool := (- 2 ^ 63 <=? z) && (z <? 2 ^ 63).

(** Bytes ([std::uint8_t]) and byte vectors. *)
Abbreviation bytes := (list Z).
Definition is_byte (z : Z) : bool := in_range 8 z.
Definition are_bytes (bs : bytes) : Prop := Forall (fun b => is_byte b = true) bs.

Lemma in_range_iff w z : in_range w z = true <-> 0 <= z < 2 ^ w.
Proof. unfold in_range. rewrite andb_true_iff, Z.leb_le, Z.ltb_lt. done. Qed.

Lemma in_srange_iff z : in_srange z = true <-> - 2 ^ 63 <= z < 2 ^ 63.
Proof. unfold in_srange. rewrite andb_true_iff, Z.leb_le, Z.ltb_lt. done. Qed.

Lemma wrap_small w z : in_range w z = true -> wrap w z = z.
Proof. intros H%in_range_iff. by apply Z.mod_small. Qed.

Lemma wrap_range w z : 0 <= w -> in_range w (wrap w z) = true.
Proof. intros Hw. apply in_range_iff, Z.mod_pos_bound, Z.pow_pos_nonneg; lia. Qed.

Lemma wrap_id_small w z : 0 <= z < 2 ^ w -> wrap w z = z.
Proof. apply Z.mod_small. Qed.

Lemma to_s64_wrap z : in_srange z = true -> to_s64 (wrap 64 z) = z.
Proof.
  intros H%in_srange_iff. unfold to_s64, wrap. rewrite Z.mod_mod by lia.
  destruct (Z_lt_ge_dec z 0) as [Hn|Hp].
  - replace (z mod 2 ^ 64) with (z + 2 ^ 64)
      by (apply (Z.mod_unique_pos _ _ (-1)); lia).
    destruct (Z.ltb_spec (z + 2 ^ 64) (2 ^ 63)); lia.
  - rewrite Z.mod_small by lia. destruct (Z.ltb_spec z (2 ^ 63)); lia.
Qed.

(** ** Functional record update

    [r <| f := v |>] is [r] with field [f] replaced.  A record type declares
    its eta-expansion once ([Settable]) and the field setters are derived. *)

Class Settable (R : Type) := eta_of : R -> R.
Class Setter {R E : Type} (proj : R -> E) := upd : (E -> E) -> R -> R.
Arguments upd {R E} proj {_} f r.

Ltac solve_setter :=
  match goal with
  | |- @Setter ?R ?E ?proj =>
      let i := constr:(_ : Settable R) in
      let e := eval red in i in
      let g := eval pattern proj in e in
      match g with
      | ?h _ =>
          let b := eval cbv beta in (fun (f : E -> E) (r : R) => h (fun x => f (proj x)) r) in
          exact b
      end
  end.

#[export] Hint Extern 1 (Setter _) => solve_setter : typeclass_instances.

Declare Scope update_scope.
Notation "r <| p ::= f |>" := (upd p f r)
  (at level 12, p at next level, left associativity, f at level 99,
   format "r  <|  p  ::=  f  |>") : update_scope.
Notation "r <| p := v |>" := (upd p (fun _ => v) r)
  (at level 12, p at next level, left associativity, v at level 99,
   format "r  <|  p  :=  v  |>") : update_scope.
Open Scope update_scope.

(** [rsimpl] pushes a projection through the updates below it.  The equation of a projection with an
    update is checked at a variable, whatever the depth of the record it is used at. *)
Ltac rsimpl :=
  repeat match goal with
  | |- context [?p (@upd ?R ?E ?q ?i ?f ?r)] =>
      let K := fresh in
      tryif constr_eq p q
      then assert (K : forall r' : R, p (@upd R E q i f r') = f (p r')) by (intros ?; reflexivity)
      else assert (K : forall r' : R, p (@upd R E q i f r') = p r') by (intros ?; reflexivity);
      rewrite (K r); clear K; cbv beta
  end.

Tactic Notation "rsimpl" "in" hyp(H) :=
  repeat match type of H with
  | context [?p (@upd ?R ?E ?q ?i ?f ?r)] =>
      let K := fresh in
      tryif constr_eq p q
      then assert (K : forall r' : R, p (@upd R E q i f r') = f (p r')) by (intros ?; reflexivity)
      else assert (K : forall r' : R, p (@upd R E q i f r') = p r') by (intros ?; reflexivity);
      rewrite (K r) in H; clear K; cbv beta in H
  end.

(** ** Tactics shared by the components *)

(** Split a hypothesis list of boolean conjunctions into its conjuncts. *)
Ltac split_andb :=
  repeat match goal with
  | H : (_ && _) = true |- _ => apply andb_true_iff in H as [? H]
  | H : _ /\ _ |- _ => destruct H
  end.

(** Case analysis on the innermost [match]/[if] scrutinee of the goal. *)
Ltac case_goal :=
  match goal with
  | |- context [match ?x with _ => _ end] => 
      lazymatch x with context [match _ with _ => _ end] => fail | _ => destruct x eqn:? end
  end.

Tactic Notation "case_in" hyp(H) :=
  match type of H with
  | context [match ?x with _ => _ end] =>
      lazymatch x with context [match _ with _ => _ end] => fail | _ => destruct x eqn:? end
  end.

(** ** Lists *)

Lemma list_prefix_app_cases {A} (p l1 l2 : list A) :
  p `prefix_of` l1 ++ l2 -> p `prefix_of` l1 /\ length p <> length l1 \/ exists q, p = l1 ++ q /\ q `prefix_of` l2.
Proof.
  intros Hp. destruct (decide (length l1 <= length p)%nat) as [Hle|Hgt].
  - right. destruct Hp as [k Hk]. exists (drop (length l1) p).
    assert (Hd : l2 = drop (length l1) p ++ k).
    { apply (f_equal (drop (length l1))) in Hk.
      rewrite drop_app_length in Hk. rewrite Hk, drop_app_le by lia. done. }
    assert (Ht : l1 = take (length l1) p).
    { apply (f_equal (take (length l1))) in Hk.
      rewrite take_app_length in Hk. rewrite take_app_le in Hk by lia. done. }
    split.
    + rewrite Ht at 1. by rewrite take_drop.
    + by exists k.
  - left. split; [|lia]. destruct Hp as [k Hk].
    exists (drop (length p) l1).
    apply (f_equal (take (length l1))) in Hk.
    rewrite take_app_length, take_app_ge in Hk by lia.
    rewrite Hk at 1. f_equal.
    rewrite Hk at 2. by rewrite drop_app_length.
Qed.

Lemma foldl_eq {A B} (f g : A -> B -> A) (l : list B) a : (forall a b, f a b = g a b) -> foldl f a l = foldl g a l.
Proof. intros H. revert a. induction l as [|b l IH]; intros a; [done|]. cbn [foldl]. rewrite H. apply IH. Qed.

Lemma foldl_inv {A B} (P : A -> Prop) (f : A -> B -> A) (l : list B) a :
  P a -> (forall a b, b ∈ l -> P a -> P (f a b)) -> P (foldl f a l).
Proof.
  revert a. induction l as [|b l IH]; intros a Ha Hf; [done|]. simpl.
  apply IH; [apply Hf; [left|done]|]. intros; apply Hf; [by right|done].
Qed.

Lemma foldl_rel {A B} (R : A -> A -> Prop) `{!PreOrder R} (f : A -> B -> A) (l : list B) a :
  (forall a b, R a (f a b)) -> R a (foldl f a l).
Proof.
  intros Hf. revert a. induction l as [|b l IH]; intros a; [reflexivity|]. simpl.
  etrans; [apply Hf|apply IH].
Qed.

(** ** Finite maps *)

Lemma alter_some `{Countable K} {A} (f : A -> A) (m : gmap K A) i x :
  m !! i = Some x -> alter f i m = <[i := f x]> m.
Proof.
  intros Hi. apply map_eq. intros j. destruct (decide (i = j)) as [<-|Hn].
  - by rewrite lookup_alter_eq, lookup_insert_eq, Hi.
  - by rewrite lookup_alter_ne, lookup_insert_ne.
Qed.

Lemma alter_none `{Countable K} {A} (f : A -> A) (m : gmap K A) i : m !! i = None -> alter f i m = m.
Proof. intros Hi. apply alter_id. by rewrite Hi. Qed.

(** The number of entries that satisfy a predicate. *)
Definition count_entries `{Countable K} {A} (P : A -> bool) (m : gmap K A) : nat :=
  size (filter (fun kv => P kv.2 = true) m).

Lemma count_entries_insert_new `{Countable K} {A} (P : A -> bool) (m : gmap K A) i x :
  m !! i = None -> count_entries P (<[i := x]> m) = ((if P x then 1 else 0) + count_entries P m)%nat.
Proof.
  intros Hi. unfold count_entries. destruct (P x) eqn:Hx.
  - rewrite map_filter_insert_True by done. rewrite map_size_insert_None; [done|].
    apply map_lookup_filter_None. by left.
  - rewrite map_filter_insert_False by (cbn; congruence). by rewrite delete_id.
Qed.

Lemma count_entries_update `{Countable K} {A} (P : A -> bool) (m : gmap K A) i x y :
  m !! i = Some x -> count_entries P (<[i := y]> m) = (count_entries P m + (if P y then 1 else 0) - (if P x then 1 else 0))%nat.
Proof.
  intros Hi. rewrite <- (insert_delete_id m i x Hi) at 2. rewrite <- insert_delete_eq.
  rewrite !count_entries_insert_new by apply lookup_delete_eq. lia.
Qed.

Lemma count_entries_le `{Countable K} {A} (P : A -> bool) (m : gmap K A) : (count_entries P m <= size m)%nat.
Proof. unfold count_entries. apply map_subseteq_size, map_filter_subseteq. Qed.
