(* ===== verification/Enums.v ===== *)
(** * Enumerations

    The [enum class] types of include/decodefabric/*.hpp with their underlying
    codes, and the [to_string] functions of src/error.cpp.  Every one of them
    has a fixed underlying type, so a [static_cast] from a wire byte can give a
    value that is no enumerator: the constructor [Unnamed] holds those.  The
    class [CEnum] states what the codecs and the state recovery need of an
    enumeration: its codes, the cast back, and the law that casting the code
    of a value gives that value. *)

From S2P Require Import Prelude.

Set Warnings "-notation-for-abbreviation".

(** The enumerator of a table that has a given code. *)
Definition enum_find {E} (code : E -> Z) (table : list E) (z : Z) : option E :=
  List.find (fun e => code e =? z) table.

(** [static_cast<E>(z)]. *)
Definition enum_cast {E} (code : E -> Z) (table : list E) (unnamed : Z -> E) (z : Z) : E :=
  match enum_find code table z with Some e => e | None => unnamed z end.

Module ErrorCode.

Inductive ErrorCode : Set :=
  | Ok | InvalidArgument | NullObject | NotReady
  | Busy | AlreadyTerminal | UnknownModel | UnknownWorker
  | UnknownDevice | UnknownExecutor | DuplicateId | DuplicateRequest
  | UnknownSequence | UnknownState | IncompatibleGroupMembers | NoCompatibleWorker
  | GroupFull | ImpossibleMemoryEstimate | ReservationOverflow | MemoryExhaustion
  | NoMemoryHeadroom | ReservationConflict | ReservationLeak | Backpressure
  | QueueSaturated | TenantLimitExceeded | AdmissionRejected | Cancelled
  | AlreadyCancelled | DeadlineExpired | StaleCoordinatorEpoch | StaleWorkerBoot
  | StaleAttempt | StaleDecodeGeneration | StaleStateGeneration | DuplicateCompletion
  | CompletionForCancelled | CompletionForExpired | CompletionForTerminal | SupersededByRetry
  | StateDigestMismatch | TransactionConflict | GrantConsumed | RetryBudgetExhausted
  | NonRetryableFailure | RetryableFailure | WorkerUnavailable | WorkerBusy
  | WorkerLost | ExecutionFailed | BackendError | ProtocolMalformed
  | ProtocolOversizedFrame | ProtocolTruncatedFrame | ProtocolUnknownVersion | ProtocolUnknownType
  | ProtocolInvalidField | ProtocolEmptyFrame | PersistenceCorrupt | PersistenceChecksumMismatch
  | PersistenceTruncated | PersistenceUnknownVersion | PersistenceIoError | PersistenceInvalidField
  | Overflow | Underflow | BoundedLengthExceeded | InternalError
  | NotImplemented | ThreadSafetyViolation
  | Unnamed (code : Z).

Definition ErrorCode_code (e : ErrorCode) : Z :=
  match e with
  | Ok => 0 | InvalidArgument => 1 | NullObject => 2 | NotReady => 3
  | Busy => 4 | AlreadyTerminal => 5 | UnknownModel => 10 | UnknownWorker => 11
  | UnknownDevice => 12 | UnknownExecutor => 13 | DuplicateId => 14 | DuplicateRequest => 15
  | UnknownSequence => 16 | UnknownState => 17 | IncompatibleGroupMembers => 20 | NoCompatibleWorker => 21
  | GroupFull => 22 | ImpossibleMemoryEstimate => 30 | ReservationOverflow => 31 | MemoryExhaustion => 32
  | NoMemoryHeadroom => 33 | ReservationConflict => 34 | ReservationLeak => 35 | Backpressure => 40
  | QueueSaturated => 41 | TenantLimitExceeded => 42 | AdmissionRejected => 43 | Cancelled => 50
  | AlreadyCancelled => 51 | DeadlineExpired => 52 | StaleCoordinatorEpoch => 60 | StaleWorkerBoot => 61
  | StaleAttempt => 62 | StaleDecodeGeneration => 63 | StaleStateGeneration => 64 | DuplicateCompletion => 65
  | CompletionForCancelled => 66 | CompletionForExpired => 67 | CompletionForTerminal => 68 | SupersededByRetry => 69
  | StateDigestMismatch => 73 | TransactionConflict => 74 | GrantConsumed => 75 | RetryBudgetExhausted => 70
  | NonRetryableFailure => 71 | RetryableFailure => 72 | WorkerUnavailable => 80 | WorkerBusy => 81
  | WorkerLost => 82 | ExecutionFailed => 83 | BackendError => 84 | ProtocolMalformed => 90
  | ProtocolOversizedFrame => 91 | ProtocolTruncatedFrame => 92 | ProtocolUnknownVersion => 93 | ProtocolUnknownType => 94
  | ProtocolInvalidField => 95 | ProtocolEmptyFrame => 96 | PersistenceCorrupt => 100 | PersistenceChecksumMismatch => 101
  | PersistenceTruncated => 102 | PersistenceUnknownVersion => 103 | PersistenceIoError => 104 | PersistenceInvalidField => 105
  | Overflow => 110 | Underflow => 111 | BoundedLengthExceeded => 112 | InternalError => 120
  | NotImplemented => 121 | ThreadSafetyViolation => 122
  | Unnamed c => c
  end.

Definition ErrorCode_table : list ErrorCode :=
  [Ok; InvalidArgument; NullObject; NotReady; Busy;
   AlreadyTerminal; UnknownModel; UnknownWorker; UnknownDevice; UnknownExecutor;
   DuplicateId; DuplicateRequest; UnknownSequence; UnknownState; IncompatibleGroupMembers;
   NoCompatibleWorker; GroupFull; ImpossibleMemoryEstimate; ReservationOverflow; MemoryExhaustion;
   NoMemoryHeadroom; ReservationConflict; ReservationLeak; Backpressure; QueueSaturated;
   TenantLimitExceeded; AdmissionRejected; Cancelled; AlreadyCancelled; DeadlineExpired;
   StaleCoordinatorEpoch; StaleWorkerBoot; StaleAttempt; StaleDecodeGeneration; StaleStateGeneration;
   DuplicateCompletion; CompletionForCancelled; CompletionForExpired; CompletionForTerminal; SupersededByRetry;
   StateDigestMismatch; TransactionConflict; GrantConsumed; RetryBudgetExhausted; NonRetryableFailure;
   RetryableFailure; WorkerUnavailable; WorkerBusy; WorkerLost; ExecutionFailed;
   BackendError; ProtocolMalformed; ProtocolOversizedFrame; ProtocolTruncatedFrame; ProtocolUnknownVersion;
   ProtocolUnknownType; ProtocolInvalidField; ProtocolEmptyFrame; PersistenceCorrupt; PersistenceChecksumMismatch;
   PersistenceTruncated; PersistenceUnknownVersion; PersistenceIoError; PersistenceInvalidField; Overflow;
   Underflow; BoundedLengthExceeded; InternalError; NotImplemented; ThreadSafetyViolation].

Definition ErrorCode_of_code (z : Z) : ErrorCode :=
  enum_cast ErrorCode_code ErrorCode_table Unnamed z.

Definition ErrorCode_ok (e : ErrorCode) : bool :=
  match e with
  | Unnamed c => in_range 32 c && negb (existsb (fun e => ErrorCode_code e =? c) ErrorCode_table)
  | _ => true
  end.

Definition ErrorCode_to_string (e : ErrorCode) : string :=
  match e with
  | Ok => "ok"
  | InvalidArgument => "invalid_argument"
  | NullObject => "null_object"
  | NotReady => "not_ready"
  | Busy => "busy"
  | AlreadyTerminal => "already_terminal"
  | UnknownModel => "unknown_model"
  | UnknownWorker => "unknown_worker"
  | UnknownDevice => "unknown_device"
  | UnknownExecutor => "unknown_executor"
  | DuplicateId => "duplicate_id"
  | DuplicateRequest => "duplicate_request"
  | UnknownSequence => "unknown_sequence"
  | UnknownState => "unknown_state"
  | IncompatibleGroupMembers => "incompatible_group_members"
  | NoCompatibleWorker => "no_compatible_worker"
  | GroupFull => "group_full"
  | ImpossibleMemoryEstimate => "impossible_memory_estimate"
  | ReservationOverflow => "reservation_overflow"
  | MemoryExhaustion => "memory_exhaustion"
  | NoMemoryHeadroom => "no_memory_headroom"
  | ReservationConflict => "reservation_conflict"
  | ReservationLeak => "reservation_leak"
  | Backpressure => "backpressure"
  | QueueSaturated => "queue_saturated"
  | TenantLimitExceeded => "tenant_limit_exceeded"
  | AdmissionRejected => "admission_rejected"
  | Cancelled => "cancelled"
  | AlreadyCancelled => "already_cancelled"
  | DeadlineExpired => "deadline_expired"
  | StaleCoordinatorEpoch => "stale_coordinator_epoch"
  | StaleWorkerBoot => "stale_worker_boot"
  | StaleAttempt => "stale_attempt"
  | StaleDecodeGeneration => "stale_decode_generation"
  | StaleStateGeneration => "stale_state_generation"
  | DuplicateCompletion => "duplicate_completion"
  | CompletionForCancelled => "completion_for_cancelled"
  | CompletionForExpired => "completion_for_expired"
  | CompletionForTerminal => "completion_for_terminal"
  | SupersededByRetry => "superseded_by_retry"
  | StateDigestMismatch => "state_digest_mismatch"
  | TransactionConflict => "transaction_conflict"
  | GrantConsumed => "grant_consumed"
  | RetryBudgetExhausted => "retry_budget_exhausted"
  | NonRetryableFailure => "non_retryable_failure"
  | RetryableFailure => "retryable_failure"
  | WorkerUnavailable => "worker_unavailable"
  | WorkerBusy => "worker_busy"
  | WorkerLost => "worker_lost"
  | ExecutionFailed => "execution_failed"
  | BackendError => "backend_error"
  | ProtocolMalformed => "protocol_malformed"
  | ProtocolOversizedFrame => "protocol_oversized_frame"
  | ProtocolTruncatedFrame => "protocol_truncated_frame"
  | ProtocolUnknownVersion => "protocol_unknown_version"
  | ProtocolUnknownType => "protocol_unknown_type"
  | ProtocolInvalidField => "protocol_invalid_field"
  | ProtocolEmptyFrame => "protocol_empty_frame"
  | PersistenceCorrupt => "persistence_corrupt"
  | PersistenceChecksumMismatch => "persistence_checksum_mismatch"
  | PersistenceTruncated => "persistence_truncated"
  | PersistenceUnknownVersion => "persistence_unknown_version"
  | PersistenceIoError => "persistence_io_error"
  | PersistenceInvalidField => "persistence_invalid_field"
  | Overflow => "overflow"
  | Underflow => "underflow"
  | BoundedLengthExceeded => "bounded_length_exceeded"
  | InternalError => "internal_error"
  | NotImplemented => "not_implemented"
  | ThreadSafetyViolation => "thread_safety_violation"
  | _ => "unknown_error_code"
  end.

End ErrorCode.
Abbreviation ErrorCode := ErrorCode.ErrorCode.

Module SequenceState.

Inductive SequenceState : Set :=
  | Admitted_ | Waiting | Ready | Grouped
  | Reserved | Dispatched | Running | StepCompleted
  | ReadyForNextToken | Yielded | Paused | CancelRequested
  | Cancelled | DeadlineExpired | RetryableFailure | NonRetryableFailure
  | Retrying | Completed | StaleSuperseded
  | Unnamed (code : Z).

Definition SequenceState_code (e : SequenceState) : Z :=
  match e with
  | Admitted_ => 0 | Waiting => 1 | Ready => 2 | Grouped => 3
  | Reserved => 4 | Dispatched => 5 | Running => 6 | StepCompleted => 7
  | ReadyForNextToken => 8 | Yielded => 9 | Paused => 10 | CancelRequested => 11
  | Cancelled => 12 | DeadlineExpired => 13 | RetryableFailure => 14 | NonRetryableFailure => 15
  | Retrying => 16 | Completed => 17 | StaleSuperseded => 18
  | Unnamed c => c
  end.

Definition SequenceState_table : list SequenceState :=
  [Admitted_; Waiting; Ready; Grouped; Reserved;
   Dispatched; Running; StepCompleted; ReadyForNextToken; Yielded;
   Paused; CancelRequested; Cancelled; DeadlineExpired; RetryableFailure;
   NonRetryableFailure; Retrying; Completed; StaleSuperseded].

Definition SequenceState_of_code (z : Z) : SequenceState :=
  enum_cast SequenceState_code SequenceState_table Unnamed z.

Definition SequenceState_ok (e : SequenceState) : bool :=
  match e with
  | Unnamed c => in_range 8 c && negb (existsb (fun e => SequenceState_code e =? c) SequenceState_table)
  | _ => true
  end.

Definition SequenceState_to_string (e : SequenceState) : string :=
  match e with
  | Admitted_ => "Admitted"
  | Waiting => "Waiting"
  | Ready => "Ready"
  | Grouped => "Grouped"
  | Reserved => "Reserved"
  | Dispatched => "Dispatched"
  | Running => "Running"
  | StepCompleted => "StepCompleted"
  | ReadyForNextToken => "ReadyForNextToken"
  | Yielded => "Yielded"
  | Paused => "Paused"
  | CancelRequested => "CancelRequested"
  | Cancelled => "Cancelled"
  | DeadlineExpired => "DeadlineExpired"
  | RetryableFailure => "RetryableFailure"
  | NonRetryableFailure => "NonRetryableFailure"
  | Retrying => "Retrying"
  | Completed => "Completed"
  | StaleSuperseded => "StaleSuperseded"
  | _ => "Unknown"
  end.

End SequenceState.
Abbreviation SequenceState := SequenceState.SequenceState.

Module BackendKind.

Inductive BackendKind : Set :=
  | CPU | CUDA
  | Unnamed (code : Z).

Definition BackendKind_code (e : BackendKind) : Z :=
  match e with
  | CPU => 0 | CUDA => 1
  | Unnamed c => c
  end.

Definition BackendKind_table : list BackendKind :=
  [CPU; CUDA].

Definition BackendKind_of_code (z : Z) : BackendKind :=
  enum_cast BackendKind_code BackendKind_table Unnamed z.

Definition BackendKind_ok (e : BackendKind) : bool :=
  match e with
  | Unnamed c => in_range 8 c && negb (existsb (fun e => BackendKind_code e =? c) BackendKind_table)
  | _ => true
  end.

Definition BackendKind_to_string (e : BackendKind) : string :=
  match e with
  | CPU => "cpu"
  | CUDA => "cuda"
  | _ => "unknown_backend"
  end.

End BackendKind.
Abbreviation BackendKind := BackendKind.BackendKind.

Module DType.

Inductive DType : Set :=
  | Invalid | F32 | F16 | BF16
  | F64 | I32 | I64 | U8
  | Unnamed (code : Z).

Definition DType_code (e : DType) : Z :=
  match e with
  | Invalid => 0 | F32 => 1 | F16 => 2 | BF16 => 3
  | F64 => 4 | I32 => 5 | I64 => 6 | U8 => 7
  | Unnamed c => c
  end.

Definition DType_table : list DType :=
  [Invalid; F32; F16; BF16; F64;
   I32; I64; U8].

Definition DType_of_code (z : Z) : DType :=
  enum_cast DType_code DType_table Unnamed z.

Definition DType_ok (e : DType) : bool :=
  match e with
  | Unnamed c => in_range 8 c && negb (existsb (fun e => DType_code e =? c) DType_table)
  | _ => true
  end.

Definition DType_to_string (e : DType) : string :=
  match e with
  | Invalid => "invalid"
  | F32 => "f32"
  | F16 => "f16"
  | BF16 => "bf16"
  | F64 => "f64"
  | I32 => "i32"
  | I64 => "i64"
  | U8 => "u8"
  | _ => "unknown_dtype"
  end.

End DType.
Abbreviation DType := DType.DType.

Module LatencyClass.

Inductive LatencyClass : Set :=
  | None | RealTime | Interactive | Standard
  | Bulk
  | Unnamed (code : Z).

Definition LatencyClass_code (e : LatencyClass) : Z :=
  match e with
  | None => 0 | RealTime => 1 | Interactive => 2 | Standard => 3
  | Bulk => 4
  | Unnamed c => c
  end.

Definition LatencyClass_table : list LatencyClass :=
  [None; RealTime; Interactive; Standard; Bulk].

Definition LatencyClass_of_code (z : Z) : LatencyClass :=
  enum_cast LatencyClass_code LatencyClass_table Unnamed z.

Definition LatencyClass_ok (e : LatencyClass) : bool :=
  match e with
  | Unnamed c => in_range 8 c && negb (existsb (fun e => LatencyClass_code e =? c) LatencyClass_table)
  | _ => true
  end.

Definition LatencyClass_to_string (e : LatencyClass) : string :=
  match e with
  | None => "none"
  | RealTime => "realtime"
  | Interactive => "interactive"
  | Standard => "standard"
  | Bulk => "bulk"
  | _ => "unknown_latency"
  end.

End LatencyClass.
Abbreviation LatencyClass := LatencyClass.LatencyClass.

Module MemberOutcomeKind.

Inductive MemberOutcomeKind : Set :=
  | StepSuccessContinue | StepSuccessTerminal | Yielded | RetryableFailure
  | NonRetryableFailure | Cancelled | Expired | StaleAuthorityRejected
  | Unnamed (code : Z).

Definition MemberOutcomeKind_code (e : MemberOutcomeKind) : Z :=
  match e with
  | StepSuccessContinue => 0 | StepSuccessTerminal => 1 | Yielded => 2 | RetryableFailure => 3
  | NonRetryableFailure => 4 | Cancelled => 5 | Expired => 6 | StaleAuthorityRejected => 7
  | Unnamed c => c
  end.

Definition MemberOutcomeKind_table : list MemberOutcomeKind :=
  [StepSuccessContinue; StepSuccessTerminal; Yielded; RetryableFailure; NonRetryableFailure;
   Cancelled; Expired; StaleAuthorityRejected].

Definition MemberOutcomeKind_of_code (z : Z) : MemberOutcomeKind :=
  enum_cast MemberOutcomeKind_code MemberOutcomeKind_table Unnamed z.

Definition MemberOutcomeKind_ok (e : MemberOutcomeKind) : bool :=
  match e with
  | Unnamed c => in_range 8 c && negb (existsb (fun e => MemberOutcomeKind_code e =? c) MemberOutcomeKind_table)
  | _ => true
  end.

Definition MemberOutcomeKind_to_string (e : MemberOutcomeKind) : string :=
  match e with
  | StepSuccessContinue => "StepSuccessContinue"
  | StepSuccessTerminal => "StepSuccessTerminal"
  | Yielded => "Yielded"
  | RetryableFailure => "RetryableFailure"
  | NonRetryableFailure => "NonRetryableFailure"
  | Cancelled => "Cancelled"
  | Expired => "Expired"
  | StaleAuthorityRejected => "StaleAuthorityRejected"
  | _ => "UnknownOutcome"
  end.

End MemberOutcomeKind.
Abbreviation MemberOutcomeKind := MemberOutcomeKind.MemberOutcomeKind.

Module WorkerHealth.

Inductive WorkerHealth : Set :=
  | Unknown | Healthy | Degraded | Failed
  | Unnamed (code : Z).

Definition WorkerHealth_code (e : WorkerHealth) : Z :=
  match e with
  | Unknown => 0 | Healthy => 1 | Degraded => 2 | Failed => 3
  | Unnamed c => c
  end.

Definition WorkerHealth_table : list WorkerHealth :=
  [Unknown; Healthy; Degraded; Failed].

Definition WorkerHealth_of_code (z : Z) : WorkerHealth :=
  enum_cast WorkerHealth_code WorkerHealth_table Unnamed z.

Definition WorkerHealth_ok (e : WorkerHealth) : bool :=
  match e with
  | Unnamed c => in_range 8 c && negb (existsb (fun e => WorkerHealth_code e =? c) WorkerHealth_table)
  | _ => true
  end.

Definition WorkerHealth_to_string (e : WorkerHealth) : string :=
  match e with
  | Unknown => "unknown"
  | Healthy => "healthy"
  | Degraded => "degraded"
  | Failed => "failed"
  | _ => "unknown_health"
  end.

End WorkerHealth.
Abbreviation WorkerHealth := WorkerHealth.WorkerHealth.

Module GroupExclusion.

Inductive GroupExclusion : Set :=
  | None | KeyIncompatible | GroupFull | WorkLimitExceeded
  | KvGrowthLimitExceeded | MemoryHeadroomExceeded | TenantShareExceeded | LatencyClassExceeded
  | DeadlinePressureExceeded | AlreadyDispatched | NotReady | Terminal
  | Unnamed (code : Z).

Definition GroupExclusion_code (e : GroupExclusion) : Z :=
  match e with
  | None => 0 | KeyIncompatible => 1 | GroupFull => 2 | WorkLimitExceeded => 3
  | KvGrowthLimitExceeded => 4 | MemoryHeadroomExceeded => 5 | TenantShareExceeded => 6 | LatencyClassExceeded => 7
  | DeadlinePressureExceeded => 8 | AlreadyDispatched => 9 | NotReady => 10 | Terminal => 11
  | Unnamed c => c
  end.

Definition GroupExclusion_table : list GroupExclusion :=
  [None; KeyIncompatible; GroupFull; WorkLimitExceeded; KvGrowthLimitExceeded;
   MemoryHeadroomExceeded; TenantShareExceeded; LatencyClassExceeded; DeadlinePressureExceeded; AlreadyDispatched;
   NotReady; Terminal].

Definition GroupExclusion_of_code (z : Z) : GroupExclusion :=
  enum_cast GroupExclusion_code GroupExclusion_table Unnamed z.

Definition GroupExclusion_ok (e : GroupExclusion) : bool :=
  match e with
  | Unnamed c => in_range 8 c && negb (existsb (fun e => GroupExclusion_code e =? c) GroupExclusion_table)
  | _ => true
  end.

Definition GroupExclusion_to_string (e : GroupExclusion) : string :=
  match e with
  | None => "none"
  | KeyIncompatible => "key_incompatible"
  | GroupFull => "group_full"
  | WorkLimitExceeded => "work_limit_exceeded"
  | KvGrowthLimitExceeded => "kv_growth_limit_exceeded"
  | MemoryHeadroomExceeded => "memory_headroom_exceeded"
  | TenantShareExceeded => "tenant_share_exceeded"
  | LatencyClassExceeded => "latency_class_exceeded"
  | DeadlinePressureExceeded => "deadline_pressure_exceeded"
  | AlreadyDispatched => "already_dispatched"
  | NotReady => "not_ready"
  | Terminal => "terminal"
  | _ => "unknown_group_exclusion"
  end.

End GroupExclusion.
Abbreviation GroupExclusion := GroupExclusion.GroupExclusion.

Module EventKind.

Inductive EventKind : Set :=
  | RequestAdmitted | RequestRejected | SequenceReady | SequenceGrouped
  | GroupFormed | GroupGrew | GroupShrank | DispatchIssued
  | StepCompleted | SequenceCompleted | SequenceCancelled | SequenceExpired
  | RetryStarted | RetryFailed | WorkerUp | WorkerDown
  | WorkerRestarted | EpochRolled | StaleRejected | ReservationGranted
  | ReservationReleased | DeadlineMiss | BackpressureApplied | MemoryReconciled
  | Yielding
  | Unnamed (code : Z).

Definition EventKind_code (e : EventKind) : Z :=
  match e with
  | RequestAdmitted => 0 | RequestRejected => 1 | SequenceReady => 2 | SequenceGrouped => 3
  | GroupFormed => 4 | GroupGrew => 5 | GroupShrank => 6 | DispatchIssued => 7
  | StepCompleted => 8 | SequenceCompleted => 9 | SequenceCancelled => 10 | SequenceExpired => 11
  | RetryStarted => 12 | RetryFailed => 13 | WorkerUp => 14 | WorkerDown => 15
  | WorkerRestarted => 16 | EpochRolled => 17 | StaleRejected => 18 | ReservationGranted => 19
  | ReservationReleased => 20 | DeadlineMiss => 21 | BackpressureApplied => 22 | MemoryReconciled => 23
  | Yielding => 24
  | Unnamed c => c
  end.

Definition EventKind_table : list EventKind :=
  [RequestAdmitted; RequestRejected; SequenceReady; SequenceGrouped; GroupFormed;
   GroupGrew; GroupShrank; DispatchIssued; StepCompleted; SequenceCompleted;
   SequenceCancelled; SequenceExpired; RetryStarted; RetryFailed; WorkerUp;
   WorkerDown; WorkerRestarted; EpochRolled; StaleRejected; ReservationGranted;
   ReservationReleased; DeadlineMiss; BackpressureApplied; MemoryReconciled; Yielding].

Definition EventKind_of_code (z : Z) : EventKind :=
  enum_cast EventKind_code EventKind_table Unnamed z.

Definition EventKind_ok (e : EventKind) : bool :=
  match e with
  | Unnamed c => in_range 16 c && negb (existsb (fun e => EventKind_code e =? c) EventKind_table)
  | _ => true
  end.

Definition EventKind_to_string (e : EventKind) : string :=
  match e with
  | RequestAdmitted => "RequestAdmitted"
  | RequestRejected => "RequestRejected"
  | SequenceReady => "SequenceReady"
  | SequenceGrouped => "SequenceGrouped"
  | GroupFormed => "GroupFormed"
  | GroupGrew => "GroupGrew"
  | GroupShrank => "GroupShrank"
  | DispatchIssued => "DispatchIssued"
  | StepCompleted => "StepCompleted"
  | SequenceCompleted => "SequenceCompleted"
  | SequenceCancelled => "SequenceCancelled"
  | SequenceExpired => "SequenceExpired"
  | RetryStarted => "RetryStarted"
  | RetryFailed => "RetryFailed"
  | WorkerUp => "WorkerUp"
  | WorkerDown => "WorkerDown"
  | WorkerRestarted => "WorkerRestarted"
  | EpochRolled => "EpochRolled"
  | StaleRejected => "StaleRejected"
  | ReservationGranted => "ReservationGranted"
  | ReservationReleased => "ReservationReleased"
  | DeadlineMiss => "DeadlineMiss"
  | BackpressureApplied => "BackpressureApplied"
  | MemoryReconciled => "MemoryReconciled"
  | Yielding => "Yielding"
  | _ => "UnknownEvent"
  end.

End EventKind.
Abbreviation EventKind := EventKind.EventKind.

Module FrameType.

Inductive FrameType : Set :=
  | Hello | HelloAck | ExecuteRequest | ExecuteResult
  | WorkerStatus | WorkerShutdownAck | PreparedResult | CommitGrant
  | CommitReceipt | AbortPrepared | GrantStatus | SubmitRequest
  | Acknowledge | CancelRequest | StatusQuery | StatusReply
  | SnapshotRequest | SnapshotReply | ExplainRequest | ExplainReply
  | Shutdown | ShutdownAck | Error | GetAuthority
  | AuthorityReply | SubmitAck | RollEpoch
  | Unnamed (code : Z).

Definition FrameType_code (e : FrameType) : Z :=
  match e with
  | Hello => 1 | HelloAck => 2 | ExecuteRequest => 10 | ExecuteResult => 11
  | WorkerStatus => 12 | WorkerShutdownAck => 13 | PreparedResult => 14 | CommitGrant => 15
  | CommitReceipt => 16 | AbortPrepared => 17 | GrantStatus => 18 | SubmitRequest => 20
  | Acknowledge => 21 | CancelRequest => 22 | StatusQuery => 23 | StatusReply => 24
  | SnapshotRequest => 25 | SnapshotReply => 26 | ExplainRequest => 27 | ExplainReply => 28
  | Shutdown => 30 | ShutdownAck => 31 | Error => 32 | GetAuthority => 40
  | AuthorityReply => 41 | SubmitAck => 42 | RollEpoch => 43
  | Unnamed c => c
  end.

Definition FrameType_table : list FrameType :=
  [Hello; HelloAck; ExecuteRequest; ExecuteResult; WorkerStatus;
   WorkerShutdownAck; PreparedResult; CommitGrant; CommitReceipt; AbortPrepared;
   GrantStatus; SubmitRequest; Acknowledge; CancelRequest; StatusQuery;
   StatusReply; SnapshotRequest; SnapshotReply; ExplainRequest; ExplainReply;
   Shutdown; ShutdownAck; Error; GetAuthority; AuthorityReply;
   SubmitAck; RollEpoch].

Definition FrameType_of_code (z : Z) : FrameType :=
  enum_cast FrameType_code FrameType_table Unnamed z.

Definition FrameType_ok (e : FrameType) : bool :=
  match e with
  | Unnamed c => in_range 32 c && negb (existsb (fun e => FrameType_code e =? c) FrameType_table)
  | _ => true
  end.

Definition FrameType_to_string (e : FrameType) : string :=
  match e with
  | Hello => "Hello"
  | HelloAck => "HelloAck"
  | ExecuteRequest => "ExecuteRequest"
  | ExecuteResult => "ExecuteResult"
  | WorkerStatus => "WorkerStatus"
  | WorkerShutdownAck => "WorkerShutdownAck"
  | SubmitRequest => "SubmitRequest"
  | Acknowledge => "Acknowledge"
  | CancelRequest => "CancelRequest"
  | StatusQuery => "StatusQuery"
  | StatusReply => "StatusReply"
  | SnapshotRequest => "SnapshotRequest"
  | SnapshotReply => "SnapshotReply"
  | ExplainRequest => "ExplainRequest"
  | ExplainReply => "ExplainReply"
  | Shutdown => "Shutdown"
  | ShutdownAck => "ShutdownAck"
  | Error => "Error"
  | GetAuthority => "GetAuthority"
  | AuthorityReply => "AuthorityReply"
  | SubmitAck => "SubmitAck"
  | RollEpoch => "RollEpoch"
  | _ => "UnknownFrame"
  end.

End FrameType.
Abbreviation FrameType := FrameType.FrameType.

(** ** The interface of an enumeration *)

Class CEnum (E : Type) := {
  enum_width : Z;
  enum_code : E -> Z;
  enum_of : Z -> E;
  (** the values of the C++ type, each in its one representation *)
  enum_ok : E -> bool;
  enum_of_code : forall e, enum_ok e = true -> enum_of (enum_code e) = e;
  enum_code_of : forall z, enum_code (enum_of z) = z;
  enum_code_range : forall e, enum_ok e = true -> in_range enum_width (enum_code e) = true;
}.

Lemma enum_find_code {E} (code : E -> Z) table unnamed z :
  (forall c, code (unnamed c) = c) ->
  code (enum_cast code table unnamed z) = z.
Proof.
  intros Hu. unfold enum_cast, enum_find. destruct (List.find _ table) as [e|] eqn:Hf; [|apply Hu].
  apply List.find_some in Hf as [_ He]. by apply Z.eqb_eq.
Qed.

Lemma enum_find_none {E} (code : E -> Z) table z :
  existsb (fun e => code e =? z) table = false -> enum_find code table z = None.
Proof.
  unfold enum_find. induction table as [|e t IH]; [done|]. simpl.
  intros [-> Ht]%orb_false_iff. by apply IH.
Qed.

Lemma enum_cast_unnamed {E} (code : E -> Z) table unnamed w c :
  in_range w c && negb (existsb (fun e => code e =? c) table) = true ->
  enum_cast code table unnamed c = unnamed c.
Proof.
  intros [_ Hn%negb_true_iff]%andb_true_iff. unfold enum_cast.
  by rewrite (enum_find_none _ _ _ Hn).
Qed.

Lemma ErrorCode_of_code_code : forall e, ErrorCode.ErrorCode_ok e = true -> ErrorCode.ErrorCode_of_code (ErrorCode.ErrorCode_code e) = e.
Proof.
  intros [] Hok; try reflexivity.
  exact (enum_cast_unnamed ErrorCode.ErrorCode_code ErrorCode.ErrorCode_table ErrorCode.Unnamed 32 _ Hok).
Qed.

#[export] Instance ErrorCode_enum : CEnum ErrorCode.
Proof.
  refine {| enum_width := 32; enum_code := ErrorCode.ErrorCode_code; enum_of := ErrorCode.ErrorCode_of_code;
            enum_ok := ErrorCode.ErrorCode_ok; enum_of_code := ErrorCode_of_code_code |}.
  - intros z. by apply enum_find_code.
  - intros [] Hok; try reflexivity. exact (proj1 (proj1 (andb_true_iff _ _) Hok)).
Defined.

Lemma SequenceState_of_code_code : forall e, SequenceState.SequenceState_ok e = true -> SequenceState.SequenceState_of_code (SequenceState.SequenceState_code e) = e.
Proof.
  intros [] Hok; try reflexivity.
  exact (enum_cast_unnamed SequenceState.SequenceState_code SequenceState.SequenceState_table SequenceState.Unnamed 8 _ Hok).
Qed.

#[export] Instance SequenceState_enum : CEnum SequenceState.
Proof.
  refine {| enum_width := 8; enum_code := SequenceState.SequenceState_code; enum_of := SequenceState.SequenceState_of_code;
            enum_ok := SequenceState.SequenceState_ok; enum_of_code := SequenceState_of_code_code |}.
  - intros z. by apply enum_find_code.
  - intros [] Hok; try reflexivity. exact (proj1 (proj1 (andb_true_iff _ _) Hok)).
Defined.

Lemma BackendKind_of_code_code : forall e, BackendKind.BackendKind_ok e = true -> BackendKind.BackendKind_of_code (BackendKind.BackendKind_code e) = e.
Proof.
  intros [] Hok; try reflexivity.
  exact (enum_cast_unnamed BackendKind.BackendKind_code BackendKind.BackendKind_table BackendKind.Unnamed 8 _ Hok).
Qed.

#[export] Instance BackendKind_enum : CEnum BackendKind.
Proof.
  refine {| enum_width := 8; enum_code := BackendKind.BackendKind_code; enum_of := BackendKind.BackendKind_of_code;
            enum_ok := BackendKind.BackendKind_ok; enum_of_code := BackendKind_of_code_code |}.
  - intros z. by apply enum_find_code.
  - intros [] Hok; try reflexivity. exact (proj1 (proj1 (andb_true_iff _ _) Hok)).
Defined.

Lemma DType_of_code_code : forall e, DType.DType_ok e = true -> DType.DType_of_code (DType.DType_code e) = e.
Proof.
  intros [] Hok; try reflexivity.
  exact (enum_cast_unnamed DType.DType_code DType.DType_table DType.Unnamed 8 _ Hok).
Qed.

#[export] Instance DType_enum : CEnum DType.
Proof.
  refine {| enum_width := 8; enum_code := DType.DType_code; enum_of := DType.DType_of_code;
            enum_ok := DType.DType_ok; enum_of_code := DType_of_code_code |}.
  - intros z. by apply enum_find_code.
  - intros [] Hok; try reflexivity. exact (proj1 (proj1 (andb_true_iff _ _) Hok)).
Defined.

Lemma LatencyClass_of_code_code : forall e, LatencyClass.LatencyClass_ok e = true -> LatencyClass.LatencyClass_of_code (LatencyClass.LatencyClass_code e) = e.
Proof.
  intros [] Hok; try reflexivity.
  exact (enum_cast_unnamed LatencyClass.LatencyClass_code LatencyClass.LatencyClass_table LatencyClass.Unnamed 8 _ Hok).
Qed.

#[export] Instance LatencyClass_enum : CEnum LatencyClass.
Proof.
  refine {| enum_width := 8; enum_code := LatencyClass.LatencyClass_code; enum_of := LatencyClass.LatencyClass_of_code;
            enum_ok := LatencyClass.LatencyClass_ok; enum_of_code := LatencyClass_of_code_code |}.
  - intros z. by apply enum_find_code.
  - intros [] Hok; try reflexivity. exact (proj1 (proj1 (andb_true_iff _ _) Hok)).
Defined.

Lemma MemberOutcomeKind_of_code_code : forall e, MemberOutcomeKind.MemberOutcomeKind_ok e = true -> MemberOutcomeKind.MemberOutcomeKind_of_code (MemberOutcomeKind.MemberOutcomeKind_code e) = e.
Proof.
  intros [] Hok; try reflexivity.
  exact (enum_cast_unnamed MemberOutcomeKind.MemberOutcomeKind_code MemberOutcomeKind.MemberOutcomeKind_table MemberOutcomeKind.Unnamed 8 _ Hok).
Qed.

#[export] Instance MemberOutcomeKind_enum : CEnum MemberOutcomeKind.
Proof.
  refine {| enum_width := 8; enum_code := MemberOutcomeKind.MemberOutcomeKind_code; enum_of := MemberOutcomeKind.MemberOutcomeKind_of_code;
            enum_ok := MemberOutcomeKind.MemberOutcomeKind_ok; enum_of_code := MemberOutcomeKind_of_code_code |}.
  - intros z. by apply enum_find_code.
  - intros [] Hok; try reflexivity. exact (proj1 (proj1 (andb_true_iff _ _) Hok)).
Defined.

Lemma WorkerHealth_of_code_code : forall e, WorkerHealth.WorkerHealth_ok e = true -> WorkerHealth.WorkerHealth_of_code (WorkerHealth.WorkerHealth_code e) = e.
Proof.
  intros [] Hok; try reflexivity.
  exact (enum_cast_unnamed WorkerHealth.WorkerHealth_code WorkerHealth.WorkerHealth_table WorkerHealth.Unnamed 8 _ Hok).
Qed.

#[export] Instance WorkerHealth_enum : CEnum WorkerHealth.
Proof.
  refine {| enum_width := 8; enum_code := WorkerHealth.WorkerHealth_code; enum_of := WorkerHealth.WorkerHealth_of_code;
            enum_ok := WorkerHealth.WorkerHealth_ok; enum_of_code := WorkerHealth_of_code_code |}.
  - intros z. by apply enum_find_code.
  - intros [] Hok; try reflexivity. exact (proj1 (proj1 (andb_true_iff _ _) Hok)).
Defined.

Lemma GroupExclusion_of_code_code : forall e, GroupExclusion.GroupExclusion_ok e = true -> GroupExclusion.GroupExclusion_of_code (GroupExclusion.GroupExclusion_code e) = e.
Proof.
  intros [] Hok; try reflexivity.
  exact (enum_cast_unnamed GroupExclusion.GroupExclusion_code GroupExclusion.GroupExclusion_table GroupExclusion.Unnamed 8 _ Hok).
Qed.

#[export] Instance GroupExclusion_enum : CEnum GroupExclusion.
Proof.
  refine {| enum_width := 8; enum_code := GroupExclusion.GroupExclusion_code; enum_of := GroupExclusion.GroupExclusion_of_code;
            enum_ok := GroupExclusion.GroupExclusion_ok; enum_of_code := GroupExclusion_of_code_code |}.
  - intros z. by apply enum_find_code.
  - intros [] Hok; try reflexivity. exact (proj1 (proj1 (andb_true_iff _ _) Hok)).
Defined.

Lemma EventKind_of_code_code : forall e, EventKind.EventKind_ok e = true -> EventKind.EventKind_of_code (EventKind.EventKind_code e) = e.
Proof.
  intros [] Hok; try reflexivity.
  exact (enum_cast_unnamed EventKind.EventKind_code EventKind.EventKind_table EventKind.Unnamed 16 _ Hok).
Qed.

#[export] Instance EventKind_enum : CEnum EventKind.
Proof.
  refine {| enum_width := 16; enum_code := EventKind.EventKind_code; enum_of := EventKind.EventKind_of_code;
            enum_ok := EventKind.EventKind_ok; enum_of_code := EventKind_of_code_code |}.
  - intros z. by apply enum_find_code.
  - intros [] Hok; try reflexivity. exact (proj1 (proj1 (andb_true_iff _ _) Hok)).
Defined.

Lemma FrameType_of_code_code : forall e, FrameType.FrameType_ok e = true -> FrameType.FrameType_of_code (FrameType.FrameType_code e) = e.
Proof.
  intros [] Hok; try reflexivity.
  exact (enum_cast_unnamed FrameType.FrameType_code FrameType.FrameType_table FrameType.Unnamed 32 _ Hok).
Qed.

#[export] Instance FrameType_enum : CEnum FrameType.
Proof.
  refine {| enum_width := 32; enum_code := FrameType.FrameType_code; enum_of := FrameType.FrameType_of_code;
            enum_ok := FrameType.FrameType_ok; enum_of_code := FrameType_of_code_code |}.
  - intros z. by apply enum_find_code.
  - intros [] Hok; try reflexivity. exact (proj1 (proj1 (andb_true_iff _ _) Hok)).
Defined.

(** ** Decidable equality *)

#[export] Instance ErrorCode_eq_dec : EqDecision ErrorCode.
Proof. solve_decision. Defined.
#[export] Instance SequenceState_eq_dec : EqDecision SequenceState.
Proof. solve_decision. Defined.
#[export] Instance BackendKind_eq_dec : EqDecision BackendKind.
Proof. solve_decision. Defined.
#[export] Instance DType_eq_dec : EqDecision DType.
Proof. solve_decision. Defined.
#[export] Instance LatencyClass_eq_dec : EqDecision LatencyClass.
Proof. solve_decision. Defined.
#[export] Instance MemberOutcomeKind_eq_dec : EqDecision MemberOutcomeKind.
Proof. solve_decision. Defined.
#[export] Instance WorkerHealth_eq_dec : EqDecision WorkerHealth.
Proof. solve_decision. Defined.
#[export] Instance EventKind_eq_dec : EqDecision EventKind.
Proof. solve_decision. Defined.
#[export] Instance FrameType_eq_dec : EqDecision FrameType.
Proof. solve_decision. Defined.

(** ** Names *)

Lemma NoDup_fmap_inj_on {A B} (f : A -> B) (l : list A) x y :
  NoDup (f <$> l) -> x ∈ l -> y ∈ l -> f x = f y -> x = y.
Proof.
  induction l as [|a l IH]; [intros _ H; inversion H|].
  rewrite fmap_cons, NoDup_cons. intros [Hn Hnd] Hx Hy Hf.
  apply elem_of_cons in Hx as [->|Hx]; apply elem_of_cons in Hy as [->|Hy]; [done| | |by apply IH].
  - destruct Hn. rewrite Hf. by apply list_elem_of_fmap_2.
  - destruct Hn. rewrite <- Hf. by apply list_elem_of_fmap_2.
Qed.

(** An enumerator of a table whose names are pairwise distinct is determined by its name. *)
Lemma enum_names_inj {E} (names : E -> string) (table : list E) x y :
  bool_decide (NoDup (names <$> table)) = true ->
  x ∈ table -> y ∈ table -> names x = names y -> x = y.
Proof. intros Hd%bool_decide_eq_true. by apply NoDup_fmap_inj_on. Qed.

(** Error-code names: two enumerators of ErrorCode with the same [to_string] are equal:
    the structured codes, the stale-authority ones included, stay distinguishable in every
    message, event and explanation that carries only the name. *)
Lemma error_code_names_distinct (a b : ErrorCode) :
  a ∈ ErrorCode.ErrorCode_table -> b ∈ ErrorCode.ErrorCode_table ->
  ErrorCode.ErrorCode_to_string a = ErrorCode.ErrorCode_to_string b -> a = b.
Proof. apply enum_names_inj. vm_compute. reflexivity. Qed.
