(* ===== verification/Errors.v ===== *)
(** * Structured errors and results

    [Error] and [Result<T>] of include/decodefabric/error.hpp.  Fallible code
    returns a [Result]; the sequencing notation is the early return
    [if (!r.ok()) return Result<T>{r.error()}] of the source. *)

From S2P Require Import Prelude Enums.

Record Error := mkError { err_code : ErrorCode; err_message : string }.

(** [Error(ErrorCode c)]: the message is the name of the code. *)
Definition error_of_code (c : ErrorCode) : Error := mkError c (ErrorCode.ErrorCode_to_string c).

Inductive Result (A : Type) : Type :=
  | Ok (a : A)
  | Err (e : Error).
Arguments Ok {A} a.
Arguments Err {A} e.

Definition is_ok {A} (r : Result A) : bool := match r with Ok _ => true | Err _ => false end.

(** [failed<T>(code, message)]. *)
Definition failed {A} (c : ErrorCode) (m : string) : Result A := Err (mkError c m).

Definition result_bind {A B} (r : Result A) (k : A -> Result B) : Result B :=
  match r with Ok a => k a | Err e => Err e end.

Declare Scope result_scope.
Delimit Scope result_scope with result.
Notation "x <-? r ;; k" := (result_bind r (fun x => k))
  (at level 100, r at next level, right associativity) : result_scope.
Open Scope result_scope.

#[export] Instance Error_eq_dec : EqDecision Error.
Proof. solve_decision. Defined.
