(* ===== verification/Token.v ===== *)
(** * Token counters and generation budgets

    include/decodefabric/token.hpp: the overflow-checked addition and the
    budget that bounds how many tokens a sequence may generate. *)

From S2P Require Import Prelude Enums Errors.

(** [detail::checked_add]. *)
Definition checked_add (a b : Z) : Result Z :=
  if b >? UINT64_MAX -64 a then failed ErrorCode.Overflow "token counter overflow" else Ok (a +64 b).

Record TokenBudget := mkTokenBudget { tb_max : Z; tb_generated : Z }.
#[export] Instance TokenBudget_eta : Settable TokenBudget :=
  fun b => mkTokenBudget (tb_max b) (tb_generated b).

(** [explicit TokenBudget(max_generated)]. *)
Definition new_budget (max : Z) : TokenBudget := mkTokenBudget max 0.

Definition tb_remaining (b : TokenBudget) : Z :=
  if tb_generated b >=? tb_max b then 0 else tb_max b -64 tb_generated b.

Definition tb_exhausted (b : TokenBudget) : bool := tb_generated b >=? tb_max b.

(** [TokenBudget::advance]: the new budget and the call's result. *)
Definition tb_advance (by_ : Z) (b : TokenBudget) : TokenBudget * Result unit :=
  match checked_add (tb_generated b) by_ with
  | Err e => (b, Err e)
  | Ok next =>
      if next >? tb_max b then (b, failed ErrorCode.Backpressure "generation budget exhausted")
      else (b <| tb_generated := next |>, Ok tt)
  end.

(** The loop [for (k = 0; k < n; ++k) budget.advance(1)] of the retry and recovery paths. *)
Definition tb_advance_times (n : nat) (b : TokenBudget) : TokenBudget :=
  Nat.iter n (fun b => fst (tb_advance 1 b)) b.

(** ** Invariant *)

(** Both counters are 64-bit and the generated count never passes the maximum. *)
Definition budget_wf (b : TokenBudget) : Prop :=
  in_range 64 (tb_max b) = true /\ 0 <= tb_generated b <= tb_max b.

#[export] Instance TokenBudget_eq_dec : EqDecision TokenBudget.
Proof. solve_decision. Defined.

Lemma budget_wf_new max : in_range 64 max = true -> budget_wf (new_budget max).
Proof. intros H. split; [done|]. apply in_range_iff in H. cbn. lia. Qed.

Lemma checked_add_spec a b :
  in_range 64 a = true -> in_range 64 b = true ->
  checked_add a b = if a + b <? 2 ^ 64 then Ok (a + b) else failed ErrorCode.Overflow "token counter overflow".
Proof.
  intros Ha%in_range_iff Hb%in_range_iff. unfold checked_add, UINT64_MAX.
  rewrite (wrap_id_small 64 (2 ^ 64 - 1 - a)) by lia.
  destruct (Z.gtb_spec b (2 ^ 64 - 1 - a)), (Z.ltb_spec (a + b) (2 ^ 64)); try lia; [done|].
  by rewrite wrap_id_small by lia.
Qed.

(** The closed form of [advance] on a well-formed budget. *)
Lemma tb_advance_spec by_ b :
  budget_wf b -> in_range 64 by_ = true ->
  tb_advance by_ b =
    if tb_generated b + by_ <=? tb_max b then (mkTokenBudget (tb_max b) (tb_generated b + by_), Ok tt)
    else (b, if tb_generated b + by_ <? 2 ^ 64 then failed ErrorCode.Backpressure "generation budget exhausted"
             else failed ErrorCode.Overflow "token counter overflow").
Proof.
  intros [Hm Hg] Hb. unfold tb_advance.
  pose proof Hm as Hm'. pose proof Hb as Hb'. apply in_range_iff in Hm', Hb'.
  rewrite checked_add_spec; [|apply in_range_iff; lia|done].
  destruct (Z.ltb_spec (tb_generated b + by_) (2 ^ 64)) as [Hlt|Hge]; cbn.
  - destruct (Z.gtb_spec (tb_generated b + by_) (tb_max b)), (Z.leb_spec (tb_generated b + by_) (tb_max b)); done || lia.
  - destruct (Z.leb_spec (tb_generated b + by_) (tb_max b)); done || lia.
Qed.

Lemma tb_advance_wf by_ b :
  budget_wf b -> in_range 64 by_ = true -> budget_wf (fst (tb_advance by_ b)).
Proof.
  intros Hb Hr. rewrite tb_advance_spec by done. destruct Hb as [Hm Hg].
  apply in_range_iff in Hr.
  destruct (Z.leb_spec (tb_generated b + by_) (tb_max b)); split; cbn; done || lia.
Qed.

Lemma tb_remaining_wf b : budget_wf b -> tb_remaining b = tb_max b - tb_generated b.
Proof.
  intros [Hm Hg]. apply in_range_iff in Hm. unfold tb_remaining.
  destruct (Z.geb_spec (tb_generated b) (tb_max b)); [lia|]. by rewrite wrap_id_small by lia.
Qed.

Lemma tb_advance_times_S n b :
  tb_advance_times (S n) b = fst (tb_advance 1 (tb_advance_times n b)).
Proof. reflexivity. Qed.

Lemma tb_advance_times_max n b : tb_max (tb_advance_times n b) = tb_max b.
Proof.
  induction n as [|n IH]; [done|]. rewrite tb_advance_times_S. unfold tb_advance.
  destruct (checked_add _ _); [|done]. destruct (_ >? _); done.
Qed.

Lemma tb_advance_times_wf n b : budget_wf b -> budget_wf (tb_advance_times n b).
Proof. intros Hb. induction n as [|n IH]; [done|]. by apply tb_advance_wf. Qed.

(** Advancing token by token replays any count within the budget. *)
Lemma tb_advance_times_generated n max :
  in_range 64 max = true -> Z.of_nat n <= max ->
  tb_advance_times n (new_budget max) = mkTokenBudget max (Z.of_nat n).
Proof.
  intros Hm Hn. induction n as [|n IH]; [done|].
  rewrite tb_advance_times_S, IH by lia. rewrite tb_advance_spec.
  - cbn. destruct (Z.leb_spec (Z.of_nat n + 1) max); [|lia]. cbn. f_equal. lia.
  - split; cbn; [done|lia].
  - done.
Qed.

(** A fresh budget charged at once is the one charged token by token. *)
Lemma tb_advance_new by_ max :
  in_range 64 max = true -> 0 <= by_ <= max ->
  fst (tb_advance by_ (new_budget max)) = tb_advance_times (Z.to_nat by_) (new_budget max).
Proof.
  intros Hm Hb. pose proof Hm as Hr. apply in_range_iff in Hr. rewrite tb_advance_times_generated by (done || lia).
  rewrite tb_advance_spec; [|by apply budget_wf_new|apply in_range_iff; lia]. cbn [tb_generated tb_max new_budget]. rewrite Z.add_0_l, Z2Nat.id by lia.
  by destruct (Z.leb_spec by_ max); [|lia].
Qed.

(** Charged token by token, a fresh budget counts up to its maximum and stays there. *)
Lemma tb_advance_times_min n max :
  in_range 64 max = true -> tb_generated (tb_advance_times n (new_budget max)) = Z.min max (Z.of_nat n).
Proof.
  intros Hm. pose proof Hm as Hr. apply in_range_iff in Hr. induction n as [|n IH]; [cbn; lia|].
  pose proof (tb_advance_times_wf n _ (budget_wf_new max Hm)) as Hw. pose proof (tb_advance_times_max n (new_budget max)) as Hx.
  rewrite tb_advance_times_S, tb_advance_spec by done. rewrite IH, Hx. cbn [tb_max new_budget].
  destruct (Z.leb_spec (Z.min max (Z.of_nat n) + 1) max); cbn [fst tb_generated]; lia.
Qed.

(** ** Properties *)

(** C40: [TokenBudget::advance] on a well-formed budget either adds exactly the requested tokens
    and keeps the generated count within the maximum, or returns an error and changes nothing;
    it succeeds exactly when the sum stays within the budget, it never wraps a 64-bit counter,
    and [remaining] falls by exactly the amount added. *)
Theorem advance_exact (by_ : Z) (b : TokenBudget) :
  budget_wf b -> in_range 64 by_ = true ->
  let '(b', r) := tb_advance by_ b in
  budget_wf b' /\ tb_max b' = tb_max b /\
  is_ok r = (by_ <=? tb_remaining b) /\
  (is_ok r = true -> tb_generated b' = tb_generated b + by_ /\ tb_remaining b' = tb_remaining b - by_) /\
  (is_ok r = false -> b' = b).
Proof.
  intros Hb Hr. pose proof (tb_advance_wf _ _ Hb Hr) as Hw.
  rewrite tb_advance_spec in * by done. rewrite (tb_remaining_wf b) by done.
  pose proof Hb as [Hm Hg].
  destruct (Z.leb_spec (tb_generated b + by_) (tb_max b)) as [Hle|Hgt]; cbn [fst] in Hw.
  - rewrite tb_remaining_wf by done. cbn. destruct (Z.leb_spec by_ (tb_max b - tb_generated b)); [|lia].
    split_and!; try done; try (intros; split; lia).
  - assert (Hf : (by_ <=? tb_max b - tb_generated b) = false) by (apply Z.leb_gt; lia).
    destruct (_ <? 2 ^ 64); rewrite Hf; split_and!; done.
Qed.

Lemma advance_exact_witness :
  let '(b', r) := tb_advance 1 (mkTokenBudget 3 2) in
  budget_wf b' /\ tb_max b' = 3 /\ is_ok r = (1 <=? tb_remaining (mkTokenBudget 3 2)) /\
  (is_ok r = true -> tb_generated b' = 2 + 1 /\ tb_remaining b' = tb_remaining (mkTokenBudget 3 2) - 1) /\
  (is_ok r = false -> b' = mkTokenBudget 3 2).
Proof. apply (advance_exact 1 (mkTokenBudget 3 2)); [split; cbn; [reflexivity|lia]|reflexivity]. Defined.
