(* ===== verification/StateMachine.v ===== *)
(** * The sequence lifecycle

    include/decodefabric/state_machine.hpp and the transition table of
    src/core.cpp.  A [SequenceStateMachine] holds one [SequenceState]; its
    [transition_to] either moves along the table or reports an error and
    changes nothing.  Callers in src/fabric.cpp ignore that result, so
    [transition_to_state], the state after the call, is what they observe. *)

From S2P Require Import Prelude Enums Errors.

(** [is_terminal]. *)
Definition is_terminal (s : SequenceState) : bool :=
  match s with
  | SequenceState.Cancelled | SequenceState.DeadlineExpired | SequenceState.NonRetryableFailure
  | SequenceState.Completed | SequenceState.StaleSuperseded => true
  | _ => false
  end.

(** [is_stopped]. *)
Definition is_stopped (s : SequenceState) : bool :=
  bool_decide (s = SequenceState.CancelRequested) || is_terminal s.

(** [SequenceStateMachine::can_transition]. *)
Definition can_transition (from to : SequenceState) : bool :=
  if bool_decide (from = to) then false
  else if is_terminal from then false
  else
    let goes s := bool_decide (to = s) in
    match from with
    | SequenceState.Admitted_ =>
        goes SequenceState.Waiting || goes SequenceState.Cancelled || goes SequenceState.DeadlineExpired
    | SequenceState.Waiting =>
        goes SequenceState.Ready || goes SequenceState.Paused || goes SequenceState.Cancelled
        || goes SequenceState.DeadlineExpired
    | SequenceState.Ready | SequenceState.ReadyForNextToken =>
        goes SequenceState.Grouped || goes SequenceState.Waiting || goes SequenceState.Yielded
        || goes SequenceState.Paused || goes SequenceState.Cancelled || goes SequenceState.DeadlineExpired
    | SequenceState.Grouped =>
        goes SequenceState.Reserved || goes SequenceState.Ready || goes SequenceState.Waiting
        || goes SequenceState.Cancelled || goes SequenceState.DeadlineExpired
    | SequenceState.Reserved =>
        goes SequenceState.Dispatched || goes SequenceState.Ready || goes SequenceState.Waiting
        || goes SequenceState.Cancelled || goes SequenceState.DeadlineExpired
    | SequenceState.Dispatched =>
        goes SequenceState.Running || goes SequenceState.StepCompleted || goes SequenceState.CancelRequested
        || goes SequenceState.Cancelled || goes SequenceState.DeadlineExpired
        || goes SequenceState.StaleSuperseded || goes SequenceState.RetryableFailure
        || goes SequenceState.NonRetryableFailure || goes SequenceState.Retrying
    | SequenceState.Running =>
        goes SequenceState.StepCompleted || goes SequenceState.Completed
        || goes SequenceState.NonRetryableFailure || goes SequenceState.RetryableFailure
        || goes SequenceState.Retrying || goes SequenceState.Cancelled
        || goes SequenceState.DeadlineExpired || goes SequenceState.StaleSuperseded
    | SequenceState.StepCompleted =>
        goes SequenceState.ReadyForNextToken || goes SequenceState.Completed
        || goes SequenceState.Cancelled || goes SequenceState.DeadlineExpired
        || goes SequenceState.NonRetryableFailure || goes SequenceState.RetryableFailure
        || goes SequenceState.Retrying || goes SequenceState.StaleSuperseded || goes SequenceState.Waiting
    | SequenceState.Yielded =>
        goes SequenceState.Ready || goes SequenceState.Waiting || goes SequenceState.Paused
        || goes SequenceState.Cancelled || goes SequenceState.DeadlineExpired
    | SequenceState.Paused =>
        goes SequenceState.Ready || goes SequenceState.Waiting || goes SequenceState.Cancelled
        || goes SequenceState.DeadlineExpired
    | SequenceState.CancelRequested =>
        goes SequenceState.Cancelled || goes SequenceState.DeadlineExpired || goes SequenceState.Completed
    | SequenceState.RetryableFailure => goes SequenceState.Retrying
    | SequenceState.Retrying =>
        goes SequenceState.Ready || goes SequenceState.Cancelled || goes SequenceState.DeadlineExpired
    | _ => false
    end.

(** [SequenceStateMachine::transition_to]: the state after the call and its result. *)
Definition transition_to (next st : SequenceState) : SequenceState * Result unit :=
  if can_transition st next then (next, Ok tt)
  else (st, failed ErrorCode.InvalidArgument
              (("invalid transition " +:+ SequenceState.SequenceState_to_string st) +:+
               (" -> " +:+ SequenceState.SequenceState_to_string next))%string).

(** The state a caller that drops the result goes on with. *)
Definition transition_to_state (next st : SequenceState) : SequenceState := fst (transition_to next st).

(** ** The lifecycle as a step relation *)

Inductive lifecycle_step : relation SequenceState :=
  | lifecycle_move s s' : can_transition s s' = true -> lifecycle_step s s'.

(** The lifecycle order: what a sequence can become through any number of transitions. *)
Definition lifecycle : relation SequenceState := rtc lifecycle_step.

#[export] Instance lifecycle_preorder : PreOrder lifecycle.
Proof. unfold lifecycle. apply _. Qed.

#[export] Hint Constructors lifecycle_step : core.

(** Every call of [transition_to] stays within the lifecycle order, whatever it returns. *)
Lemma transition_to_lifecycle next st : lifecycle st (transition_to_state next st).
Proof.
  unfold transition_to_state, transition_to.
  destruct (can_transition st next) eqn:H; [|reflexivity]. apply rtc_once. by constructor.
Qed.

Lemma transition_to_ok next st :
  can_transition st next = true -> transition_to_state next st = next.
Proof. unfold transition_to_state, transition_to. by intros ->. Qed.

Lemma transition_to_refused next st :
  can_transition st next = false -> transition_to_state next st = st.
Proof. unfold transition_to_state, transition_to. by intros ->. Qed.

Lemma can_transition_terminal s s' : is_terminal s = true -> can_transition s s' = false.
Proof. intros H. unfold can_transition. rewrite H. by case_bool_decide. Qed.

Lemma transition_to_terminal next st : is_terminal st = true -> transition_to_state next st = st.
Proof. intros H. by apply transition_to_refused, can_transition_terminal. Qed.

(** Terminal states are absorbing along any number of steps. *)
Lemma lifecycle_terminal s s' : lifecycle s s' -> is_terminal s = true -> s' = s.
Proof.
  induction 1 as [|s s1 s' [? ? Hc] _ IH]; intros Ht; [done|].
  by rewrite can_transition_terminal in Hc.
Qed.

(** A stopped sequence (terminal, or with a cancellation requested) stays stopped. *)
Lemma lifecycle_stopped s s' : lifecycle s s' -> is_stopped s = true -> is_stopped s' = true.
Proof.
  induction 1 as [|s s1 s' Hstep _ IH]; intros Hs; [done|]. apply IH. inversion Hstep as [? ? Hc]; subst.
  destruct (is_terminal s) eqn:Ht; [by rewrite can_transition_terminal in Hc|].
  unfold is_stopped in Hs. rewrite Ht, orb_false_r in Hs. apply bool_decide_eq_true in Hs as ->.
  destruct s1; vm_compute in Hc; try discriminate Hc; reflexivity.
Qed.

Create HintDb lifecycle.
#[export] Hint Resolve transition_to_lifecycle : lifecycle.
#[export] Hint Extern 5 (lifecycle _ _) => reflexivity : lifecycle.
#[export] Hint Extern 9 (lifecycle _ (transition_to_state _ _)) =>
  (etrans; [|apply transition_to_lifecycle]) : lifecycle.

(** A path of the table, checked by evaluation. *)
Fixpoint path_ok (s : SequenceState) (p : list SequenceState) : bool :=
  match p with [] => true | s' :: p => can_transition s s' && path_ok s' p end.

Lemma path_ok_lifecycle s p : path_ok s p = true -> lifecycle s (default s (last p)).
Proof.
  revert s. induction p as [|s' p IH]; intros s; [reflexivity|].
  cbn [path_ok]. intros [Hc Hp]%andb_true_iff. specialize (IH _ Hp).
  eapply rtc_l; [by constructor|]. rewrite last_cons. by destruct (last p).
Qed.

(** A shortest way out of each lifecycle state. *)
Definition exit_path (s : SequenceState) : list SequenceState :=
  match s with
  | SequenceState.RetryableFailure => [SequenceState.Retrying; SequenceState.Cancelled]
  | _ => if is_terminal s then [] else [SequenceState.Cancelled]
  end.

(** ** Properties *)

(** Terminal states are absorbing: once a sequence is Cancelled, DeadlineExpired,
    NonRetryableFailure, Completed or StaleSuperseded, no sequence of [transition_to] calls, of
    any length and with any targets, moves it: it never becomes Ready again and can never be
    grouped, dispatched or advanced. *)
Lemma terminal_absorbing (s : SequenceState) (targets : list SequenceState) :
  is_terminal s = true ->
  foldl (fun st next => transition_to_state next st) s targets = s /\
  Forall (fun next => is_ok (snd (transition_to next s)) = false) targets.
Proof.
  intros Ht. split.
  - apply (lifecycle_terminal s); [|done]. apply foldl_rel; [apply _|].
    intros; apply transition_to_lifecycle.
  - apply Forall_forall. intros next _. unfold transition_to. by rewrite can_transition_terminal.
Qed.


(** Execution is only entered through grouping and reservation.  The only transition into
    Dispatched is from Reserved, the only one into Reserved is from Grouped, and Grouped is only
    entered from Ready or ReadyForNextToken; in particular the candidate states Waiting and
    Yielded cannot be grouped. *)
Lemma dispatch_only_via_reservation (s : SequenceState) :
  (can_transition s SequenceState.Dispatched = true <-> s = SequenceState.Reserved) /\
  (can_transition s SequenceState.Reserved = true <-> s = SequenceState.Grouped) /\
  (can_transition s SequenceState.Grouped = true <->
     s = SequenceState.Ready \/ s = SequenceState.ReadyForNextToken).
Proof. destruct s; vm_compute; intuition congruence. Qed.

(** No lifecycle dead end: from every enumerated state some terminal state is reachable
    along the transition table, so no sequence is stuck in a state it can never leave for a
    terminal one. *)
Lemma terminal_reachable (s : SequenceState) :
  s ∈ SequenceState.SequenceState_table ->
  exists t, is_terminal t = true /\ lifecycle s t.
Proof.
  intros Hs. exists (default s (last (exit_path s))).
  assert (Hall : Forall (fun s => is_terminal (default s (last (exit_path s))) = true /\
                                  path_ok s (exit_path s) = true) SequenceState.SequenceState_table)
    by (repeat constructor).
  rewrite Forall_forall in Hall. destruct (Hall s Hs) as [H1 H2].
  split; [done|]. by apply path_ok_lifecycle.
Qed.

