(* ===== verification/Ids.v ===== *)
(** * Identifiers

    include/decodefabric/ids.hpp: [Id<Tag>], a 64-bit value whose tag keeps the
    identifier categories apart.  The tag is an index of the Rocq type as it is
    a template parameter of the C++ class, so a [SequenceId] cannot stand where
    a [GrantId] is expected. *)

From S2P Require Import Prelude.

Inductive IdTag : Set :=
  | RequestIdTag | AttemptIdTag | TenantIdTag | ModelIdTag | ModelRevisionTag | AdapterIdTag
  | SequenceIdTag | DecodeGroupIdTag | DispatchIdTag | DecodeGenerationTag | StateIdTag
  | DeviceIdTag | WorkerIdTag | WorkerBootIdTag | CoordinatorEpochTag | ReservationIdTag
  | StepIdTag | EventIdTag | ExecutorIdTag | ClientIdTag | SessionIdTag
  | ProposalIdTag | GrantIdTag | ReceiptIdTag.

Record Id (t : IdTag) : Set := mkId { id_value : Z }.
Arguments mkId {t} id_value.
Arguments id_value {t} i.

Abbreviation RequestId := (Id RequestIdTag).
Abbreviation AttemptId := (Id AttemptIdTag).
Abbreviation TenantId := (Id TenantIdTag).
Abbreviation ModelId := (Id ModelIdTag).
Abbreviation ModelRevision := (Id ModelRevisionTag).
Abbreviation AdapterId := (Id AdapterIdTag).
Abbreviation SequenceId := (Id SequenceIdTag).
Abbreviation DecodeGroupId := (Id DecodeGroupIdTag).
Abbreviation DispatchId := (Id DispatchIdTag).
Abbreviation DecodeGeneration := (Id DecodeGenerationTag).
Abbreviation StateId := (Id StateIdTag).
Abbreviation DeviceId := (Id DeviceIdTag).
Abbreviation WorkerId := (Id WorkerIdTag).
Abbreviation WorkerBootId := (Id WorkerBootIdTag).
Abbreviation CoordinatorEpoch := (Id CoordinatorEpochTag).
Abbreviation ReservationId := (Id ReservationIdTag).
Abbreviation EventId := (Id EventIdTag).
Abbreviation ExecutorId := (Id ExecutorIdTag).
Abbreviation ProposalId := (Id ProposalIdTag).
Abbreviation GrantId := (Id GrantIdTag).
Abbreviation ReceiptId := (Id ReceiptIdTag).

(** [Id::null], [is_null], [is_valid]. *)
Definition null_id {t} : Id t := mkId 0.
Definition is_null {t} (i : Id t) : bool := id_value i =? 0.
Definition is_valid {t} (i : Id t) : bool := negb (id_value i =? 0).

(** The values a 64-bit identifier can hold. *)
Definition id_ok {t} (i : Id t) : bool := in_range 64 (id_value i).

#[export] Instance Id_eq_dec t : EqDecision (Id t).
Proof. solve_decision. Defined.

#[export] Instance Id_countable t : Countable (Id t).
Proof. apply (inj_countable' id_value mkId). by intros []. Defined.

(** [operator==] on identifiers. *)
Definition id_eqb {t} (a b : Id t) : bool := id_value a =? id_value b.

Lemma id_eqb_eq {t} (a b : Id t) : id_eqb a b = true <-> a = b.
Proof. unfold id_eqb. rewrite Z.eqb_eq. destruct a, b; cbn. split; congruence. Qed.

Lemma id_eqb_refl {t} (a : Id t) : id_eqb a a = true.
Proof. by apply id_eqb_eq. Qed.

Lemma id_eqb_neq {t} (a b : Id t) : id_eqb a b = false <-> a <> b.
Proof. rewrite <- id_eqb_eq. destruct (id_eqb a b); intuition congruence. Qed.

Lemma id_eqb_spec {t} (a b : Id t) : reflect (a = b) (id_eqb a b).
Proof. destruct (id_eqb a b) eqn:E; constructor; [by apply id_eqb_eq|by apply id_eqb_neq]. Qed.

(** *** Hashing *)

(** [std::hash] of a 64-bit number, which the library chooses. *)
Class StdHash := hash_u64 : Z -> Z.

(** [IdHash], and the specializations of [std::hash] for the identifier types: of each only the value counts. *)
Definition IdHash `{StdHash} {t} (id : Id t) : Z := hash_u64 (id_value id).
Definition std_hash `{StdHash} {t} (v : Id t) : Z := hash_u64 (id_value v).

(** What the unordered containers need of a hash: identifiers that compare equal have the same one; and whenever the library's
    hash of numbers separates two values, so does that of the identifiers. *)
Lemma std_hash_respects `{StdHash} {t} (a b : Id t) : id_eqb a b = true -> std_hash a = std_hash b /\ IdHash a = std_hash a.
Proof. by intros ->%id_eqb_eq. Qed.
Lemma std_hash_separates `{StdHash} {t} (a b : Id t) : hash_u64 (id_value a) <> hash_u64 (id_value b) -> std_hash a <> std_hash b /\ id_eqb a b = false.
Proof. intros Hn. split; [done|]. apply id_eqb_neq. by intros ->. Qed.

(** Turn the boolean comparisons of the source into equations, substituting where possible. *)
Ltac id_cases :=
  repeat match goal with
  | H : id_eqb _ _ = true |- _ => apply id_eqb_eq in H
  | H : id_eqb _ _ = false |- _ => apply id_eqb_neq in H
  | H : negb _ = true |- _ => apply negb_true_iff in H
  | H : negb _ = false |- _ => apply negb_false_iff in H
  end.
