(* ===== verification/Compatibility.v ===== *)
(** * Compatibility keys

    include/decodefabric/compatibility.hpp and the first part of src/core.cpp:
    the key under which sequences may share a decode group, its canonical
    textual form (which the scheduler uses as the index of a group), its FNV-1a
    hash, and the explainable comparison of two keys. *)

From S2P Require Import Prelude Enums Errors Ids.
From Stdlib Require Import Ascii String.
Open Scope Z_scope.

Record CompatibilityKey := mkKey {
  k_model : ModelId;
  k_revision : ModelRevision;
  k_adapter : AdapterId;
  k_backend : BackendKind;
  k_device : DeviceId;
  k_dtype : DType;
  k_tensor_layout : Z;
  k_kv_representation : Z;
  k_sequence_requirements : Z;
  k_operator_policy : Z;
}.

#[export] Instance CompatibilityKey_eq_dec : EqDecision CompatibilityKey.
Proof. solve_decision. Defined.

(** [CompatibilityKey{}]. *)
Definition default_key : CompatibilityKey :=
  mkKey null_id null_id null_id BackendKind.CPU null_id DType.F32 0 0 0 0.

Definition key_valid (k : CompatibilityKey) : bool := is_valid (k_model k) && is_valid (k_device k).

(** ** Canonical text *)

(** The digit loop of [append_u64]: least significant first, at most [fuel] digits.  The source
    writes into a 24-character buffer; a 64-bit value has at most 20 digits. *)
Fixpoint digits_rev (fuel : nat) (v : Z) : list ascii :=
  match fuel with
  | O => []
  | S fuel => if v >? 0 then ascii_of_N (Z.to_N (48 + v mod 10)) :: digits_rev fuel (v / 10) else []
  end.

(** [append_u64(s, v)]. *)
Definition append_u64 (s : string) (v : Z) : string :=
  if v =? 0 then s +:+ "0" else s +:+ string_of_list_ascii (rev (digits_rev 24 v)).

(** [CompatibilityKey::to_string]. *)
Definition key_to_string (k : CompatibilityKey) : string :=
  let s := append_u64 "model=" (id_value (k_model k)) in
  let s := append_u64 (s +:+ ":rev=") (id_value (k_revision k)) in
  let s := append_u64 (s +:+ ":adapter=") (id_value (k_adapter k)) in
  let s := s +:+ ":backend=" +:+ BackendKind.BackendKind_to_string (k_backend k) in
  let s := append_u64 (s +:+ ":device=") (id_value (k_device k)) in
  let s := s +:+ ":dtype=" +:+ DType.DType_to_string (k_dtype k) in
  let s := append_u64 (s +:+ ":layout=") (k_tensor_layout k) in
  let s := append_u64 (s +:+ ":kv=") (k_kv_representation k) in
  let s := append_u64 (s +:+ ":seq=") (k_sequence_requirements k) in
  append_u64 (s +:+ ":op=") (k_operator_policy k).

(** [CompatibilityKey::hash]: FNV-1a over the canonical bytes. *)
Definition fnv_prime : Z := 1099511628211.
Definition fnv_offset : Z := 1469598103934665603.
Definition key_hash (k : CompatibilityKey) : Z :=
  foldl (fun h c => Z.lxor h (Z.of_N (N_of_ascii c)) *64 fnv_prime) fnv_offset
    (list_ascii_of_string (key_to_string k)).

(** [CompatibilityKeyHash]: the cast to a 64-bit [std::size_t]. *)
Definition CompatibilityKeyHash (k : CompatibilityKey) : Z := wrap 64 (key_hash k).

(** The cast changes nothing. *)
Lemma CompatibilityKeyHash_exact k : CompatibilityKeyHash k = key_hash k.
Proof.
  unfold CompatibilityKeyHash, key_hash. apply wrap_small. induction (list_ascii_of_string (key_to_string k)) as [|c l IH] using rev_ind; [done|].
  rewrite foldl_app. cbn [foldl]. by apply wrap_range.
Qed.

(** ** Explainable comparison *)

Record CompatibilityDecision := mkDecision {
  cd_compatible : bool;
  cd_key : CompatibilityKey;
  cd_reason : string;
  cd_matched : list string;
  cd_mismatched : list string;
}.

(** The joined list of names that the reason carries. *)
Fixpoint join_names (l : list string) : string :=
  match l with
  | [] => ""
  | [x] => x
  | x :: l => x +:+ ", " +:+ join_names l
  end.

(** [evaluate_compatibility]. *)
Definition evaluate_compatibility (a b : CompatibilityKey) : CompatibilityDecision :=
  let parts : list (bool * string) :=
    [(id_eqb (k_model a) (k_model b), "model");
     (id_eqb (k_revision a) (k_revision b), "revision");
     (id_eqb (k_adapter a) (k_adapter b), "adapter");
     (bool_decide (k_backend a = k_backend b), "backend");
     (id_eqb (k_device a) (k_device b), "device");
     (bool_decide (k_dtype a = k_dtype b), "dtype");
     (k_tensor_layout a =? k_tensor_layout b, "tensor_layout");
     (k_kv_representation a =? k_kv_representation b, "kv_representation");
     (k_sequence_requirements a =? k_sequence_requirements b, "sequence_requirements");
     (k_operator_policy a =? k_operator_policy b, "operator_policy")] in
  let matched := map snd (List.filter fst parts) in
  let mismatched := map snd (List.filter (fun p => negb (fst p)) parts) in
  let compatible := match mismatched with [] => true | _ => false end in
  mkDecision compatible a
    (if compatible then "identical compatibility key" else "differ in: " +:+ join_names mismatched)
    matched mismatched.

(** ** Well-formed keys: every field holds a value of its C++ type. *)
Definition key_ok (k : CompatibilityKey) : bool :=
  id_ok (k_model k) && id_ok (k_revision k) && id_ok (k_adapter k) && enum_ok (k_backend k) &&
  id_ok (k_device k) && enum_ok (k_dtype k) && in_range 32 (k_tensor_layout k) &&
  in_range 32 (k_kv_representation k) && in_range 32 (k_sequence_requirements k) &&
  in_range 32 (k_operator_policy k).

(** The enumerators proper, as opposed to stray codes. *)
Definition key_named (k : CompatibilityKey) : Prop :=
  k_backend k ∈ BackendKind.BackendKind_table /\ k_dtype k ∈ DType.DType_table.

(** ** Decimal text *)

Lemma append_u64_app s v : append_u64 s v = s +:+ append_u64 "" v.
Proof. unfold append_u64. by destruct (v =? 0). Qed.

(** The characters of a string, where concatenation is list concatenation. *)
Abbreviation chars := list_ascii_of_string.

Lemma chars_app a b : chars (a +:+ b) = chars a ++ chars b.
Proof. induction a as [|c a IH]; [done|]. exact (f_equal (cons c) IH). Qed.

Lemma chars_of_list l : chars (string_of_list_ascii l) = l.
Proof. apply list_ascii_of_string_of_list_ascii. Qed.

Lemma chars_inj a b : chars a = chars b -> a = b.
Proof. intros H. by rewrite <- (string_of_list_ascii_of_string a), H, string_of_list_ascii_of_string. Qed.

Definition is_digit (c : ascii) : bool := (48 <=? N_of_ascii c)%N && (N_of_ascii c <=? 57)%N.

Lemma digit_char d :
  0 <= d < 10 -> N_of_ascii (ascii_of_N (Z.to_N (48 + d))) = Z.to_N (48 + d).
Proof. intros H. apply N_ascii_embedding. lia. Qed.

(** The value of a digit list, least significant first. *)
Fixpoint digits_value (l : list ascii) : Z :=
  match l with [] => 0 | c :: l => (Z.of_N (N_of_ascii c) - 48) + 10 * digits_value l end.

Lemma digits_rev_value fuel v : 0 <= v < 10 ^ Z.of_nat fuel -> digits_value (digits_rev fuel v) = v.
Proof.
  revert v. induction fuel as [|fuel IH]; intros v Hv.
  - cbn in *. lia.
  - rewrite Nat2Z.inj_succ, Z.pow_succ_r in Hv by lia. cbn [digits_rev].
    destruct (Z.gtb_spec v 0) as [Hp|Hz]; [|cbn; lia].
    cbn [digits_value]. pose proof (Z.mod_pos_bound v 10). rewrite digit_char by lia.
    rewrite IH by (pose proof (Z.div_lt_upper_bound v 10 (10 ^ Z.of_nat fuel)); pose proof (Z.div_pos v 10); lia).
    rewrite Z2N.id by lia. pose proof (Z.div_mod v 10). lia.
Qed.

Lemma digits_rev_digits fuel v : 0 <= v -> Forall (fun c => is_digit c = true) (digits_rev fuel v).
Proof.
  revert v. induction fuel as [|fuel IH]; intros v Hv; [constructor|]. cbn [digits_rev].
  destruct (Z.gtb_spec v 0) as [Hp|]; constructor.
  - unfold is_digit. pose proof (Z.mod_pos_bound v 10). rewrite digit_char by lia.
    apply andb_true_iff. rewrite !N.leb_le. lia.
  - apply IH. apply Z.div_pos; lia.
Qed.


(** Decimal text determines the number. *)
Lemma append_u64_chars v :
  chars (append_u64 "" v) = if v =? 0 then ["0"%char] else rev (digits_rev 24 v).
Proof. unfold append_u64. destruct (v =? 0); [done|]. rewrite chars_app. apply chars_of_list. Qed.

Lemma append_u64_digits v :
  0 <= v -> Forall (fun c => is_digit c = true) (chars (append_u64 "" v)).
Proof.
  intros Hv. rewrite append_u64_chars. destruct (v =? 0); [by repeat constructor|].
  apply Forall_rev, digits_rev_digits, Hv.
Qed.

Lemma append_u64_value v :
  in_range 64 v = true -> digits_value (rev (chars (append_u64 "" v))) = v.
Proof.
  intros Hv%in_range_iff. rewrite append_u64_chars.
  destruct (Z.eqb_spec v 0) as [->|Hn]; [done|].
  rewrite rev_involutive. apply digits_rev_value.
  assert (2 ^ 64 < 10 ^ Z.of_nat 24) by (vm_compute; reflexivity). lia.
Qed.

Lemma append_u64_inj a b :
  in_range 64 a = true -> in_range 64 b = true -> append_u64 "" a = append_u64 "" b -> a = b.
Proof. intros Ha Hb H. by rewrite <- (append_u64_value a Ha), <- (append_u64_value b Hb), H. Qed.

(** ** Fields separated by a colon *)

Definition no_colon (l : list ascii) : Prop := Forall (fun c => c <> ":"%char) l.

Lemma colon_split (a b x y : list ascii) :
  no_colon a -> no_colon b -> a ++ ":"%char :: x = b ++ ":"%char :: y -> a = b /\ x = y.
Proof.
  revert b. induction a as [|c a IH]; intros [|d b] Ha Hb; cbn; intros H; simplify_eq.
  - done.
  - inversion Hb; by subst.
  - inversion Ha; by subst.
  - inversion Ha; inversion Hb; subst. destruct (IH b) as [-> ->]; done.
Qed.

Lemma no_colon_digits v : 0 <= v -> no_colon (chars (append_u64 "" v)).
Proof.
  intros Hv. eapply Forall_impl; [by apply append_u64_digits|].
  intros c Hc ->. vm_compute in Hc. discriminate.
Qed.

Definition field_u64 (v : Z) : list ascii := chars (append_u64 "" v).

Lemma chars_append s v : chars (append_u64 s v) = chars s ++ field_u64 v.
Proof. by rewrite append_u64_app, chars_app. Qed.

(** The canonical text as a sequence of labelled fields. *)
Lemma key_chars k :
  chars (key_to_string k) =
    chars "model=" ++ field_u64 (id_value (k_model k)) ++
    chars ":rev=" ++ field_u64 (id_value (k_revision k)) ++
    chars ":adapter=" ++ field_u64 (id_value (k_adapter k)) ++
    chars ":backend=" ++ chars (BackendKind.BackendKind_to_string (k_backend k)) ++
    chars ":device=" ++ field_u64 (id_value (k_device k)) ++
    chars ":dtype=" ++ chars (DType.DType_to_string (k_dtype k)) ++
    chars ":layout=" ++ field_u64 (k_tensor_layout k) ++
    chars ":kv=" ++ field_u64 (k_kv_representation k) ++
    chars ":seq=" ++ field_u64 (k_sequence_requirements k) ++
    chars ":op=" ++ field_u64 (k_operator_policy k).
Proof.
  unfold key_to_string. cbv zeta. repeat rewrite ?chars_append, ?chars_app.
  by rewrite <- !app_assoc.
Qed.

Lemma in_range_mono w w' z : w <= w' -> in_range w z = true -> in_range w' z = true.
Proof.
  intros Hw. rewrite !in_range_iff. pose proof (Z.pow_le_mono_r 2 w w'). lia.
Qed.

Lemma no_colon_backend b : no_colon (chars (BackendKind.BackendKind_to_string b)).
Proof. unfold no_colon. destruct b; cbn; repeat constructor; discriminate. Qed.

Lemma no_colon_dtype d : no_colon (chars (DType.DType_to_string d)).
Proof. unfold no_colon. destruct d; cbn; repeat constructor; discriminate. Qed.

Lemma no_colon_field v : in_range 64 v = true -> no_colon (field_u64 v).
Proof. intros H%in_range_iff. apply no_colon_digits. lia. Qed.

#[local] Hint Resolve no_colon_backend no_colon_dtype no_colon_field : core.

Lemma key_to_string_fields a b :
  key_ok a = true -> key_ok b = true -> key_to_string a = key_to_string b ->
  field_u64 (id_value (k_model a)) = field_u64 (id_value (k_model b)) /\
  field_u64 (id_value (k_revision a)) = field_u64 (id_value (k_revision b)) /\
  field_u64 (id_value (k_adapter a)) = field_u64 (id_value (k_adapter b)) /\
  chars (BackendKind.BackendKind_to_string (k_backend a)) = chars (BackendKind.BackendKind_to_string (k_backend b)) /\
  field_u64 (id_value (k_device a)) = field_u64 (id_value (k_device b)) /\
  chars (DType.DType_to_string (k_dtype a)) = chars (DType.DType_to_string (k_dtype b)) /\
  field_u64 (k_tensor_layout a) = field_u64 (k_tensor_layout b) /\
  field_u64 (k_kv_representation a) = field_u64 (k_kv_representation b) /\
  field_u64 (k_sequence_requirements a) = field_u64 (k_sequence_requirements b) /\
  field_u64 (k_operator_policy a) = field_u64 (k_operator_policy b).
Proof.
  intros Ha Hb H%(f_equal chars). rewrite !key_chars in H.
  unfold key_ok, id_ok in *. split_andb.
  repeat match goal with Hr : in_range 32 _ = true |- _ => apply (in_range_mono 32 64) in Hr; [|lia] end.
  cbn [chars app] in H. injection H as H.
  assert (Hs : forall (l x1 x2 y1 y2 : list ascii),
     no_colon x1 -> no_colon x2 -> x1 ++ ":"%char :: l ++ y1 = x2 ++ ":"%char :: l ++ y2 -> x1 = x2 /\ y1 = y2).
  { intros l x1 x2 y1 y2 ? ? E. apply colon_split in E as [-> E%app_inv_head]; done. }
  apply (Hs (chars "rev=")) in H as [E1 H]; [|by auto..].
  apply (Hs (chars "adapter=")) in H as [E2 H]; [|by auto..].
  apply (Hs (chars "backend=")) in H as [E3 H]; [|by auto..].
  apply (Hs (chars "device=")) in H as [E4 H]; [|by auto..].
  apply (Hs (chars "dtype=")) in H as [E5 H]; [|by auto..].
  apply (Hs (chars "layout=")) in H as [E6 H]; [|by auto..].
  apply (Hs (chars "kv=")) in H as [E7 H]; [|by auto..].
  apply (Hs (chars "seq=")) in H as [E8 H]; [|by auto..].
  apply (Hs (chars "op=")) in H as [E9 E10]; [|by auto..].
  exact (conj E1 (conj E2 (conj E3 (conj E4 (conj E5 (conj E6 (conj E7 (conj E8 (conj E9 E10))))))))).
Qed.

Lemma field_u64_inj a b :
  in_range 64 a = true -> in_range 64 b = true -> field_u64 a = field_u64 b -> a = b.
Proof. intros Ha Hb H%chars_inj. by apply append_u64_inj. Qed.

Lemma backend_name_inj a b :
  a ∈ BackendKind.BackendKind_table -> b ∈ BackendKind.BackendKind_table ->
  chars (BackendKind.BackendKind_to_string a) = chars (BackendKind.BackendKind_to_string b) -> a = b.
Proof. intros Ha Hb H%chars_inj. revert Ha Hb H. apply enum_names_inj. vm_compute. reflexivity. Qed.

Lemma dtype_name_inj a b :
  a ∈ DType.DType_table -> b ∈ DType.DType_table ->
  chars (DType.DType_to_string a) = chars (DType.DType_to_string b) -> a = b.
Proof. intros Ha Hb H%chars_inj. revert Ha Hb H. apply enum_names_inj. vm_compute. reflexivity. Qed.

Lemma mismatched_nil (parts : list (bool * string)) :
  (match map snd (List.filter (fun p => negb (fst p)) parts) with [] => true | _ => false end) = forallb fst parts.
Proof. induction parts as [|[[] n] l IH]; [done| |done]. apply IH. Qed.

Lemma filter_partition_length {A} (f : A -> bool) (l : list A) :
  (List.length (List.filter f l) + List.length (List.filter (fun x => negb (f x)) l) = List.length l)%nat.
Proof. induction l as [|x l IH]; [done|]. cbn. destruct (f x); cbn; lia. Qed.

Lemma key_to_string_inj (a b : CompatibilityKey) :
  key_ok a = true -> key_ok b = true -> key_named a -> key_named b ->
  key_to_string a = key_to_string b -> a = b.
Proof.
  intros Ha Hb [Nb Nd] [Mb Md] H.
  destruct (key_to_string_fields a b Ha Hb H) as (E1&E2&E3&E4&E5&E6&E7&E8&E9&E10).
  unfold key_ok, id_ok in *. split_andb.
  repeat match goal with Hr : in_range 32 _ = true |- _ => apply (in_range_mono 32 64) in Hr; [|lia] end.
  apply field_u64_inj in E1, E2, E3, E5, E7, E8, E9, E10; try done.
  apply backend_name_inj in E4; [|done..]. apply dtype_name_inj in E6; [|done..].
  destruct a as [[] [] [] ? [] ?], b as [[] [] [] ? [] ?]; cbn in *. by subst.
Qed.

(** ** Properties *)

(** Two backends or data types print the same: they are equal, or neither is an enumerator. *)
Definition same_backend (a b : BackendKind) : Prop :=
  a = b \/ (~ a ∈ BackendKind.BackendKind_table) /\ (~ b ∈ BackendKind.BackendKind_table).
Definition same_dtype (a b : DType) : Prop := a = b \/ (~ a ∈ DType.DType_table) /\ (~ b ∈ DType.DType_table).

Lemma backend_name_iff a b : BackendKind.BackendKind_to_string a = BackendKind.BackendKind_to_string b <-> same_backend a b.
Proof.
  unfold same_backend. rewrite !list_elem_of_In. destruct a, b; cbn; split; intros H; try discriminate H; auto; try (by destruct H as [|[H1 H2]]; [|exfalso; tauto]).
  all: right; split; intros HN; repeat destruct HN as [HN|HN]; done.
Qed.

Lemma dtype_name_iff a b : DType.DType_to_string a = DType.DType_to_string b <-> same_dtype a b.
Proof.
  unfold same_dtype. rewrite !list_elem_of_In. destruct a, b; cbn; split; intros H; try discriminate H; auto; try (by destruct H as [|[H1 H2]]; [|exfalso; tauto]).
  all: right; split; intros HN; repeat destruct HN as [HN|HN]; done.
Qed.

(** The keys that the text does not tell apart. *)
Record same_text (a b : CompatibilityKey) : Prop := {
  sx_ids : k_model a = k_model b /\ k_revision a = k_revision b /\ k_adapter a = k_adapter b /\ k_device a = k_device b;
  sx_layout : k_tensor_layout a = k_tensor_layout b /\ k_kv_representation a = k_kv_representation b;
  sx_policy : k_sequence_requirements a = k_sequence_requirements b /\ k_operator_policy a = k_operator_policy b;
  sx_backend : same_backend (k_backend a) (k_backend b);
  sx_dtype : same_dtype (k_dtype a) (k_dtype b);
}.

Lemma key_to_string_iff a b : key_ok a = true -> key_ok b = true -> key_to_string a = key_to_string b <-> same_text a b.
Proof.
  intros Ha Hb. split.
  - intros H. destruct (key_to_string_fields a b Ha Hb H) as (E1&E2&E3&E4&E5&E6&E7&E8&E9&E10).
    unfold key_ok, id_ok in *. split_andb.
    repeat match goal with Hr : in_range 32 _ = true |- _ => apply (in_range_mono 32 64) in Hr; [|lia] end.
    apply field_u64_inj in E1, E2, E3, E5, E7, E8, E9, E10; try done. apply chars_inj, backend_name_iff in E4. apply chars_inj, dtype_name_iff in E6.
    destruct a as [[] [] [] ? [] ?], b as [[] [] [] ? [] ?]; cbn in *. subst. by split.
  - intros [(E1 & E2 & E3 & E4) (E5 & E6) (E7 & E8) E9%backend_name_iff E10%dtype_name_iff]. unfold key_to_string.
    by rewrite E1, E2, E3, E4, E5, E6, E7, E8, E9, E10.
Qed.

(** C39: what the canonical text of a compatibility key tells apart.  Two keys whose fields hold values of their types
    have the same [to_string] exactly when their identifiers, layout, representation, requirements and policy are equal, their
    backends are equal or both no enumerators, and their data types likewise; so for keys whose backend and data
    type are enumerators the text is injective.  The scheduler indexes forming groups by this text: sequences with
    different keys share a group only if the keys differ in codes that are no enumerators. *)
Theorem key_to_string_injective (a b : CompatibilityKey) :
  key_ok a = true -> key_ok b = true ->
  (key_to_string a = key_to_string b <-> same_text a b) /\
  (key_named a -> key_named b -> key_to_string a = key_to_string b <-> a = b).
Proof.
  intros Ha Hb. split; [by apply key_to_string_iff|]. intros. split; [by apply key_to_string_inj|congruence].
Qed.

Definition sample_key : CompatibilityKey :=
  mkKey (mkId 1) (mkId 1) null_id BackendKind.CPU (mkId 1) DType.F32 0 0 0 0.

Definition sample_key' : CompatibilityKey :=
  mkKey (mkId 1) (mkId 1) null_id BackendKind.CPU (mkId 1) DType.F16 0 0 0 0.

Lemma key_to_string_injective_witness :
  (key_to_string sample_key = key_to_string sample_key' <-> same_text sample_key sample_key') /\
  (key_to_string sample_key = key_to_string sample_key' <-> sample_key = sample_key').
Proof.
  destruct (key_to_string_injective sample_key sample_key') as [H1 H2]; [reflexivity..|].
  split; [exact H1|apply H2]; (split; apply list_elem_of_In; cbn; tauto).
Defined.

(** Keys with stray backend codes share their text. *)
Example stray_backends_share_text :
  let k code := mkKey (mkId 1) (mkId 1) null_id (BackendKind.Unnamed code) (mkId 1) DType.F32 0 0 0 0 in
  key_to_string (k 200) = key_to_string (k 201) /\ k 200 <> k 201.
Proof. split; [reflexivity|discriminate]. Qed.

(** [evaluate_compatibility] is exact.  It reports two keys compatible precisely when they
    are equal, and then with no mismatched component; otherwise the list of mismatched
    components is not empty, and matched and mismatched together always account for all ten. *)
Theorem evaluate_compatibility_exact (a b : CompatibilityKey) :
  let d := evaluate_compatibility a b in
  (cd_compatible d = true <-> a = b) /\
  (cd_compatible d = true <-> cd_mismatched d = []) /\
  (List.length (cd_matched d) + List.length (cd_mismatched d) = 10)%nat.
Proof.
  cbv zeta. split_and!.
  - unfold evaluate_compatibility. cbv zeta. cbn [cd_compatible]. rewrite mismatched_nil.
    cbn [forallb fst]. rewrite !andb_true_iff, !id_eqb_eq, !bool_decide_eq_true, !Z.eqb_eq.
    split; [|by intros ->].
    intros (?&?&?&?&?&?&?&?&?&?&_). destruct a, b; cbn in *; by subst.
  - unfold evaluate_compatibility. cbv zeta. cbn [cd_compatible cd_mismatched].
    destruct (map snd _) eqn:E; split; congruence.
  - unfold evaluate_compatibility. cbv zeta. cbn [cd_matched cd_mismatched].
    by rewrite !length_map, filter_partition_length.
Qed.
