(* ===== verification/Types.v ===== *)
(** * Shared data types

    The structs of include/decodefabric/{state_desc,request,group,device,worker,
    reservation,executor,observability}.hpp that the fabric, the executors and
    the wire protocol exchange.  Time points and durations are [int64_t]
    nanoseconds ([Z]); the one [double] that travels on the wire, the tenant
    weight, is its IEEE-754 bit pattern. *)

From S2P Require Import Prelude Enums Errors Ids Token Compatibility.

(** ** state_desc.hpp *)
Record StateDescriptor := mkStateDescriptor {
  sd_id : StateId;
  sd_generation : Z;
  sd_device : DeviceId;
  sd_bytes_held : Z;
  sd_estimated_growth : Z;
  sd_owner_tag : Z;
  sd_access_version : Z;
}.
#[export] Instance StateDescriptor_eta : Settable StateDescriptor := fun r =>
  mkStateDescriptor (sd_id r) (sd_generation r) (sd_device r) (sd_bytes_held r)
    (sd_estimated_growth r) (sd_owner_tag r) (sd_access_version r).
Definition default_state_descriptor : StateDescriptor := mkStateDescriptor null_id 0 null_id 0 0 0 0.

(** ** device.hpp *)
Record DeviceDescriptor := mkDevice {
  d_id : DeviceId;
  d_backend : BackendKind;
  d_name : string;
  d_compute_capability_major : Z;
  d_compute_capability_minor : Z;
  d_memory_bytes : Z;
  d_supported_dtypes : Z;
  d_max_groups_concurrent : Z;
}.

(** ** worker.hpp *)
Record WorkerDescriptor := mkWorker {
  wk_id : WorkerId;
  wk_boot_id : WorkerBootId;
  wk_device : DeviceDescriptor;
  wk_health : WorkerHealth;
  wk_advertised_capacity : Z;
  wk_active_reservations : Z;
  wk_supported_models : list CompatibilityKey;
  wk_generation : Z;
}.
#[export] Instance WorkerDescriptor_eta : Settable WorkerDescriptor := fun r =>
  mkWorker (wk_id r) (wk_boot_id r) (wk_device r) (wk_health r) (wk_advertised_capacity r)
    (wk_active_reservations r) (wk_supported_models r) (wk_generation r).
Definition worker_valid (w : WorkerDescriptor) : bool := is_valid (wk_id w) && is_valid (wk_boot_id w).

(** ** request.hpp *)
Record DecodeRequest := mkRequest {
  rq_id : RequestId;
  rq_initial_attempt : AttemptId;
  rq_tenant : TenantId;
  rq_model : ModelId;
  rq_revision : ModelRevision;
  rq_adapter : AdapterId;
  rq_sequence : SequenceId;
  rq_prompt_length : Z;
  rq_max_generation_length : Z;
  rq_pregenerated : Z;
  rq_priority : Z;
  rq_tenant_weight : Z;
  rq_latency_class : LatencyClass;
  rq_deadline : Z;
  rq_arrival : Z;
  rq_per_token_target_ns : Z;
  rq_estimated_kv_growth_per_token : Z;
  rq_device_constraint : DeviceId;
  rq_sampling_metadata : string;
  rq_state : StateDescriptor;
}.
#[export] Instance DecodeRequest_eta : Settable DecodeRequest := fun r =>
  mkRequest (rq_id r) (rq_initial_attempt r) (rq_tenant r) (rq_model r) (rq_revision r)
    (rq_adapter r) (rq_sequence r) (rq_prompt_length r) (rq_max_generation_length r)
    (rq_pregenerated r) (rq_priority r) (rq_tenant_weight r) (rq_latency_class r) (rq_deadline r)
    (rq_arrival r) (rq_per_token_target_ns r) (rq_estimated_kv_growth_per_token r)
    (rq_device_constraint r) (rq_sampling_metadata r) (rq_state r).

(** The bit patterns of 1.0 and of positive infinity. *)
Definition double_one : Z := 0x3FF0000000000000.
Definition double_inf : Z := 0x7FF0000000000000.

(** [d > 0.0] on a bit pattern: sign bit clear, not zero, not a NaN. *)
Definition double_positive (bits : Z) : bool := (0 <? bits) && (bits <=? double_inf).

(** [DecodeRequest{}]. *)
Definition default_request : DecodeRequest :=
  mkRequest null_id null_id null_id null_id null_id null_id null_id 0 0 0 0 double_one
    LatencyClass.Standard 0 0 0 0 null_id "" default_state_descriptor.

Definition valid_request_id (r : DecodeRequest) : bool :=
  is_valid (rq_id r) && is_valid (rq_sequence r) && is_valid (rq_tenant r) &&
  is_valid (rq_model r) && is_valid (rq_revision r).

(** [DecodeRequest::validate]. *)
Definition validate (r : DecodeRequest) : Result unit :=
  if negb (valid_request_id r) then
    failed ErrorCode.InvalidArgument "request/sequence/tenant/model/revision id invalid"
  else if rq_max_generation_length r =? 0 then
    failed ErrorCode.InvalidArgument "maximum generation length must be > 0"
  else if rq_pregenerated r >? rq_max_generation_length r then
    failed ErrorCode.InvalidArgument "pregenerated exceeds maximum generation length"
  else if negb (double_positive (rq_tenant_weight r)) then
    failed ErrorCode.InvalidArgument "tenant weight must be positive"
  else Ok tt.

(** ** group.hpp *)
Record GroupLimits := mkGroupLimits {
  gl_max_sequences : Z;
  gl_max_work_units : Z;
  gl_max_kv_growth_bytes : Z;
  gl_memory_headroom_bytes : Z;
  gl_max_tenant_share : Z;
  gl_max_latency_class : LatencyClass;
  gl_max_deadline_pressure : Z;
}.
Definition default_group_limits : GroupLimits := mkGroupLimits 64 0 0 0 0 LatencyClass.Bulk 0.

(** ** reservation.hpp *)
Inductive ReservationKind : Set := SequenceReservation | GroupReservation.
Record Reservation := mkReservation {
  rv_id : ReservationId;
  rv_kind : ReservationKind;
  rv_sequence : SequenceId;
  rv_group : DecodeGroupId;
  rv_device : DeviceId;
  rv_bytes : Z;
  rv_released : bool;
  rv_valid : bool;
  rv_made_at : Z;
}.

(** ** executor.hpp *)
Record MemberOutcome := mkOutcome {
  mo_sequence : SequenceId;
  mo_kind : MemberOutcomeKind;
  mo_attempt : AttemptId;
  mo_generation : DecodeGeneration;
  mo_generated : Z;
  mo_token_identifier : Z;
  mo_terminal : bool;
  mo_error_code : ErrorCode;
  mo_error_message : string;
  mo_retryable : bool;
  mo_started_at : Z;
  mo_finished_at : Z;
  mo_active_ns : Z;
  mo_kv_bytes_delta : Z;
  mo_kv_bytes_after : Z;
}.
Definition default_outcome : MemberOutcome :=
  mkOutcome null_id MemberOutcomeKind.StepSuccessContinue null_id null_id 0 0 false ErrorCode.Ok ""
    false 0 0 0 0 0.
Definition mo_succeeded (mo : MemberOutcome) : bool :=
  match mo_kind mo with
  | MemberOutcomeKind.StepSuccessContinue | MemberOutcomeKind.StepSuccessTerminal => true
  | _ => false
  end.

Record DecodeMemberSpec := mkMemberSpec {
  ms_sequence : SequenceId;
  ms_attempt : AttemptId;
  ms_generation : DecodeGeneration;
  ms_state : StateDescriptor;
  ms_current_length : Z;
  ms_generated_tokens : Z;
  ms_remaining_budget : Z;
  ms_payload : bytes;
}.

Record DecodeExecutionRequest := mkExecRequest {
  er_dispatch_id : DispatchId;
  er_epoch : CoordinatorEpoch;
  er_worker : WorkerId;
  er_worker_boot : WorkerBootId;
  er_key : CompatibilityKey;
  er_device : DeviceDescriptor;
  er_reservation_id : Z;
  er_members : list DecodeMemberSpec;
  er_group_payload : bytes;
  er_deadline_hint_ns : Z;
}.

Record DecodeExecutionResult := mkExecResult {
  es_dispatch_id : DispatchId;
  es_epoch : CoordinatorEpoch;
  es_worker : WorkerId;
  es_worker_boot : WorkerBootId;
  es_outcomes : list MemberOutcome;
  es_group_active_ns : Z;
  es_group_error : ErrorCode;
  es_group_error_message : string;
  es_group_retryable : bool;
}.

Record PreparedMember := mkPrepared {
  pm_sequence : SequenceId;
  pm_state : StateId;
  pm_attempt : AttemptId;
  pm_generation : DecodeGeneration;
  pm_dispatch : DispatchId;
  pm_epoch : CoordinatorEpoch;
  pm_worker : WorkerId;
  pm_worker_boot : WorkerBootId;
  pm_proposal : ProposalId;
  pm_pre_state_digest : Z;
  pm_post_state_digest : Z;
  pm_delta_digest : Z;
  pm_outcome : MemberOutcome;
  pm_committed_position_before : Z;
  pm_committed_position_after : Z;
  pm_active_ns : Z;
}.
#[export] Instance PreparedMember_eta : Settable PreparedMember := fun r =>
  mkPrepared (pm_sequence r) (pm_state r) (pm_attempt r) (pm_generation r) (pm_dispatch r)
    (pm_epoch r) (pm_worker r) (pm_worker_boot r) (pm_proposal r) (pm_pre_state_digest r)
    (pm_post_state_digest r) (pm_delta_digest r) (pm_outcome r) (pm_committed_position_before r)
    (pm_committed_position_after r) (pm_active_ns r).
(** [PreparedMember::is_commit_eligible]. *)
Definition is_commit_eligible (pm : PreparedMember) : bool := mo_succeeded (pm_outcome pm).

Record PreparedDecode := mkPreparedDecode {
  pd_dispatch_id : DispatchId;
  pd_epoch : CoordinatorEpoch;
  pd_worker : WorkerId;
  pd_worker_boot : WorkerBootId;
  pd_members : list PreparedMember;
  pd_group_active_ns : Z;
  pd_group_error : ErrorCode;
  pd_group_error_message : string;
}.

Record CommitGrant := mkGrant {
  g_grant_id : GrantId;
  g_proposal : ProposalId;
  g_epoch : CoordinatorEpoch;
  g_worker : WorkerId;
  g_worker_boot : WorkerBootId;
  g_sequence : SequenceId;
  g_state : StateId;
  g_attempt : AttemptId;
  g_generation : DecodeGeneration;
  g_dispatch : DispatchId;
  g_committed_position : Z;
  g_pre_state_digest : Z;
  g_post_state_digest : Z;
  g_delta_digest : Z;
  g_outcome_kind : MemberOutcomeKind;
  g_terminal : bool;
  g_token_identifier : Z;
  g_active_ns : Z;
}.

Record MemberReceipt := mkReceipt {
  rc_receipt_id : ReceiptId;
  rc_grant_id : GrantId;
  rc_proposal : ProposalId;
  rc_epoch : CoordinatorEpoch;
  rc_worker : WorkerId;
  rc_worker_boot : WorkerBootId;
  rc_sequence : SequenceId;
  rc_state : StateId;
  rc_attempt : AttemptId;
  rc_generation : DecodeGeneration;
  rc_dispatch : DispatchId;
  rc_committed_position_before : Z;
  rc_committed_position_after : Z;
  rc_pre_state_digest : Z;
  rc_post_state_digest : Z;
  rc_delta_digest : Z;
  rc_outcome_kind : MemberOutcomeKind;
  rc_terminal : bool;
  rc_token_identifier : Z;
  rc_active_ns : Z;
  rc_committed_at : Z;
}.
#[export] Instance MemberReceipt_eta : Settable MemberReceipt := fun r =>
  mkReceipt (rc_receipt_id r) (rc_grant_id r) (rc_proposal r) (rc_epoch r) (rc_worker r)
    (rc_worker_boot r) (rc_sequence r) (rc_state r) (rc_attempt r) (rc_generation r)
    (rc_dispatch r) (rc_committed_position_before r) (rc_committed_position_after r)
    (rc_pre_state_digest r) (rc_post_state_digest r) (rc_delta_digest r) (rc_outcome_kind r)
    (rc_terminal r) (rc_token_identifier r) (rc_active_ns r) (rc_committed_at r).

Record AcceptedGeneration := mkAccepted {
  ac_idempotency_key : Z;
  ac_epoch : CoordinatorEpoch;
  ac_worker : WorkerId;
  ac_worker_boot : WorkerBootId;
  ac_sequence : SequenceId;
  ac_state : StateId;
  ac_attempt : AttemptId;
  ac_generation : DecodeGeneration;
  ac_dispatch : DispatchId;
  ac_committed_position_before : Z;
  ac_committed_position_after : Z;
  ac_pre_state_digest : Z;
  ac_post_state_digest : Z;
  ac_delta_digest : Z;
  ac_terminal : bool;
  ac_promotion_observed : bool;
}.
Definition default_accepted : AcceptedGeneration :=
  mkAccepted 0 null_id null_id null_id null_id null_id null_id null_id null_id 0 0 0 0 0 false false.

Record ReceiptDecode := mkReceiptDecode {
  rd_dispatch_id : DispatchId;
  rd_epoch : CoordinatorEpoch;
  rd_worker : WorkerId;
  rd_worker_boot : WorkerBootId;
  rd_receipts : list MemberReceipt;
  rd_group_error : ErrorCode;
  rd_group_error_message : string;
}.

Record AbortPrepared := mkAbort {
  ab_proposal : ProposalId;
  ab_sequence : SequenceId;
  ab_state : StateId;
  ab_attempt : AttemptId;
  ab_generation : DecodeGeneration;
  ab_dispatch : DispatchId;
  ab_epoch : CoordinatorEpoch;
  ab_worker : WorkerId;
  ab_worker_boot : WorkerBootId;
}.

(** ** observability.hpp *)
Record Event := mkEvent {
  ev_id : EventId;
  ev_time : Z;
  ev_kind : EventKind;
  ev_request : RequestId;
  ev_sequence : SequenceId;
  ev_detail : string;
}.
