(* ===== verification/Binary.v ===== *)
(** * Binary writer and reader

    include/decodefabric/binary.hpp.  A [Writer] appends little-endian fields to
    a byte vector, so what a call appends is its model; a [Reader] is a byte
    vector with a position and every read is bounds-checked.

    The codecs of the wire protocol and of the persistence format are built from
    these calls.  [decodes m bs a] states what they promise each other: the
    reader call [m], placed before the bytes [bs] in any stream, returns [a] and
    consumes exactly [bs]; placed before a strict prefix of [bs] at the end of a
    stream it reports truncation.  It is closed under sequencing, so a codec is
    proved field by field. *)

From S2P Require Import Prelude Enums Errors Ids.
From Stdlib Require Import Ascii String.
Open Scope Z_scope.

(** ** Writer *)

(** The loop [for (i = 0; i < n; ++i) push_back((v >> (8 * i)) & 0xFF)]. *)
Definition le_bytes (n : nat) (v : Z) : bytes :=
  map (fun i => Z.land (Z.shiftr v (8 * Z.of_nat i)) 0xFF) (seq 0 n).

Definition w_u8 (v : Z) : bytes := [v].
Definition w_u16 (v : Z) : bytes := [Z.land v 0xFF; Z.land (Z.shiftr v 8) 0xFF].
Definition w_u32 (v : Z) : bytes := le_bytes 4 v.
Definition w_u64 (v : Z) : bytes := le_bytes 8 v.
Definition w_s64 (v : Z) : bytes := w_u64 (wrap 64 v).
Definition w_ns (v : Z) : bytes := w_s64 v.
Definition w_bytes (v : bytes) : bytes := w_u64 (Z.of_nat (List.length v)) ++ v.
Definition string_bytes (s : string) : bytes := map (fun c => Z.of_N (N_of_ascii c)) (list_ascii_of_string s).
Definition w_str (s : string) : bytes :=
  w_u64 (Z.of_nat (List.length (string_bytes s))) ++ string_bytes s.
Definition w_bool (b : bool) : bytes := w_u8 (if b then 1 else 0).
Definition w_id {t} (i : Id t) : bytes := w_u64 (id_value i).

(** ** Reader *)

Record Reader := mkReader { rd_data : bytes; rd_pos : nat }.

(** A reader call: the value and the advanced reader, or the error. *)
Definition Read (A : Type) : Type := Reader -> Result (A * Reader).

Definition trunc_err : Error := mkError ErrorCode.PersistenceTruncated "truncated byte stream".

Definition r_ret {A} (a : A) : Read A := fun r => Ok (a, r).
Definition r_fail {A} (c : ErrorCode) (m : string) : Read A := fun _ => failed c m.
Definition r_bind {A B} (m : Read A) (k : A -> Read B) : Read B :=
  fun r => match m r with Ok (a, r') => k a r' | Err e => Err e end.

Declare Scope read_scope.
Delimit Scope read_scope with read.
Notation "x <- m ;; k" := (r_bind m (fun x => k)) (at level 100, m at next level, right associativity) : read_scope.
Open Scope read_scope.

(** [data_[pos_ + i]]. *)
Definition byte_at (r : Reader) (i : nat) : Z := default 0 (rd_data r !! (rd_pos r + i)%nat).

(** The loop [for (i = 0; i < n; ++i) v |= data_[pos_ + i] << (8 * i)]. *)
Definition le_value (n : nat) (f : nat -> Z) : Z :=
  foldl (fun v i => Z.lor v (Z.shiftl (f i) (8 * Z.of_nat i))) 0 (seq 0 n).

Definition r_fixed (n : nat) : Read Z := fun r =>
  if bool_decide (List.length (rd_data r) < rd_pos r + n)%nat then Err trunc_err
  else Ok (le_value n (byte_at r), mkReader (rd_data r) (rd_pos r + n)).

Definition r_u8 : Read Z := fun r =>
  if bool_decide (List.length (rd_data r) < rd_pos r + 1)%nat then Err trunc_err
  else Ok (byte_at r 0, mkReader (rd_data r) (rd_pos r + 1)).
Definition r_u16 : Read Z := fun r =>
  if bool_decide (List.length (rd_data r) < rd_pos r + 2)%nat then Err trunc_err
  else Ok (Z.lor (byte_at r 0) (Z.shiftl (byte_at r 1) 8), mkReader (rd_data r) (rd_pos r + 2)).
Definition r_u32 : Read Z := r_fixed 4.
Definition r_u64 : Read Z := r_fixed 8.
Definition r_s64 : Read Z := v <- r_u64 ;; r_ret (to_s64 v).
Definition r_ns : Read Z := r_s64.

(** [Reader::bytes]. *)
Definition r_bytes : Read bytes :=
  n <- r_u64 ;;
  fun r =>
    if n >? Z.of_nat (List.length (rd_data r)) - Z.of_nat (rd_pos r) then
      failed ErrorCode.PersistenceTruncated "truncated byte-vector payload"
    else if n >? 2 ^ 32 then failed ErrorCode.BoundedLengthExceeded "byte vector exceeds bound"
    else Ok (take (Z.to_nat n) (drop (rd_pos r) (rd_data r)),
             mkReader (rd_data r) (rd_pos r + Z.to_nat n)).

(** [Reader::str]: the bytes as characters. *)
Definition bytes_string (l : bytes) : string :=
  string_of_list_ascii (map (fun z => ascii_of_N (Z.to_N z)) l).
Definition r_str : Read string := l <- r_bytes ;; r_ret (bytes_string l).
Definition r_bool : Read bool := v <- r_u8 ;; r_ret (negb (v =? 0)).
Definition r_id {t} : Read (Id t) := v <- r_u64 ;; r_ret (mkId v).

(** The loop that reads [n] items in a row. *)
Fixpoint r_list {A} (n : nat) (m : Read A) : Read (list A) :=
  match n with
  | O => r_ret []
  | S n => a <- m ;; l <- r_list n m ;; r_ret (a :: l)
  end.

(** Decoding a message: a reader at position 0 over the bytes; trailing bytes are ignored. *)
Definition run_read {A} (m : Read A) (bs : bytes) : Result A :=
  match m (mkReader bs 0) with Ok (a, _) => Ok a | Err e => Err e end.

(** ** What a reader call promises *)

Definition reads {A} (m : Read A) (bs : bytes) (a : A) : Prop :=
  forall pre post, m (mkReader (pre ++ bs ++ post) (List.length pre)) =
    Ok (a, mkReader (pre ++ bs ++ post) (List.length pre + List.length bs)).

Definition is_truncated {A} (r : Result A) : Prop :=
  exists msg, r = failed ErrorCode.PersistenceTruncated msg.

Definition truncates {A} (m : Read A) (bs : bytes) : Prop :=
  forall pre p, p `prefix_of` bs -> List.length p <> List.length bs ->
    is_truncated (m (mkReader (pre ++ p) (List.length pre))).

Definition decodes {A} (m : Read A) (bs : bytes) (a : A) : Prop := reads m bs a /\ truncates m bs.

Lemma decodes_ret {A} (a : A) : decodes (r_ret a) [] a.
Proof.
  split.
  - intros pre post. unfold r_ret. cbn. by rewrite Nat.add_0_r.
  - intros pre p Hp Hn. apply prefix_nil_inv in Hp as ->. done.
Qed.

Lemma decodes_bind {A B} (m : Read A) (k : A -> Read B) bs bs' a b :
  decodes m bs a -> decodes (k a) bs' b -> decodes (r_bind m k) (bs ++ bs') b.
Proof.
  intros [Hr Ht] [Hr' Ht']. split.
  - intros pre post. unfold r_bind. rewrite <- app_assoc, Hr.
    rewrite app_assoc. specialize (Hr' (pre ++ bs) post). rewrite length_app in Hr'.
    rewrite Hr', length_app. by rewrite Nat.add_assoc.
  - intros pre p Hp Hn. unfold r_bind.
    apply list_prefix_app_cases in Hp as [[Hp Hl]|(q & -> & Hq)].
    + destruct (Ht pre p Hp Hl) as [msg ->]. by exists msg.
    + rewrite Hr. rewrite app_assoc. specialize (Ht' (pre ++ bs) q Hq).
      rewrite length_app in Ht'. apply Ht'. rewrite !length_app in Hn. lia.
Qed.

(** The last read of a record: nothing is left to consume. *)
Lemma decodes_last {A B} (m : Read A) (f : A -> B) bs a :
  decodes m bs a -> decodes (r_bind m (fun x => r_ret (f x))) bs (f a).
Proof.
  intros H. rewrite <- (app_nil_r bs). eapply decodes_bind; [exact H|]. apply decodes_ret.
Qed.

Lemma decodes_list {A} (m : Read A) (w : A -> bytes) (l : list A) :
  Forall (fun a => decodes m (w a) a) l -> decodes (r_list (List.length l) m) (mjoin (w <$> l)) l.
Proof.
  induction 1 as [|a l Ha _ IH]; [apply decodes_ret|].
  eapply decodes_bind; [exact Ha|]. by apply (decodes_last _ (cons a)).
Qed.

Lemma run_read_decodes {A} (m : Read A) bs a tail :
  decodes m bs a -> run_read m (bs ++ tail) = Ok a.
Proof. intros [Hr _]. unfold run_read. specialize (Hr [] tail). cbn in Hr. by rewrite Hr. Qed.

Lemma run_read_truncated {A} (m : Read A) bs a p :
  decodes m bs a -> p `prefix_of` bs -> p <> bs -> is_truncated (run_read m p).
Proof.
  intros [_ Ht] Hp Hn. unfold run_read. destruct (Ht [] p Hp) as [msg Hm].
  - intros Hl. apply Hn. destruct Hp as [k ->]. rewrite length_app in Hl.
    destruct k; [by rewrite app_nil_r|cbn in Hl; lia].
  - cbn in Hm. rewrite Hm. by exists msg.
Qed.

(** ** The primitive fields *)

Lemma le_step v n :
  0 <= n -> Z.lor (v mod 2 ^ n) (Z.shiftl (Z.land (Z.shiftr v n) 0xFF) n) = v mod 2 ^ (n + 8).
Proof.
  intros Hn. apply Z.bits_inj'. intros i Hi. change 0xFF with (Z.ones 8).
  rewrite Z.lor_spec, Z.shiftl_spec, !Z.testbit_mod_pow2 by lia.
  destruct (Z.ltb_spec i n) as [Hlt|Hge].
  - rewrite (Z.testbit_neg_r _ (i - n)) by lia.
    destruct (Z.ltb_spec i (n + 8)); [|lia]. by rewrite orb_false_r.
  - rewrite Z.land_spec, Z.shiftr_spec, Z.testbit_ones_nonneg by lia.
    replace (i - n + n) with i by lia.
    destruct (Z.ltb_spec (i - n) 8), (Z.ltb_spec i (n + 8)); try lia; cbn;
      by rewrite ?andb_true_r, ?andb_false_r.
Qed.

Lemma le_value_bytes n v f :
  (forall i, (i < n)%nat -> f i = Z.land (Z.shiftr v (8 * Z.of_nat i)) 0xFF) ->
  le_value n f = v mod 2 ^ (8 * Z.of_nat n).
Proof.
  unfold le_value. induction n as [|n IH]; intros Hf.
  - cbn. by rewrite Z.mod_1_r.
  - rewrite seq_S, foldl_app, IH by (intros; apply Hf; lia). cbn [foldl Nat.add].
    rewrite Hf by lia. rewrite le_step by lia. f_equal. f_equal. lia.
Qed.

Lemma length_le_bytes n v : List.length (le_bytes n v) = n.
Proof. unfold le_bytes. by rewrite length_map, length_seq. Qed.

Lemma le_bytes_lookup n v i :
  (i < n)%nat -> le_bytes n v !! i = Some (Z.land (Z.shiftr v (8 * Z.of_nat i)) 0xFF).
Proof.
  intros Hi. unfold le_bytes. rewrite list_lookup_fmap, lookup_seq_lt by done. done.
Qed.

Lemma le_bytes_are_bytes n v : Forall (fun b => is_byte b = true) (le_bytes n v).
Proof.
  apply Forall_fmap, Forall_forall. intros i _. cbn. apply in_range_iff.
  change 0xFF with (Z.ones 8). rewrite Z.land_ones by lia. by apply Z.mod_pos_bound.
Qed.

Lemma lookup_middle {A} (pre bs post : list A) i :
  (i < List.length bs)%nat -> (pre ++ bs ++ post) !! (List.length pre + i)%nat = bs !! i.
Proof. intros Hi. rewrite lookup_app_r by lia. rewrite lookup_app_l by lia. f_equal. lia. Qed.

Lemma prefix_short {A} (p bs : list A) :
  p `prefix_of` bs -> List.length p <> List.length bs -> (List.length p < List.length bs)%nat.
Proof. intros Hp%prefix_length. lia. Qed.

(** A call that reads [n] bytes or reports a truncated stream. *)
Lemma truncates_short {A} (m : Read A) bs n :
  List.length bs = n ->
  (forall r, (List.length (rd_data r) < rd_pos r + n)%nat -> m r = Err trunc_err) -> truncates m bs.
Proof.
  intros Hl Hm pre p Hp Hn. eexists. apply Hm. cbn. rewrite length_app.
  pose proof (prefix_short _ _ Hp Hn). lia.
Qed.

Lemma decodes_fixed n v :
  in_range (8 * Z.of_nat n) v = true -> decodes (r_fixed n) (le_bytes n v) v.
Proof.
  intros Hv. split.
  - intros pre post. unfold r_fixed. cbn [rd_data rd_pos].
    rewrite bool_decide_false by (rewrite !length_app, length_le_bytes; lia).
    rewrite length_le_bytes. rewrite (le_value_bytes n v).
    + rewrite Z.mod_small by (by apply in_range_iff). done.
    + intros i Hi. unfold byte_at. cbn [rd_data rd_pos].
      rewrite lookup_middle by (by rewrite length_le_bytes). by rewrite le_bytes_lookup.
  - apply (truncates_short _ _ n); [apply length_le_bytes|].
    intros r Hr. unfold r_fixed. by rewrite bool_decide_true.
Qed.

Lemma decodes_u64 v : in_range 64 v = true -> decodes r_u64 (w_u64 v) v.
Proof. apply (decodes_fixed 8). Qed.

Lemma decodes_u32 v : in_range 32 v = true -> decodes r_u32 (w_u32 v) v.
Proof. apply (decodes_fixed 4). Qed.

Lemma decodes_u8 v : decodes r_u8 (w_u8 v) v.
Proof.
  split.
  - intros pre post. unfold r_u8. cbn [rd_data rd_pos].
    rewrite bool_decide_false by (rewrite !length_app; cbn; lia).
    unfold byte_at. cbn [rd_data rd_pos]. by rewrite lookup_middle by (cbn; lia).
  - apply (truncates_short _ _ 1); [done|]. intros r Hr. unfold r_u8. by rewrite bool_decide_true.
Qed.

Lemma decodes_u16 v : in_range 16 v = true -> decodes r_u16 (w_u16 v) v.
Proof.
  intros Hv. split.
  - intros pre post. unfold r_u16. cbn [rd_data rd_pos].
    rewrite bool_decide_false by (rewrite !length_app; cbn; lia).
    unfold byte_at. cbn [rd_data rd_pos]. rewrite !lookup_middle by (cbn; lia). cbn [lookup w_u16 default].
    do 2 f_equal. change (Z.lor (Z.land v (Z.ones 8)) (Z.shiftl (Z.land (Z.shiftr v 8) 0xFF) 8) = v).
    rewrite Z.land_ones, le_step by lia. apply Z.mod_small. by apply in_range_iff.
  - apply (truncates_short _ _ 2); [done|]. intros r Hr. unfold r_u16. by rewrite bool_decide_true.
Qed.

Lemma decodes_ns v : in_srange v = true -> decodes r_ns (w_ns v) v.
Proof.
  intros Hv. unfold r_ns, r_s64, w_ns, w_s64. rewrite <- (to_s64_wrap v Hv) at 2.
  apply (decodes_last _ to_s64), decodes_u64, wrap_range. lia.
Qed.

Lemma decodes_id {t} (i : Id t) : id_ok i = true -> decodes r_id (w_id i) i.
Proof.
  intros Hi. unfold r_id, w_id. replace i with (mkId (t := t) (id_value i)) at 2 by (by destruct i).
  by apply (decodes_last _ mkId), decodes_u64.
Qed.

Lemma decodes_bool b : decodes r_bool (w_bool b) b.
Proof.
  unfold r_bool, w_bool. replace b with (negb ((if b then 1 else 0) =? 0)) at 2 by (by destruct b).
  apply (decodes_last _ (fun v => negb (v =? 0))), decodes_u8.
Qed.

(** The length bound of a byte vector that [Reader::bytes] accepts. *)
Definition blob_ok (l : bytes) : bool := Z.of_nat (List.length l) <=? 2 ^ 32.

Lemma blob_len_range l : blob_ok l = true -> in_range 64 (Z.of_nat (List.length l)) = true.
Proof. intros H%Z.leb_le. apply in_range_iff. lia. Qed.

Lemma decodes_bytes l : blob_ok l = true -> decodes r_bytes (w_bytes l) l.
Proof.
  intros Hl. pose proof (blob_len_range l Hl) as Hr. apply Z.leb_le in Hl.
  unfold r_bytes, w_bytes. eapply decodes_bind; [by apply decodes_u64|]. split.
  - intros pre post. cbn [rd_data rd_pos]. rewrite !length_app.
    destruct (Z.gtb_spec (Z.of_nat (List.length l))
      (Z.of_nat (List.length pre + (List.length l + List.length post)) - Z.of_nat (List.length pre))); [lia|].
    destruct (Z.gtb_spec (Z.of_nat (List.length l)) (2 ^ 32)); [lia|].
    rewrite Nat2Z.id, drop_app_length, take_app_length. done.
  - intros pre p Hp Hn. cbn [rd_data rd_pos]. rewrite length_app.
    pose proof (prefix_short _ _ Hp Hn).
    destruct (Z.gtb_spec (Z.of_nat (List.length l))
      (Z.of_nat (List.length pre + List.length p) - Z.of_nat (List.length pre))); [|lia].
    by eexists.
Qed.

Lemma bytes_string_bytes s : bytes_string (string_bytes s) = s.
Proof.
  unfold bytes_string, string_bytes. rewrite map_map.
  rewrite (map_ext _ id).
  - by rewrite map_id, string_of_list_ascii_of_string.
  - intros c. rewrite N2Z.id. apply ascii_N_embedding.
Qed.

Definition str_ok (s : string) : bool := blob_ok (string_bytes s).

Lemma decodes_str s : str_ok s = true -> decodes r_str (w_str s) s.
Proof.
  intros Hs. unfold r_str, w_str. rewrite <- (bytes_string_bytes s) at 3.
  by apply (decodes_last _ bytes_string), (decodes_bytes (string_bytes s)).
Qed.

(** An enumeration cast to its underlying byte or word, and back. *)
Definition w_enum8 {E} `{CEnum E} (e : E) : bytes := w_u8 (wrap 8 (enum_code e)).
Definition r_enum8 {E} `{CEnum E} : Read E := v <- r_u8 ;; r_ret (enum_of v).
Definition w_enum32 {E} `{CEnum E} (e : E) : bytes := w_u32 (enum_code e).
Definition r_enum32 {E} `{CEnum E} : Read E := v <- r_u32 ;; r_ret (enum_of v).

Lemma decodes_enum8 {E} `{CEnum E} (e : E) :
  enum_width = 8 -> enum_ok e = true -> decodes r_enum8 (w_enum8 e) e.
Proof.
  intros Hw He. unfold r_enum8, w_enum8. pose proof (enum_code_range e He) as Hr. rewrite Hw in Hr.
  rewrite <- (enum_of_code e He) at 2. rewrite wrap_small by done.
  apply (decodes_last _ enum_of), decodes_u8.
Qed.

Lemma decodes_enum32 {E} `{CEnum E} (e : E) :
  enum_width = 32 -> enum_ok e = true -> decodes r_enum32 (w_enum32 e) e.
Proof.
  intros Hw He. unfold r_enum32, w_enum32. pose proof (enum_code_range e He) as Hr. rewrite Hw in Hr.
  rewrite <- (enum_of_code e He) at 2. by apply (decodes_last _ enum_of), decodes_u32.
Qed.

(** ** Automation: a record codec is decoded field by field *)

Create HintDb decodes.
#[export] Hint Resolve decodes_u8 decodes_u16 decodes_u32 decodes_u64 decodes_ns decodes_id decodes_bool
  decodes_bytes decodes_str decodes_enum8 decodes_enum32 decodes_ret : decodes.
#[export] Hint Extern 1 (@enum_width _ _ = _) => reflexivity : decodes.

Ltac decode_fields :=
  repeat match goal with
  | |- decodes (r_bind _ (fun x => r_ret _)) _ _ => eapply decodes_last
  | |- decodes (r_bind _ _) (_ ++ _) _ => eapply decodes_bind
  | |- decodes _ _ _ => solve [eauto with decodes nocore]
  end.

(** ** Every writer writes bytes *)

Lemma are_bytes_app a b : are_bytes a -> are_bytes b -> are_bytes (a ++ b).
Proof. intros. by apply Forall_app. Qed.
Lemma are_bytes_word n v : are_bytes (le_bytes n v).
Proof. apply le_bytes_are_bytes. Qed.
Lemma are_bytes_u8 v : is_byte v = true -> are_bytes (w_u8 v).
Proof. intros. by repeat constructor. Qed.
Lemma are_bytes_bool b : are_bytes (w_bool b).
Proof. by destruct b; repeat constructor. Qed.
Lemma are_bytes_enum8 {E} `{CEnum E} (e : E) : are_bytes (w_enum8 e).
Proof. apply are_bytes_u8, wrap_range. lia. Qed.
Lemma are_bytes_mjoin {A} (w : A -> bytes) l : (forall a, are_bytes (w a)) -> are_bytes (mjoin (w <$> l)).
Proof. intros Hw. induction l as [|a l IH]; [constructor|]. by apply are_bytes_app. Qed.
Lemma are_bytes_string s : are_bytes (string_bytes s).
Proof.
  unfold string_bytes. induction (list_ascii_of_string s) as [|c l IH]; constructor; [|exact IH].
  apply in_range_iff. pose proof (N_ascii_bounded c). lia.
Qed.
Lemma are_bytes_str s : are_bytes (w_str s).
Proof. apply are_bytes_app; [apply are_bytes_word|apply are_bytes_string]. Qed.

Create HintDb are_bytes.
#[export] Hint Resolve are_bytes_app are_bytes_word are_bytes_bool are_bytes_enum8 : are_bytes.
Ltac bytes_walk :=
  repeat match goal with
  | |- are_bytes (_ ++ _) => apply are_bytes_app
  | |- are_bytes (match ?x with _ => _ end) => destruct x
  | |- are_bytes [] => constructor
  | |- are_bytes (w_bool _) => apply are_bytes_bool
  | |- are_bytes (w_enum8 _) => apply are_bytes_enum8
  | |- are_bytes (w_u64 _) => apply are_bytes_word
  | |- are_bytes (w_u32 _) => apply are_bytes_word
  | |- are_bytes (w_ns _) => apply are_bytes_word
  | |- are_bytes (w_id _) => apply are_bytes_word
  | |- are_bytes (w_enum32 _) => apply are_bytes_word
  | |- are_bytes (w_str _) => apply are_bytes_str
  end.

(** ** The interface of a message codec *)

Class Codec (A : Type) := {
  encode : A -> bytes;
  decode : bytes -> Result A;
  codec_ok : A -> bool;
  decode_encode : forall a tail, codec_ok a = true -> decode (encode a ++ tail) = Ok a;
  decode_truncated : forall a p, codec_ok a = true -> p `prefix_of` encode a -> p <> encode a ->
    is_truncated (decode p);
}.

(** A codec from a writer and a reader that decodes it. *)
Definition codec_of {A} (w : A -> bytes) (m : Read A) (ok : A -> bool)
    (H : forall a, ok a = true -> decodes m (w a) a) : Codec A :=
  {| encode := w; decode := run_read m; codec_ok := ok;
     decode_encode a tail Ha := run_read_decodes m (w a) a tail (H a Ha);
     decode_truncated a p Ha := run_read_truncated m (w a) a p (H a Ha) |}.

Lemma encode_injective {A} `{Codec A} (a b : A) :
  codec_ok a = true -> codec_ok b = true -> encode a = encode b -> a = b.
Proof.
  intros Ha Hb He. pose proof (decode_encode a [] Ha) as H1. pose proof (decode_encode b [] Hb) as H2.
  rewrite He in H1. congruence.
Qed.
