(* ===== verification/Frame.v ===== *)
(** * Framed transport protocol

    include/decodefabric/protocol.hpp, the frame part of src/protocol.cpp, and
    the frame loop of src/transport.cpp ([TcpConnection::recv_frame]).  The
    decoder keeps a buffer; the socket is the list of byte chunks its [recv]
    calls return, the end of the list being a closed connection. *)

From S2P Require Import Prelude Enums Errors Ids Binary.

Definition kHeaderBytes : Z := 12.
Definition kDefaultMaxFrameBytes : Z := 64 * 1024 * 1024.
Definition kMinimumFrameBytes : Z := kHeaderBytes.
Definition kProtocolVersion : Z := 1.

Record Frame := mkFrame {
  fr_total_length : Z;
  fr_version : Z;
  fr_type : FrameType;
  fr_payload : bytes;
}.

(** [Frame::valid]. *)
Definition frame_valid (f : Frame) : bool :=
  (fr_version f =? kProtocolVersion) && (fr_total_length f >=? kMinimumFrameBytes) &&
  (fr_total_length f =? kHeaderBytes + Z.of_nat (length (fr_payload f))).

(** [encode_frame]. *)
Definition encode_frame (ty : FrameType) (payload : bytes) : bytes :=
  w_u32 (wrap 32 (kHeaderBytes + Z.of_nat (length payload))) ++
  w_u32 kProtocolVersion ++ w_u32 (enum_code ty) ++ payload.

Record FrameDecoder := mkDecoder { fd_buf : bytes; fd_max_frame : Z }.

(** [FrameDecoder(max_frame)] and [reset]. *)
Definition new_decoder (max_frame : Z) : FrameDecoder := mkDecoder [] max_frame.
Definition fd_reset (d : FrameDecoder) : FrameDecoder := mkDecoder [] (fd_max_frame d).

(** The little-endian word at an offset of the buffer. *)
Definition le32_at (buf : bytes) (i : nat) : Z :=
  let b j := default 0 (buf !! (i + j)%nat) in
  Z.lor (Z.lor (Z.lor (b 0%nat) (Z.shiftl (b 1%nat) 8)) (Z.shiftl (b 2%nat) 16)) (Z.shiftl (b 3%nat) 24).

(** The loop over the message types: [for (t = 1; t <= 45; ++t) if (t == type) known = true]. *)
Definition known_type (type : Z) : bool := existsb (fun t => Z.of_nat t =? type) (seq 1 45).

(** [FrameDecoder::try_emit]: the decoder afterwards, and the frame if one is complete. *)
Definition try_emit (d : FrameDecoder) : FrameDecoder * Result (option Frame) :=
  let buf := fd_buf d in
  let size := Z.of_nat (length buf) in
  if size <? 4 then (d, Ok None) else
  let len := le32_at buf 0 in
  if len <? kHeaderBytes then
    (fd_reset d, failed ErrorCode.ProtocolMalformed "frame length below header")
  else if len >? fd_max_frame d then
    (fd_reset d, failed ErrorCode.ProtocolOversizedFrame "frame exceeds max size")
  else if size <? len then (d, Ok None)
  else
    let version := le32_at buf 4 in
    if negb (version =? kProtocolVersion) then
      (fd_reset d, failed ErrorCode.ProtocolUnknownVersion "unknown protocol version")
    else
      let type := le32_at buf 8 in
      if negb (known_type type) then
        (fd_reset d, failed ErrorCode.ProtocolUnknownType "unknown message type")
      else
        (mkDecoder (drop (Z.to_nat len) buf) (fd_max_frame d),
         Ok (Some (mkFrame len version (enum_of type)
                     (take (Z.to_nat len - Z.to_nat kHeaderBytes) (drop (Z.to_nat kHeaderBytes) buf))))).

(** [FrameDecoder::feed]. *)
Definition feed (data : bytes) (d : FrameDecoder) : FrameDecoder * Result (option Frame) :=
  try_emit (mkDecoder (fd_buf d ++ data) (fd_max_frame d)).

(** [TcpConnection::recv_frame] over the chunks the socket delivers. *)
Fixpoint recv_frame (d : FrameDecoder) (chunks : list bytes) : FrameDecoder * list bytes * Result Frame :=
  match feed [] d with
  | (d, Err e) => (d, chunks, Err e)
  | (d, Ok (Some f)) => (d, chunks, Ok f)
  | (d, Ok None) =>
      match chunks with
      | [] => (d, [], failed ErrorCode.BackendError "connection closed")
      | c :: chunks =>
          match feed c d with
          | (d, Err e) => (d, chunks, Err e)
          | (d, Ok (Some f)) => (d, chunks, Ok f)
          | (d, Ok None) => recv_frame d chunks
          end
      end
  end.

(** The frames that a number of [recv_frame] calls return, up to the first error. *)
Fixpoint recv_frames (n : nat) (d : FrameDecoder) (chunks : list bytes) : list Frame * Result unit :=
  match n with
  | O => ([], Ok tt)
  | S n =>
      match recv_frame d chunks with
      | (d, chunks, Ok f) => let '(fs, r) := recv_frames n d chunks in (f :: fs, r)
      | (_, _, Err e) => ([], Err e)
      end
  end.

(** ** Words in a buffer *)

Lemma le32_at_le_value buf i :
  le32_at buf i = le_value 4 (fun j => default 0 (buf !! (i + j)%nat)).
Proof. unfold le32_at, le_value. cbn -[Z.lor Z.shiftl]. by rewrite Z.lor_0_l, Z.shiftl_0_r. Qed.

Lemma le_value_testbit n f k :
  (forall i, (i < n)%nat -> is_byte (f i) = true) -> 0 <= k ->
  Z.testbit (le_value n f) k = (k <? 8 * Z.of_nat n) && Z.testbit (f (Z.to_nat (k / 8))) (k mod 8).
Proof.
  intros Hf Hk. unfold le_value. induction n as [|n IH].
  - cbn [seq foldl]. rewrite Z.bits_0. destruct (Z.ltb_spec k (8 * Z.of_nat 0)); [lia|done].
  - rewrite seq_S, foldl_app. cbn [foldl Nat.add]. rewrite Z.lor_spec, IH by (intros; apply Hf; lia).
    rewrite Z.shiftl_spec by lia.
    destruct (Z.ltb_spec k (8 * Z.of_nat n)) as [Hlt|Hge].
    + rewrite (Z.testbit_neg_r _ (k - _)) by lia.
      destruct (Z.ltb_spec k (8 * Z.of_nat (S n))); [|lia]. by rewrite orb_false_r.
    + cbn [andb orb]. assert (Hb : is_byte (f n) = true) by (apply Hf; lia).
      apply in_range_iff in Hb.
      destruct (Z.ltb_spec k (8 * Z.of_nat (S n))) as [Hlt|Hge'].
      * assert (k / 8 = Z.of_nat n) as -> by (symmetry; apply (Z.div_unique _ _ _ (k - 8 * Z.of_nat n)); lia).
        assert (k mod 8 = k - 8 * Z.of_nat n) as -> by (symmetry; apply (Z.mod_unique _ _ (Z.of_nat n)); lia).
        by rewrite Nat2Z.id.
      * rewrite <- (Z.mod_small (f n) (2 ^ 8)) by lia. rewrite Z.testbit_mod_pow2 by lia.
        destruct (Z.ltb_spec (k - 8 * Z.of_nat n) 8); [lia|done].
Qed.

Lemma le_value_range n f :
  (forall i, (i < n)%nat -> is_byte (f i) = true) -> in_range (8 * Z.of_nat n) (le_value n f) = true.
Proof.
  intros Hf. assert (Hv : le_value n f = wrap (8 * Z.of_nat n) (le_value n f)).
  { apply Z.bits_inj'. intros k Hk. unfold wrap. rewrite Z.testbit_mod_pow2 by lia.
    rewrite le_value_testbit by done. by destruct (k <? _). }
  rewrite Hv. apply wrap_range. lia.
Qed.

Lemma le_bytes_value n f :
  (forall i, (i < n)%nat -> is_byte (f i) = true) -> le_bytes n (le_value n f) = map f (seq 0 n).
Proof.
  intros Hf. apply list_eq. intros i. destruct (decide (i < n)%nat) as [Hi|Hi].
  - rewrite le_bytes_lookup, list_lookup_fmap, lookup_seq_lt by done. cbn. f_equal.
    pose proof (Hf i Hi) as Hb. apply in_range_iff in Hb.
    apply Z.bits_inj'. intros k Hk. change 0xFF with (Z.ones 8).
    rewrite Z.land_spec, Z.shiftr_spec, Z.testbit_ones_nonneg by lia.
    rewrite le_value_testbit by (done || lia).
    destruct (Z.ltb_spec k 8) as [Hlt|Hge].
    + assert ((k + 8 * Z.of_nat i) / 8 = Z.of_nat i) as -> by (symmetry; apply (Z.div_unique _ _ _ k); lia).
      assert ((k + 8 * Z.of_nat i) mod 8 = k) as -> by (symmetry; apply (Z.mod_unique _ _ (Z.of_nat i)); lia).
      destruct (Z.ltb_spec (k + 8 * Z.of_nat i) (8 * Z.of_nat n)); [|lia].
      by rewrite Nat2Z.id, andb_true_r.
    + rewrite andb_false_r, <- (Z.mod_small (f i) (2 ^ 8)), Z.testbit_mod_pow2 by lia.
      destruct (Z.ltb_spec k 8); [lia|done].
  - rewrite !lookup_ge_None_2; rewrite ?length_map, ?length_seq, ?length_le_bytes; [done|lia..].
Qed.

Lemma le32_at_word pre v post :
  in_range 32 v = true -> le32_at (pre ++ w_u32 v ++ post) (length pre) = v.
Proof.
  intros Hv. rewrite le32_at_le_value. rewrite (le_value_bytes 4 v).
  - apply Z.mod_small. by apply in_range_iff.
  - intros i Hi. rewrite lookup_middle by (unfold w_u32; by rewrite length_le_bytes).
    unfold w_u32. by rewrite le_bytes_lookup.
Qed.

Lemma le32_at_prefix (p buf : bytes) i :
  p `prefix_of` buf -> (i + 4 <= length p)%nat -> le32_at p i = le32_at buf i.
Proof.
  intros [k ->] Hl. unfold le32_at. rewrite !lookup_app_l by lia. done.
Qed.

Lemma known_type_spec ty : known_type ty = true <-> 1 <= ty <= 45.
Proof.
  unfold known_type. rewrite existsb_exists. split.
  - intros (t & Ht & He). apply in_seq in Ht. apply Z.eqb_eq in He. lia.
  - intros Hty. exists (Z.to_nat ty). split; [apply in_seq; lia|]. apply Z.eqb_eq. lia.
Qed.

(** ** Encoded frames *)

(** A message that a decoder with bound [max] accepts. *)
Definition frame_ok (max : Z) (ty : FrameType) (payload : bytes) : bool :=
  enum_ok ty && known_type (enum_code ty) &&
  (kHeaderBytes + Z.of_nat (length payload) <=? max) && in_range 32 max.

Lemma frame_ok_inv max ty payload :
  frame_ok max ty payload = true ->
  enum_ok ty = true /\ known_type (enum_code ty) = true /\
  12 + Z.of_nat (length payload) <= max /\ 0 <= max < 2 ^ 32.
Proof. unfold frame_ok. rewrite !andb_true_iff, Z.leb_le, in_range_iff. tauto. Qed.

(** The frame that carries a message. *)
Definition frame_of (ty : FrameType) (payload : bytes) : Frame :=
  mkFrame (kHeaderBytes + Z.of_nat (length payload)) kProtocolVersion ty payload.

Lemma length_encode_frame ty payload : length (encode_frame ty payload) = (12 + length payload)%nat.
Proof. unfold encode_frame, w_u32. rewrite !length_app, !length_le_bytes. lia. Qed.

Lemma encode_frame_words max ty payload :
  frame_ok max ty payload = true ->
  le32_at (encode_frame ty payload) 0 = kHeaderBytes + Z.of_nat (length payload) /\
  le32_at (encode_frame ty payload) 4 = kProtocolVersion /\
  le32_at (encode_frame ty payload) 8 = enum_code ty.
Proof.
  intros (Ht & Hk & Hm & Hr)%frame_ok_inv.
  assert (Hl : in_range 32 (kHeaderBytes + Z.of_nat (length payload)) = true)
    by (apply in_range_iff; unfold kHeaderBytes in *; lia).
  unfold encode_frame. rewrite (wrap_small _ _ Hl). split_and!.
  - apply (le32_at_word []), Hl.
  - by apply (le32_at_word (w_u32 (kHeaderBytes + Z.of_nat (length payload)))).
  - rewrite app_assoc. apply (le32_at_word (w_u32 _ ++ w_u32 _)).
    exact (enum_code_range ty Ht).
Qed.

Lemma try_emit_complete max ty payload rest :
  frame_ok max ty payload = true ->
  try_emit (mkDecoder (encode_frame ty payload ++ rest) max) =
    (mkDecoder rest max, Ok (Some (frame_of ty payload))).
Proof.
  intros Hok. destruct (encode_frame_words _ _ _ Hok) as (H0 & H4 & H8).
  unfold try_emit. cbn [fd_buf fd_max_frame]. rewrite length_app, length_encode_frame.
  assert (Hat : forall i, (i <= 8)%nat ->
    le32_at (encode_frame ty payload ++ rest) i = le32_at (encode_frame ty payload) i).
  { intros i Hi. symmetry. apply le32_at_prefix; [by apply prefix_app_r|rewrite length_encode_frame; lia]. }
  rewrite !Hat, H0, H4, H8 by lia. apply frame_ok_inv in Hok as (Ht & Hk & Hm & Hr). unfold kHeaderBytes in *.
  destruct (Z.ltb_spec (Z.of_nat (12 + length payload + length rest)) 4); [lia|].
  destruct (Z.ltb_spec (12 + Z.of_nat (length payload)) 12); [lia|].
  destruct (Z.gtb_spec (12 + Z.of_nat (length payload)) max); [lia|].
  destruct (Z.ltb_spec (Z.of_nat (12 + length payload + length rest)) (12 + Z.of_nat (length payload))); [lia|].
  rewrite Z.eqb_refl. cbn [negb]. rewrite Hk. cbn [negb].
  assert (Hn : Z.to_nat (12 + Z.of_nat (length payload)) = length (encode_frame ty payload))
    by (rewrite length_encode_frame; lia).
  rewrite Hn, drop_app_length. rewrite (enum_of_code ty) by done.
  unfold frame_of. do 4 f_equal. rewrite length_encode_frame.
  unfold encode_frame. rewrite !app_assoc, <- app_assoc.
  rewrite drop_app_length' by (rewrite !length_app; unfold w_u32; rewrite !length_le_bytes; reflexivity).
  replace (12 + length payload - Z.to_nat 12)%nat with (length payload) by lia.
  by rewrite take_app_length.
Qed.

Lemma try_emit_partial max ty payload buf :
  frame_ok max ty payload = true ->
  buf `prefix_of` encode_frame ty payload -> (length buf < 12 + length payload)%nat ->
  try_emit (mkDecoder buf max) = (mkDecoder buf max, Ok None).
Proof.
  intros Hok Hp Hl. destruct (encode_frame_words _ _ _ Hok) as (H0 & _ & _).
  unfold try_emit. cbn [fd_buf fd_max_frame].
  destruct (Z.ltb_spec (Z.of_nat (length buf)) 4) as [|H4]; [done|].
  rewrite (le32_at_prefix _ _ _ Hp) by lia. rewrite H0.
  apply frame_ok_inv in Hok as (Ht & Hk & Hm & Hr). unfold kHeaderBytes in *.
  destruct (Z.ltb_spec (12 + Z.of_nat (length payload)) 12); [lia|].
  destruct (Z.gtb_spec (12 + Z.of_nat (length payload)) max); [lia|].
  destruct (Z.ltb_spec (Z.of_nat (length buf)) (12 + Z.of_nat (length payload))); [done|lia].
Qed.

(** What remains to be read is the buffer followed by the undelivered chunks. *)
Definition pending (d : FrameDecoder) (chunks : list bytes) : bytes := fd_buf d ++ mjoin chunks.

(** A buffer that starts a stream beginning with an encoded frame emits it or waits. *)
Lemma try_emit_stream max ty payload buf more rest :
  frame_ok max ty payload = true -> buf ++ more = encode_frame ty payload ++ rest ->
  (exists buf', try_emit (mkDecoder buf max) = (mkDecoder buf' max, Ok (Some (frame_of ty payload))) /\
     buf' ++ more = rest) \/
  (try_emit (mkDecoder buf max) = (mkDecoder buf max, Ok None) /\ (length buf < 12 + length payload)%nat).
Proof.
  intros Hok Hs. destruct (decide (length buf < 12 + length payload)%nat) as [Hl|Hl].
  - right. split; [|done]. eapply try_emit_partial; [done| |done].
    destruct (list_prefix_app_cases buf (encode_frame ty payload) rest) as [[? _]|(q & -> & _)].
    + rewrite <- Hs. by apply prefix_app_r.
    + done.
    + rewrite length_app, length_encode_frame in Hl. lia.
  - left. destruct (list_prefix_app_cases (encode_frame ty payload) buf more) as [[Hp _]|(q & He & Hq)].
    + rewrite Hs. by apply prefix_app_r.
    + destruct Hp as [q ->]. exists q. split; [by apply try_emit_complete|].
      rewrite <- app_assoc in Hs. by apply app_inv_head in Hs.
    + exists []. assert (q = []) as ->.
      { rewrite <- (length_encode_frame ty), He, length_app in Hl. destruct q; [done|cbn in Hl; lia]. }
      rewrite app_nil_r in He. rewrite <- He in Hs |- *. rewrite <- (app_nil_r (encode_frame _ _)).
      split; [by apply try_emit_complete|]. by apply app_inv_head in Hs.
Qed.

Lemma recv_frame_stream max ty payload chunks buf rest :
  frame_ok max ty payload = true -> buf ++ mjoin chunks = encode_frame ty payload ++ rest ->
  exists buf' chunks', recv_frame (mkDecoder buf max) chunks =
    (mkDecoder buf' max, chunks', Ok (frame_of ty payload)) /\ buf' ++ mjoin chunks' = rest.
Proof.
  intros Hok. revert buf. induction chunks as [|c chunks IH]; intros buf Hs;
    cbn [recv_frame]; unfold feed; cbn [fd_buf fd_max_frame]; rewrite app_nil_r;
    destruct (try_emit_stream _ _ _ _ _ _ Hok Hs) as [(buf' & -> & Hr)|[-> Hl]].
  - by exists buf', [].
  - exfalso. change (buf ++ [] = encode_frame ty payload ++ rest) in Hs.
    apply (f_equal length) in Hs. rewrite app_nil_r, length_app, length_encode_frame in Hs. lia.
  - by exists buf', (c :: chunks).
  - cbn [fd_buf fd_max_frame]. change (buf ++ (c ++ mjoin chunks) = encode_frame ty payload ++ rest) in Hs.
    rewrite app_assoc in Hs.
    destruct (try_emit_stream _ _ _ _ _ _ Hok Hs) as [(buf' & -> & Hr)|[-> _]].
    + by exists buf', chunks.
    + by apply IH.
Qed.

(** The encoding of a sequence of messages, as the sender writes them to the socket. *)
Definition encode_stream (msgs : list (FrameType * bytes)) : bytes :=
  mjoin ((fun m => encode_frame m.1 m.2) <$> msgs).

Lemma recv_frames_stream max msgs buf chunks rest :
  Forall (fun m => frame_ok max m.1 m.2 = true) msgs ->
  buf ++ mjoin chunks = encode_stream msgs ++ rest ->
  recv_frames (length msgs) (mkDecoder buf max) chunks = ((fun m => frame_of m.1 m.2) <$> msgs, Ok tt).
Proof.
  intros Hall. revert buf chunks. induction Hall as [|m msgs Hm _ IH]; intros buf chunks Hs; [done|].
  change (encode_stream (m :: msgs)) with (encode_frame m.1 m.2 ++ encode_stream msgs) in Hs.
  rewrite <- app_assoc in Hs.
  destruct (recv_frame_stream _ _ _ _ _ _ Hm Hs) as (buf' & chunks' & He & Hr).
  cbn [length recv_frames]. rewrite He, (IH _ _ Hr). done.
Qed.

(** ** Soundness of the decoder *)

Lemma le32_at_bytes buf i :
  Forall (fun b => is_byte b = true) buf -> (i + 4 <= length buf)%nat ->
  in_range 32 (le32_at buf i) = true /\ w_u32 (le32_at buf i) = take 4 (drop i buf).
Proof.
  intros Hb Hl. rewrite le32_at_le_value.
  assert (Hf : forall j, (j < 4)%nat -> is_byte (default 0 (buf !! (i + j)%nat)) = true).
  { intros j Hj. destruct (lookup_lt_is_Some_2 buf (i + j)) as [b Eb]; [lia|]. rewrite Eb.
    by apply (Forall_lookup_1 _ _ _ _ Hb Eb). }
  split.
  - exact (le_value_range 4 _ Hf).
  - unfold w_u32. rewrite le_bytes_value by done.
    apply list_eq. intros j. destruct (decide (j < 4)%nat) as [Hj|Hj].
    + rewrite list_lookup_fmap, lookup_seq_lt, lookup_take_lt, lookup_drop by done. cbn.
      destruct (lookup_lt_is_Some_2 buf (i + j)) as [b ->]; [lia|done].
    + rewrite !lookup_ge_None_2; rewrite ?length_map, ?length_seq, ?length_take, ?length_drop; [done|lia..].
Qed.

Lemma take_drop_add {A} (n m : nat) (l : list A) : take n l ++ take m (drop n l) = take (n + m) l.
Proof.
  revert n. induction l as [|x l IH]; intros [|n]; cbn; rewrite ?take_nil, ?drop_nil, ?take_nil; try done.
  by rewrite IH.
Qed.

Lemma frame_type_cast z : enum_code (FrameType.FrameType_of_code z) = z.
Proof. exact (enum_code_of (E := FrameType) z). Qed.

Lemma try_emit_sound d d' f :
  Forall (fun b => is_byte b = true) (fd_buf d) -> try_emit d = (d', Ok (Some f)) ->
  fd_buf d = encode_frame (fr_type f) (fr_payload f) ++ fd_buf d' /\
  frame_valid f = true /\ known_type (enum_code (fr_type f)) = true /\
  fr_total_length f <= fd_max_frame d.
Proof.
  intros Hb. destruct d as [buf max]. unfold try_emit. cbn [fd_buf fd_max_frame] in *.
  destruct (Z.ltb_spec (Z.of_nat (length buf)) 4); [done|].
  destruct (Z.ltb_spec (le32_at buf 0) kHeaderBytes) as [|Hlow]; [done|].
  destruct (Z.gtb_spec (le32_at buf 0) max) as [|Hmax]; [done|].
  destruct (Z.ltb_spec (Z.of_nat (length buf)) (le32_at buf 0)) as [|Hsz]; [done|].
  destruct (Z.eqb_spec (le32_at buf 4) kProtocolVersion) as [Hver|]; [|done]. cbn [negb].
  destruct (known_type (le32_at buf 8)) eqn:Hty; [|done]. cbn [negb]. intros [= <- <-].
  unfold kHeaderBytes in *.
  destruct (le32_at_bytes buf 0 Hb ltac:(lia)) as [Hr0 Hw0].
  destruct (le32_at_bytes buf 4 Hb ltac:(lia)) as [Hr4 Hw4].
  destruct (le32_at_bytes buf 8 Hb ltac:(lia)) as [Hr8 Hw8].
  cbn [fr_type fr_payload fd_buf fr_total_length fr_version].
  set (len := le32_at buf 0) in *. change (Z.to_nat 12) with 12%nat.
  assert (Hpl : length (take (Z.to_nat len - 12) (drop 12 buf)) = (Z.to_nat len - 12)%nat)
    by (rewrite length_take, length_drop; lia).
  split_and!; [|unfold frame_valid, kMinimumFrameBytes, kHeaderBytes; cbn; rewrite Hpl, Hver; cbn|by rewrite frame_type_cast|done].
  - unfold encode_frame, kHeaderBytes. rewrite Hpl, frame_type_cast.
    replace (12 + Z.of_nat (Z.to_nat len - 12)) with len by lia.
    rewrite (wrap_small _ _ Hr0), Hw0, Hw8, <- Hver, Hw4. cbn [drop].
    rewrite <- (take_drop (Z.to_nat len) buf) at 1. rewrite <- !app_assoc.
    replace (Z.to_nat len) with (4 + (4 + (4 + (Z.to_nat len - 12))))%nat at 1 by lia.
    rewrite <- take_drop_add, <- (take_drop_add 4 _ (drop 4 buf)), <- (take_drop_add 4 _ (drop 4 (drop 4 buf))), !drop_drop.
    by rewrite <- !app_assoc.
  - apply andb_true_iff. split; [apply Z.geb_le; lia|apply Z.eqb_eq; lia].
Qed.

(** ** Properties *)

(** Framing is independent of how TCP chops the stream.  Whatever chunks the socket delivers
    and whatever follows, receiving as many frames as were sent returns exactly the sent
    messages, in order, with their types and payloads; a partial frame is never emitted and never
    reported as an error. *)
Theorem recv_frames_roundtrip (max : Z) (msgs : list (FrameType * bytes)) (chunks : list bytes) (rest : bytes) :
  Forall (fun m => frame_ok max m.1 m.2 = true) msgs ->
  mjoin chunks = encode_stream msgs ++ rest ->
  recv_frames (length msgs) (new_decoder max) chunks = ((fun m => frame_of m.1 m.2) <$> msgs, Ok tt).
Proof. intros Hall Hs. by apply (recv_frames_stream _ _ [] _ rest). Qed.

(** The decoder never invents a frame.  If [feed] emits one, then the bytes received so far
    begin with exactly the encoding of that frame, the rest stays buffered, the frame satisfies
    [Frame::valid], its type code is in 1..45 and its length is within the configured maximum;
    if it reports an error the buffer is discarded, and otherwise nothing received is lost. *)
Theorem feed_sound (d d' : FrameDecoder) (data : bytes) (r : Result (option Frame)) :
  Forall (fun b => is_byte b = true) (fd_buf d ++ data) -> feed data d = (d', r) ->
  match r with
  | Ok (Some f) =>
      fd_buf d ++ data = encode_frame (fr_type f) (fr_payload f) ++ fd_buf d' /\
      frame_valid f = true /\ 1 <= enum_code (fr_type f) <= 45 /\ fr_total_length f <= fd_max_frame d
  | Ok None => fd_buf d' = fd_buf d ++ data
  | Err e => fd_buf d' = []
  end.
Proof.
  intros Hb Hf. unfold feed in Hf. destruct r as [[f|]|e].
  - destruct (try_emit_sound (mkDecoder (fd_buf d ++ data) (fd_max_frame d)) d' f Hb Hf) as (H1 & H2 & H3 & H4).
    rewrite known_type_spec in H3. done.
  - unfold try_emit in Hf. cbn [fd_buf fd_max_frame] in Hf.
    repeat case_match; simplify_eq; done.
  - unfold try_emit in Hf. cbn [fd_buf fd_max_frame] in Hf.
    repeat case_match; simplify_eq; done.
Qed.

(** A header is judged by its fields.  Once at least four bytes are buffered, a length below
    the header, a length above the maximum, a complete frame with another protocol version, and a
    complete frame with a type code outside 1..45 are each rejected with their own error code and
    clear the buffer. *)
Theorem header_rejections (d : FrameDecoder) :
  4 <= Z.of_nat (length (fd_buf d)) ->
  let len := le32_at (fd_buf d) 0 in
  let complete := kHeaderBytes <= len <= fd_max_frame d /\ len <= Z.of_nat (length (fd_buf d)) in
  let rejects c := exists msg, try_emit d = (fd_reset d, failed c msg) in
  (len < kHeaderBytes -> rejects ErrorCode.ProtocolMalformed) /\
  (kHeaderBytes <= len -> fd_max_frame d < len -> rejects ErrorCode.ProtocolOversizedFrame) /\
  (complete -> le32_at (fd_buf d) 4 <> kProtocolVersion -> rejects ErrorCode.ProtocolUnknownVersion) /\
  (complete -> le32_at (fd_buf d) 4 = kProtocolVersion -> ~ 1 <= le32_at (fd_buf d) 8 <= 45 ->
     rejects ErrorCode.ProtocolUnknownType).
Proof.
  intros H4. cbv zeta. unfold try_emit.
  destruct (Z.ltb_spec (Z.of_nat (length (fd_buf d))) 4); [lia|].
  split_and!.
  - intros Hl. destruct (Z.ltb_spec (le32_at (fd_buf d) 0) kHeaderBytes); [by eexists|lia].
  - intros Hh Hl. destruct (Z.ltb_spec (le32_at (fd_buf d) 0) kHeaderBytes); [lia|].
    destruct (Z.gtb_spec (le32_at (fd_buf d) 0) (fd_max_frame d)); [by eexists|lia].
  - intros [? ?] Hv. destruct (Z.ltb_spec (le32_at (fd_buf d) 0) kHeaderBytes); [lia|].
    destruct (Z.gtb_spec (le32_at (fd_buf d) 0) (fd_max_frame d)); [lia|].
    destruct (Z.ltb_spec (Z.of_nat (length (fd_buf d))) (le32_at (fd_buf d) 0)); [lia|].
    destruct (Z.eqb_spec (le32_at (fd_buf d) 4) kProtocolVersion); [done|by eexists].
  - intros [? ?] Hv Ht. destruct (Z.ltb_spec (le32_at (fd_buf d) 0) kHeaderBytes); [lia|].
    destruct (Z.gtb_spec (le32_at (fd_buf d) 0) (fd_max_frame d)); [lia|].
    destruct (Z.ltb_spec (Z.of_nat (length (fd_buf d))) (le32_at (fd_buf d) 0)); [lia|].
    rewrite Hv. destruct (known_type (le32_at (fd_buf d) 8)) eqn:E; [|by eexists].
    by apply known_type_spec in E.
Qed.

