(* ===== verification/Messages.v ===== *)
(** * Wire messages

    The message codecs of src/protocol.cpp and include/decodefabric/messages.hpp,
    and the worker descriptor codec of src/distributed.cpp.  Each [encode_x] is
    the bytes the writer calls append, in their order; each [decode_x] is the
    reader calls in their order, with the count guards.  [x_ok] are the values of
    the C++ struct's fields (every field within its declared type), together with
    the bounds the decoder enforces; a codec of a message is a [Codec] instance
    whose laws are the round trip and the rejection of every truncation. *)

From S2P Require Import Prelude Enums Errors Ids Compatibility Types Binary Frame.

(** A count, checked against [bound], and that many items. *)
Definition w_counted {A} (w : A -> bytes) (l : list A) : bytes :=
  w_u64 (Z.of_nat (length l)) ++ mjoin (w <$> l).
Definition r_counted {A} (bound : Z) (msg : string) (m : Read A) : Read (list A) :=
  cnt <- r_u64 ;;
  if cnt >? bound then r_fail ErrorCode.ProtocolInvalidField msg else r_list (Z.to_nat cnt) m.

Definition counted_ok {A} (bound : Z) (ok : A -> bool) (l : list A) : bool :=
  (Z.of_nat (length l) <=? bound) && forallb ok l.

Lemma decodes_counted {A} bound msg (m : Read A) (w : A -> bytes) (ok : A -> bool) (l : list A) :
  in_range 64 bound = true -> (forall a, ok a = true -> decodes m (w a) a) ->
  counted_ok bound ok l = true -> decodes (r_counted bound msg m) (w_counted w l) l.
Proof.
  intros Hb%in_range_iff Hm [Hl%Z.leb_le Hok]%andb_true_iff. unfold r_counted, w_counted.
  eapply decodes_bind; [apply decodes_u64, in_range_iff; lia|].
  destruct (Z.gtb_spec (Z.of_nat (length l)) bound); [lia|]. rewrite Nat2Z.id.
  apply decodes_list, Forall_forall. intros a Ha. apply Hm.
  rewrite forallb_forall in Hok. apply Hok. by apply list_elem_of_In.
Qed.

(** The bound [1u << 18] of the protocol's member, outcome and receipt counts. *)
Definition kMaxCount : Z := Z.shiftl 1 18.

(** ** Parts shared by several messages *)

Definition write_key (k : CompatibilityKey) : bytes :=
  w_id (k_model k) ++ w_id (k_revision k) ++ w_id (k_adapter k) ++ w_enum8 (k_backend k) ++
  w_id (k_device k) ++ w_enum8 (k_dtype k) ++ w_u32 (k_tensor_layout k) ++
  w_u32 (k_kv_representation k) ++ w_u32 (k_sequence_requirements k) ++ w_u32 (k_operator_policy k).
Definition read_key : Read CompatibilityKey :=
  a <- r_id ;; b <- r_id ;; c <- r_id ;; d <- r_enum8 ;; e <- r_id ;; f <- r_enum8 ;;
  g <- r_u32 ;; h <- r_u32 ;; i <- r_u32 ;; j <- r_u32 ;;
  r_ret (mkKey a b c d e f g h i j).

Definition write_device (d : DeviceDescriptor) : bytes :=
  w_id (d_id d) ++ w_enum8 (d_backend d) ++ w_str (d_name d) ++ w_u32 (d_compute_capability_major d) ++
  w_u32 (d_compute_capability_minor d) ++ w_u64 (d_memory_bytes d) ++ w_u32 (d_supported_dtypes d) ++
  w_u32 (d_max_groups_concurrent d).
Definition read_device : Read DeviceDescriptor :=
  id <- r_id ;; bk <- r_enum8 ;; nm <- r_str ;; m <- r_u32 ;; mn <- r_u32 ;; mem <- r_u64 ;;
  sd <- r_u32 ;; mg <- r_u32 ;;
  r_ret (mkDevice id bk nm m mn mem sd mg).
Definition device_ok (d : DeviceDescriptor) : bool :=
  id_ok (d_id d) && enum_ok (d_backend d) && str_ok (d_name d) &&
  in_range 32 (d_compute_capability_major d) && in_range 32 (d_compute_capability_minor d) &&
  in_range 64 (d_memory_bytes d) && in_range 32 (d_supported_dtypes d) &&
  in_range 32 (d_max_groups_concurrent d).

Definition write_state (st : StateDescriptor) : bytes :=
  w_id (sd_id st) ++ w_u64 (sd_generation st) ++ w_id (sd_device st) ++ w_u64 (sd_bytes_held st) ++
  w_u64 (sd_estimated_growth st) ++ w_u64 (sd_owner_tag st) ++ w_u64 (sd_access_version st).
Definition read_state : Read StateDescriptor :=
  a <- r_id ;; b <- r_u64 ;; c <- r_id ;; d <- r_u64 ;; e <- r_u64 ;; f <- r_u64 ;; g <- r_u64 ;;
  r_ret (mkStateDescriptor a b c d e f g).
Definition state_ok (st : StateDescriptor) : bool :=
  id_ok (sd_id st) && in_range 64 (sd_generation st) && id_ok (sd_device st) &&
  in_range 64 (sd_bytes_held st) && in_range 64 (sd_estimated_growth st) &&
  in_range 64 (sd_owner_tag st) && in_range 64 (sd_access_version st).

Definition write_member (m : DecodeMemberSpec) : bytes :=
  w_id (ms_sequence m) ++ w_id (ms_attempt m) ++ w_id (ms_generation m) ++ write_state (ms_state m) ++
  w_u64 (ms_current_length m) ++ w_u64 (ms_generated_tokens m) ++ w_u64 (ms_remaining_budget m) ++
  w_bytes (ms_payload m).
Definition read_member : Read DecodeMemberSpec :=
  seq <- r_id ;; att <- r_id ;; gen <- r_id ;; st <- read_state ;; cl <- r_u64 ;; gt <- r_u64 ;;
  rb <- r_u64 ;; pl <- r_bytes ;;
  r_ret (mkMemberSpec seq att gen st cl gt rb pl).
Definition member_ok (m : DecodeMemberSpec) : bool :=
  id_ok (ms_sequence m) && id_ok (ms_attempt m) && id_ok (ms_generation m) && state_ok (ms_state m) &&
  in_range 64 (ms_current_length m) && in_range 64 (ms_generated_tokens m) &&
  in_range 64 (ms_remaining_budget m) && blob_ok (ms_payload m).

Definition write_outcome (mo : MemberOutcome) : bytes :=
  w_id (mo_sequence mo) ++ w_enum8 (mo_kind mo) ++ w_u64 (mo_generated mo) ++
  w_u64 (mo_token_identifier mo) ++ w_bool (mo_terminal mo) ++ w_enum32 (mo_error_code mo) ++
  w_str (mo_error_message mo) ++ w_bool (mo_retryable mo) ++ w_ns (mo_started_at mo) ++
  w_ns (mo_finished_at mo) ++ w_ns (mo_active_ns mo) ++ w_u64 (mo_kv_bytes_delta mo) ++
  w_u64 (mo_kv_bytes_after mo) ++ w_id (mo_attempt mo) ++ w_id (mo_generation mo).
Definition read_outcome : Read MemberOutcome :=
  seq <- r_id ;; k <- r_enum8 ;; gn <- r_u64 ;; tid <- r_u64 ;; te <- r_bool ;; ec <- r_enum32 ;;
  em <- r_str ;; rb <- r_bool ;; sa <- r_ns ;; fa <- r_ns ;; an <- r_ns ;; kd <- r_u64 ;; ka <- r_u64 ;;
  att <- r_id ;; gr <- r_id ;;
  r_ret (mkOutcome seq k att gr gn tid te ec em rb sa fa an kd ka).
Definition outcome_ok (mo : MemberOutcome) : bool :=
  id_ok (mo_sequence mo) && enum_ok (mo_kind mo) && id_ok (mo_attempt mo) && id_ok (mo_generation mo) &&
  in_range 64 (mo_generated mo) && in_range 64 (mo_token_identifier mo) && enum_ok (mo_error_code mo) &&
  str_ok (mo_error_message mo) && in_srange (mo_started_at mo) && in_srange (mo_finished_at mo) &&
  in_srange (mo_active_ns mo) && in_range 64 (mo_kv_bytes_delta mo) && in_range 64 (mo_kv_bytes_after mo).

(** The fields of a message, one reader call after the other. *)
Lemma decodes_eq {A} (m : Read A) bs a b : decodes m bs b -> b = a -> decodes m bs a.
Proof. by intros ? <-. Qed.

Ltac solve_decodes x :=
  let H := fresh in
  intros H;
  match goal with |- decodes ?m (?w _) _ => unfold m, w end;
  match type of H with ?f _ = true => unfold f in H end;
  repeat match goal with H : (_ && _) = true |- _ => apply andb_true_iff in H; destruct H end;
  eapply decodes_eq; [decode_fields|destruct x; simpl in *; rewrite ?negb_true_iff in *; congruence].

Lemma decodes_key k : key_ok k = true -> decodes read_key (write_key k) k.
Proof. solve_decodes k. Qed.
Lemma decodes_device d : device_ok d = true -> decodes read_device (write_device d) d.
Proof. solve_decodes d. Qed.
Lemma decodes_state st : state_ok st = true -> decodes read_state (write_state st) st.
Proof. solve_decodes st. Qed.
#[export] Hint Resolve decodes_key decodes_device decodes_state : decodes.
Lemma decodes_member m : member_ok m = true -> decodes read_member (write_member m) m.
Proof. solve_decodes m. Qed.
Lemma decodes_outcome mo : outcome_ok mo = true -> decodes read_outcome (write_outcome mo) mo.
Proof. solve_decodes mo. Qed.
#[export] Hint Resolve decodes_member decodes_outcome : decodes.

(** ** ExecuteRequest and ExecuteResult *)

Definition encode_execute_request (req : DecodeExecutionRequest) : bytes :=
  w_id (er_dispatch_id req) ++ w_id (er_epoch req) ++ w_id (er_worker req) ++ w_id (er_worker_boot req) ++
  w_u64 (er_reservation_id req) ++ write_key (er_key req) ++ write_device (er_device req) ++
  w_counted write_member (er_members req) ++ w_bytes (er_group_payload req) ++
  w_ns (er_deadline_hint_ns req).
Definition read_execute_request : Read DecodeExecutionRequest :=
  did <- r_id ;; ep <- r_id ;; wk <- r_id ;; wb <- r_id ;; rid <- r_u64 ;; key <- read_key ;;
  dev <- read_device ;; ms <- r_counted kMaxCount "member count too large" read_member ;;
  gp <- r_bytes ;; dh <- r_ns ;;
  r_ret (mkExecRequest did ep wk wb key dev rid ms gp dh).
Definition decode_execute_request : bytes -> Result DecodeExecutionRequest := run_read read_execute_request.
Definition execute_request_ok (req : DecodeExecutionRequest) : bool :=
  id_ok (er_dispatch_id req) && id_ok (er_epoch req) && id_ok (er_worker req) &&
  id_ok (er_worker_boot req) && in_range 64 (er_reservation_id req) && key_ok (er_key req) &&
  device_ok (er_device req) && counted_ok kMaxCount member_ok (er_members req) &&
  blob_ok (er_group_payload req) && in_srange (er_deadline_hint_ns req).

(** The outcome fields are written in the same order as by [write_outcome]. *)
Definition encode_execute_result (res : DecodeExecutionResult) : bytes :=
  w_id (es_dispatch_id res) ++ w_id (es_epoch res) ++ w_id (es_worker res) ++ w_id (es_worker_boot res) ++
  w_ns (es_group_active_ns res) ++ w_enum32 (es_group_error res) ++ w_str (es_group_error_message res) ++
  w_counted write_outcome (es_outcomes res).
Definition read_execute_result : Read DecodeExecutionResult :=
  did <- r_id ;; ep <- r_id ;; wk <- r_id ;; wb <- r_id ;; ga <- r_ns ;; ge <- r_enum32 ;; gem <- r_str ;;
  outs <- r_counted kMaxCount "outcome count too large" read_outcome ;;
  r_ret (mkExecResult did ep wk wb outs ga ge gem false).
Definition decode_execute_result : bytes -> Result DecodeExecutionResult := run_read read_execute_result.
(** [group_retryable] is not on the wire: the decoder leaves it at its default. *)
Definition execute_result_ok (res : DecodeExecutionResult) : bool :=
  id_ok (es_dispatch_id res) && id_ok (es_epoch res) && id_ok (es_worker res) &&
  id_ok (es_worker_boot res) && in_srange (es_group_active_ns res) && enum_ok (es_group_error res) &&
  str_ok (es_group_error_message res) && counted_ok kMaxCount outcome_ok (es_outcomes res) &&
  negb (es_group_retryable res).

Lemma decodes_counted_member l :
  counted_ok kMaxCount member_ok l = true ->
  decodes (r_counted kMaxCount "member count too large" read_member) (w_counted write_member l) l.
Proof. apply decodes_counted; [done|apply decodes_member]. Qed.
Lemma decodes_counted_outcome l :
  counted_ok kMaxCount outcome_ok l = true ->
  decodes (r_counted kMaxCount "outcome count too large" read_outcome) (w_counted write_outcome l) l.
Proof. apply decodes_counted; [done|apply decodes_outcome]. Qed.
#[export] Hint Resolve decodes_counted_member decodes_counted_outcome : decodes.

Lemma decodes_execute_request req :
  execute_request_ok req = true -> decodes read_execute_request (encode_execute_request req) req.
Proof. solve_decodes req. Qed.
Lemma decodes_execute_result res :
  execute_result_ok res = true -> decodes read_execute_result (encode_execute_result res) res.
Proof. solve_decodes res. Qed.

(** ** SubmitRequest, SubmitAck, StatusReply, SnapshotReply, Query, Explain, Authority *)

Definition encode_submit_request (req : DecodeRequest) : bytes :=
  w_id (rq_id req) ++ w_id (rq_initial_attempt req) ++ w_id (rq_tenant req) ++ w_id (rq_model req) ++
  w_id (rq_revision req) ++ w_id (rq_adapter req) ++ w_id (rq_sequence req) ++
  w_u64 (rq_prompt_length req) ++ w_u64 (rq_max_generation_length req) ++ w_u64 (rq_pregenerated req) ++
  w_u32 (rq_priority req) ++ w_u64 (rq_tenant_weight req) ++ w_enum8 (rq_latency_class req) ++
  w_ns (rq_deadline req) ++ w_ns (rq_per_token_target_ns req) ++
  w_u64 (rq_estimated_kv_growth_per_token req) ++ w_id (rq_device_constraint req) ++
  w_str (rq_sampling_metadata req) ++ write_state (rq_state req) ++ w_ns (rq_arrival req).
Definition read_submit_request : Read DecodeRequest :=
  id <- r_id ;; ia <- r_id ;; tn <- r_id ;; md <- r_id ;; rv <- r_id ;; ad <- r_id ;; sq <- r_id ;;
  pl <- r_u64 ;; mg <- r_u64 ;; pg <- r_u64 ;; pr <- r_u32 ;; wb <- r_u64 ;; lc <- r_enum8 ;;
  dl <- r_ns ;; pt <- r_ns ;; kg <- r_u64 ;; dc <- r_id ;; sm <- r_str ;; st <- read_state ;; ar <- r_ns ;;
  r_ret (mkRequest id ia tn md rv ad sq pl mg pg pr wb lc dl ar pt kg dc sm st).
Definition decode_submit_request : bytes -> Result DecodeRequest := run_read read_submit_request.
Definition request_ok (req : DecodeRequest) : bool :=
  id_ok (rq_id req) && id_ok (rq_initial_attempt req) && id_ok (rq_tenant req) && id_ok (rq_model req) &&
  id_ok (rq_revision req) && id_ok (rq_adapter req) && id_ok (rq_sequence req) &&
  in_range 64 (rq_prompt_length req) && in_range 64 (rq_max_generation_length req) &&
  in_range 64 (rq_pregenerated req) && in_range 32 (rq_priority req) && in_range 64 (rq_tenant_weight req) &&
  enum_ok (rq_latency_class req) && in_srange (rq_deadline req) && in_srange (rq_arrival req) &&
  in_srange (rq_per_token_target_ns req) && in_range 64 (rq_estimated_kv_growth_per_token req) &&
  id_ok (rq_device_constraint req) && str_ok (rq_sampling_metadata req) && state_ok (rq_state req).
Lemma decodes_submit_request req :
  request_ok req = true -> decodes read_submit_request (encode_submit_request req) req.
Proof. solve_decodes req. Qed.

Record SubmitAck := mkSubmitAck { sa_admitted : bool; sa_sequence : SequenceId; sa_reason : string }.
Definition encode_submit_ack (a : SubmitAck) : bytes :=
  w_bool (sa_admitted a) ++ w_id (sa_sequence a) ++ w_str (sa_reason a).
Definition read_submit_ack : Read SubmitAck :=
  ad <- r_bool ;; sq <- r_id ;; rs <- r_str ;; r_ret (mkSubmitAck ad sq rs).
Definition decode_submit_ack : bytes -> Result SubmitAck := run_read read_submit_ack.
Definition submit_ack_ok (a : SubmitAck) : bool := id_ok (sa_sequence a) && str_ok (sa_reason a).
Lemma decodes_submit_ack a : submit_ack_ok a = true -> decodes read_submit_ack (encode_submit_ack a) a.
Proof. solve_decodes a. Qed.

Record StatusReply := mkStatusReply {
  sr_active : Z;
  sr_ready : Z;
  sr_generated_tokens : Z;
  sr_decode_steps : Z;
  sr_groups : Z;
  sr_requests_admitted : Z;
  sr_stale_rejections : Z;
  sr_epoch : Z;
}.
Definition encode_status_reply (s : StatusReply) : bytes :=
  w_u32 (sr_active s) ++ w_u32 (sr_ready s) ++ w_u64 (sr_generated_tokens s) ++ w_u64 (sr_decode_steps s) ++
  w_u32 (sr_groups s) ++ w_u64 (sr_requests_admitted s) ++ w_u64 (sr_stale_rejections s) ++ w_u64 (sr_epoch s).
Definition read_status_reply : Read StatusReply :=
  a <- r_u32 ;; b <- r_u32 ;; c <- r_u64 ;; d <- r_u64 ;; e <- r_u32 ;; f <- r_u64 ;; g <- r_u64 ;; h <- r_u64 ;;
  r_ret (mkStatusReply a b c d e f g h).
Definition decode_status_reply : bytes -> Result StatusReply := run_read read_status_reply.
Definition status_reply_ok (s : StatusReply) : bool :=
  in_range 32 (sr_active s) && in_range 32 (sr_ready s) && in_range 64 (sr_generated_tokens s) &&
  in_range 64 (sr_decode_steps s) && in_range 32 (sr_groups s) && in_range 64 (sr_requests_admitted s) &&
  in_range 64 (sr_stale_rejections s) && in_range 64 (sr_epoch s).
Lemma decodes_status_reply s : status_reply_ok s = true -> decodes read_status_reply (encode_status_reply s) s.
Proof. solve_decodes s. Qed.

Definition encode_snapshot_reply (json : string) : bytes := w_str json.
Definition decode_snapshot_reply : bytes -> Result string := run_read r_str.

Record QueryRequest := mkQuery { q_request : RequestId; q_sequence : SequenceId; q_want_snapshot : bool }.
Definition encode_query (q : QueryRequest) : bytes :=
  w_id (q_request q) ++ w_id (q_sequence q) ++ w_bool (q_want_snapshot q).
Definition read_query : Read QueryRequest := a <- r_id ;; b <- r_id ;; c <- r_bool ;; r_ret (mkQuery a b c).
Definition decode_query : bytes -> Result QueryRequest := run_read read_query.
Definition query_ok (q : QueryRequest) : bool := id_ok (q_request q) && id_ok (q_sequence q).
Lemma decodes_query q : query_ok q = true -> decodes read_query (encode_query q) q.
Proof. solve_decodes q. Qed.

Record ExplainRequest := mkExplainRequest { xq_sequence : SequenceId; xq_question : string }.
Definition encode_explain_request (q : ExplainRequest) : bytes := w_id (xq_sequence q) ++ w_str (xq_question q).
Definition read_explain_request : Read ExplainRequest := a <- r_id ;; b <- r_str ;; r_ret (mkExplainRequest a b).
Definition decode_explain_request : bytes -> Result ExplainRequest := run_read read_explain_request.
Definition explain_request_ok (q : ExplainRequest) : bool := id_ok (xq_sequence q) && str_ok (xq_question q).
Lemma decodes_explain_request q :
  explain_request_ok q = true -> decodes read_explain_request (encode_explain_request q) q.
Proof. solve_decodes q. Qed.

Record ExplainReply := mkExplainReply { xr_text : string; xr_json : string }.
Definition encode_explain_reply (q : ExplainReply) : bytes := w_str (xr_text q) ++ w_str (xr_json q).
Definition read_explain_reply : Read ExplainReply := a <- r_str ;; b <- r_str ;; r_ret (mkExplainReply a b).
Definition decode_explain_reply : bytes -> Result ExplainReply := run_read read_explain_reply.
Definition explain_reply_ok (q : ExplainReply) : bool := str_ok (xr_text q) && str_ok (xr_json q).
Lemma decodes_explain_reply q :
  explain_reply_ok q = true -> decodes read_explain_reply (encode_explain_reply q) q.
Proof. solve_decodes q. Qed.

Record GetAuthority := mkGetAuthority { gq_sequence : SequenceId }.
Definition encode_get_authority (g : GetAuthority) : bytes := w_id (gq_sequence g).
Definition read_get_authority : Read GetAuthority := a <- r_id ;; r_ret (mkGetAuthority a).
Definition decode_get_authority : bytes -> Result GetAuthority := run_read read_get_authority.
Definition get_authority_ok (g : GetAuthority) : bool := id_ok (gq_sequence g).
Lemma decodes_get_authority g :
  get_authority_ok g = true -> decodes read_get_authority (encode_get_authority g) g.
Proof. solve_decodes g. Qed.

Record AuthorityReply := mkAuthorityReply {
  ar_exists : bool;
  ar_sequence : SequenceId;
  ar_dispatch : DispatchId;
  ar_epoch : CoordinatorEpoch;
  ar_worker : WorkerId;
  ar_worker_boot : WorkerBootId;
  ar_attempt : AttemptId;
  ar_generation : DecodeGeneration;
  ar_generated : Z;
}.
Definition encode_authority_reply (a : AuthorityReply) : bytes :=
  w_bool (ar_exists a) ++ w_id (ar_sequence a) ++ w_id (ar_dispatch a) ++ w_id (ar_epoch a) ++
  w_id (ar_worker a) ++ w_id (ar_worker_boot a) ++ w_id (ar_attempt a) ++ w_id (ar_generation a) ++
  w_u64 (ar_generated a).
Definition read_authority_reply : Read AuthorityReply :=
  e <- r_bool ;; s <- r_id ;; d <- r_id ;; p <- r_id ;; wk <- r_id ;; wb <- r_id ;; at0 <- r_id ;;
  g <- r_id ;; gn <- r_u64 ;;
  r_ret (mkAuthorityReply e s d p wk wb at0 g gn).
Definition decode_authority_reply : bytes -> Result AuthorityReply := run_read read_authority_reply.
Definition authority_reply_ok (a : AuthorityReply) : bool :=
  id_ok (ar_sequence a) && id_ok (ar_dispatch a) && id_ok (ar_epoch a) && id_ok (ar_worker a) &&
  id_ok (ar_worker_boot a) && id_ok (ar_attempt a) && id_ok (ar_generation a) && in_range 64 (ar_generated a).
Lemma decodes_authority_reply a :
  authority_reply_ok a = true -> decodes read_authority_reply (encode_authority_reply a) a.
Proof. solve_decodes a. Qed.

(** ** The transactional messages *)

Definition write_prepared (pm : PreparedMember) : bytes :=
  w_id (pm_sequence pm) ++ w_id (pm_state pm) ++ w_id (pm_attempt pm) ++ w_id (pm_generation pm) ++
  w_id (pm_dispatch pm) ++ w_id (pm_epoch pm) ++ w_id (pm_worker pm) ++ w_id (pm_worker_boot pm) ++
  w_id (pm_proposal pm) ++ w_u64 (pm_pre_state_digest pm) ++ w_u64 (pm_post_state_digest pm) ++
  w_u64 (pm_delta_digest pm) ++ w_u64 (pm_committed_position_before pm) ++
  w_u64 (pm_committed_position_after pm) ++ w_ns (pm_active_ns pm) ++ write_outcome (pm_outcome pm).
Definition read_prepared : Read PreparedMember :=
  a <- r_id ;; b <- r_id ;; c <- r_id ;; d <- r_id ;; e <- r_id ;; f <- r_id ;; g2 <- r_id ;; h <- r_id ;;
  pro <- r_id ;; pre <- r_u64 ;; post <- r_u64 ;; dd <- r_u64 ;; cb <- r_u64 ;; ca <- r_u64 ;; an <- r_ns ;;
  oc <- read_outcome ;;
  r_ret (mkPrepared a b c d e f g2 h pro pre post dd oc cb ca an).
Definition prepared_ok (pm : PreparedMember) : bool :=
  id_ok (pm_sequence pm) && id_ok (pm_state pm) && id_ok (pm_attempt pm) && id_ok (pm_generation pm) &&
  id_ok (pm_dispatch pm) && id_ok (pm_epoch pm) && id_ok (pm_worker pm) && id_ok (pm_worker_boot pm) &&
  id_ok (pm_proposal pm) && in_range 64 (pm_pre_state_digest pm) && in_range 64 (pm_post_state_digest pm) &&
  in_range 64 (pm_delta_digest pm) && outcome_ok (pm_outcome pm) &&
  in_range 64 (pm_committed_position_before pm) && in_range 64 (pm_committed_position_after pm) &&
  in_srange (pm_active_ns pm).
Lemma decodes_prepared pm : prepared_ok pm = true -> decodes read_prepared (write_prepared pm) pm.
Proof. solve_decodes pm. Qed.

Definition encode_prepared_result (res : PreparedDecode) : bytes :=
  w_id (pd_dispatch_id res) ++ w_id (pd_epoch res) ++ w_id (pd_worker res) ++ w_id (pd_worker_boot res) ++
  w_ns (pd_group_active_ns res) ++ w_enum32 (pd_group_error res) ++ w_str (pd_group_error_message res) ++
  w_counted write_prepared (pd_members res).
Definition read_prepared_result : Read PreparedDecode :=
  did <- r_id ;; ep <- r_id ;; wk <- r_id ;; wb <- r_id ;; ga <- r_ns ;; ge <- r_enum32 ;; gem <- r_str ;;
  ms <- r_counted kMaxCount "prepared member count too large" read_prepared ;;
  r_ret (mkPreparedDecode did ep wk wb ms ga ge gem).
Definition decode_prepared_result : bytes -> Result PreparedDecode := run_read read_prepared_result.
Definition prepared_result_ok (res : PreparedDecode) : bool :=
  id_ok (pd_dispatch_id res) && id_ok (pd_epoch res) && id_ok (pd_worker res) &&
  id_ok (pd_worker_boot res) && counted_ok kMaxCount prepared_ok (pd_members res) &&
  in_srange (pd_group_active_ns res) && enum_ok (pd_group_error res) && str_ok (pd_group_error_message res).

Definition encode_commit_grant (g : CommitGrant) : bytes :=
  w_id (g_grant_id g) ++ w_id (g_proposal g) ++ w_id (g_epoch g) ++ w_id (g_worker g) ++
  w_id (g_worker_boot g) ++ w_id (g_sequence g) ++ w_id (g_state g) ++ w_id (g_attempt g) ++
  w_id (g_generation g) ++ w_id (g_dispatch g) ++ w_u64 (g_committed_position g) ++
  w_u64 (g_pre_state_digest g) ++ w_u64 (g_post_state_digest g) ++ w_u64 (g_delta_digest g) ++
  w_enum8 (g_outcome_kind g) ++ w_bool (g_terminal g) ++ w_u32 (g_token_identifier g) ++ w_ns (g_active_ns g).
Definition read_commit_grant : Read CommitGrant :=
  gid <- r_id ;; pro <- r_id ;; ep <- r_id ;; wk <- r_id ;; wb <- r_id ;; sq <- r_id ;; st <- r_id ;;
  att <- r_id ;; gn <- r_id ;; di <- r_id ;; cp <- r_u64 ;; pre <- r_u64 ;; post <- r_u64 ;; dd <- r_u64 ;;
  ok <- r_enum8 ;; term <- r_bool ;; tok <- r_u32 ;; an <- r_ns ;;
  r_ret (mkGrant gid pro ep wk wb sq st att gn di cp pre post dd ok term tok an).
Definition decode_commit_grant : bytes -> Result CommitGrant := run_read read_commit_grant.
Definition grant_ok (g : CommitGrant) : bool :=
  id_ok (g_grant_id g) && id_ok (g_proposal g) && id_ok (g_epoch g) && id_ok (g_worker g) &&
  id_ok (g_worker_boot g) && id_ok (g_sequence g) && id_ok (g_state g) && id_ok (g_attempt g) &&
  id_ok (g_generation g) && id_ok (g_dispatch g) && in_range 64 (g_committed_position g) &&
  in_range 64 (g_pre_state_digest g) && in_range 64 (g_post_state_digest g) &&
  in_range 64 (g_delta_digest g) && enum_ok (g_outcome_kind g) && in_range 32 (g_token_identifier g) &&
  in_srange (g_active_ns g).
Lemma decodes_commit_grant g : grant_ok g = true -> decodes read_commit_grant (encode_commit_grant g) g.
Proof. solve_decodes g. Qed.

Definition write_receipt (rc : MemberReceipt) : bytes :=
  w_id (rc_receipt_id rc) ++ w_id (rc_grant_id rc) ++ w_id (rc_proposal rc) ++ w_id (rc_epoch rc) ++
  w_id (rc_worker rc) ++ w_id (rc_worker_boot rc) ++ w_id (rc_sequence rc) ++ w_id (rc_state rc) ++
  w_id (rc_attempt rc) ++ w_id (rc_generation rc) ++ w_id (rc_dispatch rc) ++
  w_u64 (rc_committed_position_before rc) ++ w_u64 (rc_committed_position_after rc) ++
  w_u64 (rc_pre_state_digest rc) ++ w_u64 (rc_post_state_digest rc) ++ w_u64 (rc_delta_digest rc) ++
  w_enum8 (rc_outcome_kind rc) ++ w_bool (rc_terminal rc) ++ w_u32 (rc_token_identifier rc) ++
  w_ns (rc_active_ns rc) ++ w_ns (rc_committed_at rc).
Definition read_receipt : Read MemberReceipt :=
  a <- r_id ;; b <- r_id ;; c <- r_id ;; d <- r_id ;; e <- r_id ;; f <- r_id ;; g2 <- r_id ;; h <- r_id ;;
  i2 <- r_id ;; j <- r_id ;; k <- r_id ;; cb <- r_u64 ;; ca <- r_u64 ;; pre <- r_u64 ;; post <- r_u64 ;;
  dd <- r_u64 ;; ok <- r_enum8 ;; term <- r_bool ;; tok <- r_u32 ;; an <- r_ns ;; cat <- r_ns ;;
  r_ret (mkReceipt a b c d e f g2 h i2 j k cb ca pre post dd ok term tok an cat).
Definition receipt_ok (rc : MemberReceipt) : bool :=
  id_ok (rc_receipt_id rc) && id_ok (rc_grant_id rc) && id_ok (rc_proposal rc) && id_ok (rc_epoch rc) &&
  id_ok (rc_worker rc) && id_ok (rc_worker_boot rc) && id_ok (rc_sequence rc) && id_ok (rc_state rc) &&
  id_ok (rc_attempt rc) && id_ok (rc_generation rc) && id_ok (rc_dispatch rc) &&
  in_range 64 (rc_committed_position_before rc) && in_range 64 (rc_committed_position_after rc) &&
  in_range 64 (rc_pre_state_digest rc) && in_range 64 (rc_post_state_digest rc) &&
  in_range 64 (rc_delta_digest rc) && enum_ok (rc_outcome_kind rc) && in_range 32 (rc_token_identifier rc) &&
  in_srange (rc_active_ns rc) && in_srange (rc_committed_at rc).
Lemma decodes_receipt rc : receipt_ok rc = true -> decodes read_receipt (write_receipt rc) rc.
Proof. solve_decodes rc. Qed.

Definition encode_commit_receipts (res : ReceiptDecode) : bytes :=
  w_id (rd_dispatch_id res) ++ w_id (rd_epoch res) ++ w_id (rd_worker res) ++ w_id (rd_worker_boot res) ++
  w_enum32 (rd_group_error res) ++ w_str (rd_group_error_message res) ++
  w_counted write_receipt (rd_receipts res).
Definition read_commit_receipts : Read ReceiptDecode :=
  did <- r_id ;; ep <- r_id ;; wk <- r_id ;; wb <- r_id ;; ge <- r_enum32 ;; gem <- r_str ;;
  rs <- r_counted kMaxCount "receipt count too large" read_receipt ;;
  r_ret (mkReceiptDecode did ep wk wb rs ge gem).
Definition decode_commit_receipts : bytes -> Result ReceiptDecode := run_read read_commit_receipts.
Definition commit_receipts_ok (res : ReceiptDecode) : bool :=
  id_ok (rd_dispatch_id res) && id_ok (rd_epoch res) && id_ok (rd_worker res) &&
  id_ok (rd_worker_boot res) && counted_ok kMaxCount receipt_ok (rd_receipts res) &&
  enum_ok (rd_group_error res) && str_ok (rd_group_error_message res).

Definition encode_abort_prepared (a : AbortPrepared) : bytes :=
  w_id (ab_proposal a) ++ w_id (ab_sequence a) ++ w_id (ab_state a) ++ w_id (ab_attempt a) ++
  w_id (ab_generation a) ++ w_id (ab_dispatch a) ++ w_id (ab_epoch a) ++ w_id (ab_worker a) ++
  w_id (ab_worker_boot a).
Definition read_abort_prepared : Read AbortPrepared :=
  pro <- r_id ;; sq <- r_id ;; st <- r_id ;; att <- r_id ;; gn <- r_id ;; di <- r_id ;; ep <- r_id ;;
  wk <- r_id ;; wb <- r_id ;;
  r_ret (mkAbort pro sq st att gn di ep wk wb).
Definition decode_abort_prepared : bytes -> Result AbortPrepared := run_read read_abort_prepared.
Definition abort_ok (a : AbortPrepared) : bool :=
  id_ok (ab_proposal a) && id_ok (ab_sequence a) && id_ok (ab_state a) && id_ok (ab_attempt a) &&
  id_ok (ab_generation a) && id_ok (ab_dispatch a) && id_ok (ab_epoch a) && id_ok (ab_worker a) &&
  id_ok (ab_worker_boot a).
Lemma decodes_abort_prepared a : abort_ok a = true -> decodes read_abort_prepared (encode_abort_prepared a) a.
Proof. solve_decodes a. Qed.

(** ** The worker descriptor of the Hello frame (src/distributed.cpp) *)

Definition kMaxModels : Z := 4096.

Definition enc_worker (w : WorkerDescriptor) : bytes :=
  w_id (wk_id w) ++ w_id (wk_boot_id w) ++ w_enum8 (wk_health w) ++ w_u64 (wk_advertised_capacity w) ++
  w_u64 (wk_active_reservations w) ++ w_u64 (wk_generation w) ++ w_id (d_id (wk_device w)) ++
  w_enum8 (d_backend (wk_device w)) ++ w_str (d_name (wk_device w)) ++ w_u64 (d_memory_bytes (wk_device w)) ++
  w_u32 (d_compute_capability_major (wk_device w)) ++ w_u32 (d_compute_capability_minor (wk_device w)) ++
  w_u32 (d_supported_dtypes (wk_device w)) ++ w_u32 (d_max_groups_concurrent (wk_device w)) ++
  w_counted write_key (wk_supported_models w).
Definition read_worker : Read WorkerDescriptor :=
  a <- r_id ;; b <- r_id ;; c <- r_enum8 ;; d <- r_u64 ;; e <- r_u64 ;; f <- r_u64 ;; g <- r_id ;;
  h <- r_enum8 ;; i <- r_str ;; j <- r_u64 ;; m1 <- r_u32 ;; m2 <- r_u32 ;; m3 <- r_u32 ;; m4 <- r_u32 ;;
  ks <- r_counted kMaxModels "too many models" read_key ;;
  r_ret (mkWorker a b (mkDevice g h i m1 m2 j m3 m4) c d e ks f).
Definition dec_worker : bytes -> Result WorkerDescriptor := run_read read_worker.
Definition worker_ok (w : WorkerDescriptor) : bool :=
  id_ok (wk_id w) && id_ok (wk_boot_id w) && device_ok (wk_device w) && enum_ok (wk_health w) &&
  in_range 64 (wk_advertised_capacity w) && in_range 64 (wk_active_reservations w) &&
  counted_ok kMaxModels key_ok (wk_supported_models w) && in_range 64 (wk_generation w).

Lemma decodes_counted_prepared l :
  counted_ok kMaxCount prepared_ok l = true ->
  decodes (r_counted kMaxCount "prepared member count too large" read_prepared) (w_counted write_prepared l) l.
Proof. apply decodes_counted; [done|apply decodes_prepared]. Qed.
Lemma decodes_counted_receipt l :
  counted_ok kMaxCount receipt_ok l = true ->
  decodes (r_counted kMaxCount "receipt count too large" read_receipt) (w_counted write_receipt l) l.
Proof. apply decodes_counted; [done|apply decodes_receipt]. Qed.
Lemma decodes_counted_key l :
  counted_ok kMaxModels key_ok l = true ->
  decodes (r_counted kMaxModels "too many models" read_key) (w_counted write_key l) l.
Proof. apply decodes_counted; [done|apply decodes_key]. Qed.
#[export] Hint Resolve decodes_counted_prepared decodes_counted_receipt decodes_counted_key : decodes.

Lemma decodes_prepared_result res :
  prepared_result_ok res = true -> decodes read_prepared_result (encode_prepared_result res) res.
Proof. solve_decodes res. Qed.
Lemma decodes_commit_receipts res :
  commit_receipts_ok res = true -> decodes read_commit_receipts (encode_commit_receipts res) res.
Proof. solve_decodes res. Qed.
Lemma decodes_worker w : worker_ok w = true -> decodes read_worker (enc_worker w) w.
Proof.
  intros H. unfold worker_ok, device_ok in H.
  repeat match goal with H : (_ && _) = true |- _ => apply andb_true_iff in H; destruct H end.
  unfold read_worker, enc_worker. eapply decodes_eq; [decode_fields|].
  by destruct w as [? ? [] ? ? ? ? ?].
Qed.

#[export] Instance execute_request_codec : Codec DecodeExecutionRequest :=
  codec_of _ _ _ decodes_execute_request.
#[export] Instance execute_result_codec : Codec DecodeExecutionResult :=
  codec_of _ _ _ decodes_execute_result.
#[export] Instance submit_request_codec : Codec DecodeRequest := codec_of _ _ _ decodes_submit_request.
#[export] Instance submit_ack_codec : Codec SubmitAck := codec_of _ _ _ decodes_submit_ack.
#[export] Instance status_reply_codec : Codec StatusReply := codec_of _ _ _ decodes_status_reply.
#[export] Instance snapshot_reply_codec : Codec string := codec_of encode_snapshot_reply r_str str_ok decodes_str.
#[export] Instance query_codec : Codec QueryRequest := codec_of _ _ _ decodes_query.
#[export] Instance explain_request_codec : Codec ExplainRequest := codec_of _ _ _ decodes_explain_request.
#[export] Instance explain_reply_codec : Codec ExplainReply := codec_of _ _ _ decodes_explain_reply.
#[export] Instance get_authority_codec : Codec GetAuthority := codec_of _ _ _ decodes_get_authority.
#[export] Instance authority_reply_codec : Codec AuthorityReply := codec_of _ _ _ decodes_authority_reply.
#[export] Instance prepared_result_codec : Codec PreparedDecode := codec_of _ _ _ decodes_prepared_result.
#[export] Instance commit_grant_codec : Codec CommitGrant := codec_of _ _ _ decodes_commit_grant.
#[export] Instance commit_receipts_codec : Codec ReceiptDecode := codec_of _ _ _ decodes_commit_receipts.
#[export] Instance abort_prepared_codec : Codec AbortPrepared := codec_of _ _ _ decodes_abort_prepared.
#[export] Instance worker_codec : Codec WorkerDescriptor := codec_of _ _ _ decodes_worker.

(** ** Messages on a connection

    The message a frame type carries, with the encoder its sender calls and the
    decoder its receiver calls ([run_coordinator], [run_worker], the clients). *)

Inductive Message :=
  | MHello (w : WorkerDescriptor)
  | MExecuteRequest (req : DecodeExecutionRequest)
  | MExecuteResult (res : DecodeExecutionResult)
  | MPreparedResult (res : PreparedDecode)
  | MCommitGrant (g : CommitGrant)
  | MCommitReceipt (rs : ReceiptDecode)
  | MAbortPrepared (a : AbortPrepared)
  | MSubmitRequest (req : DecodeRequest)
  | MCancelRequest (q : QueryRequest)
  | MStatusReply (s : StatusReply)
  | MSnapshotReply (json : string)
  | MExplainRequest (q : ExplainRequest)
  | MExplainReply (r : ExplainReply)
  | MGetAuthority (g : GetAuthority)
  | MAuthorityReply (a : AuthorityReply)
  | MSubmitAck (a : SubmitAck).

(** The frame type and the payload of each [send_frame] call. *)
Definition message_frame (m : Message) : FrameType * bytes :=
  match m with
  | MHello w => (FrameType.Hello, enc_worker w)
  | MExecuteRequest req => (FrameType.ExecuteRequest, encode_execute_request req)
  | MExecuteResult res => (FrameType.ExecuteResult, encode_execute_result res)
  | MPreparedResult res => (FrameType.PreparedResult, encode_prepared_result res)
  | MCommitGrant g => (FrameType.CommitGrant, encode_commit_grant g)
  | MCommitReceipt rs => (FrameType.CommitReceipt, encode_commit_receipts rs)
  | MAbortPrepared a => (FrameType.AbortPrepared, encode_abort_prepared a)
  | MSubmitRequest req => (FrameType.SubmitRequest, encode_submit_request req)
  | MCancelRequest q => (FrameType.CancelRequest, encode_query q)
  | MStatusReply s => (FrameType.StatusReply, encode_status_reply s)
  | MSnapshotReply json => (FrameType.SnapshotReply, encode_snapshot_reply json)
  | MExplainRequest q => (FrameType.ExplainRequest, encode_explain_request q)
  | MExplainReply r => (FrameType.ExplainReply, encode_explain_reply r)
  | MGetAuthority g => (FrameType.GetAuthority, encode_get_authority g)
  | MAuthorityReply a => (FrameType.AuthorityReply, encode_authority_reply a)
  | MSubmitAck a => (FrameType.SubmitAck, encode_submit_ack a)
  end.

Definition with_msg {A} (c : A -> Message) (r : Result A) : Result Message :=
  match r with Ok a => Ok (c a) | Err e => Err e end.

(** The receiver's choice of decoder; [None] for a frame without a decoded payload. *)
Definition message_of_frame (f : Frame) : option (Result Message) :=
  let p := fr_payload f in
  match fr_type f with
  | FrameType.Hello => Some (with_msg MHello (dec_worker p))
  | FrameType.ExecuteRequest => Some (with_msg MExecuteRequest (decode_execute_request p))
  | FrameType.ExecuteResult => Some (with_msg MExecuteResult (decode_execute_result p))
  | FrameType.PreparedResult => Some (with_msg MPreparedResult (decode_prepared_result p))
  | FrameType.CommitGrant => Some (with_msg MCommitGrant (decode_commit_grant p))
  | FrameType.CommitReceipt => Some (with_msg MCommitReceipt (decode_commit_receipts p))
  | FrameType.AbortPrepared => Some (with_msg MAbortPrepared (decode_abort_prepared p))
  | FrameType.SubmitRequest => Some (with_msg MSubmitRequest (decode_submit_request p))
  | FrameType.CancelRequest => Some (with_msg MCancelRequest (decode_query p))
  | FrameType.StatusReply => Some (with_msg MStatusReply (decode_status_reply p))
  | FrameType.SnapshotReply => Some (with_msg MSnapshotReply (decode_snapshot_reply p))
  | FrameType.ExplainRequest => Some (with_msg MExplainRequest (decode_explain_request p))
  | FrameType.ExplainReply => Some (with_msg MExplainReply (decode_explain_reply p))
  | FrameType.GetAuthority => Some (with_msg MGetAuthority (decode_get_authority p))
  | FrameType.AuthorityReply => Some (with_msg MAuthorityReply (decode_authority_reply p))
  | FrameType.SubmitAck => Some (with_msg MSubmitAck (decode_submit_ack p))
  | _ => None
  end.

(** The message's fields are values of their C++ types, within the decoder's bounds. *)
Definition message_ok (m : Message) : bool :=
  match m with
  | MHello w => worker_ok w
  | MExecuteRequest req => execute_request_ok req
  | MExecuteResult res => execute_result_ok res
  | MPreparedResult res => prepared_result_ok res
  | MCommitGrant g => grant_ok g
  | MCommitReceipt rs => commit_receipts_ok rs
  | MAbortPrepared a => abort_ok a
  | MSubmitRequest req => request_ok req
  | MCancelRequest q => query_ok q
  | MStatusReply s => status_reply_ok s
  | MSnapshotReply json => str_ok json
  | MExplainRequest q => explain_request_ok q
  | MExplainReply r => explain_reply_ok r
  | MGetAuthority g => get_authority_ok g
  | MAuthorityReply a => authority_reply_ok a
  | MSubmitAck a => submit_ack_ok a
  end.

(** Its frame fits the receiver's maximum. *)
Definition message_fits (max : Z) (m : Message) : bool :=
  kHeaderBytes + Z.of_nat (length (message_frame m).2) <=? max.

Lemma with_msg_decodes {A} (c : A -> Message) (m : Read A) bs a tail :
  decodes m bs a -> Some (with_msg c (run_read m (bs ++ tail))) = Some (Ok (c a)).
Proof. intros H. by rewrite (run_read_decodes m bs a tail H). Qed.

#[local] Hint Resolve decodes_worker decodes_execute_request decodes_execute_result decodes_prepared_result
  decodes_commit_grant decodes_commit_receipts decodes_abort_prepared decodes_submit_request decodes_query
  decodes_status_reply decodes_explain_request decodes_explain_reply decodes_get_authority
  decodes_authority_reply decodes_submit_ack : decodes.

Lemma message_of_frame_encode (m : Message) (tail : bytes) :
  message_ok m = true ->
  message_of_frame (frame_of (message_frame m).1 ((message_frame m).2 ++ tail)) = Some (Ok m).
Proof.
  destruct m; cbn [message_ok]; intros H; apply with_msg_decodes; cbn [message_frame snd];
    first [apply decodes_str; exact H | eauto with decodes nocore].
Qed.

Lemma message_frame_ok max m :
  in_range 32 max = true -> message_fits max m = true -> frame_ok max (message_frame m).1 (message_frame m).2 = true.
Proof.
  unfold frame_ok, message_fits. intros -> ->. rewrite !andb_true_r. destruct m; reflexivity.
Qed.

(** C37: messages survive the connection.  Whatever chunks the socket cuts the sender's stream into,
    [n] calls of [recv_frame] return frames from which the receiver decodes exactly the messages
    sent, in order, for all sixteen message kinds of the protocol; the messages have fields within their C++ types and
    fit the maximum frame size. *)
Theorem messages_delivered (max : Z) (msgs : list Message) (chunks : list bytes) (rest : bytes) :
  in_range 32 max = true -> Forall (fun m => message_ok m = true /\ message_fits max m = true) msgs ->
  mjoin chunks = encode_stream (message_frame <$> msgs) ++ rest ->
  let '(frames, r) := recv_frames (length msgs) (new_decoder max) chunks in
  r = Ok tt /\ message_of_frame <$> frames = (fun m => Some (Ok m)) <$> msgs.
Proof.
  intros Hmax Hall Hs.
  assert (Hf : Forall (fun m => frame_ok max m.1 m.2 = true) (message_frame <$> msgs)).
  { apply Forall_fmap. eapply Forall_impl; [exact Hall|]. intros m [_ Hm]. by apply message_frame_ok. }
  pose proof (recv_frames_stream max (message_frame <$> msgs) [] chunks rest Hf Hs) as Hr.
  rewrite length_fmap in Hr. unfold new_decoder. rewrite Hr. split; [done|].
  rewrite <- !list_fmap_compose. apply list_fmap_ext. intros i m Hi.
  rewrite Forall_lookup in Hall. destruct (Hall i m Hi) as [Hm _]. cbn.
  pose proof (message_of_frame_encode m [] Hm) as He. by rewrite app_nil_r in He.
Qed.

Lemma messages_delivered_witness :
  let msgs := [MCancelRequest (mkQuery (mkId 7) (mkId 9) true); MGetAuthority (mkGetAuthority (mkId 9))] in
  let stream := encode_stream (message_frame <$> msgs) in
  let '(frames, r) := recv_frames 2 (new_decoder 1024) [take 3 stream; drop 3 stream] in
  r = Ok tt /\ message_of_frame <$> frames = (fun m => Some (Ok m)) <$> msgs.
Proof.
  apply (messages_delivered 1024
    [MCancelRequest (mkQuery (mkId 7) (mkId 9) true); MGetAuthority (mkGetAuthority (mkId 9))] _ []).
  - reflexivity.
  - repeat constructor.
  - reflexivity.
Defined.

(** C38: no message is accepted in part.  For every message kind, a frame whose payload is a strict
    prefix of the encoding is rejected by its decoder with the truncation error. *)
Theorem messages_truncation_rejected (m : Message) (p : bytes) :
  message_ok m = true -> p `prefix_of` (message_frame m).2 -> p <> (message_frame m).2 ->
  exists msg, message_of_frame (frame_of (message_frame m).1 p) =
    Some (failed ErrorCode.PersistenceTruncated msg).
Proof.
  assert (K : forall A (c : A -> Message) (rd : Read A) bs a, decodes rd bs a -> p `prefix_of` bs -> p <> bs ->
    exists msg, Some (with_msg c (run_read rd p)) = Some (failed ErrorCode.PersistenceTruncated msg)).
  { intros A c rd bs a Hd Hp Hn. destruct (run_read_truncated rd bs a p Hd Hp Hn) as [msg ->]. by exists msg. }
  destruct m; cbn [message_ok message_frame fst snd]; intros H Hp Hn; eapply K; try eassumption;
    first [apply decodes_str; exact H | eauto with decodes nocore].
Qed.

Lemma messages_truncation_rejected_witness :
  exists msg, message_of_frame (frame_of FrameType.GetAuthority [9; 0; 0]) =
    Some (failed ErrorCode.PersistenceTruncated msg).
Proof.
  apply (messages_truncation_rejected (MGetAuthority (mkGetAuthority (mkId 9))) [9; 0; 0]).
  - reflexivity.
  - exists [0; 0; 0; 0; 0]. reflexivity.
  - discriminate.
Defined.

(** A reader call that rejects the bytes in front of it. *)
Definition rejects {A} (m : Read A) (bs : bytes) (e : Error) : Prop :=
  forall pre post, m (mkReader (pre ++ bs ++ post) (length pre)) = Err e.

Lemma rejects_bind {A B} (m : Read A) (k : A -> Read B) bs bs' a e :
  decodes m bs a -> rejects (k a) bs' e -> rejects (r_bind m k) (bs ++ bs') e.
Proof.
  intros [Hr _] Hk pre post. unfold r_bind. rewrite <- app_assoc, Hr.
  specialize (Hk (pre ++ bs) post). by rewrite length_app, <- app_assoc in Hk.
Qed.

Lemma rejects_now {A B} (m : Read A) (k : A -> Read B) bs e : rejects m bs e -> rejects (r_bind m k) bs e.
Proof. intros Hm pre post. unfold r_bind. by rewrite Hm. Qed.

Lemma rejects_counted {A} bound msg (m : Read A) cnt :
  in_range 64 cnt = true -> bound < cnt ->
  rejects (r_counted bound msg m) (w_u64 cnt) (mkError ErrorCode.ProtocolInvalidField msg).
Proof.
  intros Hc Hb pre post. unfold r_counted, r_bind. rewrite (proj1 (decodes_u64 cnt Hc)).
  destruct (Z.gtb_spec cnt bound); [done|lia].
Qed.

Lemma run_read_rejects {A} (m : Read A) bs e tail : rejects m bs e -> run_read m (bs ++ tail) = Err e.
Proof. intros Hm. unfold run_read. specialize (Hm [] tail). cbn in Hm. by rewrite Hm. Qed.

Ltac solve_rejects :=
  apply run_read_rejects;
  repeat match goal with
  | |- rejects (r_bind (r_counted _ _ _) _) _ _ => apply rejects_now, rejects_counted; assumption
  | |- rejects (r_bind _ _) (_ ++ _) _ => eapply rejects_bind; [solve [eauto with decodes nocore]|]
  end.

(** A declared count is checked before anything is allocated or read.  A prepared result, a
    commit receipt or an execution result whose member count exceeds 2^18 is rejected with
    ProtocolInvalidField whatever bytes follow, for every valid header. *)
Lemma oversized_count_rejected (did : DispatchId) (ep : CoordinatorEpoch) (wk : WorkerId)
    (wb : WorkerBootId) (active_ns : Z) (err : ErrorCode) (msg : string) (cnt : Z) (rest : bytes) :
  id_ok did && id_ok ep && id_ok wk && id_ok wb && in_srange active_ns && enum_ok err && str_ok msg = true ->
  in_range 64 cnt = true -> kMaxCount < cnt ->
  let timed := (w_id did ++ w_id ep ++ w_id wk ++ w_id wb ++ w_ns active_ns ++ w_enum32 err ++ w_str msg ++ w_u64 cnt) ++ rest in
  let untimed := (w_id did ++ w_id ep ++ w_id wk ++ w_id wb ++ w_enum32 err ++ w_str msg ++ w_u64 cnt) ++ rest in
  decode_prepared_result timed = failed ErrorCode.ProtocolInvalidField "prepared member count too large" /\
  decode_execute_result timed = failed ErrorCode.ProtocolInvalidField "outcome count too large" /\
  decode_commit_receipts untimed = failed ErrorCode.ProtocolInvalidField "receipt count too large".
Proof.
  intros H Hc Hb. cbv zeta.
  repeat match goal with H : (_ && _) = true |- _ => apply andb_true_iff in H; destruct H end.
  unfold decode_prepared_result, decode_execute_result, decode_commit_receipts,
    read_prepared_result, read_execute_result, read_commit_receipts.
  split_and!; solve_rejects.
Qed.

