(* ===== verification/MessageTypes.v ===== *)
(** * What a decoder accepts is well typed

    The wire decoders are given whatever bytes arrive.  [typed m ok] states that on any byte stream a
    reader call either fails or returns a value that satisfies [ok], that is, a value of the C++ types of
    its fields within the decoder's bounds.  It is closed under sequencing, so every message reader is
    typed field by field, and the frames a connection delivers carry well-typed messages. *)

From S2P Require Import Prelude Enums Errors Ids Compatibility Types Binary Frame Messages.
From Stdlib Require Import Ascii String.
Open Scope Z_scope.

Definition typed {A} (m : Read A) (ok : A -> bool) : Prop :=
  forall r a r', are_bytes (rd_data r) -> m r = Ok (a, r') -> ok a = true /\ rd_data r' = rd_data r.

(** ** Sequencing *)

Lemma typed_ret {A} (ok : A -> bool) (a : A) : ok a = true -> typed (r_ret a) ok.
Proof. by intros Ha r ? ? _ [= <- <-]. Qed.

Lemma typed_fail {A} (ok : A -> bool) c msg : typed (r_fail (A := A) c msg) ok.
Proof. by intros r a r' _ ?. Qed.

Lemma typed_bind {A B} (ok1 : A -> bool) (ok2 : B -> bool) (m : Read A) (k : A -> Read B) :
  typed m ok1 -> (forall a, ok1 a = true -> typed (k a) ok2) -> typed (r_bind m k) ok2.
Proof.
  intros Hm Hk r b r' Hr. unfold r_bind. destruct (m r) as [[a r1]|e] eqn:E; [|done]. intros Ek.
  destruct (Hm r a r1 Hr E) as [Ha Hd]. rewrite <- Hd in Hr |- *. by apply (Hk a Ha).
Qed.

Lemma typed_map {A B} (ok1 : A -> bool) (ok2 : B -> bool) (m : Read A) (f : A -> B) :
  typed m ok1 -> (forall a, ok1 a = true -> ok2 (f a) = true) -> typed (a <- m ;; r_ret (f a)) ok2.
Proof. intros Hm Hf. apply (typed_bind ok1); [done|]. intros a Ha. by apply typed_ret, Hf. Qed.

Lemma typed_list {A} (ok : A -> bool) (m : Read A) n :
  typed m ok -> typed (r_list n m) (fun l => (List.length l =? n)%nat && forallb ok l).
Proof.
  intros Hm. induction n as [|n IH]; cbn [r_list]; [by apply typed_ret|].
  apply (typed_bind ok); [done|]. intros a Ha. eapply typed_map; [exact IH|]. cbn. intros l Hl.
  by rewrite Ha.
Qed.

(** ** The fields *)

Lemma byte_at_byte r i : are_bytes (rd_data r) -> is_byte (byte_at r i) = true.
Proof.
  intros Hr. unfold byte_at. destruct (rd_data r !! _) eqn:E; [|done]. exact (Forall_lookup_1 _ _ _ _ Hr E).
Qed.

Lemma typed_fixed n : typed (r_fixed n) (in_range (8 * Z.of_nat n)).
Proof.
  intros r a r' Hr. unfold r_fixed. case_bool_decide; [done|]. intros [= <- <-]. split; [|done].
  apply le_value_range. intros i _. by apply byte_at_byte.
Qed.
Lemma typed_u64 : typed r_u64 (in_range 64).
Proof. exact (typed_fixed 8). Qed.
Lemma typed_u32 : typed r_u32 (in_range 32).
Proof. exact (typed_fixed 4). Qed.

Lemma typed_counted {A} (ok : A -> bool) (m : Read A) bound msg :
  typed m ok -> typed (r_counted bound msg m) (counted_ok bound ok).
Proof.
  intros Hm. apply (typed_bind (in_range 64)); [apply typed_u64|].
  intros cnt [Hc _]%in_range_iff. destruct (Z.gtb_spec cnt bound); [apply typed_fail|].
  intros r l r' Hr E. destruct (typed_list ok m _ Hm r l r' Hr E) as [Hl Hd]. split; [|done].
  apply andb_true_iff in Hl as [Hn Hf]. apply Nat.eqb_eq in Hn. unfold counted_ok. rewrite Hf, andb_true_r.
  apply Z.leb_le. lia.
Qed.

Lemma typed_u8 : typed r_u8 (in_range 8).
Proof.
  intros r a r' Hr. unfold r_u8. case_bool_decide; [done|]. intros [= <- <-]. split; [|done]. by apply byte_at_byte.
Qed.

Lemma to_s64_srange z : in_srange (to_s64 z) = true.
Proof.
  apply in_srange_iff. unfold to_s64, wrap. pose proof (Z.mod_pos_bound z (2 ^ 64)).
  destruct (Z.ltb_spec (z mod 2 ^ 64) (2 ^ 63)); lia.
Qed.
Lemma typed_ns : typed r_ns in_srange.
Proof. eapply typed_map; [apply typed_u64|]. intros. apply to_s64_srange. Qed.
Lemma typed_id {t} : typed (r_id (t := t)) id_ok.
Proof. eapply typed_map; [apply typed_u64|]. done. Qed.
Lemma typed_bool : typed r_bool (fun _ => true).
Proof. eapply typed_map; [apply typed_u8|]. done. Qed.

Lemma typed_bytes : typed r_bytes blob_ok.
Proof.
  apply (typed_bind (in_range 64)); [apply typed_u64|]. intros n Hn r l r' Hr.
  destruct (Z.gtb_spec n (Z.of_nat (List.length (rd_data r)) - Z.of_nat (rd_pos r))); [done|].
  destruct (Z.gtb_spec n (2 ^ 32)); [done|]. intros [= <- <-]. split; [|done].
  apply Z.leb_le. rewrite length_take. lia.
Qed.

Lemma length_string_bytes l : List.length (string_bytes (bytes_string l)) = List.length l.
Proof.
  unfold string_bytes, bytes_string. by rewrite list_ascii_of_string_of_list_ascii, !length_map.
Qed.
Lemma typed_str : typed r_str str_ok.
Proof.
  eapply typed_map; [apply typed_bytes|]. intros l. unfold str_ok, blob_ok. by rewrite length_string_bytes.
Qed.

(** ** Enumerations: a cast of a value of the underlying type is a value of the enumeration *)

Class CastOk (E : Type) `{CEnum E} :=
  enum_of_ok : forall z, in_range enum_width z = true -> enum_ok (enum_of z) = true.

Lemma enum_cast_ok {E} (code : E -> Z) table unnamed (ok : E -> bool) w z :
  forallb ok table = true ->
  (forall c, ok (unnamed c) = in_range w c && negb (existsb (fun e => code e =? c) table)) ->
  in_range w z = true -> ok (enum_cast code table unnamed z) = true.
Proof.
  intros Ht Hu Hz. unfold enum_cast, enum_find. destruct (List.find _ table) as [e|] eqn:Ef.
  - apply List.find_some in Ef as [Hi _]. by apply (proj1 (forallb_forall ok table) Ht).
  - rewrite Hu, Hz. apply negb_true_iff, not_true_iff_false. intros (e & Hi & He)%existsb_exists.
    pose proof (List.find_none _ _ Ef e Hi). congruence.
Qed.

#[export] Instance ErrorCode_cast : CastOk ErrorCode.
Proof. intros z. by apply enum_cast_ok. Qed.
#[export] Instance BackendKind_cast : CastOk BackendKind.
Proof. intros z. by apply enum_cast_ok. Qed.
#[export] Instance DType_cast : CastOk DType.
Proof. intros z. by apply enum_cast_ok. Qed.
#[export] Instance LatencyClass_cast : CastOk LatencyClass.
Proof. intros z. by apply enum_cast_ok. Qed.
#[export] Instance MemberOutcomeKind_cast : CastOk MemberOutcomeKind.
Proof. intros z. by apply enum_cast_ok. Qed.
#[export] Instance WorkerHealth_cast : CastOk WorkerHealth.
Proof. intros z. by apply enum_cast_ok. Qed.

Lemma typed_enum8 {E} `{CastOk E} : enum_width = 8 -> typed (r_enum8 (E := E)) enum_ok.
Proof. intros Hw. eapply typed_map; [apply typed_u8|]. intros v Hv. apply enum_of_ok. by rewrite Hw. Qed.
Lemma typed_enum32 {E} `{CastOk E} : enum_width = 32 -> typed (r_enum32 (E := E)) enum_ok.
Proof. intros Hw. eapply typed_map; [apply typed_u32|]. intros v Hv. apply enum_of_ok. by rewrite Hw. Qed.

(** ** The messages, field by field *)

Create HintDb typed.
#[export] Hint Resolve typed_u8 typed_u32 typed_u64 typed_ns typed_id typed_bool typed_bytes typed_str typed_counted : typed.
#[export] Hint Extern 1 (typed r_enum8 _) => by apply typed_enum8 : typed.
#[export] Hint Extern 1 (typed r_enum32 _) => by apply typed_enum32 : typed.

Ltac type_fields :=
  lazymatch goal with
  | |- typed ?m ?ok => unfold m; repeat (eapply typed_bind; [solve [eauto with typed nocore]|intros ? ?]); apply typed_ret; unfold ok
  end;
  cbn -[in_range in_srange id_ok enum_ok str_ok blob_ok counted_ok];
  try match goal with |- context [device_ok (mkDevice _ _ _ _ _ _ _ _)] => unfold device_ok; cbn -[in_range id_ok enum_ok str_ok counted_ok] end;
  repeat match goal with H : ?x = true |- context [?x] => rewrite H end; reflexivity.

Lemma typed_key : typed read_key key_ok.
Proof. type_fields. Qed.
Lemma typed_state : typed read_state state_ok.
Proof. type_fields. Qed.
Lemma typed_device : typed read_device device_ok.
Proof. type_fields. Qed.
Lemma typed_outcome : typed read_outcome outcome_ok.
Proof. type_fields. Qed.
#[export] Hint Resolve typed_key typed_state typed_device typed_outcome : typed.
Lemma typed_member : typed read_member member_ok.
Proof. type_fields. Qed.
Lemma typed_prepared : typed read_prepared prepared_ok.
Proof. type_fields. Qed.
Lemma typed_receipt : typed read_receipt receipt_ok.
Proof. type_fields. Qed.
#[export] Hint Resolve typed_member typed_prepared typed_receipt : typed.
Lemma typed_execute_request : typed read_execute_request execute_request_ok.
Proof. type_fields. Qed.
Lemma typed_execute_result : typed read_execute_result execute_result_ok.
Proof. type_fields. Qed.
Lemma typed_submit_request : typed read_submit_request request_ok.
Proof. type_fields. Qed.
Lemma typed_submit_ack : typed read_submit_ack submit_ack_ok.
Proof. type_fields. Qed.
Lemma typed_status_reply : typed read_status_reply status_reply_ok.
Proof. type_fields. Qed.
Lemma typed_query : typed read_query query_ok.
Proof. type_fields. Qed.
Lemma typed_explain_request : typed read_explain_request explain_request_ok.
Proof. type_fields. Qed.
Lemma typed_explain_reply : typed read_explain_reply explain_reply_ok.
Proof. type_fields. Qed.
Lemma typed_get_authority : typed read_get_authority get_authority_ok.
Proof. type_fields. Qed.
Lemma typed_authority_reply : typed read_authority_reply authority_reply_ok.
Proof. type_fields. Qed.
Lemma typed_prepared_result : typed read_prepared_result prepared_result_ok.
Proof. type_fields. Qed.
Lemma typed_commit_grant : typed read_commit_grant grant_ok.
Proof. type_fields. Qed.
Lemma typed_commit_receipts : typed read_commit_receipts commit_receipts_ok.
Proof. type_fields. Qed.
Lemma typed_abort_prepared : typed read_abort_prepared abort_ok.
Proof. type_fields. Qed.
Lemma typed_worker : typed read_worker worker_ok.
Proof. type_fields. Qed.
#[export] Hint Resolve typed_execute_request typed_execute_result typed_submit_request typed_submit_ack typed_status_reply
  typed_query typed_explain_request typed_explain_reply typed_get_authority typed_authority_reply typed_prepared_result
  typed_commit_grant typed_commit_receipts typed_abort_prepared typed_worker : typed.

Lemma with_msg_typed {A} (c : A -> Message) (m : Read A) (ok : A -> bool) bs msg :
  typed m ok -> are_bytes bs -> Some (with_msg c (run_read m bs)) = Some (Ok msg) -> exists a, msg = c a /\ ok a = true.
Proof.
  intros Hm Hb. unfold run_read. destruct (m _) as [[a r]|e] eqn:E; intros [= <-]. exists a. split; [done|].
  by apply (Hm (mkReader bs 0) a r).
Qed.

Lemma message_typed (f : Frame) (msg : Message) :
  are_bytes (fr_payload f) -> message_of_frame f = Some (Ok msg) -> message_ok msg = true.
Proof.
  intros Hb. unfold message_of_frame.
  destruct (fr_type f); try done; intros H; eapply with_msg_typed in H as (a & -> & Ha);
    solve [exact Ha | exact Hb | eauto with typed nocore].
Qed.

(** ** The frames of a connection *)

Lemma feed_bytes data d d' r :
  are_bytes (fd_buf d) -> are_bytes data -> feed data d = (d', r) ->
  are_bytes (fd_buf d') /\ forall f, r = Ok (Some f) -> are_bytes (fr_payload f).
Proof.
  intros Hd Hdata. unfold feed, try_emit. cbn [fd_buf fd_max_frame].
  assert (Hb : are_bytes (fd_buf d ++ data)) by by apply Forall_app.
  repeat case_match; intros [= <- <-]; (split; [|intros f [= <-]]); cbn; try done; try apply Forall_nil_2;
    repeat first [exact Hb | apply Forall_take | apply Forall_drop].
Qed.

Lemma recv_frame_bytes d chunks d' rest r :
  are_bytes (fd_buf d) -> Forall are_bytes chunks -> recv_frame d chunks = (d', rest, r) ->
  are_bytes (fd_buf d') /\ Forall are_bytes rest /\ forall f, r = Ok f -> are_bytes (fr_payload f).
Proof.
  revert d. induction chunks as [|c chunks IH]; intros d Hd Hc; cbn [recv_frame];
    destruct (feed [] d) as [d1 r1] eqn:E1; destruct (feed_bytes [] d d1 r1 Hd (Forall_nil_2 _) E1) as [H1 H1'];
    destruct r1 as [[f|]|e]; try (intros [= <- <- <-]; split_and!; [done|done|intros; simplify_eq; auto; fail]).
  apply Forall_cons in Hc as [Hc Hcs]. destruct (feed c d1) as [d2 r2] eqn:E2.
  destruct (feed_bytes c d1 d2 r2 H1 Hc E2) as [H2 H2'].
  destruct r2 as [[f|]|e]; try (intros [= <- <- <-]; split_and!; [done|done|intros; simplify_eq; auto; fail]).
  by apply IH.
Qed.

(** C36: whatever is received is well typed.  On any chunks of bytes, sent by anyone, the message that a
    received frame decodes to has every field within its C++ type, every list within the decoder's
    bound and every string within its length limit; so it is a message the encoder could have sent: it
    is encoded again without loss.  The bytes that remain buffered and unread are bytes again, so this
    holds of every further frame. *)
Theorem received_well_typed (d d' : FrameDecoder) (chunks rest : list bytes) (f : Frame) (msg : Message) :
  are_bytes (fd_buf d) -> Forall are_bytes chunks ->
  recv_frame d chunks = (d', rest, Ok f) -> message_of_frame f = Some (Ok msg) ->
  message_ok msg = true /\
  message_of_frame (frame_of (message_frame msg).1 (message_frame msg).2) = Some (Ok msg) /\
  are_bytes (fd_buf d') /\ Forall are_bytes rest.
Proof.
  intros Hd Hc Hr Hm. destruct (recv_frame_bytes d chunks d' rest _ Hd Hc Hr) as (H1 & H2 & H3).
  pose proof (message_typed f msg (H3 f eq_refl) Hm) as Hok. split_and!; [done| |done|done].
  pose proof (message_of_frame_encode msg [] Hok) as He. by rewrite app_nil_r in He.
Qed.

(** A cancel request that carries more bytes than it needs and a flag of 7. *)
Lemma received_well_typed_witness :
  let payload := w_u64 5 ++ w_u64 9 ++ [7; 255] in
  let msg := MCancelRequest (mkQuery (mkId 5) (mkId 9) true) in
  message_ok msg = true /\
  message_of_frame (frame_of (message_frame msg).1 (message_frame msg).2) = Some (Ok msg) /\
  are_bytes (fd_buf (new_decoder 64)) /\ Forall are_bytes ([] : list bytes).
Proof.
  cbv zeta.
  apply (received_well_typed (new_decoder 64) (new_decoder 64)
           [encode_frame FrameType.CancelRequest (w_u64 5 ++ w_u64 9 ++ [7; 255])] []
           (frame_of FrameType.CancelRequest (w_u64 5 ++ w_u64 9 ++ [7; 255]))).
  - apply Forall_nil_2.
  - vm_compute. repeat constructor.
  - reflexivity.
  - reflexivity.
Defined.
