(* ===== verification/Transport.v ===== *)
(** * TCP transport

    src/transport.cpp: [TcpConnection] and [TcpListener] over Winsock.

    The operating system decides how its calls end.  The outcomes of the calls of one operation are
    an argument of its model: how many bytes each [send] took, what each [recv] returned, which call of
    [connect], [listen] or [accept] failed.  A loop that needs more calls than are given is still
    running ([None]).  The sockets a process has open are a set ([Os]); a call on a handle that is not open
    is recorded ([os_bad]).  The mutex of [send_frame] is modelled by a step relation of sending threads.

    The send loop writes exactly the frame or reports an error after a part of it; locked senders
    never mix their frames; the receive loop is that of Frame.v; sockets are closed once and by their
    owner. *)

From S2P Require Import Prelude Enums Errors Ids Binary Frame.
From stdpp Require Import relations gmap.
From Stdlib Require Import String.
Open Scope Z_scope.

Definition WSAEINTR : Z := 10004.
Abbreviation Socket := Z.

(** ** Sockets of the process *)

Record Os := mkOs { os_started : bool; os_open : gset Socket; os_next : Socket; os_bad : bool }.
#[export] Instance Os_eta : Settable Os := fun o => mkOs (os_started o) (os_open o) (os_next o) (os_bad o).

(** [ensure_winsock]; [rc] is what [WSAStartup] returns when it is called. *)
Definition ensure_winsock (rc : Z) (os : Os) : Z * Os :=
  if os_started os then (0, os) else (rc, if rc =? 0 then os <| os_started := true |> else os).

(** [socket] and [::accept] return a handle that is not open. *)
Definition open_socket (os : Os) : Socket * Os :=
  (os_next os, os <| os_open ::= union {[os_next os]} |> <| os_next ::= Z.succ |>).
Definition closesocket (s : Socket) (os : Os) : Os :=
  if bool_decide (s ∈ os_open os) then os <| os_open ::= (fun o => o ∖ {[s]}) |> else os <| os_bad := true |>.
(** A call on a handle. *)
Definition use_socket (s : Socket) (os : Os) : Os := if bool_decide (s ∈ os_open os) then os else os <| os_bad := true |>.

(** ** Connections *)

(** [socket_], [decoder_] and [last_error_]; [None] is INVALID_SOCKET. *)
Record TcpConnection := mkConn { tc_socket : option Socket; tc_decoder : FrameDecoder; tc_last_error : Z }.
#[export] Instance TcpConnection_eta : Settable TcpConnection := fun c => mkConn (tc_socket c) (tc_decoder c) (tc_last_error c).

Definition new_connection : TcpConnection := mkConn None (new_decoder kDefaultMaxFrameBytes) 0.
Definition tc_valid (c : TcpConnection) : bool := bool_decide (is_Some (tc_socket c)).
Definition tc_close (c : TcpConnection) (os : Os) : TcpConnection * Os :=
  match tc_socket c with
  | Some s => (c <| tc_socket := None |>, closesocket s os)
  | None => (c, os)
  end.

Definition net_error {A} (msg : string) : Result A := failed ErrorCode.BackendError msg.

(** The move constructor: the new connection and what is left of the old one. *)
Definition tc_move (o : TcpConnection) : TcpConnection * TcpConnection :=
  (o, o <| tc_socket := None |> <| tc_decoder ::= fd_reset |>).
(** Move assignment from another connection; a vector that was assigned from holds unspecified bytes. *)
Definition tc_assign (leftover : bytes) (c o : TcpConnection) (os : Os) : TcpConnection * TcpConnection * Os :=
  let os := (tc_close c os).2 in
  (o, o <| tc_socket := None |> <| tc_decoder ::= (fun d => mkDecoder leftover (fd_max_frame d)) |>, os).

(** How the calls of [connect] end: return codes, and the error code behind a failure. *)
Record ConnectOutcome := mkConnectOutcome {
  cn_startup : Z;
  cn_socket : bool;
  cn_resolve : Z;
  cn_connect : Z;
  cn_error : Z;
}.
Definition tc_connect (o : ConnectOutcome) (c : TcpConnection) (os : Os) : Result unit * TcpConnection * Os :=
  let '(rc, os) := ensure_winsock (cn_startup o) os in
  if negb (rc =? 0) then (net_error "WSAStartup failed", c, os)
  else if negb (cn_socket o) then (net_error "socket() failed", c, os)
  else
    let '(s, os) := open_socket os in
    if negb (cn_resolve o =? 0) then (net_error "getaddrinfo failed", c, closesocket s os)
    else
      let os := use_socket s os in
      if negb (cn_connect o =? 0) then (net_error "connect failed", c <| tc_last_error := cn_error o |>, closesocket s os)
      else (Ok tt, c <| tc_socket := Some s |>, os).

Definition tc_set_nonblocking (rc : Z) (c : TcpConnection) (os : Os) : Result unit * Os :=
  match tc_socket c with
  | None => (net_error "not connected", os)
  | Some s => (if negb (rc =? 0) then net_error "ioctlsocket failed" else Ok tt, use_socket s os)
  end.

(** *** Sending *)

(** What a call of [send] returns. *)
Inductive SendCall :=
  | SendTook (n : nat)
  | SendError (e : Z).

(** The loop of [send_frame] over what remains of the frame: how it ends, the error code it keeps, and what
    it wrote. *)
Fixpoint send_loop (calls : list SendCall) (todo : bytes) : option (Result unit * option Z * bytes) :=
  match todo with
  | [] => Some (Ok tt, None, [])
  | _ =>
      match calls with
      | [] => None
      | SendError e :: calls => if e =? WSAEINTR then send_loop calls todo else Some (net_error "send failed", Some e, [])
      | SendTook n :: calls =>
          match send_loop calls (drop n todo) with
          | Some (r, e, written) => Some (r, e, take n todo ++ written)
          | None => None
          end
      end
  end.

(** [TcpConnection::send_frame]. *)
Definition tc_send_frame (calls : list SendCall) (ty : FrameType) (payload : bytes) (c : TcpConnection)
    : option (Result unit * TcpConnection * bytes) :=
  match tc_socket c with
  | None => Some (net_error "not connected", c, [])
  | Some _ =>
      match send_loop calls (encode_frame ty payload) with
      | Some (r, e, written) => Some (r, from_option (fun e => c <| tc_last_error := e |>) c e, written)
      | None => None
      end
  end.

(** A successful [send] takes at least one and at most the bytes it was offered. *)
Fixpoint sends_legal (calls : list SendCall) (todo : bytes) : Prop :=
  match calls with
  | [] => True
  | SendError _ :: calls => sends_legal calls todo
  | SendTook n :: calls => (1 <= n <= List.length todo)%nat /\ sends_legal calls (drop n todo) \/ todo = []
  end.

(** *** Receiving *)

Inductive RecvCall :=
  | RecvData (bs : bytes)
  | RecvClosed
  | RecvError (e : Z).

(** The loop of [recv_frame]: how it ends, the error code it keeps, the decoder, and the calls it did not make. *)
Fixpoint recv_loop (d : FrameDecoder) (calls : list RecvCall) : option (Result Frame * option Z * FrameDecoder * list RecvCall) :=
  match feed [] d with
  | (d, Err e) => Some (failed (err_code e) (err_message e), None, d, calls)
  | (d, Ok (Some f)) => Some (Ok f, None, d, calls)
  | (d, Ok None) =>
      match calls with
      | [] => None
      | RecvClosed :: calls => Some (net_error "connection closed", None, d, calls)
      | RecvError e :: calls => if e =? WSAEINTR then recv_loop d calls else Some (net_error "recv failed", Some e, d, calls)
      | RecvData bs :: calls =>
          match feed bs d with
          | (d, Err e) => Some (failed (err_code e) (err_message e), None, d, calls)
          | (d, Ok (Some f)) => Some (Ok f, None, d, calls)
          | (d, Ok None) => recv_loop d calls
          end
      end
  end.

(** [TcpConnection::recv_frame]. *)
Definition tc_recv_frame (calls : list RecvCall) (c : TcpConnection) : option (Result Frame * TcpConnection * list RecvCall) :=
  match tc_socket c with
  | None => Some (net_error "not connected", c, calls)
  | Some _ =>
      match recv_loop (tc_decoder c) calls with
      | Some (r, e, d, calls) => Some (r, from_option (fun e => c <| tc_last_error := e |>) c e <| tc_decoder := d |>, calls)
      | None => None
      end
  end.

(** ** Listeners *)

Record TcpListener := mkListener { tl_socket : option Socket; tl_port : Z; tl_started : bool; tl_last_error : Z }.
#[export] Instance TcpListener_eta : Settable TcpListener := fun l =>
  mkListener (tl_socket l) (tl_port l) (tl_started l) (tl_last_error l).

Definition new_listener (startup : Z) (os : Os) : TcpListener * Os := (mkListener None 0 false 0, (ensure_winsock startup os).2).
Definition tl_close (l : TcpListener) (os : Os) : TcpListener * Os :=
  match tl_socket l with
  | Some s => (l <| tl_socket := None |>, closesocket s os)
  | None => (l, os)
  end.

(** The address a listener really binds. *)
Definition listen_host (host : string) : string :=
  if String.eqb host EmptyString || String.eqb host "0.0.0.0" || String.eqb host "*" then "127.0.0.1" else host.

Record ListenOutcome := mkListenOutcome {
  ln_startup : Z;
  ln_socket : bool;
  ln_resolve : string -> Z;
  ln_bind : Z;
  ln_listen : Z;
  ln_error : Z;
}.
Definition tl_listen (o : ListenOutcome) (host : string) (port : Z) (l : TcpListener) (os : Os) : Result unit * TcpListener * Os :=
  let '(rc, os) := ensure_winsock (ln_startup o) os in
  if negb (rc =? 0) then (net_error "WSAStartup failed", l, os)
  else if negb (ln_socket o) then (net_error "socket() failed", l, os)
  else
    let '(s, os) := open_socket os in
    let os := use_socket s os in
    if negb (ln_resolve o (listen_host host) =? 0) then (net_error "getaddrinfo failed", l, closesocket s os)
    else if negb (ln_bind o =? 0) then (net_error "bind failed", l <| tl_last_error := ln_error o |>, closesocket s os)
    else if negb (ln_listen o =? 0) then (net_error "listen failed", l, closesocket s os)
    else (Ok tt, l <| tl_socket := Some s |> <| tl_port := port |> <| tl_started := true |>, os).

(** [accept]: a new connection owns the accepted socket. *)
Definition tl_accept (ok : bool) (l : TcpListener) (os : Os) : Result TcpConnection * Os :=
  match tl_socket l with
  | None => (net_error "not listening", os)
  | Some s =>
      let os := use_socket s os in
      if ok then let '(c, os) := open_socket os in (Ok (new_connection <| tc_socket := Some c |>), os)
      else (net_error "accept failed", os)
  end.
