(* ===== verification/TransportTheorems.v ===== *)
(** * What the transport guarantees

    The send loop, senders that share a connection, the receive loop, and who owns which socket. *)

From S2P Require Import Prelude Enums Errors Ids Binary Frame Transport.
From stdpp Require Import relations gmap.
From Stdlib Require Import String.
Open Scope Z_scope.

Abbreviation message := (FrameType * bytes)%type.

(** ** The send loop *)

Definition took (c : SendCall) : bool := match c with SendTook _ => true | SendError _ => false end.

(** One turn of the loop. *)
Lemma send_loop_turn c calls b todo :
  send_loop (c :: calls) (b :: todo) =
    match c with
    | SendError e => if e =? WSAEINTR then send_loop calls (b :: todo) else Some (net_error "send failed", Some e, [])
    | SendTook n =>
        match send_loop calls (drop n (b :: todo)) with
        | Some (r, e, written) => Some (r, e, take n (b :: todo) ++ written)
        | None => None
        end
    end.
Proof. done. Qed.

Lemma send_loop_spec calls todo r e w :
  sends_legal calls todo -> send_loop calls todo = Some (r, e, w) ->
  (r = Ok tt /\ e = None /\ w = todo) \/
  (exists code rest, r = net_error "send failed" /\ e = Some code /\ code <> WSAEINTR /\ SendError code ∈ calls /\ todo = w ++ rest /\ rest <> []).
Proof.
  revert todo r e w. induction calls as [|c calls IH]; intros todo r e w Hl; (destruct todo as [|b todo']; [by intros [= <- <- <-]; left|]).
  { done. }
  rewrite send_loop_turn. set (todo := b :: todo') in *.
  destruct c as [n|code]; cbn [sends_legal] in Hl.
  - destruct Hl as [[Hn Hl]|Hl]; [|done]. destruct (send_loop calls (drop n todo)) as [[[r' e'] w']|] eqn:E; [|done].
    intros [= <- <- <-]. destruct (IH _ _ _ _ Hl E) as [(-> & -> & ->)|(code & rest & -> & -> & Hc & Hin & Hw & Hr)].
    + left. by rewrite take_drop.
    + right. exists code, rest. split_and!; [done|done|done|by right| |done].
      rewrite <- app_assoc, <- Hw. by rewrite take_drop.
  - destruct (Z.eqb_spec code WSAEINTR) as [->|Hc].
    + intros H. destruct (IH _ _ _ _ Hl H) as [?|(code & rest & ? & ? & ? & ? & ? & ?)]; [by left|right].
      exists code, rest. split_and!; try done. by right.
    + intros [= <- <- <-]. right. exists code, todo. split_and!; try done. by left.
Qed.

(** Enough successful calls end the loop. *)
Lemma send_loop_ends calls todo :
  sends_legal calls todo -> (List.length todo <= List.length (filter (fun c => took c = true) calls))%nat -> is_Some (send_loop calls todo).
Proof.
  revert todo. induction calls as [|c calls IH]; intros todo Hl Hn; (destruct todo as [|b todo']; [by eexists|]); [cbn in Hn; lia|].
  rewrite send_loop_turn. set (todo := b :: todo') in *.
  destruct c as [n|code]; cbn [sends_legal] in Hl.
  - destruct Hl as [[Hk Hl]|Hl]; [|done]. rewrite filter_cons_True in Hn by done. cbn [List.length] in Hn.
    destruct (IH (drop n todo) Hl) as [[[r e] w] ->]; [rewrite length_drop; lia|by eexists].
  - rewrite filter_cons_False in Hn by done. destruct (code =? WSAEINTR); [by apply IH|by eexists].
Qed.

(** ** Senders that share a connection *)

(** The bytes written so far, the thread that holds the mutex with what remains of its frame, the messages
    whose sending began, what the threads have yet to send, and, once a [send_frame] has failed, how many messages
    were begun before that one. *)
Record Channel := mkChannel {
  ch_wire : bytes;
  ch_held : option (nat * bytes);
  ch_log : list (nat * message);
  ch_todo : gmap nat (list message);
  ch_torn : option nat;
}.

(** [send_frame] step by step: lock, a call of [send] that takes a part of what it is offered, is interrupted or
    fails, which leaves [send_frame] with its frame torn and the connection open, and unlock at the end. *)
Inductive chan_step : Channel -> Channel -> Prop :=
  | cs_lock wire log todo torn t m ms :
      todo !! t = Some (m :: ms) ->
      chan_step (mkChannel wire None log todo torn)
        (mkChannel wire (Some (t, encode_frame m.1 m.2)) (log ++ [(t, m)]) (<[t := ms]> todo) torn)
  | cs_send wire log todo torn t rest n :
      (1 <= n <= List.length rest)%nat ->
      chan_step (mkChannel wire (Some (t, rest)) log todo torn) (mkChannel (wire ++ take n rest) (Some (t, drop n rest)) log todo torn)
  | cs_interrupted wire log todo torn t rest :
      rest <> [] ->
      chan_step (mkChannel wire (Some (t, rest)) log todo torn) (mkChannel wire (Some (t, rest)) log todo torn)
  | cs_failed wire log todo torn t rest :
      rest <> [] ->
      chan_step (mkChannel wire (Some (t, rest)) log todo torn)
        (mkChannel wire None log todo (Some (default (pred (List.length log)) torn)))
  | cs_unlock wire log todo torn t :
      chan_step (mkChannel wire (Some (t, [])) log todo torn) (mkChannel wire None log todo torn).

(** What a thread sent. *)
Definition sent_by (t : nat) (log : list (nat * message)) : list message := (filter (fun x => x.1 = t) log).*2.

(** The messages begun before the first failure: all of them when no send has failed. *)
Definition intact (c : Channel) : list message := from_option (fun k => take k (ch_log c).*2) (ch_log c).*2 (ch_torn c).

Lemma encode_stream_app l l' : encode_stream (l ++ l') = encode_stream l ++ encode_stream l'.
Proof. unfold encode_stream. rewrite fmap_app. apply join_app. Qed.

(** The wire holds the frames in the order of their locks, the last one as far as it was written; after a failure
    it begins with those before the torn one. *)
Definition wire_ok (c : Channel) : Prop :=
  match ch_torn c, ch_held c with
  | Some k, _ => (k <= List.length (ch_log c))%nat /\ exists rest, ch_wire c = encode_stream (intact c) ++ rest
  | None, None => ch_wire c = encode_stream (intact c)
  | None, Some (t, rest) => exists log m wrote, ch_log c = log ++ [(t, m)] /\ ch_wire c = encode_stream log.*2 ++ wrote /\
                              wrote ++ rest = encode_frame m.1 m.2
  end.

Record chan_inv (todo0 : gmap nat (list message)) (c : Channel) : Prop := {
  ci_wire : wire_ok c;
  ci_order : forall t, default [] (todo0 !! t) = sent_by t (ch_log c) ++ default [] (ch_todo c !! t);
}.

Lemma encode_stream_snoc (l : list (nat * message)) t m : encode_stream (l ++ [(t, m)]).*2 = encode_stream l.*2 ++ encode_frame m.1 m.2.
Proof. rewrite fmap_app, encode_stream_app. cbn. by rewrite app_nil_r. Qed.

Lemma chan_step_wire c c' : chan_step c c' -> wire_ok c -> wire_ok c'.
Proof.
  intros Hs. unfold wire_ok, intact. destruct Hs as [wire log todo torn t m ms Ht|wire log todo torn t rest n Hn|?|wire log todo torn t rest Hr|wire log todo torn t];
    cbn [ch_wire ch_held ch_log ch_todo ch_torn]; destruct torn as [k|]; cbn [from_option default]; try done.
  - intros (Hk & rest & ->). split; [rewrite length_app; lia|]. exists rest.
    rewrite fmap_app, take_app_le; [done|rewrite length_fmap; lia].
  - intros ->. exists log, m, []. by rewrite app_nil_r.
  - intros (Hk & r & ->). split; [done|]. exists (r ++ take n rest). by rewrite app_assoc.
  - intros (l & m & wrote & -> & -> & Hw). exists l, m, (wrote ++ take n rest). split_and!; [done|by rewrite app_assoc|].
    by rewrite <- app_assoc, take_drop.
  - intros (l & m & wrote & -> & -> & Hw). rewrite length_app, Nat.add_1_r. cbn [pred List.length]. split; [lia|].
    exists wrote. rewrite fmap_app, take_app_length'; [done|by rewrite length_fmap].
  - intros (l & m & wrote & -> & -> & Hw). rewrite app_nil_r in Hw. by rewrite encode_stream_snoc, Hw.
Qed.

Lemma chan_step_inv todo0 c c' : chan_step c c' -> chan_inv todo0 c -> chan_inv todo0 c'.
Proof.
  intros Hs [I1 I2]. split; [by apply (chan_step_wire c)|]. intros t'. rewrite (I2 t'). destruct Hs as [wire log todo torn t m ms Ht|?|?|?|?];
    cbn [ch_log ch_todo]; try done.
  unfold sent_by. rewrite filter_app, fmap_app. destruct (decide (t = t')) as [<-|Hn].
  - rewrite lookup_insert_eq, Ht, filter_cons_True by done. cbn. by rewrite <- app_assoc.
  - rewrite lookup_insert_ne, filter_cons_False by done. cbn. by rewrite app_nil_r.
Qed.

Lemma chan_reached todo c : rtc chan_step (mkChannel [] None [] todo None) c -> chan_inv todo c.
Proof.
  apply (rtc_ind_r (fun c => chan_inv todo c)); [|by intros c1 c2 _ Hs HI; apply (chan_step_inv todo c1)].
  by split.
Qed.

(** Between two calls of [send_frame] the wire starts with the frames that were not torn. *)
Lemma intact_on_wire c : ch_held c = None -> wire_ok c -> exists rest, ch_wire c = encode_stream (intact c) ++ rest /\ (ch_torn c = None -> rest = []).
Proof.
  unfold wire_ok. intros ->. destruct (ch_torn c); [by intros [_ [rest ->]]; exists rest|]. intros ->. exists []. by rewrite app_nil_r.
Qed.

(** C32: frames are never mixed.  Any number of threads send on one connection, each call of [send] taking any part
    of what it is offered, being interrupted or failing, in any interleaving.  When no thread is inside [send_frame],
    the receiver gets, however its [recv] calls chop the stream, exactly the messages that were sent, whole and each
    once, in the order the mutex was taken: all of them when no [send_frame] has failed, and otherwise all those
    before the one that failed first; and every thread's messages keep their order.  The messages fit the maximum
    frame size of the decoder. *)
Theorem locked_sends_deliver (todo : gmap nat (list message)) (c : Channel) (chunks : list bytes) :
  rtc chan_step (mkChannel [] None [] todo None) c -> ch_held c = None -> mjoin chunks = ch_wire c ->
  Forall (fun m => frame_ok kDefaultMaxFrameBytes m.1 m.2 = true) (ch_log c).*2 ->
  let sent := intact c in
  recv_frames (List.length sent) (new_decoder kDefaultMaxFrameBytes) chunks = ((fun m => frame_of m.1 m.2) <$> sent, Ok tt) /\
  forall t, default [] (todo !! t) = sent_by t (ch_log c) ++ default [] (ch_todo c !! t).
Proof.
  intros Hr Hh Hc Hok sent. destruct (chan_reached todo c Hr) as [I1 I2]. split; [|exact I2].
  destruct (intact_on_wire c Hh I1) as (rest & Hw & _).
  apply (recv_frames_stream _ sent [] chunks rest); [|by rewrite Hc, Hw].
  unfold sent, intact. destruct (ch_torn c); [|done]. by apply Forall_take.
Qed.

(** The threads of [chan_step] run the send loop of [send_frame], to its end or to its failure. *)
Lemma send_loop_steps calls wire log todo torn t rest r e w :
  sends_legal calls rest -> send_loop calls rest = Some (r, e, w) ->
  rtc chan_step (mkChannel wire (Some (t, rest)) log todo torn)
    (mkChannel (wire ++ w) None log todo (if e is Some _ then Some (default (pred (List.length log)) torn) else torn)).
Proof.
  revert wire rest r e w. induction calls as [|c calls IH]; intros wire rest r e w Hl;
    (destruct rest as [|b rest']; [intros [= <- <- <-]; rewrite app_nil_r; apply rtc_once, cs_unlock|]); [done|].
  rewrite send_loop_turn. set (rest := b :: rest') in *.
  destruct c as [n|code]; cbn [sends_legal] in Hl.
  - destruct Hl as [[Hn Hl]|Hl]; [|done]. destruct (send_loop calls (drop n rest)) as [[[r' e'] w']|] eqn:E; [|done].
    intros [= <- <- <-]. eapply rtc_l; [by apply (cs_send wire log todo torn t rest n)|].
    rewrite app_assoc. by apply (IH _ _ r').
  - destruct (code =? WSAEINTR).
    + intros H. eapply rtc_l; [by apply cs_interrupted|]. by apply (IH _ _ r).
    + intros [= <- <- <-]. rewrite app_nil_r. by apply rtc_once, cs_failed.
Qed.

(** Two threads; the second frame of thread 1 is torn after three bytes. *)
Lemma locked_sends_deliver_witness :
  let hello := (FrameType.Hello, [7; 8]) in
  let stop := (FrameType.Shutdown, []) in
  let wire := encode_stream [stop; hello] ++ take 3 (encode_frame FrameType.Hello [7; 8]) in
  recv_frames 2 (new_decoder kDefaultMaxFrameBytes) [take 20 wire; drop 20 wire] =
    ([frame_of FrameType.Shutdown []; frame_of FrameType.Hello [7; 8]], Ok tt).
Proof.
  set (hello := (FrameType.Hello, [7; 8]) : message). set (stop := (FrameType.Shutdown, []) : message).
  set (wire := encode_stream [stop; hello] ++ take 3 (encode_frame FrameType.Hello [7; 8])).
  set (c := mkChannel wire None [(2%nat, stop); (1%nat, hello); (1%nat, hello)] {[1%nat := []; 2%nat := []]} (Some 2%nat)).
  destruct (locked_sends_deliver {[1%nat := [hello; hello]; 2%nat := [stop]]} c [take 20 wire; drop 20 wire]) as [H _].
  - eapply rtc_l; [apply (cs_lock _ _ _ _ 2%nat stop []); reflexivity|].
    eapply rtc_l; [apply (cs_send _ _ _ _ _ _ 12); cbn; lia|]. eapply rtc_l; [apply cs_unlock|].
    eapply rtc_l; [apply (cs_lock _ _ _ _ 1%nat hello [hello]); reflexivity|].
    eapply rtc_l; [apply (cs_send _ _ _ _ _ _ 5); cbn; lia|]. eapply rtc_l; [apply (cs_send _ _ _ _ _ _ 9); cbn; lia|].
    eapply rtc_l; [apply cs_unlock|].
    eapply rtc_l; [apply (cs_lock _ _ _ _ 1%nat hello []); reflexivity|].
    eapply rtc_l; [apply (cs_send _ _ _ _ _ _ 3); cbn; lia|]. eapply rtc_l; [apply cs_failed; done|].
    cbn. apply rtc_refl.
  - reflexivity.
  - reflexivity.
  - repeat constructor.
  - exact H.
Defined.

(** Without the mutex two frames can mix: the length of one is followed by the bytes of the other. *)
Example unlocked_sends_corrupt :
  let a := encode_frame FrameType.Hello [7; 8] in
  let b := encode_frame FrameType.Shutdown [] in
  recv_frames 2 (new_decoder kDefaultMaxFrameBytes) [take 4 a ++ b ++ drop 4 a] =
    ([], failed ErrorCode.ProtocolUnknownVersion "unknown protocol version").
Proof. by vm_compute. Qed.

(** C33: a send is all or a reported part.  When every call of [send] takes some of what it is offered,
    [send_frame] on an open connection either succeeds, having written exactly the encoded frame, or fails with
    the error code of a call other than an interrupted one, having written a proper part of it; interrupted calls are
    repeated; and it does return once as many calls succeed as the frame has bytes. *)
Theorem send_frame_exact (calls : list SendCall) (ty : FrameType) (payload : bytes) (c : TcpConnection) :
  tc_valid c = true -> sends_legal calls (encode_frame ty payload) ->
  (forall r c' w, tc_send_frame calls ty payload c = Some (r, c', w) ->
     (r = Ok tt /\ w = encode_frame ty payload /\ c' = c) \/
     (exists code rest, r = net_error "send failed" /\ tc_last_error c' = code /\ code <> WSAEINTR /\ SendError code ∈ calls /\
        encode_frame ty payload = w ++ rest /\ rest <> [])) /\
  ((List.length (encode_frame ty payload) <= List.length (filter (fun k => took k = true) calls))%nat ->
     is_Some (tc_send_frame calls ty payload c)).
Proof.
  intros Hv Hl. unfold tc_send_frame. apply bool_decide_eq_true in Hv as [s ->]. split.
  - intros r c' w. destruct (send_loop calls (encode_frame ty payload)) as [[[r' e] w']|] eqn:E; [|done]. intros [= <- <- <-].
    destruct (send_loop_spec _ _ _ _ _ Hl E) as [(-> & -> & ->)|(code & rest & -> & -> & ? & ? & ? & ?)]; [by left|right].
    exists code, rest. cbn. by rsimpl.
  - intros Hn. destruct (send_loop_ends _ _ Hl Hn) as [[[r e] w] ->]. by eexists.
Qed.

Definition open_connection : TcpConnection := mkConn (Some 3) (new_decoder kDefaultMaxFrameBytes) 0.

Lemma send_frame_exact_witness :
  tc_send_frame [SendTook 5; SendError WSAEINTR; SendTook 7] FrameType.Shutdown [] open_connection =
    Some (Ok tt, open_connection, encode_frame FrameType.Shutdown []) /\
  exists code rest, SendError code ∈ [SendTook 5; SendError 10054] /\ encode_frame FrameType.Shutdown [] = take 5 (encode_frame FrameType.Shutdown []) ++ rest /\ rest <> [].
Proof.
  split; [reflexivity|].
  destruct (send_frame_exact [SendTook 5; SendError 10054] FrameType.Shutdown [] open_connection) as [H _].
  - reflexivity.
  - cbn. left. split; [lia|exact I].
  - destruct (H (net_error "send failed") (open_connection <| tc_last_error := 10054 |>) (take 5 (encode_frame FrameType.Shutdown [])))
      as [(? & _)|(code & rest & _ & _ & _ & H1 & H2 & H3)].
    + reflexivity.
    + discriminate.
    + exists code, rest. exact (conj H1 (conj H2 H3)).
Defined.

(** ** The receive loop *)

(** The data among the calls, when none of them fails. *)
Definition data_of (calls : list RecvCall) : list bytes := omap (fun c => match c with RecvData bs => Some bs | _ => None end) calls.
Definition quiet_call (c : RecvCall) : Prop := match c with RecvData _ => True | RecvError e => e = WSAEINTR | RecvClosed => False end.

Lemma feed_err_eta data d d' e : feed data d = (d', Err e) -> failed (err_code e) (err_message e) = Err (A := Frame) e.
Proof. intros _. by destruct e. Qed.

(** The receive loop reads the stream.  On a connection that delivers data, is interrupted any number of times
    and is then closed, [recv_frame] returns exactly what it returns for the chunks of data alone: interruptions lose
    nothing, and the data after the frame stays for the next call. *)
Theorem recv_loop_reads_stream (d : FrameDecoder) (calls : list RecvCall) :
  Forall quiet_call calls ->
  let '(d', chunks, r) := recv_frame d (data_of calls) in
  exists rest, recv_loop d (calls ++ [RecvClosed]) = Some (r, None, d', rest) /\ data_of rest = chunks.
Proof.
  intros Hq. revert d. induction Hq as [|c calls Hc Hq IH]; intros d.
  - cbn. destruct (feed [] d) as [d1 [[f|]|e]] eqn:E; [by exists [RecvClosed]|by exists []|].
    exists [RecvClosed]. by rewrite (feed_err_eta _ _ _ _ E).
  - destruct c as [bs| |code]; [|done|].
    + change (data_of (RecvData bs :: calls)) with (bs :: data_of calls). cbn [recv_frame recv_loop app].
      assert (Hd : data_of (calls ++ [RecvClosed]) = data_of calls) by (unfold data_of; rewrite omap_app; apply app_nil_r).
      destruct (feed [] d) as [d1 [[f|]|e]] eqn:E.
      * exists (RecvData bs :: calls ++ [RecvClosed]). split; [done|]. cbn. by f_equal.
      * destruct (feed bs d1) as [d2 [[f|]|e]] eqn:E2; [by exists (calls ++ [RecvClosed])|apply IH|].
        exists (calls ++ [RecvClosed]). by rewrite (feed_err_eta _ _ _ _ E2).
      * exists (RecvData bs :: calls ++ [RecvClosed]). rewrite (feed_err_eta _ _ _ _ E). split; [done|]. cbn. by f_equal.
    + cbn in Hc. subst code. specialize (IH d). change (data_of (RecvError WSAEINTR :: calls)) with (data_of calls).
      destruct (recv_frame d (data_of calls)) as [[d' chunks] r] eqn:Er. destruct IH as (rest & IH & Hrest). cbn [recv_loop app].
      destruct (feed [] d) as [d1 [[f|]|e]] eqn:E.
      * assert (Hf : recv_frame d (data_of calls) = (d1, data_of calls, Ok f)) by (destruct (data_of calls); cbn [recv_frame]; by rewrite E).
        rewrite Hf in Er. injection Er as <- <- <-. exists (RecvError WSAEINTR :: calls ++ [RecvClosed]). split; [done|].
        unfold data_of. cbn. rewrite omap_app. apply app_nil_r.
      * assert (Hd1 : d1 = d) by (unfold feed in E; rewrite app_nil_r in E; unfold try_emit in E; cbn [fd_buf fd_max_frame] in E;
          repeat case_match; simplify_eq; by destruct d). subst d1. by exists rest.
      * assert (Hf : recv_frame d (data_of calls) = (d1, data_of calls, Err e)) by (destruct (data_of calls); cbn [recv_frame]; by rewrite E).
        rewrite Hf in Er. injection Er as <- <- <-. exists (RecvError WSAEINTR :: calls ++ [RecvClosed]).
        rewrite (feed_err_eta _ _ _ _ E). split; [done|]. unfold data_of. cbn. rewrite omap_app. apply app_nil_r.
Qed.

