(* ===== verification/SocketOwnership.v ===== *)
(** * Who owns which socket

    Connections and listeners are objects that are created, moved, assigned, closed and destroyed; each
    holds at most one socket of the process.  A program over them is a sequence of operations whose
    system calls end as they please. *)

From S2P Require Import Prelude Enums Errors Ids Binary Frame Transport.
From stdpp Require Import relations gmap.
From Stdlib Require Import String.
Open Scope Z_scope.

Inductive Obj :=
  | OConn (c : TcpConnection)
  | OListener (l : TcpListener).
Definition obj_socket (o : Obj) : option Socket := match o with OConn c => tc_socket c | OListener l => tl_socket l end.

Record Sockets := mkSockets { sk_os : Os; sk_objs : gmap nat Obj }.
Definition no_sockets : Sockets := mkSockets (mkOs false ∅ 1 false) ∅.

Inductive SockOp :=
  | SNewConn (i : nat)
  | SNewListener (i : nat) (startup : Z)
  | SConnect (i : nat) (o : ConnectOutcome)
  | SListen (i : nat) (o : ListenOutcome) (host : string) (port : Z)
  | SAccept (i j : nat) (ok : bool)
  | SMove (i j : nat)
  | SAssign (i j : nat) (leftover : bytes)
  | SNonblocking (i : nat) (rc : Z)
  | SClose (i : nat)
  | SDestroy (i : nat).

(** [close] of either class, and the destructors, which call it. *)
Definition close_obj (o : Obj) (os : Os) : Obj * Os :=
  match o with
  | OConn c => let '(c, os) := tc_close c os in (OConn c, os)
  | OListener l => let '(l, os) := tl_close l os in (OListener l, os)
  end.

(** An operation on objects that exist, and of a new object where none is. *)
Definition sock_step (w : Sockets) (op : SockOp) : Sockets :=
  let '(mkSockets os objs) := w in
  match op with
  | SNewConn i => match objs !! i with None => mkSockets os (<[i := OConn new_connection]> objs) | Some _ => w end
  | SNewListener i rc =>
      match objs !! i with None => let '(l, os) := new_listener rc os in mkSockets os (<[i := OListener l]> objs) | Some _ => w end
  | SConnect i o =>
      match objs !! i with
      | Some (OConn c) => let '(_, c, os) := tc_connect o c os in mkSockets os (<[i := OConn c]> objs)
      | _ => w
      end
  | SListen i o host port =>
      match objs !! i with
      | Some (OListener l) => let '(_, l, os) := tl_listen o host port l os in mkSockets os (<[i := OListener l]> objs)
      | _ => w
      end
  | SAccept i j ok =>
      match objs !! i, objs !! j with
      | Some (OListener l), None =>
          match tl_accept ok l os with
          | (Ok c, os) => mkSockets os (<[j := OConn c]> objs)
          | (Err _, os) => mkSockets os objs
          end
      | _, _ => w
      end
  | SMove i j =>
      match objs !! i, objs !! j with
      | Some (OConn o), None => let '(c, o) := tc_move o in mkSockets os (<[j := OConn c]> (<[i := OConn o]> objs))
      | _, _ => w
      end
  | SAssign i j leftover =>
      match objs !! i, objs !! j with
      | Some (OConn c), Some (OConn o) =>
          if bool_decide (i = j) then w
          else let '(c, o, os) := tc_assign leftover c o os in mkSockets os (<[i := OConn c]> (<[j := OConn o]> objs))
      | _, _ => w
      end
  | SNonblocking i rc =>
      match objs !! i with Some (OConn c) => mkSockets (tc_set_nonblocking rc c os).2 objs | _ => w end
  | SClose i => match objs !! i with Some o => let '(o, os) := close_obj o os in mkSockets os (<[i := o]> objs) | None => w end
  | SDestroy i => match objs !! i with Some o => mkSockets (close_obj o os).2 (delete i objs) | None => w end
  end.

(** A connection is connected, and a listener listens, only when it holds no socket. *)
Definition sock_legal (w : Sockets) (op : SockOp) : Prop :=
  match op with
  | SConnect i _ | SListen i _ _ _ => forall o, sk_objs w !! i = Some o -> obj_socket o = None
  | _ => True
  end.
Fixpoint socks_legal (w : Sockets) (ops : list SockOp) : Prop :=
  match ops with [] => True | op :: ops => sock_legal w op /\ socks_legal (sock_step w op) ops end.

(** ** Ownership, on the map from objects to the sockets they hold *)

Record owns (os : Os) (h : gmap nat Socket) : Prop := {
  ow_bad : os_bad os = false;
  ow_one : forall i j s, h !! i = Some s -> h !! j = Some s -> i = j;
  ow_open : forall s, s ∈ os_open os <-> exists i, h !! i = Some s;
  ow_next : forall s, s ∈ os_open os -> s < os_next os;
}.

Lemma owns_same os os' h :
  os_bad os' = os_bad os -> os_open os' = os_open os -> os_next os' = os_next os -> owns os h -> owns os' h.
Proof. intros E1 E2 E3 [H1 H2 H3 H4]. split; rewrite ?E1, ?E2, ?E3; done. Qed.

Lemma owns_started os h rc : owns os h -> owns (ensure_winsock rc os).2 h.
Proof. unfold ensure_winsock. case_match; [done|]. case_match; [by apply owns_same|done]. Qed.

Lemma owns_socket os h i : owns os h -> h !! i = None -> owns (open_socket os).2 (<[i := os_next os]> h).
Proof.
  intros [H1 H2 H3 H4] Hi. cbn [open_socket snd].
  assert (Hnew : forall j, h !! j <> Some (os_next os)) by (intros j Hj; pose proof (H4 _ (proj2 (H3 _) (ex_intro _ j Hj))); lia).
  split; rsimpl; [done|..].
  - intros j k s. rewrite !lookup_insert. repeat case_decide; subst; try done; intros Ha Hb.
    + injection Ha as <-. by destruct (Hnew k).
    + injection Hb as <-. by destruct (Hnew j).
    + by apply (H2 _ _ s).
  - intros s. rewrite elem_of_union, elem_of_singleton, H3. split.
    + intros [->|[j Hj]]; [exists i; by rewrite lookup_insert_eq|]. exists j. rewrite lookup_insert_ne by congruence. done.
    + intros [j Hj]. rewrite lookup_insert in Hj. case_decide; [left; congruence|right; eauto].
  - intros s [->%elem_of_singleton|Hs]%elem_of_union; [lia|]. specialize (H4 s Hs). lia.
Qed.

Lemma owns_closed os h i s : owns os h -> h !! i = Some s -> owns (closesocket s os) (delete i h).
Proof.
  intros [H1 H2 H3 H4] Hi. unfold closesocket. rewrite bool_decide_true by (apply H3; eauto). split; rsimpl; [done|..].
  - intros j k x [_ Hj]%lookup_delete_Some [_ Hk]%lookup_delete_Some. by apply (H2 _ _ x).
  - intros x. rewrite elem_of_difference, elem_of_singleton, H3. split.
    + intros [[j Hj] Hx]. exists j. apply lookup_delete_Some. split; [congruence|done].
    + intros [j [Hn Hj]%lookup_delete_Some]. split; [eauto|]. intros ->. by apply Hn, (H2 _ _ s).
  - intros x [Hx _]%elem_of_difference. by apply H4.
Qed.

Lemma owns_use os h i s : owns os h -> h !! i = Some s -> use_socket s os = os.
Proof. intros H Hi. unfold use_socket. rewrite bool_decide_true; [done|]. apply (ow_open _ _ H). eauto. Qed.

Lemma owns_moved os h i j s : owns os h -> h !! i = Some s -> h !! j = None -> owns os (<[j := s]> (delete i h)).
Proof.
  intros [H1 H2 H3 H4] Hi Hj. assert (Hn : i <> j) by congruence. split; [done|..|done].
  - intros a b x. rewrite !lookup_insert, !lookup_delete. repeat case_decide; subst; try done; intros Ha Hb.
    + injection Ha as <-. by destruct (H2 i b s Hi Hb).
    + injection Hb as <-. by destruct (H2 i a s Hi Ha).
    + by apply (H2 _ _ x).
  - intros x. rewrite H3. split.
    + intros [a Ha]. destruct (decide (a = i)) as [->|Hai].
      * exists j. rewrite lookup_insert_eq. congruence.
      * exists a. rewrite lookup_insert_ne by congruence. by rewrite lookup_delete_ne.
    + intros [a Ha]. rewrite lookup_insert, lookup_delete in Ha. repeat case_decide; subst; [injection Ha as <-; eauto|done|eauto].
Qed.

(** A socket that is opened, used and closed in one call leaves nothing behind. *)
Lemma owns_transient os h :
  owns os h ->
  let os' := (open_socket os).2 in
  use_socket (os_next os) os' = os' /\ owns (closesocket (os_next os) os') h /\
  forall i, h !! i = None -> owns os' (<[i := os_next os]> h).
Proof.
  intros H os'. set (i := fresh (dom h)). assert (Hi : h !! i = None) by (apply not_elem_of_dom, is_fresh).
  pose proof (owns_socket os h i H Hi) as H'. split_and!.
  - apply (owns_use _ _ i _ H'). by rewrite lookup_insert_eq.
  - rewrite <- (delete_insert_id h i (os_next os) Hi). apply owns_closed; [done|]. by rewrite lookup_insert_eq.
  - intros j Hj. by apply owns_socket.
Qed.

(** ** Every operation *)

Definition held (w : Sockets) : gmap nat Socket := omap obj_socket (sk_objs w).
Definition sockets_ok (w : Sockets) : Prop := owns (sk_os w) (held w).

Lemma held_lookup w i o : sk_objs w !! i = Some o -> held w !! i = obj_socket o.
Proof. intros H. unfold held. by rewrite lookup_omap, H. Qed.
Lemma held_none w i : sk_objs w !! i = None -> held w !! i = None.
Proof. intros H. unfold held. by rewrite lookup_omap, H. Qed.

(** An object takes a socket, or none. *)
Lemma held_insert os objs i o :
  held (mkSockets os (<[i := o]> objs)) =
    match obj_socket o with Some s => <[i := s]> (held (mkSockets os objs)) | None => delete i (held (mkSockets os objs)) end.
Proof.
  unfold held. cbn [sk_objs]. destruct (obj_socket o) as [s|] eqn:E; [by apply omap_insert_Some|by apply omap_insert_None].
Qed.

Lemma held_same os os' objs i o o' :
  objs !! i = Some o -> obj_socket o' = obj_socket o -> held (mkSockets os' (<[i := o']> objs)) = held (mkSockets os objs).
Proof.
  intros Hi E. rewrite held_insert, E. change (held (mkSockets os' objs)) with (held (mkSockets os objs)).
  pose proof (held_lookup (mkSockets os objs) i o Hi) as Hl.
  destruct (obj_socket o); [by apply insert_id|by apply delete_id].
Qed.

Lemma close_obj_ok os objs i o :
  objs !! i = Some o -> sockets_ok (mkSockets os objs) ->
  owns (close_obj o os).2 (delete i (held (mkSockets os objs))) /\ obj_socket (close_obj o os).1 = None.
Proof.
  intros Hi H. pose proof (held_lookup (mkSockets os objs) i o Hi) as Hl.
  destruct o as [c|l]; cbn [close_obj obj_socket] in *; [unfold tc_close; destruct (tc_socket c) eqn:E|unfold tl_close; destruct (tl_socket l) eqn:E];
    cbn [fst snd obj_socket]; rsimpl; (split; [|done]); try (by apply owns_closed); by rewrite delete_id.
Qed.

(** A new socket for an object that has none. *)
Lemma fresh_socket_ok os objs i o :
  sockets_ok (mkSockets os objs) -> held (mkSockets os objs) !! i = None -> obj_socket o = Some (os_next os) ->
  sockets_ok (mkSockets (open_socket os).2 (<[i := o]> objs)).
Proof.
  intros H Hi Ho. unfold sockets_ok. rewrite held_insert, Ho. cbn [sk_os]. by apply owns_socket.
Qed.

Lemma connect_ok os objs i c o :
  objs !! i = Some (OConn c) -> tc_socket c = None -> sockets_ok (mkSockets os objs) ->
  sockets_ok (sock_step (mkSockets os objs) (SConnect i o)).
Proof.
  intros Hi Hc H. cbn [sock_step]. rewrite Hi. unfold tc_connect.
  pose proof (owns_started os _ (cn_startup o) H) as Hs. destruct (ensure_winsock (cn_startup o) os) as [rc os1]. cbn [snd] in Hs.
  assert (Hkeep : forall os' c', tc_socket c' = None -> owns os' (held (mkSockets os objs)) -> sockets_ok (mkSockets os' (<[i := OConn c']> objs))).
  { intros os' c' Hn Ho. unfold sockets_ok. rewrite (held_same os os' objs i (OConn c)); [done|done|]. cbn. congruence. }
  destruct (negb (rc =? 0)); [by apply Hkeep|]. destruct (negb (cn_socket o)); [by apply Hkeep|].
  destruct (owns_transient os1 _ Hs) as (Hu & Hcl & Hop). destruct (open_socket os1) as [s os2] eqn:Eo.
  assert (s = os_next os1) as -> by (unfold open_socket in Eo; by injection Eo). cbn [snd] in *.
  destruct (negb (cn_resolve o =? 0)); [by apply Hkeep|]. rewrite Hu. destruct (negb (cn_connect o =? 0)); [apply Hkeep; [by rsimpl|done]|].
  unfold sockets_ok. rewrite held_insert. cbn [obj_socket sk_os]. rsimpl. apply (Hop i).
  rewrite (held_lookup (mkSockets os objs) i (OConn c) Hi). exact Hc.
Qed.

Lemma listen_ok os objs i l o host port :
  objs !! i = Some (OListener l) -> tl_socket l = None -> sockets_ok (mkSockets os objs) ->
  sockets_ok (sock_step (mkSockets os objs) (SListen i o host port)).
Proof.
  intros Hi Hc H. cbn [sock_step]. rewrite Hi. unfold tl_listen.
  pose proof (owns_started os _ (ln_startup o) H) as Hs. destruct (ensure_winsock (ln_startup o) os) as [rc os1]. cbn [snd] in Hs.
  assert (Hkeep : forall os' l', tl_socket l' = None -> owns os' (held (mkSockets os objs)) -> sockets_ok (mkSockets os' (<[i := OListener l']> objs))).
  { intros os' l' Hn Ho. unfold sockets_ok. rewrite (held_same os os' objs i (OListener l)); [done|done|]. cbn. congruence. }
  destruct (negb (rc =? 0)); [by apply Hkeep|]. destruct (negb (ln_socket o)); [by apply Hkeep|].
  destruct (owns_transient os1 _ Hs) as (Hu & Hcl & Hop). destruct (open_socket os1) as [s os2] eqn:Eo.
  assert (s = os_next os1) as -> by (unfold open_socket in Eo; by injection Eo). cbn [snd] in *. rewrite Hu.
  destruct (negb (ln_resolve o (listen_host host) =? 0)); [by apply Hkeep|]. destruct (negb (ln_bind o =? 0)); [apply Hkeep; [by rsimpl|done]|].
  destruct (negb (ln_listen o =? 0)); [by apply Hkeep|].
  unfold sockets_ok. rewrite held_insert. cbn [obj_socket sk_os]. rsimpl. apply (Hop i).
  rewrite (held_lookup (mkSockets os objs) i (OListener l) Hi). exact Hc.
Qed.

(** A socket goes from one object to another that holds none. *)
Lemma transfer_ok os objs i j o o1 o2 :
  objs !! i = Some o -> i <> j -> held (mkSockets os objs) !! j = None -> obj_socket o1 = obj_socket o -> obj_socket o2 = None ->
  sockets_ok (mkSockets os objs) -> sockets_ok (mkSockets os (<[j := o1]> (<[i := o2]> objs))).
Proof.
  intros Hi Hn Hj E1 E2 H. unfold sockets_ok. cbn [sk_os]. rewrite !held_insert, E1, E2.
  pose proof (held_lookup (mkSockets os objs) i o Hi) as Hl. destruct (obj_socket o) as [s|].
  - by apply owns_moved.
  - rewrite (delete_id (held _) i) by done. by rewrite delete_id.
Qed.

Lemma sock_step_ok w op : sock_legal w op -> sockets_ok w -> sockets_ok (sock_step w op).
Proof.
  destruct w as [os objs]. intros Hl H. destruct op as [i|i rc|i o|i o host port|i j ok|i j|i j junk|i rc|i|i]; cbn [sock_step sock_legal sk_objs] in *.
  - destruct (objs !! i) eqn:Hi; [done|]. unfold sockets_ok. rewrite held_insert. cbn. rewrite delete_id; [done|]. by apply (held_none (mkSockets os objs)).
  - destruct (objs !! i) eqn:Hi; [done|]. unfold sockets_ok, new_listener. rewrite held_insert. cbn [obj_socket tl_socket sk_os].
    rewrite delete_id by (by apply (held_none (mkSockets _ objs))). by apply owns_started.
  - destruct (objs !! i) as [[c|l]|] eqn:Hi; [|done..]. pose proof (connect_ok os objs i c o Hi (Hl _ eq_refl) H) as Hc.
    cbn [sock_step] in Hc. by rewrite Hi in Hc.
  - destruct (objs !! i) as [[c|l]|] eqn:Hi; [done| |done]. pose proof (listen_ok os objs i l o host port Hi (Hl _ eq_refl) H) as Hc.
    cbn [sock_step] in Hc. by rewrite Hi in Hc.
  - destruct (objs !! i) as [[c|l]|] eqn:Hi; [done| |done]. destruct (objs !! j) eqn:Hj; [done|]. unfold tl_accept.
    pose proof (held_lookup (mkSockets os objs) i _ Hi) as Hh. cbn [obj_socket] in Hh. destruct (tl_socket l) as [s|]; [|done].
    rewrite (owns_use os _ i s H Hh). destruct ok; [|done]. cbn [open_socket].
    apply (fresh_socket_ok os objs j); [done|by apply (held_none (mkSockets os objs))|done].
  - destruct (objs !! i) as [[o|l]|] eqn:Hi; [|done..]. destruct (objs !! j) eqn:Hj; [done|]. cbn [tc_move].
    apply (transfer_ok os objs i j (OConn o)); [done|congruence|by apply (held_none (mkSockets os objs))|done|by cbn; rsimpl|done].
  - destruct (objs !! i) as [[c|l]|] eqn:Hi; [|done..]. destruct (objs !! j) as [[o|l]|] eqn:Hj; [|done..].
    case_bool_decide as Hn; [done|]. unfold tc_assign.
    destruct (close_obj_ok os objs i (OConn c) Hi H) as [Hc1 Hc2]. cbn [close_obj] in Hc1, Hc2.
    destruct (tc_close c os) as [c1 os1]. cbn [fst snd obj_socket] in *.
    assert (H1 : sockets_ok (mkSockets os1 (<[i := OConn c1]> objs))).
    { unfold sockets_ok. rewrite held_insert. cbn [obj_socket sk_os]. by rewrite Hc2. }
    assert (E : forall x y, <[i := x]> (<[j := y]> objs) = <[i := x]> (<[j := y]> (<[i := OConn c1]> objs))).
    { intros x y. apply map_eq. intros k. rewrite !lookup_insert. by repeat case_decide. }
    rewrite E.
    apply (transfer_ok os1 (<[i := OConn c1]> objs) j i (OConn o)); [by rewrite lookup_insert_ne|congruence| |done|by cbn; rsimpl|done].
    rewrite (held_lookup (mkSockets os1 (<[i := OConn c1]> objs)) i (OConn c1)); [exact Hc2|]. cbn [sk_objs]. apply lookup_insert_eq.
  - destruct (objs !! i) as [[c|l]|] eqn:Hi; [|done..]. unfold tc_set_nonblocking.
    pose proof (held_lookup (mkSockets os objs) i _ Hi) as Hh. cbn [obj_socket] in Hh. destruct (tc_socket c) as [s|]; [|done].
    cbn [snd]. by rewrite (owns_use os _ i s H Hh).
  - destruct (objs !! i) as [o|] eqn:Hi; [|done]. destruct (close_obj_ok os objs i o Hi H) as [Hc1 Hc2].
    destruct (close_obj o os) as [o1 os1]. cbn [fst snd] in *. unfold sockets_ok. rewrite held_insert, Hc2. exact Hc1.
  - destruct (objs !! i) as [o|] eqn:Hi; [|done]. destruct (close_obj_ok os objs i o Hi H) as [Hc1 _].
    unfold sockets_ok, held in *. cbn [sk_os sk_objs] in *. by rewrite omap_delete.
Qed.

(** C34: no socket is leaked, shared or closed twice.  Whatever system calls fail, after any sequence of operations on
    connections and listeners (created, connected, accepted, moved, assigned, closed, destroyed) in which only
    objects without a socket are connected or told to listen, no call was ever made on a handle that was not
    open, the open sockets of the process are exactly those the objects hold, and no two objects hold the same;
    in particular none is open once all objects are destroyed. *)
Theorem sockets_owned (ops : list SockOp) :
  socks_legal no_sockets ops ->
  let w := foldl sock_step no_sockets ops in
  os_bad (sk_os w) = false /\
  (forall s, s ∈ os_open (sk_os w) <-> exists i o, sk_objs w !! i = Some o /\ obj_socket o = Some s) /\
  (forall i j oi oj s, sk_objs w !! i = Some oi -> sk_objs w !! j = Some oj -> obj_socket oi = Some s -> obj_socket oj = Some s -> i = j) /\
  (sk_objs w = ∅ -> os_open (sk_os w) = ∅).
Proof.
  intros Hl w. assert (H : sockets_ok w).
  { assert (K : forall ops w0, socks_legal w0 ops -> sockets_ok w0 -> sockets_ok (foldl sock_step w0 ops)).
    { clear. induction ops as [|op ops IH]; intros w0; [done|]. intros [H1 H2] H. cbn [foldl]. apply IH; [done|by apply sock_step_ok]. }
    apply K; [done|]. unfold sockets_ok. replace (held no_sockets) with (∅ : gmap nat Socket) by (symmetry; apply omap_empty).
    split; [done|by intros i j s ?%lookup_empty_Some| |by intros s ?%elem_of_empty].
    intros s. split; [by intros ?%elem_of_empty|by intros [i ?%lookup_empty_Some]]. }
  destruct H as [H1 H2 H3 H4].
  assert (Hh : forall i s, held w !! i = Some s <-> exists o, sk_objs w !! i = Some o /\ obj_socket o = Some s).
  { intros i s. unfold held. rewrite lookup_omap_Some. split; intros (o & ? & ?); by exists o. }
  assert (Ho : forall s, s ∈ os_open (sk_os w) <-> exists i o, sk_objs w !! i = Some o /\ obj_socket o = Some s).
  { intros s. rewrite H3. split; intros [i Hi]; exists i; by apply Hh. }
  split_and!; [done|done| |].
  - intros i j oi oj s Hi Hj Ei Ej. apply (H2 i j s); apply Hh; eauto.
  - intros He. apply elem_of_equiv_empty_L. intros s Hs. apply Ho in Hs as (i & o & Hi & _). by rewrite He in Hi.
Qed.

(** A listener accepts, the connection is moved into another object, and everything is destroyed; one [connect] fails. *)
Definition all_good : ListenOutcome := mkListenOutcome 0 true (fun _ => 0) 0 0 0.
Definition sample_ops : list SockOp :=
  [SNewListener 1 0; SListen 1 all_good "*" 9000; SAccept 1 2 true; SMove 2 3; SNewConn 4; SConnect 4 (mkConnectOutcome 0 true 0 1 10061);
   SAssign 4 3 []; SDestroy 1; SDestroy 2; SDestroy 3; SClose 4; SDestroy 4].
Lemma sockets_owned_witness :
  os_bad (sk_os (foldl sock_step no_sockets sample_ops)) = false /\ os_open (sk_os (foldl sock_step no_sockets sample_ops)) = ∅.
Proof.
  destruct (sockets_owned sample_ops) as (H1 & _ & _ & H2).
  - cbn. split_and!; try exact I; intros o [= <-]; reflexivity.
  - split; [exact H1|]. apply H2. vm_compute. reflexivity.
Defined.

(** Connecting a connection that is connected loses its first socket for good. *)
Example reconnect_leaks :
  let good := mkConnectOutcome 0 true 0 0 0 in
  let w := foldl sock_step no_sockets [SNewConn 1; SConnect 1 good; SConnect 1 good; SDestroy 1] in
  sk_objs w = ∅ /\ os_open (sk_os w) = {[1]}.
Proof. by vm_compute. Qed.
