(* ===== verification/Crc.v ===== *)
(** * The checksum of persisted state

    [Crc32::update] of src/fabric.cpp, the reflected CRC-32 computed bit by bit, and what
    the checksum guards against.  One bit step is linear over exclusive or, so a run of
    bytes acts on the register as the little-endian value of the run; on 32-bit values a
    bit step is injective because the top bit of the polynomial is set.  From these two
    facts a sealed byte string cannot be changed inside any window of four bytes without
    the seal being broken. *)

From S2P Require Import Prelude Enums Errors Ids Binary Frame.

Definition crc_poly : Z := 0xEDB88320.
Definition crc_init : Z := 0xFFFFFFFF.

(** [mask = -(crc & 1); crc = (crc >> 1) ^ (0xEDB88320u & mask)]. *)
Definition crc_bit (crc : Z) : Z :=
  Z.lxor (Z.shiftr crc 1) (Z.land crc_poly (wrap 32 (- Z.land crc 1))).
Definition crc_byte (crc b : Z) : Z := Nat.iter 8 crc_bit (Z.lxor crc b).

(** [Crc32::update]. *)
Definition crc_update (crc : Z) (bs : bytes) : Z := foldl crc_byte crc bs.

(** [~Crc32::update(0xFFFFFFFFu, ...)]. *)
Definition crc32 (bs : bytes) : Z := wrap 32 (Z.lnot (crc_update crc_init bs)).

(** A body followed by its checksum. *)
Definition seal (body : bytes) : bytes := body ++ w_u32 (crc32 body).

(** The comparison made by [recover_state]: the last four bytes are the checksum of the rest. *)
Definition seal_ok (bs : bytes) : bool :=
  crc32 (take (List.length bs - 4) bs) =? le32_at bs (List.length bs - 4).

(** The standard check value of CRC-32. *)
Example crc32_check : crc32 (string_bytes "123456789") = 0xCBF43926.
Proof. vm_compute. reflexivity. Qed.

(** ** A bit step *)

Lemma crc_bit_cases x :
  crc_bit x = Z.lxor (Z.shiftr x 1) (if Z.odd x then crc_poly else 0).
Proof.
  unfold crc_bit. change 1 with (Z.ones 1) at 2. rewrite Z.land_ones by lia.
  rewrite Z.pow_1_r, Zmod_odd. by destruct (Z.odd x).
Qed.

Lemma crc_bit_lxor x y : crc_bit (Z.lxor x y) = Z.lxor (crc_bit x) (crc_bit y).
Proof.
  rewrite !crc_bit_cases, Z.shiftr_lxor, <- !Z.bit0_odd, Z.lxor_spec.
  apply Z.bits_inj. intros i.
  destruct (Z.testbit x 0), (Z.testbit y 0); cbn [xorb]; rewrite ?Z.lxor_0_r, !Z.lxor_spec;
    repeat match goal with |- context [Z.testbit ?a i] => generalize (Z.testbit a i); intros [] end; done.
Qed.

Lemma crc_bit_double z : crc_bit (2 * z) = z.
Proof.
  rewrite crc_bit_cases, Z.odd_mul. cbn. rewrite Z.lxor_0_r.
  rewrite Z.shiftr_div_pow2 by lia. rewrite Z.pow_1_r, Z.mul_comm. by apply Z.div_mul.
Qed.

Lemma shiftr1_range x : 0 <= x < 2 ^ 32 -> 0 <= Z.shiftr x 1 < 2 ^ 31.
Proof.
  intros Hx. rewrite Z.shiftr_div_pow2 by lia. split; [apply Z.div_pos; lia|].
  apply Z.div_lt_upper_bound; lia.
Qed.

Lemma lxor_range w x y : 0 <= w -> 0 <= x < 2 ^ w -> 0 <= y < 2 ^ w -> 0 <= Z.lxor x y < 2 ^ w.
Proof.
  intros Hw Hx Hy. split; [apply Z.lxor_nonneg; lia|].
  assert (Hz : 0 <= Z.lxor x y) by (apply Z.lxor_nonneg; lia).
  rewrite <- (Z.mod_small x (2 ^ w)), <- (Z.mod_small y (2 ^ w)) by done.
  replace (Z.lxor (x mod 2 ^ w) (y mod 2 ^ w)) with (Z.lxor x y mod 2 ^ w).
  - apply Z.mod_pos_bound. lia.
  - apply Z.bits_inj'. intros i Hi. rewrite Z.lxor_spec, !Z.testbit_mod_pow2, Z.lxor_spec by lia.
    by destruct (i <? w).
Qed.

Lemma crc_bit_range x : 0 <= x < 2 ^ 32 -> 0 <= crc_bit x < 2 ^ 32.
Proof.
  intros Hx. rewrite crc_bit_cases. pose proof (shiftr1_range x Hx).
  apply lxor_range; [lia|lia|]. unfold crc_poly. destruct (Z.odd x); lia.
Qed.

(** The bit that is shifted out comes back as the top bit. *)
Lemma crc_bit_top x : 0 <= x < 2 ^ 32 -> Z.testbit (crc_bit x) 31 = Z.odd x.
Proof.
  intros Hx. rewrite crc_bit_cases, Z.lxor_spec, Z.shiftr_spec by lia.
  replace (Z.testbit x (31 + 1)) with false.
  - by destruct (Z.odd x).
  - symmetry. rewrite <- (Z.mod_small x (2 ^ 32)) by done. by rewrite Z.mod_pow2_bits_high by lia.
Qed.

Lemma crc_bit_inj x y : 0 <= x < 2 ^ 32 -> 0 <= y < 2 ^ 32 -> crc_bit x = crc_bit y -> x = y.
Proof.
  intros Hx Hy E. pose proof (crc_bit_top x Hx) as Tx. pose proof (crc_bit_top y Hy) as Ty.
  rewrite E, Ty in Tx. rewrite !crc_bit_cases, Tx in E.
  assert (E' : Z.shiftr x 1 = Z.shiftr y 1).
  { apply (f_equal (fun z => Z.lxor z (if Z.odd x then crc_poly else 0))) in E.
    by rewrite !Z.lxor_assoc, Z.lxor_nilpotent, !Z.lxor_0_r in E. }
  rewrite !Z.shiftr_div_pow2, Z.pow_1_r in E' by lia.
  rewrite (Zdiv2_odd_eqn x), (Zdiv2_odd_eqn y), !Z.div2_div, E', Tx. done.
Qed.

#[local] Opaque crc_bit.

(** ** Runs of bytes *)

Lemma crc_update_cons c b bs : crc_update c (b :: bs) = crc_update (crc_byte c b) bs.
Proof. done. Qed.
Lemma crc_update_app c bs bs' : crc_update c (bs ++ bs') = crc_update (crc_update c bs) bs'.
Proof. apply foldl_app. Qed.

Lemma iter_lxor n x y : Nat.iter n crc_bit (Z.lxor x y) = Z.lxor (Nat.iter n crc_bit x) (Nat.iter n crc_bit y).
Proof. induction n as [|n IH]; [done|]. by rewrite !Nat.iter_succ, IH, crc_bit_lxor. Qed.

Lemma iter_double n z : Nat.iter n crc_bit (2 ^ Z.of_nat n * z) = z.
Proof.
  revert z. induction n as [|n IH]; intros z; [by rewrite Z.mul_1_l|].
  rewrite Nat.iter_succ_r, Nat2Z.inj_succ, Z.pow_succ_r, <- Z.mul_assoc, crc_bit_double by lia. apply IH.
Qed.

Lemma iter_range n x : 0 <= x < 2 ^ 32 -> 0 <= Nat.iter n crc_bit x < 2 ^ 32.
Proof. intros Hx. induction n as [|n IH]; [done|]. rewrite Nat.iter_succ. by apply crc_bit_range. Qed.

Lemma iter_inj n x y :
  0 <= x < 2 ^ 32 -> 0 <= y < 2 ^ 32 -> Nat.iter n crc_bit x = Nat.iter n crc_bit y -> x = y.
Proof.
  intros Hx Hy. induction n as [|n IH]; [done|]. rewrite !Nat.iter_succ. intros E.
  apply IH, crc_bit_inj; [by apply iter_range..|done].
Qed.

(** The little-endian value of a run. *)
Fixpoint run_value (bs : bytes) : Z :=
  match bs with [] => 0 | b :: bs => b + 2 ^ 8 * run_value bs end.

Lemma run_value_range bs : are_bytes bs -> 0 <= run_value bs < 2 ^ (8 * Z.of_nat (List.length bs)).
Proof.
  induction 1 as [|b bs Hb _ IH]; [cbn; lia|]. apply in_range_iff in Hb. cbn [run_value List.length].
  replace (8 * Z.of_nat (S (List.length bs))) with (8 + 8 * Z.of_nat (List.length bs)) by lia.
  rewrite Z.pow_add_r by lia. nia.
Qed.

Lemma run_value_inj bs bs' :
  are_bytes bs -> are_bytes bs' -> List.length bs = List.length bs' -> run_value bs = run_value bs' -> bs = bs'.
Proof.
  intros H. revert bs'. induction H as [|b bs Hb _ IH]; intros [|b' bs'] H' Hl E; try done.
  apply Forall_cons in H' as [Hb' H']. apply in_range_iff in Hb, Hb'. cbn [run_value] in E.
  injection Hl as Hl. assert (b = b' /\ run_value bs = run_value bs') as [-> ?] by lia.
  f_equal. by apply IH.
Qed.

Lemma byte_lxor_shift b z : 0 <= b < 2 ^ 8 -> b + 2 ^ 8 * z = Z.lxor b (2 ^ 8 * z).
Proof.
  intros Hb. rewrite Z.add_nocarry_lxor; [done|].
  apply Z.bits_inj'. intros i Hi. rewrite Z.land_spec, Z.bits_0.
  destruct (Z.ltb_spec i 8).
  - rewrite Z.mul_comm, Z.mul_pow2_bits_low by lia. apply andb_false_r.
  - rewrite <- (Z.mod_small b (2 ^ 8)) by done. by rewrite Z.mod_pow2_bits_high by lia.
Qed.

(** Feeding a run is feeding its value at once. *)
Lemma crc_update_value bs c :
  are_bytes bs -> crc_update c bs = Nat.iter (8 * List.length bs) crc_bit (Z.lxor c (run_value bs)).
Proof.
  intros H. revert c. induction H as [|b bs Hb _ IH]; intros c; [cbn; by rewrite Z.lxor_0_r|].
  rewrite crc_update_cons, IH.
  cbn [run_value List.length]. rewrite byte_lxor_shift by (by apply in_range_iff).
  replace (8 * S (List.length bs))%nat with (8 * List.length bs + 8)%nat by lia.
  rewrite Nat.iter_add. f_equal. unfold crc_byte.
  rewrite <- Z.lxor_assoc, (iter_lxor 8 (Z.lxor c b)). f_equal.
  symmetry. apply (iter_double 8).
Qed.

Lemma crc_byte_range c b : 0 <= c < 2 ^ 32 -> is_byte b = true -> 0 <= crc_byte c b < 2 ^ 32.
Proof. intros Hc Hb%in_range_iff. apply iter_range, lxor_range; lia. Qed.

Lemma crc_update_range c bs : 0 <= c < 2 ^ 32 -> are_bytes bs -> 0 <= crc_update c bs < 2 ^ 32.
Proof.
  intros Hc H. revert c Hc. induction H as [|b bs Hb _ IH]; intros c Hc; [done|].
  rewrite crc_update_cons. by apply IH, crc_byte_range.
Qed.

Lemma lxor_cancel c x y : Z.lxor c x = Z.lxor c y -> x = y.
Proof.
  intros E. apply (f_equal (Z.lxor c)) in E. by rewrite <- !Z.lxor_assoc, Z.lxor_nilpotent, !Z.lxor_0_l in E.
Qed.

Lemma crc_byte_inj c c' b :
  0 <= c < 2 ^ 32 -> 0 <= c' < 2 ^ 32 -> is_byte b = true -> crc_byte c b = crc_byte c' b -> c = c'.
Proof.
  intros Hc Hc' Hb%in_range_iff E. apply iter_inj in E; [|apply lxor_range; lia..].
  rewrite !(Z.lxor_comm _ b) in E. by apply lxor_cancel in E.
Qed.

Lemma crc_update_inj c c' bs :
  0 <= c < 2 ^ 32 -> 0 <= c' < 2 ^ 32 -> are_bytes bs -> crc_update c bs = crc_update c' bs -> c = c'.
Proof.
  intros Hc Hc' H. revert c c' Hc Hc'. induction H as [|b bs Hb _ IH]; intros c c' Hc Hc' E; [done|].
  rewrite !crc_update_cons in E. apply (crc_byte_inj _ _ b); [done..|].
  apply IH; [by apply crc_byte_range..|done].
Qed.

(** A window of at most four bytes is visible in the register. *)
Lemma crc_update_window c w w' :
  0 <= c < 2 ^ 32 -> are_bytes w -> are_bytes w' -> List.length w = List.length w' ->
  (List.length w <= 4)%nat -> crc_update c w = crc_update c w' -> w = w'.
Proof.
  intros Hc Hw Hw' Hl H4 E. rewrite !crc_update_value, <- Hl in E by done.
  pose proof (run_value_range w Hw) as R. pose proof (run_value_range w' Hw') as R'. rewrite <- Hl in R'.
  assert (2 ^ (8 * Z.of_nat (List.length w)) <= 2 ^ 32) by (apply Z.pow_le_mono_r; lia).
  apply iter_inj in E; [|apply lxor_range; lia..]. apply lxor_cancel in E. by apply run_value_inj.
Qed.

(** ** Sealed byte strings *)

(** What the register holds after a sealed string, whatever the body. *)
Definition crc_residue : Z := Nat.iter 32 crc_bit (2 ^ 32 - 1).

Lemma run_value_word v : in_range 32 v = true -> run_value (w_u32 v) = v.
Proof.
  intros Hv%in_range_iff. unfold w_u32, le_bytes. cbn [map seq run_value Z.of_nat].
  change 0xFF with (Z.ones 8). rewrite !Z.land_ones, !Z.shiftr_div_pow2 by lia.
  change (2 ^ (8 * Z.of_nat 3)) with (256 * 256 * 256). change (2 ^ (8 * Z.of_nat 2)) with (256 * 256). change (2 ^ (8 * Z.of_nat 1)) with 256. change (2 ^ 8) with 256.
  change (2 ^ (8 * Z.of_nat 0)) with 1. change (2^32) with (256 * 256 * 256 * 256) in Hv.
  rewrite Z.div_1_r, <- !Z.div_div by lia.
  pose proof (Z.div_mod v 256). pose proof (Z.div_mod (v / 256) 256). pose proof (Z.div_mod (v / 256 / 256) 256).
  rewrite (Z.mod_small (v / 256 / 256 / 256)); [lia|].
  split; [repeat apply Z.div_pos; lia|repeat apply Z.div_lt_upper_bound; lia].
Qed.

Lemma lxor_lnot c : 0 <= c < 2 ^ 32 -> Z.lxor c (wrap 32 (Z.lnot c)) = 2 ^ 32 - 1.
Proof.
  intros Hc. change (2 ^ 32 - 1) with (Z.ones 32). apply Z.bits_inj'. intros i Hi.
  unfold wrap. rewrite Z.lxor_spec, Z.testbit_mod_pow2, Z.lnot_spec, Z.testbit_ones_nonneg by lia.
  destruct (Z.ltb_spec i 32); cbn [andb].
  - by destruct (Z.testbit c i).
  - rewrite <- (Z.mod_small c (2 ^ 32)) by done. by rewrite Z.mod_pow2_bits_high by lia.
Qed.

Lemma crc32_range bs : in_range 32 (crc32 bs) = true.
Proof. apply wrap_range. lia. Qed.

(** The register after a body and any four bytes [t] is the residue exactly when [t] is the checksum. *)
Lemma seal_residue body v :
  are_bytes body -> in_range 32 v = true ->
  crc_update crc_init (body ++ w_u32 v) = crc_residue <-> v = crc32 body.
Proof.
  intros Hb Hv. pose proof (crc_update_range crc_init body ltac:(unfold crc_init; lia) Hb) as Hc.
  rewrite crc_update_app, crc_update_value by apply le_bytes_are_bytes. rewrite run_value_word by done.
  change (8 * List.length (w_u32 v))%nat with 32%nat. unfold crc_residue, crc32.
  rewrite <- (lxor_lnot (crc_update crc_init body) Hc). split; [|by intros ->].
  intros E. apply in_range_iff in Hv. pose proof (crc32_range body) as Hr%in_range_iff.
  apply iter_inj in E; [|apply lxor_range; unfold crc32 in *; lia..]. by apply lxor_cancel in E.
Qed.

Lemma seal_ok_residue bs :
  are_bytes bs -> (4 <= List.length bs)%nat ->
  seal_ok bs = true <-> crc_update crc_init bs = crc_residue.
Proof.
  intros Hb Hl. unfold seal_ok. rewrite Z.eqb_eq.
  destruct (le32_at_bytes bs (List.length bs - 4)) as [Hr Hw]; [done|lia|].
  assert (E : bs = take (List.length bs - 4) bs ++ w_u32 (le32_at bs (List.length bs - 4))).
  { rewrite Hw, (take_ge (drop _ _)) by (rewrite length_drop; lia). by rewrite take_drop. }
  pose proof (seal_residue (take (List.length bs - 4) bs) _ (Forall_take _ _ _ Hb) Hr) as K.
  rewrite <- E in K. rewrite K. by split.
Qed.

Lemma seal_ok_seal body : are_bytes body -> seal_ok (seal body) = true.
Proof.
  intros Hb. unfold seal_ok, seal. rewrite length_app. change (List.length (w_u32 _)) with 4%nat. rewrite Nat.add_sub.
  rewrite take_app_length. apply Z.eqb_eq. symmetry.
  rewrite <- (app_nil_r (w_u32 _)). apply le32_at_word, crc32_range.
Qed.

Lemma are_bytes_seal body : are_bytes body -> are_bytes (seal body).
Proof. intros H. apply Forall_app. split; [done|apply le_bytes_are_bytes]. Qed.

(** Two byte strings that differ in one window of at most four bytes are not both sealed. *)
Lemma seal_window pre w w' post :
  are_bytes (pre ++ w ++ post) -> are_bytes w' -> List.length w = List.length w' -> (List.length w <= 4)%nat ->
  (4 <= List.length (pre ++ w ++ post))%nat -> w <> w' ->
  seal_ok (pre ++ w ++ post) = true -> seal_ok (pre ++ w' ++ post) = false.
Proof.
  intros Hb Hw' Hl H4 Hlen Hne Hok. apply Forall_app in Hb as H; destruct H as [Hpre H].
  apply Forall_app in H as [Hw Hpost]. apply not_true_iff_false. intros Hok'.
  assert (Hlen' : (4 <= List.length (pre ++ w' ++ post))%nat) by (rewrite !length_app in *; lia).
  assert (Hb' : are_bytes (pre ++ w' ++ post)) by (unfold are_bytes; by rewrite !Forall_app).
  apply (seal_ok_residue _ Hb Hlen) in Hok. apply (seal_ok_residue _ Hb' Hlen') in Hok'.
  apply Hne. rewrite !crc_update_app in Hok, Hok'.
  pose proof (crc_update_range crc_init pre ltac:(unfold crc_init; lia) Hpre) as Hc.
  apply (crc_update_window (crc_update crc_init pre)); [done..|].
  apply (crc_update_inj _ _ post); [by apply crc_update_range..|done|]. congruence.
Qed.
