(* ===== verification/Double.v ===== *)
(** * IEEE-754 binary64

    The [double] arithmetic of the scheduler, of the derived statistics and of the CPU executor, as the
    Standard Library's executable specification of binary floating point at
    precision 53 and maximal exponent 1024, rounding to nearest even. *)

From S2P Require Import Prelude.
From Stdlib Require Import Floats.SpecFloat.

Abbreviation double := spec_float.

Definition prec : Z := 53.
Definition emax : Z := 1024.

Definition d_zero : double := S754_zero false.
(** [static_cast<double>] of an integer. *)
Definition d_of_Z (z : Z) : double := binary_normalize prec emax z 0 false.
Definition d_add : double -> double -> double := SFadd prec emax.
Definition d_sub : double -> double -> double := SFsub prec emax.
Definition d_mul : double -> double -> double := SFmul prec emax.
Definition d_div : double -> double -> double := SFdiv prec emax.
Definition d_sqrt : double -> double := SFsqrt prec emax.
Definition d_ltb : double -> double -> bool := SFltb.
Definition d_eqb : double -> double -> bool := SFeqb.

(** [std::min(a, b)]: [b < a ? b : a]. *)
Definition d_min (a b : double) : double := if d_ltb b a then b else a.

(** A decimal literal [n / d] whose parts are exact: the nearest double to the quotient. *)
Definition d_ratio (n d : Z) : double := d_div (d_of_Z n) (d_of_Z d).

Definition d_1e9 : double := d_of_Z (10 ^ 9).

Lemma d_literals :
  d_ratio 40 100 = S754_finite false 7205759403792794 (-54) /\
  d_ratio 25 100 = S754_finite false 4503599627370496 (-54) /\ d_1e9 = S754_finite false 8388608000000000 (-23).
Proof. by vm_compute. Qed.
