(* ===== verification/FabricState.v ===== *)
(** * The fabric's state and its private helpers

    [DecodeFabric::Impl] of src/fabric.cpp, the configuration and result structs
    of include/decodefabric/{fabric,observability}.hpp, and the helper functions
    of the struct.  Every public operation is a function from the state to the
    state and its result: the lock the source holds for the whole of an
    operation makes each of them one step.

    Two things the source does not determine are interfaces.  [Clock] is the
    abstract clock class: its readings are an arbitrary stream, and the state
    counts the readings taken.  [MapOrder] is the iteration order of
    [std::unordered_map], an arbitrary permutation of the entries that may
    change from one moment to the next.

    A C++ reference [Seq& s] into the map is the sequence's identifier: a write
    through it is [upd_seq], and a read after another function may have written
    is a new lookup. *)

From S2P Require Import Prelude Enums Errors Token StateMachine Ids Compatibility Types Double.
From Stdlib Require Import Ascii String.
Open Scope Z_scope.

(** ** Interfaces *)

(** [Clock::now] (include/decodefabric/clock.hpp): the n-th reading, in nanoseconds. *)
Class Clock := clock_now : nat -> Z.

(** [FixedClock] left at one value. *)
Definition FixedClock (current : Z) : Clock := fun _ => current.

Class MapOrder := {
  iter : forall {K : Type} `{Countable K} {A : Type}, nat -> gmap K A -> list (K * A);
  iter_perm : forall (K : Type) `{Countable K} (A : Type) n (m : gmap K A), iter n m ≡ₚ map_to_list m;
}.

(** One possible order. *)
Definition canonical_order : MapOrder :=
  {| iter K _ _ A _ m := map_to_list m; iter_perm K _ _ A _ m := Permutation_refl _ |}.

(** ** Configuration (include/decodefabric/fabric.hpp) *)

Record FabricLimits := mkFabricLimits {
  fl_max_active_sequences : Z;
  fl_max_outstanding_tokens : Z;
  fl_tokens_per_cycle_budget : Z;
  fl_memory_headroom_bytes : Z;
  fl_max_ready_candidates : Z;
}.
Record RetryPolicy := mkRetryPolicy {
  rp_max_attempts : Z;
  rp_base_backoff_ns : Z;
  rp_preserve_committed_tokens : bool;
}.
Record Config := mkConfig {
  cf_group_limits : GroupLimits;
  cf_limits : FabricLimits;
  cf_retry_policy : RetryPolicy;
  cf_event_capacity : Z;
  cf_require_known_model : bool;
}.
Definition default_config : Config :=
  mkConfig default_group_limits (mkFabricLimits 0 0 0 0 0) (mkRetryPolicy 3 1000000 true) 16384 true.

(** ** Statistics (include/decodefabric/observability.hpp) *)

Record Stats := mkStats {
  st_requests_admitted : Z;
  st_requests_rejected : Z;
  st_sequences_started : Z;
  st_sequences_completed : Z;
  st_sequences_cancelled : Z;
  st_sequences_expired : Z;
  st_sequences_failed : Z;
  st_decode_steps : Z;
  st_generated_tokens : Z;
  st_dispatch_issued : Z;
  st_total_active_ns : Z;
  st_total_queue_ns : Z;
  st_total_inter_token_ns : Z;
  st_cancellations : Z;
  st_retries : Z;
  st_stale_rejections : Z;
  st_deadline_misses : Z;
  st_group_formed : Z;
  st_group_grew : Z;
  st_group_shrank : Z;
  st_backpressure_events : Z;
  st_tokens_per_second : double;
  st_avg_inter_token_ns : double;
  st_avg_queue_delay_ns : double;
  st_max_active_sequences : Z;
  st_tokens_per_cycle_budget : Z;
}.
#[export] Instance Stats_eta : Settable Stats := fun r =>
  mkStats (st_requests_admitted r) (st_requests_rejected r) (st_sequences_started r)
    (st_sequences_completed r) (st_sequences_cancelled r) (st_sequences_expired r)
    (st_sequences_failed r) (st_decode_steps r) (st_generated_tokens r) (st_dispatch_issued r)
    (st_total_active_ns r) (st_total_queue_ns r) (st_total_inter_token_ns r) (st_cancellations r)
    (st_retries r) (st_stale_rejections r) (st_deadline_misses r) (st_group_formed r)
    (st_group_grew r) (st_group_shrank r) (st_backpressure_events r) (st_tokens_per_second r)
    (st_avg_inter_token_ns r) (st_avg_queue_delay_ns r) (st_max_active_sequences r)
    (st_tokens_per_cycle_budget r).
Definition default_stats : Stats :=
  mkStats 0 0 0 0 0 0 0 0 0 0 0 0 0 0 0 0 0 0 0 0 0 d_zero d_zero d_zero 0 0.

(** ** The structs of [DecodeFabric::Impl] *)

Record Seq := mkSeq {
  s_req : DecodeRequest;
  s_machine : SequenceState;
  s_current_attempt : AttemptId;
  s_budget : TokenBudget;
  s_current_length : Z;
  s_generated : Z;
  s_committed : Z;
  s_generation : Z;
  s_in_flight_dispatch : DispatchId;
  s_in_flight_worker : WorkerId;
  s_in_flight_worker_boot : WorkerBootId;
  s_in_flight_epoch : CoordinatorEpoch;
  s_in_flight_generation : Z;
  s_has_inflight : bool;
  s_committed_state_digest : Z;
  s_state_digest_established : bool;
  s_in_flight_grant : GrantId;
  s_has_inflight_grant : bool;
  s_in_flight_proposal : ProposalId;
  s_in_flight_position : Z;
  s_accepted : AcceptedGeneration;
  s_has_accepted : bool;
  s_reservation : ReservationId;
  s_state : StateDescriptor;
  s_attempt_count : Z;
  s_arrival : Z;
  s_ready_at : Z;
  s_last_token_at : Z;
  s_last_grouped_at : Z;
  s_last_dispatched_at : Z;
  s_ever_ran : bool;
}.
#[export] Instance Seq_eta : Settable Seq := fun r =>
  mkSeq (s_req r) (s_machine r) (s_current_attempt r) (s_budget r) (s_current_length r)
    (s_generated r) (s_committed r) (s_generation r) (s_in_flight_dispatch r) (s_in_flight_worker r)
    (s_in_flight_worker_boot r) (s_in_flight_epoch r) (s_in_flight_generation r) (s_has_inflight r)
    (s_committed_state_digest r) (s_state_digest_established r) (s_in_flight_grant r)
    (s_has_inflight_grant r) (s_in_flight_proposal r) (s_in_flight_position r) (s_accepted r)
    (s_has_accepted r) (s_reservation r) (s_state r) (s_attempt_count r) (s_arrival r) (s_ready_at r)
    (s_last_token_at r) (s_last_grouped_at r) (s_last_dispatched_at r) (s_ever_ran r).

(** [Seq{}]. *)
Definition default_seq : Seq :=
  mkSeq default_request SequenceState.Admitted_ null_id (new_budget 0) 0 0 0 1 null_id null_id null_id
    null_id 0 false 0 false null_id false null_id 0 default_accepted false null_id
    default_state_descriptor 1 0 0 0 0 0 false.

Record DevMem := mkDevMem { dm_capacity : Z; dm_reserved : Z; dm_headroom_floor : Z }.
#[export] Instance DevMem_eta : Settable DevMem := fun r =>
  mkDevMem (dm_capacity r) (dm_reserved r) (dm_headroom_floor r).

(** The status of a grant: 0 pending, 1 consumed, 2 aborted. *)
Record GrantRecord := mkGrantRecord {
  gr_grant : CommitGrant;
  gr_status : Z;
  gr_receipt : option MemberReceipt;
}.
#[export] Instance GrantRecord_eta : Settable GrantRecord := fun r =>
  mkGrantRecord (gr_grant r) (gr_status r) (gr_receipt r).

Record Impl := mkImpl {
  im_cfg : Config;
  im_epoch : CoordinatorEpoch;
  im_seqs : gmap SequenceId Seq;
  im_req_to_seq : gmap RequestId SequenceId;
  im_workers : gmap WorkerId WorkerDescriptor;
  im_dev_mem : gmap DeviceId DevMem;
  im_tenant_tokens : gmap TenantId Z;
  im_tenant_active : gmap TenantId Z;
  im_terminal_records : gmap SequenceId SequenceState;
  im_reservations : gmap ReservationId Reservation;
  im_events : list Event;
  im_event_head : nat;
  im_stats : Stats;
  im_worker_current_boot : gmap WorkerId WorkerBootId;
  im_next_seq : Z;
  im_next_group : Z;
  im_next_dispatch : Z;
  im_next_reservation : Z;
  im_next_grant : Z;
  im_grant_ledger : gmap GrantId GrantRecord;
  im_receipt_count : Z;
  im_ticks : nat;
}.
#[export] Instance Impl_eta : Settable Impl := fun r =>
  mkImpl (im_cfg r) (im_epoch r) (im_seqs r) (im_req_to_seq r) (im_workers r) (im_dev_mem r)
    (im_tenant_tokens r) (im_tenant_active r) (im_terminal_records r) (im_reservations r)
    (im_events r) (im_event_head r) (im_stats r) (im_worker_current_boot r) (im_next_seq r)
    (im_next_group r) (im_next_dispatch r) (im_next_reservation r) (im_next_grant r)
    (im_grant_ledger r) (im_receipt_count r) (im_ticks r).

(** [DecodeFabric(config)]. *)
Definition new_fabric (cfg : Config) : Impl :=
  mkImpl cfg (mkId 1) ∅ ∅ ∅ ∅ ∅ ∅ ∅ ∅ [] 0
    (default_stats <| st_max_active_sequences := fl_max_active_sequences (cf_limits cfg) |>
                   <| st_tokens_per_cycle_budget := fl_tokens_per_cycle_budget (cf_limits cfg) |>)
    ∅ 1 1 1 1 1 ∅ 0 0.

(** ** Elementary updates *)

(** A write through a reference to a sequence, and a call of its state machine. *)
Definition upd_seq (id : SequenceId) (f : Seq -> Seq) (m : Impl) : Impl := m <| im_seqs ::= alter f id |>.
Definition transition (id : SequenceId) (next : SequenceState) : Impl -> Impl :=
  upd_seq id (fun s => s <| s_machine ::= transition_to_state next |>).

(** [++stats.field]. *)
Definition bump (field : Stats -> Z) `{!Setter field} (m : Impl) : Impl :=
  m <| im_stats ::= (fun st => st <| field ::= (fun c => c +64 1) |>) |>.

(** [tenant_active[t] = std::max(0u, tenant_active[t] - 1u)], on 32-bit unsigned integers. *)
Definition tenant_done (t : TenantId) (m : Impl) : Impl :=
  m <| im_tenant_active ::= (fun ta => <[t := Z.max 0 (wrap 32 (default 0 (ta !! t) - 1))]> ta) |>.

(** [terminal_records[seq] = st]. *)
Definition record_terminal (id : SequenceId) (st : SequenceState) (m : Impl) : Impl :=
  m <| im_terminal_records ::= <[id := st]> |>.

(** A branch not taken. *)
Definition id_impl (m : Impl) : Impl := m.

(** [std::to_string] of an unsigned integer. *)
Definition u64_string (v : Z) : string := append_u64 "" v.

Notation "m >>> f" := (f m) (at level 50, left associativity, only parsing).

Section fabric_helpers.
Context {CLK : Clock} {ORD : MapOrder}.

(** [Impl::now]: one reading of the clock. *)
Definition now (m : Impl) : Z * Impl := (clock_now (im_ticks m), m <| im_ticks ::= S |>).

(** [Impl::record_event]: a ring buffer of [event_capacity] (positive) events. *)
Definition record_event (k : EventKind) (r : RequestId) (s : SequenceId) (detail : string) (m : Impl) : Impl :=
  let '(t, m) := now m in
  let e := mkEvent (mkId (Z.of_nat (List.length (im_events m)) +64 1)) t k r s detail in
  let cap := cf_event_capacity (im_cfg m) in
  if Z.of_nat (List.length (im_events m)) <? cap then m <| im_events ::= (fun l => l ++ [e]) |>
  else m <| im_events ::= <[im_event_head m := e]> |>
         <| im_event_head ::= (fun h => (S h mod Z.to_nat cap)%nat) |>.

(** [Impl::release_reservation]: the state and the returned flag. *)
Definition release_reservation (seq : SequenceId) (m : Impl) : Impl * bool :=
  match im_seqs m !! seq with
  | None => (m, false)
  | Some s =>
      if is_null (s_reservation s) then (m, false)
      else
        let m :=
          match im_reservations m !! s_reservation s with
          | Some rv =>
              if negb (rv_released rv) then
                m >>> upd im_dev_mem (alter (fun dm =>
                       dm <| dm_reserved ::= (fun x => if x >=? rv_bytes rv then x - rv_bytes rv else 0) |>)
                       (rv_device rv))
                  >>> upd im_reservations (delete (s_reservation s))
                  >>> record_event EventKind.ReservationReleased (rq_id (s_req s)) seq "released"
              else m
          | None => m
          end in
        (upd_seq seq (fun s => s <| s_reservation := null_id |>) m, true)
  end.

(** The callers drop the flag. *)
Definition release (seq : SequenceId) (m : Impl) : Impl := fst (release_reservation seq m).

(** [Impl::is_candidate_state]. *)
Definition is_candidate_state (st : SequenceState) : bool :=
  bool_decide (st = SequenceState.Waiting) || bool_decide (st = SequenceState.Ready)
  || bool_decide (st = SequenceState.ReadyForNextToken) || bool_decide (st = SequenceState.Yielded).

(** [Impl::key_for_model]: the first matching key of the first worker that has one. *)
Definition key_for_model (req : DecodeRequest) (m : Impl) : CompatibilityKey :=
  let keys_of (w : WorkerDescriptor) :=
    if is_valid (rq_device_constraint req) && negb (id_eqb (d_id (wk_device w)) (rq_device_constraint req)) then []
    else List.filter (fun mk => id_eqb (k_model mk) (rq_model req) && id_eqb (k_revision mk) (rq_revision req)
                                && id_eqb (k_adapter mk) (rq_adapter req)) (wk_supported_models w) in
  hd default_key (flat_map (fun kv => keys_of kv.2) (iter (im_ticks m) (im_workers m))).

(** [Impl::update_tenant_tokens]: a saturating counter. *)
Definition update_tenant_tokens (t : TenantId) (by_ : Z) (m : Impl) : Impl :=
  m <| im_tenant_tokens ::= (fun tt =>
    match tt !! t with
    | None => <[t := by_]> tt
    | Some v => <[t := if v >? UINT64_MAX - by_ then UINT64_MAX else v + by_]> tt
    end) |>.

Definition is_running (st : SequenceState) : bool :=
  bool_decide (st = SequenceState.Dispatched) || bool_decide (st = SequenceState.Running).

(** A write of the clock reading: [s.ready_at = now()]. *)
Definition stamp_ready (id : SequenceId) (m : Impl) : Impl :=
  let '(t, m) := now m in upd_seq id (fun s => s <| s_ready_at := t |>) m.

(** [Impl::stale_reconcile]. *)
Definition stale_reconcile (seq : SequenceId) (m : Impl) : Impl :=
  let m := m >>> upd_seq seq (fun s => s <| s_has_inflight := false |> <| s_in_flight_dispatch := null_id |>
                  <| s_has_inflight_grant := false |> <| s_in_flight_grant := null_id |>
                  <| s_in_flight_proposal := null_id |>)
             >>> release seq in
  match im_seqs m !! seq with
  | Some s =>
      if negb (is_terminal (s_machine s)) && is_running (s_machine s) then
        m >>> transition seq SequenceState.StepCompleted >>> transition seq SequenceState.ReadyForNextToken
          >>> stamp_ready seq
      else m
  | None => m
  end.

(** [Impl::refresh_derived_stats]. *)
Definition derive_stats (st : Stats) : Stats :=
  let st :=
    if (st_decode_steps st >? 0) && (st_total_active_ns st >? 0) then
      st <| st_tokens_per_second :=
              d_div (d_of_Z (st_generated_tokens st)) (d_div (d_of_Z (st_total_active_ns st)) d_1e9) |>
    else st in
  if st_decode_steps st >? 0 then
    st <| st_avg_queue_delay_ns := d_div (d_of_Z (st_total_queue_ns st)) (d_of_Z (st_decode_steps st)) |>
       <| st_avg_inter_token_ns := d_div (d_of_Z (st_total_inter_token_ns st)) (d_of_Z (st_decode_steps st)) |>
  else st.
Definition refresh_derived_stats (m : Impl) : Impl := m <| im_stats ::= derive_stats |>.

(** [Impl::build_key]: the arrival time and the identity of the supporting model. *)
Definition build_key (req : DecodeRequest) (m : Impl) : DecodeRequest * Impl :=
  let '(req, m) :=
    if rq_arrival req =? 0 then let '(t, m) := now m in (req <| rq_arrival := t |>, m) else (req, m) in
  let k := key_for_model req m in
  (req <| rq_model := k_model k |> <| rq_revision := k_revision k |> <| rq_adapter := k_adapter k |>, m).

(** The attempt identifier a retry mints. *)
Definition next_attempt (m : Impl) : AttemptId := mkId (im_next_dispatch m +64 1000000).

(** The retry branch shared by [apply_noncommit_outcome] and [retry]: a new attempt, made ready. *)
Definition start_attempt (id : SequenceId) (m : Impl) : Impl :=
  m >>> upd_seq id (fun s => s <| s_current_attempt := next_attempt m |>
                              <| s_attempt_count ::= (fun c => wrap 32 (c + 1)) |>)
    >>> transition id SequenceState.Retrying >>> transition id SequenceState.Ready >>> stamp_ready id
    >>> bump st_retries.

(** [Impl::apply_noncommit_outcome(s, mo)], [s] being the sequence [id]. *)
Definition apply_noncommit_outcome (id : SequenceId) (mo : MemberOutcome) (m : Impl) : Impl :=
  match im_seqs m !! id with
  | None => m
  | Some s =>
      let rid := rq_id (s_req s) in
      let tenant := rq_tenant (s_req s) in
      match mo_kind mo with
      | MemberOutcomeKind.Yielded =>
          m >>> transition id SequenceState.StepCompleted >>> transition id SequenceState.Yielded
            >>> upd_seq id (fun s => s <| s_ready_at := mo_finished_at mo |>)
            >>> record_event EventKind.Yielding rid (mo_sequence mo) "yielded"
      | MemberOutcomeKind.RetryableFailure =>
          let m := m >>> release (mo_sequence mo)
                     >>> (if bool_decide (s_machine s = SequenceState.Dispatched)
                         then transition id SequenceState.RetryableFailure else id_impl) in
          if s_attempt_count s >=? rp_max_attempts (cf_retry_policy (im_cfg m)) then
            m >>> transition id SequenceState.NonRetryableFailure
              >>> record_terminal (mo_sequence mo) SequenceState.NonRetryableFailure
              >>> bump st_sequences_failed
              >>> record_event EventKind.RetryFailed rid (mo_sequence mo) "retry_budget_exhausted"
          else
            m >>> (if negb (rp_preserve_committed_tokens (cf_retry_policy (im_cfg m))) then
                    upd_seq id (fun s => s <| s_generated := s_committed s |>
                      <| s_budget := tb_advance_times (Z.to_nat (s_committed s))
                                       (new_budget (rq_max_generation_length (s_req s))) |>)
                  else id_impl)
              >>> start_attempt id
              >>> record_event EventKind.RetryStarted rid (mo_sequence mo) "new_attempt"
      | MemberOutcomeKind.NonRetryableFailure =>
          m >>> (if bool_decide (s_machine s = SequenceState.Dispatched)
                then transition id SequenceState.NonRetryableFailure else id_impl)
            >>> tenant_done tenant >>> bump st_sequences_failed
            >>> record_terminal (mo_sequence mo) SequenceState.NonRetryableFailure
            >>> record_event EventKind.RequestRejected rid (mo_sequence mo) (mo_error_message mo)
      | MemberOutcomeKind.Cancelled =>
          if is_terminal (s_machine s) then m
          else m >>> transition id SequenceState.Cancelled >>> tenant_done tenant
                 >>> bump st_cancellations >>> bump st_sequences_cancelled
                 >>> record_terminal (mo_sequence mo) SequenceState.Cancelled
                 >>> record_event EventKind.SequenceCancelled rid (mo_sequence mo) "backend_cancel"
      | MemberOutcomeKind.Expired =>
          if is_terminal (s_machine s) then m
          else m >>> transition id SequenceState.DeadlineExpired >>> tenant_done tenant
                 >>> bump st_deadline_misses >>> bump st_sequences_expired
                 >>> record_terminal (mo_sequence mo) SequenceState.DeadlineExpired
                 >>> record_event EventKind.SequenceExpired rid (mo_sequence mo) "backend_expired"
      | _ => m
      end
  end.

End fabric_helpers.
