(* ===== verification/CLib.v ===== *)
(** * Command-line arguments and C strings

    What the programs use of the C library: [strtoull] and [atoi] in base ten, and the [c_str] of a
    string as [printf] reads it.  [atoi] is undefined for a number that is not an [int]; what it returns
    there is an interface. *)

From S2P Require Import Prelude Enums Ids Compatibility FabricState.
From Stdlib Require Import Ascii String.
Open Scope Z_scope.

Class AtoiOverflow := atoi_overflow : Z -> Z.

(** [isspace]: the blank, and tabulator to carriage return. *)
Definition is_space (c : ascii) : bool := (N_of_ascii c =? 32)%N || ((9 <=? N_of_ascii c)%N && (N_of_ascii c <=? 13)%N).
Fixpoint skip_space (l : list ascii) : list ascii :=
  match l with
  | c :: l' => if is_space c then skip_space l' else l
  | [] => []
  end.

(** An optional sign. *)
Definition take_sign (l : list ascii) : bool * list ascii :=
  match l with
  | c :: l' => if Ascii.eqb c "-" then (true, l') else if Ascii.eqb c "+" then (false, l') else (false, l)
  | [] => (false, [])
  end.

(** The value of the digits at the head. *)
Fixpoint read_digits (acc : Z) (l : list ascii) : Z :=
  match l with
  | c :: l => if is_digit c then read_digits (10 * acc + (Z.of_N (N_of_ascii c) - 48)) l else acc
  | [] => acc
  end.

(** [strtoull(s, nullptr, 10)]: saturates, and negates modulo 2^64. *)
Definition strtoull (s : string) : Z :=
  let '(neg, l) := take_sign (skip_space (chars s)) in
  let v := read_digits 0 l in
  if v >? UINT64_MAX then UINT64_MAX else if neg then wrap 64 (- v) else v.

(** [atoi]. *)
Definition atoi `{AtoiOverflow} (s : string) : Z :=
  let '(neg, l) := take_sign (skip_space (chars s)) in
  let v := if neg then - read_digits 0 l else read_digits 0 l in
  if (- 2 ^ 31 <=? v) && (v <? 2 ^ 31) then v else atoi_overflow v.

(** The text of [s.c_str()]: up to the first zero character. *)
Fixpoint c_str (s : string) : string :=
  match s with
  | EmptyString => EmptyString
  | String c s => if (N_of_ascii c =? 0)%N then EmptyString else String c (c_str s)
  end.

(** ** Numbers survive printing and reading *)

Lemma read_digits_nonneg acc l : 0 <= acc -> 0 <= read_digits acc l.
Proof.
  revert acc. induction l as [|c l IH]; intros acc Ha; [done|]. cbn [read_digits]. destruct (is_digit c) eqn:E; [|done].
  unfold is_digit in E. rewrite andb_true_iff, !N.leb_le in E. apply IH. lia.
Qed.

Lemma strtoull_range s : in_range 64 (strtoull s) = true.
Proof.
  unfold strtoull. destruct (take_sign _) as [neg l]. pose proof (read_digits_nonneg 0 l ltac:(lia)) as H.
  apply in_range_iff. unfold UINT64_MAX. destruct (Z.gtb_spec (read_digits 0 l) (2 ^ 64 - 1)); [lia|].
  destruct neg; [|lia]. apply Z.mod_pos_bound. lia.
Qed.

Lemma read_digits_value acc l :
  Forall (fun c => is_digit c = true) l -> read_digits acc l = acc * 10 ^ Z.of_nat (List.length l) + digits_value (rev l).
Proof.
  intros Hl. revert acc. induction Hl as [|c l Hc Hl IH]; intros acc; [cbn; lia|]. cbn [read_digits]. rewrite Hc, IH.
  assert (Hd : forall k, digits_value (k ++ [c]) = digits_value k + (Z.of_N (N_of_ascii c) - 48) * 10 ^ Z.of_nat (List.length k)).
  { clear. induction k as [|x k IH]; cbn [app digits_value List.length]; [cbn; lia|]. rewrite IH, Nat2Z.inj_succ, Z.pow_succ_r by lia. ring. }
  cbn [rev List.length]. rewrite Hd, length_rev, Nat2Z.inj_succ, Z.pow_succ_r by lia. ring.
Qed.

(** What is printed with [%llu] is read back. *)
Lemma strtoull_printed v : in_range 64 v = true -> strtoull (u64_string v) = v.
Proof.
  intros Hv. pose proof Hv as Hr. apply in_range_iff in Hr. unfold strtoull, u64_string.
  pose proof (append_u64_digits v ltac:(lia)) as Hd. pose proof (append_u64_value v Hv) as Hval.
  assert (Hne : chars (append_u64 "" v) <> []).
  { rewrite append_u64_chars. destruct (Z.eqb_spec v 0) as [|Hn]; [done|]. intros E%(f_equal (@rev ascii)). rewrite rev_involutive in E.
    change (digits_rev 24 v) with (if v >? 0 then ascii_of_N (Z.to_N (48 + v mod 10)) :: digits_rev 23 (v / 10) else []) in E.
    destruct (Z.gtb_spec v 0); [done|lia]. }
  destruct (chars (append_u64 "" v)) as [|c l] eqn:E; [done|]. pose proof (Forall_inv Hd) as Hc. cbn beta in Hc.
  pose proof Hc as Hc'. unfold is_digit in Hc'. rewrite andb_true_iff, !N.leb_le in Hc'.
  assert (Hs : is_space c = false).
  { unfold is_space. apply orb_false_iff. rewrite N.eqb_neq, andb_false_iff, !N.leb_gt. lia. }
  cbn [skip_space]. rewrite Hs. unfold take_sign.
  destruct (Ascii.eqb_spec c "-"); [by subst c|]. destruct (Ascii.eqb_spec c "+"); [by subst c|].
  rewrite read_digits_value, Hval by done. unfold UINT64_MAX. destruct (Z.gtb_spec (0 * 10 ^ Z.of_nat (List.length (c :: l)) + v) (2 ^ 64 - 1)); lia.
Qed.
