(* ===== verification/FabricFrame.v ===== *)
(** * What the fabric's helpers leave alone

    [quiet m m'] relates a state to one that differs from it only by bookkeeping:
    no sequence appears or disappears, every sequence moves along the lifecycle
    only, none of its committed generation, tokens, digests or accepted record
    changes, an in-flight grant is kept or dropped but never acquired, and the
    grant ledger and the token counters are untouched.  It is a preorder, so an
    operation is quiet when its parts are; the hint database [quiet] holds the
    parts and the tactic [quiet_walk] composes them. *)

From S2P Require Import Prelude Enums Errors Token StateMachine Ids Compatibility Types Double FabricState.

(** The fields of a sequence that only a consumed commit receipt may change. *)
Definition committed_view (s : Seq) :=
  (s_req s, s_committed s, s_generation s, s_current_length s, s_committed_state_digest s,
   s_state_digest_established s, (s_accepted s, s_has_accepted s, s_state s)).

(** The budget is the one [recover_state] and the retry path rebuild from the committed count. *)
Definition budget_matches (s : Seq) : Prop :=
  s_budget s = tb_advance_times (Z.to_nat (s_committed s)) (new_budget (rq_max_generation_length (s_req s))).

(** The grant a sequence has in flight. *)
Definition grant_view (s : Seq) : option (GrantId * ProposalId * Z) :=
  if s_has_inflight_grant s then Some (s_in_flight_grant s, s_in_flight_proposal s, s_in_flight_position s)
  else None.

Record seq_quiet (s s' : Seq) : Prop := {
  sq_life : lifecycle (s_machine s) (s_machine s');
  sq_view : committed_view s' = committed_view s;
  sq_position : s_generated s' = s_generated s \/ s_generated s' = s_committed s';
  sq_budget : budget_matches s -> s_budget s' = s_budget s;
  sq_grant : grant_view s' = grant_view s \/ grant_view s' = None;
}.

(** The parts of the fabric that only [submit], [authorize_prepared], [abort_prepared] and
    [apply_commit_receipt] change. *)
Definition ledger_view (m : Impl) :=
  (im_cfg m, im_grant_ledger m, im_next_grant m, im_receipt_count m, im_req_to_seq m, im_next_seq m,
   (st_decode_steps (im_stats m), st_generated_tokens (im_stats m), st_requests_admitted (im_stats m))).

Record quiet (m m' : Impl) : Prop := {
  q_seqs : forall id, option_Forall2 seq_quiet (im_seqs m !! id) (im_seqs m' !! id);
  q_view : ledger_view m' = ledger_view m;
}.

Lemma seq_quiet_req s s' : seq_quiet s s' -> s_req s' = s_req s /\ s_committed s' = s_committed s.
Proof. intros H. pose proof (sq_view _ _ H) as Hv. unfold committed_view in Hv. by simplify_eq/=. Qed.

Lemma sq_generated s s' : seq_quiet s s' -> s_generated s = s_committed s -> s_generated s' = s_generated s.
Proof. intros H E. destruct (seq_quiet_req _ _ H) as [_ Hc]. destruct (sq_position _ _ H); congruence. Qed.

#[export] Instance seq_quiet_preorder : PreOrder seq_quiet.
Proof.
  split; [split; auto; reflexivity|]. intros s1 s2 s3 H12 H23.
  pose proof (seq_quiet_req _ _ H12) as [Hr Hc].
  destruct H12 as [L12 V12 G12 B12 I12], H23 as [L23 V23 G23 B23 I23]. split.
  - by etrans.
  - congruence.
  - unfold committed_view in V23. simplify_eq/=. destruct G12, G23; (left; congruence) || (right; congruence).
  - intros H. specialize (B12 H). rewrite B23; [done|]. unfold budget_matches in *. congruence.
  - destruct I23 as [->|]; [exact I12|by right].
Qed.

#[export] Instance quiet_preorder : PreOrder quiet.
Proof.
  split; [split; [intros id; by destruct (im_seqs x !! id); constructor|done]|].
  intros m1 m2 m3 [S12 V12] [S23 V23]. split; [|congruence].
  intros id. specialize (S12 id). specialize (S23 id).
  destruct S12; inversion S23; subst; constructor. by etrans.
Qed.

(** ** The parts *)

(** A state that shares the sequences and the ledger. *)
Lemma quiet_same m m' :
  im_seqs m' = im_seqs m -> ledger_view m' = ledger_view m -> quiet m m'.
Proof. intros Hs Hv. split; [|done]. intros id. rewrite Hs. by destruct (im_seqs m !! id); constructor. Qed.

Lemma quiet_upd_seq m id f : (forall s, im_seqs m !! id = Some s -> seq_quiet s (f s)) -> quiet m (upd_seq id f m).
Proof.
  intros Hf. split; [|done]. intros i. unfold upd_seq. rsimpl. destruct (decide (i = id)) as [->|Hn].
  - rewrite lookup_alter_eq. destruct (im_seqs m !! id) as [s|] eqn:E; constructor. by apply Hf.
  - rewrite lookup_alter_ne by done. by destruct (im_seqs m !! i); constructor.
Qed.

(** Lookups under the elementary updates. *)
Lemma lookup_upd_seq m id f i :
  im_seqs (upd_seq id f m) !! i = if decide (i = id) then f <$> (im_seqs m !! i) else im_seqs m !! i.
Proof.
  unfold upd_seq. rsimpl. destruct (decide (i = id)) as [->|Hn].
  - by rewrite lookup_alter_eq.
  - by rewrite lookup_alter_ne.
Qed.

Create HintDb quiet.

(** Proofs that a write to a sequence touches bookkeeping fields only. *)
Ltac seq_quiet_solve :=
  intros; split; unfold committed_view, grant_view; rsimpl; try done; try (by left); try reflexivity; try apply transition_to_lifecycle; auto.

Section parts.
Context {CLK : Clock} {ORD : MapOrder}.
Implicit Types (m : Impl) (id : SequenceId).

Lemma quiet_refl m : quiet m m.
Proof. reflexivity. Qed.

Lemma quiet_then m0 m m' : quiet m m' -> quiet m0 m -> quiet m0 m'.
Proof. intros. by etrans. Qed.

Lemma quiet_id_impl m0 m : quiet m0 m -> quiet m0 (id_impl m).
Proof. done. Qed.

Lemma quiet_transition m0 m id next : quiet m0 m -> quiet m0 (transition id next m).
Proof. apply quiet_then, quiet_upd_seq. seq_quiet_solve. Qed.

Lemma quiet_now m : quiet m (now m).2.
Proof. by apply quiet_same. Qed.

Lemma record_event_fields k r s d m :
  im_seqs (record_event k r s d m) = im_seqs m /\ ledger_view (record_event k r s d m) = ledger_view m /\
  im_epoch (record_event k r s d m) = im_epoch m /\
  im_worker_current_boot (record_event k r s d m) = im_worker_current_boot m.
Proof. unfold record_event. cbn [now]. case_match; done. Qed.

Lemma quiet_record_event m0 m k r s d : quiet m0 m -> quiet m0 (record_event k r s d m).
Proof. apply quiet_then. destruct (record_event_fields k r s d m) as (H1 & H2 & _). by apply quiet_same. Qed.

Lemma quiet_tenant_done m0 m t : quiet m0 m -> quiet m0 (tenant_done t m).
Proof. by apply quiet_then, quiet_same. Qed.

Lemma quiet_record_terminal m0 m id st : quiet m0 m -> quiet m0 (record_terminal id st m).
Proof. by apply quiet_then, quiet_same. Qed.

Lemma quiet_update_tenant_tokens m0 m t n : quiet m0 m -> quiet m0 (update_tenant_tokens t n m).
Proof. by apply quiet_then, quiet_same. Qed.

Lemma quiet_refresh m0 m : quiet m0 m -> quiet m0 (refresh_derived_stats m).
Proof.
  apply quiet_then, quiet_same; [done|]. unfold ledger_view, refresh_derived_stats, derive_stats. rsimpl.
  cbv zeta. repeat case_match; done.
Qed.

Lemma quiet_stamp_ready m0 m id : quiet m0 m -> quiet m0 (stamp_ready id m).
Proof.
  apply quiet_then. unfold stamp_ready. cbn [now]. etrans; [apply (quiet_now m)|].
  apply quiet_upd_seq. seq_quiet_solve.
Qed.

Lemma quiet_release m0 m id : quiet m0 m -> quiet m0 (release id m).
Proof.
  apply quiet_then. unfold release, release_reservation.
  destruct (im_seqs m !! id) as [s|]; [|reflexivity]. case_match; [reflexivity|]. cbn [fst].
  eapply quiet_then; [apply quiet_upd_seq; seq_quiet_solve|].
  repeat case_match; try reflexivity. apply quiet_record_event. by apply quiet_same.
Qed.
End parts.

(** A counter that is not part of the ledger's view. *)
Lemma quiet_bump (f : Stats -> Z) `{!Setter f} m0 m :
  (forall st g, st_decode_steps (upd f g st) = st_decode_steps st /\
                st_generated_tokens (upd f g st) = st_generated_tokens st /\
                st_requests_admitted (upd f g st) = st_requests_admitted st) ->
  quiet m0 m -> quiet m0 (bump f m).
Proof.
  intros Hf. apply quiet_then, quiet_same; [done|]. unfold ledger_view, bump. rsimpl.
  destruct (Hf (im_stats m) (fun c => c +64 1)) as (-> & -> & ->). done.
Qed.

#[export] Hint Resolve quiet_refl quiet_id_impl quiet_transition quiet_record_event quiet_tenant_done
  quiet_record_terminal quiet_update_tenant_tokens quiet_refresh quiet_stamp_ready quiet_release : quiet.
#[export] Hint Extern 2 (quiet _ (bump _ _)) => apply quiet_bump; [intros; done|] : quiet.
#[export] Hint Extern 3 (quiet _ (upd_seq _ _ _)) =>
  eapply quiet_then; [apply quiet_upd_seq; seq_quiet_solve|] : quiet.
(** A write to a field outside the sequences and the ledger's view. *)
Lemma quiet_field {E} (p : Impl -> E) `{!Setter p} f m0 m :
  (forall m, im_seqs (upd p f m) = im_seqs m) -> (forall m, ledger_view (upd p f m) = ledger_view m) ->
  quiet m0 m -> quiet m0 (upd p f m).
Proof. intros Hs Hv. apply quiet_then, quiet_same; [apply Hs|apply Hv]. Qed.
#[export] Hint Extern 4 (quiet _ (upd _ _ _)) => apply quiet_field; [intros; reflexivity..|] : quiet.

Ltac quiet_walk := repeat case_match; cbn [fst snd]; auto 40 with quiet nocore.

Section helpers.
Context {CLK : Clock} {ORD : MapOrder}.
Implicit Types (m : Impl) (id : SequenceId).

(** Dropping the grant in flight is quiet. *)
Lemma seq_quiet_drop_grant s d h :
  seq_quiet s (s <| s_has_inflight := h |> <| s_in_flight_dispatch := d |> <| s_has_inflight_grant := false |>
                 <| s_in_flight_grant := null_id |> <| s_in_flight_proposal := null_id |>).
Proof. split; rsimpl; try done; [by left|by right]. Qed.

Lemma quiet_stale_reconcile m0 m id : quiet m0 m -> quiet m0 (stale_reconcile id m).
Proof.
  intros H. assert (Hd : quiet m0 (m >>> upd_seq id (fun s => s <| s_has_inflight := false |>
      <| s_in_flight_dispatch := null_id |> <| s_has_inflight_grant := false |>
      <| s_in_flight_grant := null_id |> <| s_in_flight_proposal := null_id |>))).
  { eapply quiet_then; [apply quiet_upd_seq|exact H]. intros s _. apply seq_quiet_drop_grant. }
  unfold stale_reconcile. cbv zeta. quiet_walk.
Qed.

Lemma quiet_start_attempt m0 m id : quiet m0 m -> quiet m0 (start_attempt id m).
Proof. intros H. unfold start_attempt. quiet_walk. Qed.

(** Rebuilding the budget from the committed count changes nothing on a matching budget. *)
Lemma seq_quiet_rollback s :
  seq_quiet s (s <| s_generated := s_committed s |>
    <| s_budget := tb_advance_times (Z.to_nat (s_committed s)) (new_budget (rq_max_generation_length (s_req s))) |>).
Proof. split; rsimpl; try done; [by right|by left]. Qed.
End helpers.

#[export] Hint Resolve quiet_stale_reconcile quiet_start_attempt : quiet.

Lemma quiet_apply_noncommit {CLK : Clock} {ORD : MapOrder} m0 m id mo :
  quiet m0 m -> quiet m0 (apply_noncommit_outcome id mo m).
Proof.
  intros H. unfold apply_noncommit_outcome. cbv zeta.
  assert (Hr : forall m1, quiet m0 m1 -> quiet m0 (upd_seq id (fun s => s <| s_generated := s_committed s |>
    <| s_budget := tb_advance_times (Z.to_nat (s_committed s)) (new_budget (rq_max_generation_length (s_req s))) |>) m1)).
  { intros m1. apply quiet_then, quiet_upd_seq. intros s _. apply seq_quiet_rollback. }
  quiet_walk.
Qed.
#[export] Hint Resolve quiet_apply_noncommit : quiet.

(** ** Exact lookups, for the functional behaviour of an operation *)

Section lookups.
Context {CLK : Clock} {ORD : MapOrder}.
Implicit Types (m : Impl) (id i : SequenceId).

Lemma seqs_record_event k r s d m : im_seqs (record_event k r s d m) = im_seqs m.
Proof. apply record_event_fields. Qed.
Lemma seqs_tenant_done t m : im_seqs (tenant_done t m) = im_seqs m.
Proof. done. Qed.
Lemma seqs_record_terminal id st m : im_seqs (record_terminal id st m) = im_seqs m.
Proof. done. Qed.
Lemma seqs_update_tenant_tokens t n m : im_seqs (update_tenant_tokens t n m) = im_seqs m.
Proof. done. Qed.
Lemma seqs_bump f `{!Setter f} m : im_seqs (bump f m) = im_seqs m.
Proof. unfold bump. by rsimpl. Qed.
Lemma seqs_refresh m : im_seqs (refresh_derived_stats m) = im_seqs m.
Proof. done. Qed.

Lemma lookup_transition id next m i :
  im_seqs (transition id next m) !! i =
  if decide (i = id) then (fun s => s <| s_machine ::= transition_to_state next |>) <$> (im_seqs m !! i) else im_seqs m !! i.
Proof. apply lookup_upd_seq. Qed.

Lemma lookup_release id m i :
  im_seqs (release id m) !! i =
  if decide (i = id) then (fun s => s <| s_reservation := null_id |>) <$> (im_seqs m !! i) else im_seqs m !! i.
Proof.
  unfold release, release_reservation. destruct (im_seqs m !! id) as [s|] eqn:Hs.
  - destruct (is_null (s_reservation s)) eqn:Hn; cbn [fst].
    + case_decide as Hi; [subst i|done]. rewrite Hs. cbn. f_equal.
      assert (s_reservation s = null_id) as E.
      { unfold is_null in Hn. apply Z.eqb_eq in Hn. destruct (s_reservation s). cbn in *. by subst. }
      destruct s. cbn in E. by subst.
    + rewrite lookup_upd_seq. case_decide; repeat case_match; rewrite ?seqs_record_event; done.
  - cbn [fst]. case_decide as Hi; [subst i; by rewrite Hs|done].
Qed.

Lemma lookup_stamp_ready id m i :
  im_seqs (stamp_ready id m) !! i =
  if decide (i = id) then (fun s => s <| s_ready_at := clock_now (im_ticks m) |>) <$> (im_seqs m !! i) else im_seqs m !! i.
Proof. unfold stamp_ready. cbn [now]. by rewrite lookup_upd_seq. Qed.
End lookups.

Create Rewrite HintDb seqs.
#[export] Hint Rewrite @seqs_record_event @seqs_tenant_done @seqs_record_terminal @seqs_update_tenant_tokens
  @seqs_refresh @lookup_upd_seq @lookup_transition @lookup_release @lookup_stamp_ready : seqs.
#[export] Hint Rewrite @seqs_bump using typeclasses eauto : seqs.

(** The fields that scheduling and authorization read besides the sequences: workers, epoch, boots. *)
Definition env_view (m : Impl) := (im_workers m, im_epoch m, im_worker_current_boot m, im_cfg m).

Section environment.
Context {CLK : Clock} {ORD : MapOrder}.
Implicit Types (m : Impl) (id : SequenceId).

Lemma env_record_event k r s d m : env_view (record_event k r s d m) = env_view m.
Proof. unfold record_event. cbn [now]. by case_match. Qed.
Lemma env_upd_seq id f m : env_view (upd_seq id f m) = env_view m.
Proof. done. Qed.
Lemma env_transition id st m : env_view (transition id st m) = env_view m.
Proof. done. Qed.
Lemma env_tenant_done t m : env_view (tenant_done t m) = env_view m.
Proof. done. Qed.
Lemma env_record_terminal id st m : env_view (record_terminal id st m) = env_view m.
Proof. done. Qed.
Lemma env_bump f `{!Setter f} m : env_view (bump f m) = env_view m.
Proof. unfold env_view, bump. by rsimpl. Qed.
Lemma env_release id m : env_view (release id m) = env_view m.
Proof.
  unfold release, release_reservation. repeat case_match; cbn [fst]; rewrite ?env_upd_seq, ?env_record_event; done.
Qed.
End environment.

Create Rewrite HintDb env.
#[export] Hint Rewrite @env_record_event @env_upd_seq @env_transition @env_tenant_done @env_record_terminal
  @env_release : env.
#[export] Hint Rewrite @env_bump using typeclasses eauto : env.
