(* ===== verification/FabricOps.v ===== *)
(** * Admission, cancellation, retry, workers, epochs and deadlines

    The public operations of [DecodeFabric] (src/fabric.cpp) up to scheduling:
    [submit], [cancel], [cancel_request], [retry], [register_worker],
    [mark_worker_dead], [roll_epoch] and [advance]. *)

From S2P Require Import Prelude Enums Errors Token StateMachine Ids Compatibility Types Double FabricState FabricFrame.

Record AdmissionDecision := mkAdmission {
  ad_admitted : bool;
  ad_request : RequestId;
  ad_sequence : SequenceId;
  ad_reason : string;
  ad_facts : list string;
}.
Record CancelResult := mkCancelResult {
  cn_cancelled : bool;
  cn_state : SequenceState;
  cn_reason : string;
}.
Record RetryResult := mkRetryResult {
  rt_retried : bool;
  rt_new_attempt : AttemptId;
  rt_state : SequenceState;
  rt_reason : string;
}.

(** A sequence expires, or is cancelled at a boundary: the transition and its bookkeeping. *)
Definition expire_seq (id : SequenceId) (tenant : TenantId) (m : Impl) : Impl :=
  m >>> transition id SequenceState.DeadlineExpired >>> tenant_done tenant >>> bump st_deadline_misses
    >>> bump st_sequences_expired >>> record_terminal id SequenceState.DeadlineExpired.
Definition cancel_seq (id : SequenceId) (tenant : TenantId) (m : Impl) : Impl :=
  m >>> transition id SequenceState.Cancelled >>> tenant_done tenant >>> bump st_cancellations
    >>> bump st_sequences_cancelled >>> record_terminal id SequenceState.Cancelled.

(** [tn.ns >= s.req.deadline.ns] for a request that has a deadline. *)
Definition deadline_passed (tn : Z) (s : Seq) : bool :=
  negb (rq_deadline (s_req s) =? 0) && (tn >=? rq_deadline (s_req s)).

(** The number of sequences that are not terminal, as the 32-bit counter of the source. *)
Definition count_active (m : Impl) : Z :=
  wrap 32 (Z.of_nat (size (filter (fun kv => is_terminal (s_machine kv.2) = false) (im_seqs m)))).

(** The sequence that an admitted request becomes. *)
Definition admitted_seq (req : DecodeRequest) : Seq :=
  let budget := new_budget (rq_max_generation_length req) in
  let pre := rq_pregenerated req in
  let s := default_seq <| s_req := req |>
    <| s_current_attempt := if is_valid (rq_initial_attempt req) then rq_initial_attempt req
                            else mkId (id_value (rq_id req)) |>
    <| s_budget := budget |> in
  let s := if pre >? 0 then s <| s_budget := fst (tb_advance pre budget) |> <| s_generated := pre |>
                              <| s_committed := pre |>
           else s in
  s <| s_current_length := rq_prompt_length req +64 s_committed s |> <| s_state := rq_state req |>
    <| s_arrival := rq_arrival req |> <| s_ready_at := rq_arrival req |>
    <| s_machine := transition_to_state SequenceState.Ready
                      (transition_to_state SequenceState.Waiting SequenceState.Admitted_) |>.

Section operations.
Context {CLK : Clock} {ORD : MapOrder}.

(** The reason for which a valid, known request is held back, if any. *)
Definition backpressure (req : DecodeRequest) (m : Impl) : option string :=
  let max_active := fl_max_active_sequences (cf_limits (im_cfg m)) in
  let max_share := gl_max_tenant_share (cf_group_limits (im_cfg m)) in
  if (max_active >? 0) && (count_active m >=? max_active) then Some "active_sequence_limit_reached"
  else match im_tenant_active m !! rq_tenant req with
       | Some n => if (max_share >? 0) && (n >=? max_share) then Some "tenant_limit_exceeded" else None
       | None => None
       end.

(** [DecodeFabric::submit]. *)
Definition submit (inp : DecodeRequest) (m : Impl) : AdmissionDecision * Impl :=
  let refuse req seq kind reason fact m :=
    (mkAdmission false (rq_id inp) null_id reason [fact], record_event kind (rq_id req) seq reason m) in
  match validate inp with
  | Err e => refuse inp null_id EventKind.RequestRejected (err_message e) "request_validation_failed" m
  | Ok _ =>
      let '(req, m) := build_key inp m in
      if negb (is_valid (rq_model req)) then
        refuse req null_id EventKind.RequestRejected "unknown_model" "model_not_supported_by_any_worker" m
      else match backpressure req m with
      | Some reason => refuse req null_id EventKind.BackpressureApplied reason "backpressure_applied" m
      | None =>
          let s := admitted_seq req in
          if is_valid (rq_sequence req) && bool_decide (is_Some (im_seqs m !! rq_sequence req)) then
            refuse req (rq_sequence req) EventKind.RequestRejected "duplicate_sequence_id" "duplicate_sequence" m
          else
            let '(id, m) :=
              if is_valid (rq_sequence req) then (rq_sequence req, m)
              else (mkId (im_next_seq m), m <| im_next_seq ::= (fun n => n +64 1) |>) in
            let m :=
              m >>> upd im_seqs (fun seqs => if bool_decide (is_Some (seqs !! id)) then seqs else <[id := s]> seqs)
                >>> upd im_req_to_seq <[rq_id req := id]>
                >>> bump st_requests_admitted >>> bump st_sequences_started
                >>> upd im_tenant_active (fun ta => <[rq_tenant req := wrap 32 (default 0 (ta !! rq_tenant req) + 1)]> ta)
                >>> record_event EventKind.RequestAdmitted (rq_id req) id "waiting" in
            (mkAdmission true (rq_id inp) id "admitted" ["state=ready"], m)
      end
  end.

(** [DecodeFabric::cancel]. *)
Definition cancel (seq : SequenceId) (m : Impl) : CancelResult * Impl :=
  match im_seqs m !! seq with
  | None => (mkCancelResult false SequenceState.Admitted_ "unknown_sequence", m)
  | Some s =>
      if is_terminal (s_machine s) then (mkCancelResult false (s_machine s) "already_terminal", m)
      else if bool_decide (s_machine s = SequenceState.CancelRequested) then
        (mkCancelResult false (s_machine s) "already_cancelling", m)
      else
        let m :=
          if is_running (s_machine s) || bool_decide (s_machine s = SequenceState.Reserved)
             || bool_decide (s_machine s = SequenceState.Grouped) then
            transition seq SequenceState.CancelRequested m
          else
            m >>> release seq >>> cancel_seq seq (rq_tenant (s_req s))
              >>> record_event EventKind.SequenceCancelled (rq_id (s_req s)) seq "cancelled" in
        let state := from_option s_machine SequenceState.Admitted_ (im_seqs m !! seq) in
        (mkCancelResult true state "cancel_requested", m)
  end.

(** [DecodeFabric::cancel_request], run without interference between its two critical sections. *)
Definition cancel_request (req : RequestId) (m : Impl) : CancelResult * Impl :=
  match im_req_to_seq m !! req with
  | None => (mkCancelResult false SequenceState.Admitted_ "unknown_request", m)
  | Some id => cancel id m
  end.

(** [DecodeFabric::retry]. *)
Definition retry (seq : SequenceId) (m : Impl) : RetryResult * Impl :=
  match im_seqs m !! seq with
  | None => (mkRetryResult false null_id SequenceState.Admitted_ "unknown_sequence", m)
  | Some s =>
      if bool_decide (s_machine s = SequenceState.RetryableFailure) || is_running (s_machine s) then
        let policy := cf_retry_policy (im_cfg m) in
        let m := if negb (rp_preserve_committed_tokens policy)
                 then upd_seq seq (fun s => s <| s_generated := s_committed s |>) m else m in
        if s_attempt_count s >=? rp_max_attempts policy then
          (mkRetryResult false null_id SequenceState.Admitted_ "retry_budget_exhausted",
           m >>> transition seq SequenceState.NonRetryableFailure
             >>> record_terminal seq SequenceState.NonRetryableFailure
             >>> bump st_sequences_failed
             >>> record_event EventKind.RetryFailed (rq_id (s_req s)) seq "retry_budget_exhausted")
        else
          (mkRetryResult true (next_attempt m) SequenceState.Ready "retried",
           m >>> start_attempt seq
             >>> record_event EventKind.RetryStarted (rq_id (s_req s)) seq "new_attempt")
      else (mkRetryResult false null_id SequenceState.Admitted_ "not_retryable_now", m)
  end.

(** [DecodeFabric::register_worker]. *)
Definition register_worker (wd : WorkerDescriptor) (m : Impl) : Result unit * Impl :=
  if negb (worker_valid wd) then (failed ErrorCode.UnknownWorker "invalid worker descriptor", m)
  else
    (Ok tt,
     m >>> upd im_workers <[wk_id wd := wd]>
       >>> upd im_worker_current_boot <[wk_id wd := wk_boot_id wd]>
       >>> upd im_dev_mem (fun dms =>
             let dm := default (mkDevMem 0 0 0) (dms !! d_id (wk_device wd)) in
             <[d_id (wk_device wd) := dm <| dm_capacity ::= Z.max (d_memory_bytes (wk_device wd)) |>
                 <| dm_headroom_floor := fl_memory_headroom_bytes (cf_limits (im_cfg m)) |>]> dms)
       >>> record_event EventKind.WorkerUp null_id null_id
             ("worker " +:+ u64_string (id_value (wk_id wd)) +:+ " boot " +:+ u64_string (id_value (wk_boot_id wd)))).

(** The reconciliation of one sequence when its worker died. *)
Definition reconcile_dead (id : WorkerId) (m : Impl) (seq : SequenceId) : Impl :=
  match im_seqs m !! seq with
  | None => m
  | Some s =>
      if s_has_inflight s && id_eqb (s_in_flight_worker s) id then
        let m := m >>> release seq >>> upd_seq seq (fun s => s <| s_has_inflight := false |>) in
        if is_terminal (s_machine s) then m
        else
          (if is_running (s_machine s) then
             m >>> transition seq SequenceState.StepCompleted >>> transition seq SequenceState.Waiting
           else m) >>> stamp_ready seq
      else m
  end.

(** [DecodeFabric::mark_worker_dead]. *)
Definition mark_worker_dead (id : WorkerId) (m : Impl) : Result unit * Impl :=
  let m := m >>> upd im_workers (alter (fun w => w <| wk_health := WorkerHealth.Failed |>
                                                  <| wk_active_reservations := 0 |>) id)
             >>> record_event EventKind.WorkerDown null_id null_id ("worker " +:+ u64_string (id_value id)) in
  (Ok tt, foldl (reconcile_dead id) m (iter (im_ticks m) (im_seqs m)).*1).

(** [DecodeFabric::roll_epoch]. *)
Definition roll_epoch (m : Impl) : Result CoordinatorEpoch * Impl :=
  let epoch := mkId (id_value (im_epoch m) +64 1) in
  (Ok epoch,
   m <| im_epoch := epoch |>
     >>> record_event EventKind.EpochRolled null_id null_id ("epoch " +:+ u64_string (id_value epoch))).

(** One sequence of [advance]: expiry first, then a requested cancellation. *)
Definition advance_seq (tn : Z) (m : Impl) (seq : SequenceId) : Impl :=
  match im_seqs m !! seq with
  | None => m
  | Some s =>
      if is_terminal (s_machine s) then m
      else if deadline_passed tn s then
        m >>> release seq >>> expire_seq seq (rq_tenant (s_req s))
          >>> record_event EventKind.SequenceExpired (rq_id (s_req s)) seq "deadline"
      else if bool_decide (s_machine s = SequenceState.CancelRequested) then
        m >>> release seq >>> cancel_seq seq (rq_tenant (s_req s))
          >>> record_event EventKind.SequenceCancelled (rq_id (s_req s)) seq "cancelled"
      else m
  end.

(** [DecodeFabric::advance]. *)
Definition advance (tn : Z) (m : Impl) : Result unit * Impl :=
  (Ok tt, foldl (advance_seq tn) m (iter (im_ticks m) (im_seqs m)).*1).

(** ** All of them but [submit] are quiet *)

Lemma quiet_foldl {B} (f : Impl -> B -> Impl) l m0 m :
  (forall m b, quiet m0 m -> quiet m0 (f m b)) -> quiet m0 m -> quiet m0 (foldl f m l).
Proof. intros Hf Hm. by apply foldl_inv; [|intros; apply Hf]. Qed.

Lemma quiet_expire_seq m0 m id t : quiet m0 m -> quiet m0 (expire_seq id t m).
Proof. intros H. unfold expire_seq. quiet_walk. Qed.
Lemma quiet_cancel_seq m0 m id t : quiet m0 m -> quiet m0 (cancel_seq id t m).
Proof. intros H. unfold cancel_seq. quiet_walk. Qed.
Hint Resolve quiet_expire_seq quiet_cancel_seq : quiet.

Lemma quiet_cancel m seq : quiet m (cancel seq m).2.
Proof. unfold cancel. cbv zeta. quiet_walk. Qed.

Lemma quiet_cancel_request m req : quiet m (cancel_request req m).2.
Proof. unfold cancel_request. case_match; [apply quiet_cancel|reflexivity]. Qed.

Lemma seq_quiet_uncommit s : seq_quiet s (s <| s_generated := s_committed s |>).
Proof. split; rsimpl; try done; [by right|by left]. Qed.

Lemma quiet_retry m seq : quiet m (retry seq m).2.
Proof.
  unfold retry. cbv zeta.
  assert (Hr : quiet m (upd_seq seq (fun s => s <| s_generated := s_committed s |>) m)).
  { apply quiet_upd_seq. intros s _. apply seq_quiet_uncommit. }
  quiet_walk.
Qed.

Lemma quiet_register_worker m wd : quiet m (register_worker wd m).2.
Proof. unfold register_worker. case_match; [reflexivity|]. cbn [snd]. apply quiet_record_event. by apply quiet_same. Qed.

Lemma quiet_mark_worker_dead m id : quiet m (mark_worker_dead id m).2.
Proof.
  unfold mark_worker_dead. cbv zeta. cbn [snd]. apply quiet_foldl.
  - intros m' seq H. unfold reconcile_dead. cbv zeta. quiet_walk.
  - apply quiet_record_event. by apply quiet_same.
Qed.

Lemma quiet_roll_epoch m : quiet m (roll_epoch m).2.
Proof. unfold roll_epoch. cbv zeta. cbn [snd]. apply quiet_record_event. by apply quiet_same. Qed.

Lemma quiet_advance_seq tn m0 m seq : quiet m0 m -> quiet m0 (advance_seq tn m seq).
Proof. intros H. unfold advance_seq. quiet_walk. Qed.

Lemma quiet_advance tn m : quiet m (advance tn m).2.
Proof. unfold advance. cbn [snd]. apply quiet_foldl; [intros; by apply quiet_advance_seq|reflexivity]. Qed.

End operations.

#[export] Hint Resolve quiet_expire_seq quiet_cancel_seq : quiet.
