(* ===== verification/Schedule.v ===== *)
(** * Scheduling, grouping and dispatch

    [DecodeFabric::schedule] of src/fabric.cpp with the structs it uses
    ([SchedulingComponents], [Candidate], [Formed], [Dispatch]).  The function is
    the composition of its five stages, in the order of the source: expire and
    cancel, collect and score candidates, sort, form groups by key, place each
    group on a worker and dispatch it. *)

From S2P Require Import Prelude Enums Errors Token StateMachine Ids Compatibility Types Binary Double FabricState FabricFrame FabricOps.
From Stdlib Require Import Ascii String.
Open Scope Z_scope.

(** include/decodefabric/schedule.hpp *)
Record SchedulingComponents := mkComponents {
  sc_readiness : double;
  sc_latency_pressure : double;
  sc_fairness_deficit : double;
  sc_priority : double;
  sc_age : double;
  sc_deadline_pressure : double;
  sc_batch_opportunity : double;
  sc_budget_ratio : double;
  sc_backpressure : double;
  sc_score : double;
}.

Record Candidate := mkCandidate {
  c_seq : SequenceId;
  c_key : CompatibilityKey;
  c_score : double;
  c_comp : SchedulingComponents;
}.

Record Formed := mkFormed { f_key : CompatibilityKey; f_members : list SequenceId }.

Record Dispatch := mkDispatch {
  dp_id : DispatchId;
  dp_group : DecodeGroupId;
  dp_epoch : CoordinatorEpoch;
  dp_worker : WorkerId;
  dp_worker_boot : WorkerBootId;
  dp_reservation : ReservationId;
  dp_key : CompatibilityKey;
  dp_device : DeviceDescriptor;
  dp_issued_at : Z;
  dp_members : list DecodeMemberSpec;
}.
#[export] Instance Dispatch_eta : Settable Dispatch := fun r =>
  mkDispatch (dp_id r) (dp_group r) (dp_epoch r) (dp_worker r) (dp_worker_boot r) (dp_reservation r)
    (dp_key r) (dp_device r) (dp_issued_at r) (dp_members r).

(** [Dispatch::to_string]. *)
Definition dispatch_to_string (d : Dispatch) : string :=
  let s := append_u64 "dispatch[id=" (id_value (dp_id d)) in
  let s := append_u64 (s +:+ ",group=") (id_value (dp_group d)) in
  let s := append_u64 (s +:+ ",epoch=") (id_value (dp_epoch d)) in
  let s := append_u64 (s +:+ ",worker=") (id_value (dp_worker d)) in
  let s := append_u64 (s +:+ ",boot=") (id_value (dp_worker_boot d)) in
  append_u64 (s +:+ ",members=") (Z.of_nat (List.length (dp_members d))) +:+ "]".

(** ** Scoring *)

(** The literals 1.0, 1000.0, 0.40, 0.25, 0.15 and 0.20. *)
Definition d_one : double := d_of_Z 1.
Definition w_latency : double := d_ratio 40 100.
Definition w_age : double := d_ratio 25 100.
Definition w_priority : double := d_ratio 15 100.
Definition w_deadline : double := d_ratio 20 100.

Definition score_candidate (tn : Z) (s : Seq) : SchedulingComponents :=
  let since := Z.max 0 (tn - (if s_last_token_at s =? 0 then s_ready_at s else s_last_token_at s)) in
  let priority := d_div (d_of_Z (rq_priority (s_req s))) (d_of_Z 1000) in
  let age := d_min d_one (d_div (d_of_Z since) d_1e9) in
  let latency :=
    if rq_per_token_target_ns (s_req s) >? 0
    then d_min d_one (d_div (d_of_Z since) (d_of_Z (rq_per_token_target_ns (s_req s)))) else d_zero in
  let deadline :=
    if negb (rq_deadline (s_req s) =? 0) && negb (rq_arrival (s_req s) =? 0) then
      let elapsed := d_of_Z (tn - rq_arrival (s_req s)) in
      let total := d_of_Z (rq_deadline (s_req s) - rq_arrival (s_req s)) in
      if d_ltb d_zero total then d_min d_one (d_div elapsed total) else d_one
    else d_zero in
  let max := tb_max (s_budget s) in
  let ratio := d_div (d_of_Z (tb_remaining (s_budget s))) (d_of_Z (if max =? 0 then 1 else max)) in
  let score := d_add (d_add (d_add (d_mul w_latency latency) (d_mul w_age age)) (d_mul w_priority priority))
                 (d_mul w_deadline deadline) in
  mkComponents d_one latency d_zero priority age deadline d_zero ratio d_zero score.

(** The comparison of the sort: score descending, then sequence id ascending. *)
Definition cand_before (a b : Candidate) : bool :=
  if negb (d_eqb (c_score a) (c_score b)) then d_ltb (c_score b) (c_score a)
  else id_value (c_seq a) <? id_value (c_seq b).

(** [std::stable_sort] with that comparison, as insertion after the elements that are not greater. *)
Fixpoint insert_cand (c : Candidate) (l : list Candidate) : list Candidate :=
  match l with
  | [] => [c]
  | x :: l => if cand_before c x then c :: x :: l else x :: insert_cand c l
  end.
Definition stable_sort (l : list Candidate) : list Candidate := foldl (fun acc c => insert_cand c acc) [] l.

Section schedule.
Context {CLK : Clock} {ORD : MapOrder}.

(** One sequence of the first loop: expiry, then a requested cancellation; no event is recorded. *)
Definition boundary_seq (tn : Z) (m : Impl) (seq : SequenceId) : Impl :=
  match im_seqs m !! seq with
  | None => m
  | Some s =>
      if is_terminal (s_machine s) then m
      else
        let m := if deadline_passed tn s then m >>> release seq >>> expire_seq seq (rq_tenant (s_req s)) else m in
        match im_seqs m !! seq with
        | Some s => if bool_decide (s_machine s = SequenceState.CancelRequested)
                    then m >>> release seq >>> cancel_seq seq (rq_tenant (s_req s)) else m
        | None => m
        end
  end.

(** One sequence of the candidate loop. *)
Definition collect_seq (tn : Z) (acc : list Candidate * Impl) (seq : SequenceId) : list Candidate * Impl :=
  let '(cands, m) := acc in
  match im_seqs m !! seq with
  | None => (cands, m)
  | Some s =>
      if negb (is_candidate_state (s_machine s)) then (cands, m)
      else if tb_exhausted (s_budget s) then
        (cands, m >>> release seq >>> transition seq SequenceState.Completed
                  >>> record_terminal seq SequenceState.Completed >>> bump st_sequences_completed
                  >>> record_event EventKind.SequenceCompleted (rq_id (s_req s)) seq "budget_exhausted")
      else
        let k := key_for_model (s_req s) m in
        if negb (key_valid k) then (cands, m)
        else let comp := score_candidate tn s in
             (cands ++ [mkCandidate seq k (sc_score comp) comp], m)
  end.

(** The tenant of a member of a group. *)
Definition tenant_of (m : Impl) (seq : SequenceId) : TenantId :=
  from_option (fun s => rq_tenant (s_req s)) null_id (im_seqs m !! seq).

(** Whether the limits let a sequence join a group. *)
Definition admits (m : Impl) (lim : GroupLimits) (g : Formed) (s : Seq) : bool :=
  let full := negb (bool_decide (f_members g = [])) &&
              (Z.of_nat (List.length (f_members g)) >=? gl_max_sequences lim) in
  let share := Z.of_nat (List.length (List.filter (fun x => id_eqb (tenant_of m x) (rq_tenant (s_req s))) (f_members g))) in
  negb full &&
  negb ((gl_max_tenant_share lim >? 0) && (share >=? gl_max_tenant_share lim)) &&
  negb (negb (bool_decide (gl_max_latency_class lim = LatencyClass.Bulk)) &&
        (enum_code (rq_latency_class (s_req s)) >? enum_code (gl_max_latency_class lim))).

(** One candidate of the group formation loop.  The index maps a key's text to its group. *)
Definition form_cand (tn : Z) (acc : gmap string nat * list Formed * Impl) (c : Candidate)
    : gmap string nat * list Formed * Impl :=
  let '(index, formed, m) := acc in
  let ks := key_to_string (c_key c) in
  let '(gi, index, formed) :=
    match index !! ks with
    | Some gi => (gi, index, formed)
    | None => (List.length formed, <[ks := List.length formed]> index, formed ++ [mkFormed (c_key c) []])
    end in
  match formed !! gi, im_seqs m !! c_seq c with
  | Some g, Some s =>
      if admits m (cf_group_limits (im_cfg m)) g s then
        (index, <[gi := mkFormed (f_key g) (f_members g ++ [c_seq c])]> formed,
         m >>> transition (c_seq c) SequenceState.Grouped
           >>> upd_seq (c_seq c) (fun s => s <| s_last_grouped_at := tn |> <| s_ready_at := tn |>))
      else (index, formed, m)
  | _, _ => (index, formed, m)
  end.

(** A worker that can run a group's key now. *)
Definition worker_fits (key : CompatibilityKey) (w : WorkerDescriptor) : bool :=
  bool_decide (wk_health w = WorkerHealth.Healthy) &&
  existsb (fun mk => id_eqb (k_model mk) (k_model key) && id_eqb (k_revision mk) (k_revision key)
                     && id_eqb (k_device mk) (k_device key)) (wk_supported_models w) &&
  negb ((wk_advertised_capacity w >? 0) && (wk_active_reservations w >=? wk_advertised_capacity w)).

(** The placement loop: the first fitting worker with the fewest active reservations. *)
Definition choose_worker (key : CompatibilityKey) (m : Impl) : option (WorkerId * WorkerDescriptor) :=
  foldl (fun chosen kv =>
    if worker_fits key kv.2 then
      match chosen with
      | None => Some kv
      | Some c => if wk_active_reservations kv.2 <? wk_active_reservations c.2 then Some kv else Some c
      end
    else chosen) None (iter (im_ticks m) (im_workers m)).

(** The estimated memory growth of a group. *)
Definition group_growth (m : Impl) (members : list SequenceId) : Z :=
  foldl (fun g x =>
    let e := from_option (fun s => sd_estimated_growth (s_state s)) 0 (im_seqs m !! x) in
    g +64 (if e =? 0 then 64 else e)) 0 members.

(** Whether a device has room for it. *)
Definition has_headroom (dm : DevMem) (growth : Z) : bool :=
  if dm_capacity dm >? 0 then
    let headroom := if dm_capacity dm >? dm_reserved dm then dm_capacity dm - dm_reserved dm else 0 in
    negb ((growth >? headroom) || ((dm_headroom_floor dm >? 0) && (headroom <? dm_headroom_floor dm)))
  else true.

(** The specification of a member that its dispatch carries. *)
Definition member_spec (seq : SequenceId) (s : Seq) : DecodeMemberSpec :=
  mkMemberSpec seq (s_current_attempt s) (mkId (s_generation s)) (s_state s) (s_current_length s)
    (s_generated s) (tb_remaining (s_budget s)) (string_bytes (rq_sampling_metadata (s_req s))).

(** The authority a member holds while its dispatch is in flight. *)
Definition dispatch_seq (d : Dispatch) (s : Seq) : Seq :=
  s <| s_in_flight_dispatch := dp_id d |> <| s_in_flight_worker := dp_worker d |>
    <| s_in_flight_worker_boot := dp_worker_boot d |> <| s_in_flight_epoch := dp_epoch d |>
    <| s_in_flight_generation := s_generation s |> <| s_has_inflight := true |>
    <| s_reservation := dp_reservation d |> <| s_last_dispatched_at := dp_issued_at d |>.

Definition dispatch_member (d : Dispatch) (acc : list DecodeMemberSpec * Impl) (seq : SequenceId)
    : list DecodeMemberSpec * Impl :=
  let '(specs, m) := acc in
  match im_seqs m !! seq with
  | None => (specs, m)
  | Some s =>
      (specs ++ [member_spec seq s],
       m >>> upd_seq seq (dispatch_seq d)
         >>> transition seq SequenceState.Reserved >>> transition seq SequenceState.Dispatched
         >>> upd_seq seq (fun s => s <| s_ever_ran := true |>)
         >>> record_event EventKind.SequenceGrouped (rq_id (s_req s)) seq "grouped")
  end.

(** The members of a group that is not dispatched go back to [Ready]. *)
Definition revert_members (members : list SequenceId) (m : Impl) : Impl :=
  foldl (fun m x => transition x SequenceState.Ready m) m members.

(** The dispatch of a placed group, before its members are added. *)
Definition new_dispatch (tn : Z) (g : Formed) (w : WorkerDescriptor) (m : Impl) : Dispatch :=
  mkDispatch (mkId (im_next_dispatch m)) (mkId (im_next_group m)) (im_epoch m) (wk_id w)
    (default null_id (im_worker_current_boot m !! wk_id w)) (mkId (im_next_reservation m)) (f_key g)
    (wk_device w) tn [].

(** The group's reservation, entered in the books before the dispatch is built. *)
Definition reserve_group (tn : Z) (d : Dispatch) (growth : Z) (m : Impl) : Impl :=
  let dev := d_id (dp_device d) in
  let rv := mkReservation (dp_reservation d) GroupReservation null_id (dp_group d) dev growth false true tn in
  m >>> upd im_next_reservation (fun n => n +64 1) >>> upd im_next_group (fun n => n +64 1)
    >>> upd im_reservations (fun rs => if bool_decide (is_Some (rs !! dp_reservation d)) then rs
                                       else <[dp_reservation d := rv]> rs)
    >>> upd im_dev_mem (alter (fun dm => dm <| dm_reserved ::= (fun x => x +64 growth) |>) dev)
    >>> record_event EventKind.ReservationGranted null_id null_id "group_reservation"
    >>> upd im_next_dispatch (fun n => n +64 1).

(** Reserve, add the members, count the dispatch against the chosen worker. *)
Definition issue_dispatch (tn : Z) (g : Formed) (wid : WorkerId) (w : WorkerDescriptor) (growth : Z) (m : Impl)
    : Dispatch * Impl :=
  let d := new_dispatch tn g w m in
  let '(specs, m) := foldl (dispatch_member d) ([], reserve_group tn d growth m) (f_members g) in
  let d := d <| dp_members := specs |> in
  (d, m >>> upd im_workers (alter (fun w => w <| wk_active_reservations ::= (fun n => n +64 1) |>) wid)
        >>> bump st_dispatch_issued
        >>> record_event EventKind.DispatchIssued null_id null_id (dispatch_to_string d)).

(** One group of the last loop: placement, memory check, dispatch. *)
Definition place_group (tn : Z) (acc : list Dispatch * Impl) (g : Formed) : list Dispatch * Impl :=
  let '(out, m) := acc in
  if bool_decide (f_members g = []) then (out, m)
  else match choose_worker (f_key g) m with
  | None => (out, revert_members (f_members g) m)
  | Some (wid, w) =>
      let dev := d_id (wk_device w) in
      let growth := group_growth m (f_members g) in
      let m := m <| im_dev_mem ::= (fun dms => <[dev := default (mkDevMem 0 0 0) (dms !! dev)]> dms) |> in
      if negb (has_headroom (default (mkDevMem 0 0 0) (im_dev_mem m !! dev)) growth) then
        (out, m >>> revert_members (f_members g)
                >>> record_event EventKind.BackpressureApplied null_id null_id "memory_headroom")
      else let '(d, m) := issue_dispatch tn g wid w growth m in (out ++ [d], m)
  end.

(** The stages. *)
Definition sched_boundary (tn : Z) (m : Impl) : Impl :=
  foldl (boundary_seq tn) m (iter (im_ticks m) (im_seqs m)).*1.
Definition sched_collect (tn : Z) (m : Impl) : list Candidate * Impl :=
  foldl (collect_seq tn) ([], m) (iter (im_ticks m) (im_seqs m)).*1.
Definition sched_form (tn : Z) (cands : list Candidate) (m : Impl) : list Formed * Impl :=
  let '(_, formed, m) := foldl (form_cand tn) (∅, [], m) cands in (formed, m).
Definition sched_place (tn : Z) (formed : list Formed) (m : Impl) : list Dispatch * Impl :=
  foldl (place_group tn) ([], m) formed.

(** [DecodeFabric::schedule]. *)
Definition schedule (tn : Z) (m : Impl) : list Dispatch * Impl :=
  let m := sched_boundary tn m in
  let '(cands, m) := sched_collect tn m in
  let '(formed, m) := sched_form tn (stable_sort cands) m in
  let '(out, m) := sched_place tn formed m in
  (out, refresh_derived_stats m).

(** ** Scheduling is quiet *)

Lemma quiet_boundary tn m0 m : quiet m0 m -> quiet m0 (sched_boundary tn m).
Proof.
  apply quiet_foldl. intros m' seq H. unfold boundary_seq. cbv zeta. quiet_walk.
Qed.

Lemma quiet_collect tn m0 m : quiet m0 m -> quiet m0 (sched_collect tn m).2.
Proof.
  intros H. unfold sched_collect. apply (foldl_inv (fun acc => quiet m0 acc.2)); [done|].
  intros [cands m'] seq _ H'. cbn [snd] in H'. unfold collect_seq. cbv zeta. quiet_walk.
Qed.

Lemma quiet_form_cand tn m0 acc c : quiet m0 acc.2 -> quiet m0 (form_cand tn acc c).2.
Proof. destruct acc as [[index formed] m]. cbn [snd]. intros H. unfold form_cand. cbv zeta. quiet_walk. Qed.

Lemma quiet_form tn cands m0 m : quiet m0 m -> quiet m0 (sched_form tn cands m).2.
Proof.
  intros H. unfold sched_form.
  assert (K : quiet m0 (foldl (form_cand tn) (∅, [], m) cands).2).
  { apply (foldl_inv (fun acc => quiet m0 acc.2)); [done|]. intros acc c _. apply quiet_form_cand. }
  by destruct (foldl (form_cand tn) (∅, [], m) cands) as [[index formed] m'].
Qed.

Lemma quiet_revert members m0 m : quiet m0 m -> quiet m0 (revert_members members m).
Proof. apply quiet_foldl. intros. by apply quiet_transition. Qed.
Hint Resolve quiet_revert : quiet.

Lemma seq_quiet_dispatch d s : seq_quiet s (dispatch_seq d s).
Proof. unfold dispatch_seq. seq_quiet_solve. Qed.

Lemma quiet_dispatch_member d m0 acc seq : quiet m0 acc.2 -> quiet m0 (dispatch_member d acc seq).2.
Proof.
  destruct acc as [specs m]. cbn [snd]. intros H. unfold dispatch_member.
  destruct (im_seqs m !! seq) as [s|]; [|done]. cbn [snd].
  assert (quiet m0 (upd_seq seq (dispatch_seq d) m)).
  { eapply quiet_then; [apply quiet_upd_seq; intros; apply seq_quiet_dispatch|done]. }
  auto 20 with quiet.
Qed.

Lemma quiet_dispatch_members d members m0 acc :
  quiet m0 acc.2 -> quiet m0 (foldl (dispatch_member d) acc members).2.
Proof. intros H. apply (foldl_inv (fun acc => quiet m0 acc.2)); [done|]. intros. by apply quiet_dispatch_member. Qed.

Lemma quiet_reserve_group tn d growth m0 m : quiet m0 m -> quiet m0 (reserve_group tn d growth m).
Proof. intros H. unfold reserve_group. cbv zeta. auto 20 with quiet. Qed.

Lemma quiet_issue_dispatch tn g wid w growth m0 m :
  quiet m0 m -> quiet m0 (issue_dispatch tn g wid w growth m).2.
Proof.
  intros H. unfold issue_dispatch. cbv zeta.
  apply (quiet_reserve_group tn (new_dispatch tn g w m) growth) in H.
  pose proof (quiet_dispatch_members (new_dispatch tn g w m) (f_members g) m0 ([], _) H) as H3.
  destruct (foldl _ _ (f_members g)) as [specs m3]. cbn [snd] in *. auto 10 with quiet.
Qed.

Lemma quiet_place_group tn m0 acc g : quiet m0 acc.2 -> quiet m0 (place_group tn acc g).2.
Proof.
  destruct acc as [out m]. cbn [snd]. intros H. unfold place_group.
  case_bool_decide; [done|]. destruct (choose_worker (f_key g) m) as [[wid w]|]; [|cbn [snd]; auto with quiet].
  cbv zeta. set (m1 := m <| im_dev_mem ::= _ |>).
  assert (H1 : quiet m0 m1) by (subst m1; auto with quiet).
  clearbody m1. destruct (negb (has_headroom _ _)); [cbn [snd]; auto 10 with quiet|].
  apply (quiet_issue_dispatch tn g wid w (group_growth m (f_members g))) in H1.
  destruct (issue_dispatch tn g wid w (group_growth m (f_members g)) m1) as [d m2]. exact H1.
Qed.

Lemma quiet_place tn formed m0 m : quiet m0 m -> quiet m0 (sched_place tn formed m).2.
Proof.
  intros H. apply (foldl_inv (fun acc => quiet m0 acc.2)); [done|]. intros acc g _. apply quiet_place_group.
Qed.

Lemma quiet_schedule tn m : quiet m (schedule tn m).2.
Proof.
  unfold schedule. pose proof (quiet_boundary tn m m (quiet_refl m)) as H1.
  apply (quiet_collect tn) in H1. destruct (sched_collect tn (sched_boundary tn m)) as [cands m2]. cbn [snd] in H1.
  apply (quiet_form tn (stable_sort cands)) in H1. destruct (sched_form tn (stable_sort cands) m2) as [formed m3]. cbn [snd] in H1.
  apply (quiet_place tn formed) in H1. destruct (sched_place tn formed m3) as [out m4].
  exact (quiet_refresh m m4 H1).
Qed.

End schedule.
