(* ===== verification/ScheduleTheorems.v ===== *)
(** * What a scheduling cycle guarantees

    The groups that [schedule] forms respect the configured limits and share one
    key, no sequence is put in two dispatches, and every member of a dispatch
    holds exactly that dispatch's authority afterwards. *)

From S2P Require Import Prelude Enums Errors Token StateMachine Ids Compatibility Types Binary Double FabricState FabricFrame FabricOps Schedule.

(** ** Sorting *)

Lemma insert_cand_perm c l : insert_cand c l ≡ₚ c :: l.
Proof.
  induction l as [|x l IH]; cbn; [done|]. destruct (cand_before c x); [done|].
  rewrite IH. by rewrite Permutation_swap.
Qed.

Lemma stable_sort_perm l : stable_sort l ≡ₚ l.
Proof.
  unfold stable_sort. rewrite <- (app_nil_r l) at 2. generalize (@nil Candidate) as acc.
  induction l as [|c l IH]; intros acc; cbn [foldl]; [done|].
  rewrite IH, insert_cand_perm. cbn. by rewrite Permutation_middle.
Qed.

(** ** Group formation *)

Definition members_of (formed : list Formed) : list SequenceId := formed ≫= f_members.

(** The tenant share of a group. *)
Definition share (T : SequenceId -> TenantId) (t : TenantId) (l : list SequenceId) : Z :=
  Z.of_nat (length (List.filter (fun x => id_eqb (T x) t) l)).

Lemma share_app T t l x : share T t (l ++ [x]) = share T t l + (if id_eqb (T x) t then 1 else 0).
Proof.
  unfold share. rewrite List.filter_app, length_app. cbn. destruct (id_eqb (T x) t); cbn; lia.
Qed.

(** The limits a group must respect. *)
Definition group_ok (lim : GroupLimits) (T : SequenceId -> TenantId) (g : Formed) : Prop :=
  Z.of_nat (length (f_members g)) <= Z.max 1 (gl_max_sequences lim) /\
  (0 < gl_max_tenant_share lim -> forall t, share T t (f_members g) <= gl_max_tenant_share lim).

Record form_inv (lim : GroupLimits) (T : SequenceId -> TenantId) (seen : list Candidate)
    (index : gmap string nat) (formed : list Formed) : Prop := {
  fi_index : forall ks gi, index !! ks = Some gi -> exists g, formed !! gi = Some g /\ key_to_string (f_key g) = ks;
  fi_ok : Forall (group_ok lim T) formed;
  fi_keys : Forall (fun g => Forall (fun x => exists c, c ∈ seen /\ c_seq c = x /\
              key_to_string (c_key c) = key_to_string (f_key g)) (f_members g)) formed;
  fi_from : Forall (fun g => exists c, c ∈ seen /\ f_key g = c_key c) formed;
  fi_nodup : NoDup (members_of formed);
  fi_seen : forall x, x ∈ members_of formed -> x ∈ c_seq <$> seen;
}.

Lemma members_of_insert formed gi g x :
  formed !! gi = Some g ->
  members_of (<[gi := mkFormed (f_key g) (f_members g ++ [x])]> formed) ≡ₚ x :: members_of formed.
Proof.
  intros Hg. unfold members_of. rewrite <- (take_drop_middle formed gi g Hg) at 2.
  rewrite insert_take_drop by (by apply lookup_lt_Some in Hg).
  rewrite !bind_app, !bind_cons. cbn [f_members].
  rewrite <- !(app_assoc (f_members g)). cbn [app].
  rewrite <- (Permutation_middle (f_members g)). symmetry. apply Permutation_middle.
Qed.

Section formation.
Context {CLK : Clock} {ORD : MapOrder}.
Implicit Types (m : Impl).

(** Tenants are read off requests, which nothing changes. *)
Lemma tenant_of_quiet m m' x : quiet m m' -> tenant_of m' x = tenant_of m x.
Proof.
  intros Hq. unfold tenant_of. pose proof (q_seqs _ _ Hq x) as H. destruct H as [s s' Hs|]; [|done]. cbn.
  by rewrite (proj1 (seq_quiet_req _ _ Hs)).
Qed.

Lemma admits_sound m lim g s x :
  admits m lim g s = true -> tenant_of m x = rq_tenant (s_req s) -> group_ok lim (tenant_of m) g ->
  group_ok lim (tenant_of m) (mkFormed (f_key g) (f_members g ++ [x])).
Proof.
  unfold admits. rewrite !andb_true_iff, !negb_true_iff. intros [[Hfull Hshare] _] Hx [Hl Ht]. split; cbn [f_members].
  - rewrite length_app. cbn [length]. apply andb_false_iff in Hfull as [Hf|Hf].
    + apply negb_false_iff, bool_decide_eq_true in Hf. rewrite Hf. cbn. lia.
    + rewrite Z.geb_leb, Z.leb_gt in Hf. lia.
  - intros Hc t. rewrite share_app. destruct (id_eqb (tenant_of m x) t) eqn:E; [|specialize (Ht Hc t); lia].
    apply id_eqb_eq in E as <-. apply andb_false_iff in Hshare as [Hs|Hs].
    + rewrite Z.gtb_ltb, Z.ltb_ge in Hs. lia.
    + unfold share. rewrite Hx. rewrite Z.geb_leb, Z.leb_gt in Hs. lia.
Qed.

Lemma group_ok_ext lim T T' g : (forall x, T' x = T x) -> group_ok lim T g -> group_ok lim T' g.
Proof.
  intros HT [Hl Ht]. split; [done|]. intros Hc t. unfold share.
  rewrite (List.filter_ext _ (fun x => id_eqb (T x) t)); [by apply Ht|]. intros x. by rewrite HT.
Qed.

Lemma form_inv_ext lim T T' seen index formed :
  (forall x, T' x = T x) -> form_inv lim T seen index formed -> form_inv lim T' seen index formed.
Proof.
  intros HT [H1 H2 H3 H4 H5 H6]. split; auto. eapply Forall_impl; [exact H2|]. intros g. by apply group_ok_ext.
Qed.

(** The group of a candidate: the one indexed under its key, or a new empty one. *)
Definition group_for (c : Candidate) (index : gmap string nat) (formed : list Formed) : nat * gmap string nat * list Formed :=
  match index !! key_to_string (c_key c) with
  | Some gi => (gi, index, formed)
  | None => (length formed, <[key_to_string (c_key c) := length formed]> index, formed ++ [mkFormed (c_key c) []])
  end.

Lemma form_inv_group lim T seen index formed c gi index' formed' :
  group_for c index formed = (gi, index', formed') -> form_inv lim T seen index formed ->
  form_inv lim T (seen ++ [c]) index' formed' /\
  (forall x, x ∈ members_of formed' -> x ∈ c_seq <$> seen) /\
  exists g, formed' !! gi = Some g /\ key_to_string (f_key g) = key_to_string (c_key c).
Proof.
  intros Hg [H1 H2 H3 H4 H5 H6]. unfold group_for in Hg.
  assert (Hseen : forall c', c' ∈ seen -> c' ∈ seen ++ [c]) by (intros; apply elem_of_app; by left).
  assert (H3' : Forall (fun g => Forall (fun x => exists c', c' ∈ seen ++ [c] /\ c_seq c' = x /\
              key_to_string (c_key c') = key_to_string (f_key g)) (f_members g)) formed).
  { eapply Forall_impl; [exact H3|]. intros g Hm. eapply Forall_impl; [exact Hm|].
    intros x (c' & ? & ? & ?). exists c'. auto. }
  assert (H4' : Forall (fun g => exists c', c' ∈ seen ++ [c] /\ f_key g = c_key c') formed).
  { eapply Forall_impl; [exact H4|]. intros g (c' & ? & ?). exists c'. auto. }
  assert (H6' : forall x, x ∈ members_of formed -> x ∈ c_seq <$> seen ++ [c]).
  { intros x Hx. rewrite fmap_app. apply elem_of_app. left. by apply H6. }
  destruct (index !! key_to_string (c_key c)) as [gi0|] eqn:Hi; injection Hg as <- <- <-.
  - split_and!; [by split|done|by apply H1].
  - assert (Hm : members_of (formed ++ [mkFormed (c_key c) []]) = members_of formed)
      by (unfold members_of; rewrite bind_app; cbn; by rewrite app_nil_r).
    split_and!; [split| |].
    + intros ks gi. destruct (decide (key_to_string (c_key c) = ks)) as [<-|Hn].
      * rewrite lookup_insert_eq. intros [= <-]. rewrite list_lookup_middle by done. eexists. split; [done|]. done.
      * rewrite lookup_insert_ne by done. intros Hk. destruct (H1 _ _ Hk) as (g & Hg & Hs). exists g.
        split; [by apply lookup_app_l_Some|done].
    + apply Forall_app. split; [done|]. constructor; [|done]. split; cbn; [lia|]. intros Hc t. unfold share. cbn. lia.
    + apply Forall_app. split; [done|]. constructor; [by constructor|done].
    + apply Forall_app. split; [done|]. constructor; [|done]. exists c. split; [|done]. apply elem_of_app. right. by left.
    + by rewrite Hm.
    + rewrite Hm. done.
    + rewrite Hm. done.
    + eexists. rewrite list_lookup_middle by done. split; [done|]. done.
Qed.

Lemma form_inv_cand tn lim seen index formed m c :
  cf_group_limits (im_cfg m) = lim -> c_seq c ∉ c_seq <$> seen -> form_inv lim (tenant_of m) seen index formed ->
  let '(index', formed', m') := form_cand tn (index, formed, m) c in
  form_inv lim (tenant_of m') (seen ++ [c]) index' formed'.
Proof.
  intros Hlim Hnew Hinv.
  pose proof (quiet_form_cand tn m (index, formed, m) c (quiet_refl m)) as Hq. revert Hq.
  unfold form_cand. cbv zeta. fold (group_for c index formed).
  destruct (group_for c index formed) as [[gi index1] formed1] eqn:Hg.
  destruct (form_inv_group _ _ _ _ _ _ _ _ _ Hg Hinv) as (Hi1 & Hold & g & Hgi & Hkey). rewrite Hgi.
  destruct (im_seqs m !! c_seq c) as [s|] eqn:Hs; [|intros _; exact Hi1].
  destruct (admits m (cf_group_limits (im_cfg m)) g s) eqn:Ha; [|intros _; exact Hi1]. cbn [snd]. intros Hq.
  apply (form_inv_ext lim (tenant_of m)); [intros x; by apply tenant_of_quiet|].
  rewrite Hlim in Ha. destruct Hi1 as [H1 H2 H3 H4 H5 H6].
  assert (Htn : tenant_of m (c_seq c) = rq_tenant (s_req s)) by (unfold tenant_of; by rewrite Hs).
  assert (Hin : c ∈ seen ++ [c]) by (apply elem_of_app; right; by left).
  split.
  - intros ks gj Hk. destruct (H1 _ _ Hk) as (g' & Hg' & Hs'). destruct (decide (gi = gj)) as [<-|Hn].
    + rewrite list_lookup_insert_eq by (by apply lookup_lt_Some in Hg'). eexists. split; [done|]. cbn. congruence.
    + rewrite list_lookup_insert_ne by done. eauto.
  - apply Forall_insert; [done|]. apply (admits_sound m lim g s); [done|done|]. by apply (Forall_lookup_1 _ _ _ _ H2 Hgi).
  - apply Forall_insert; [done|]. cbn [f_members f_key]. apply Forall_app. split.
    + apply (Forall_lookup_1 _ _ _ _ H3 Hgi).
    + constructor; [|done]. exists c. split_and!; [done|done|by symmetry].
  - apply Forall_insert; [done|]. cbn [f_key]. apply (Forall_lookup_1 _ _ _ _ H4 Hgi).
  - rewrite members_of_insert by done. constructor; [|done]. intros Hx. by apply Hnew, Hold.
  - intros x. rewrite members_of_insert by done. rewrite elem_of_cons. intros [->|Hx].
    + rewrite fmap_app. apply elem_of_app. right. by left.
    + rewrite fmap_app. apply elem_of_app. left. by apply Hold.
Qed.

Lemma form_inv_foldl tn lim cands seen index formed m :
  cf_group_limits (im_cfg m) = lim -> NoDup (c_seq <$> seen ++ cands) ->
  form_inv lim (tenant_of m) seen index formed ->
  let '(index', formed', m') := foldl (form_cand tn) (index, formed, m) cands in
  form_inv lim (tenant_of m') (seen ++ cands) index' formed'.
Proof.
  revert seen index formed m. induction cands as [|c cands IH]; intros seen index formed m Hlim Hnd Hinv.
  { cbn. by rewrite app_nil_r. }
  cbn [foldl]. assert (Hnew : c_seq c ∉ c_seq <$> seen).
  { rewrite fmap_app in Hnd. apply NoDup_app in Hnd as (_ & Hd & _). intros Hin. apply (Hd _ Hin). cbn. by left. }
  pose proof (form_inv_cand tn lim seen index formed m c Hlim Hnew Hinv) as H1.
  pose proof (quiet_form_cand tn m (index, formed, m) c (quiet_refl m)) as Hq.
  destruct (form_cand tn (index, formed, m) c) as [[index1 formed1] m1]. cbn [snd] in Hq.
  specialize (IH (seen ++ [c]) index1 formed1 m1). rewrite <- app_assoc in IH. apply IH; [|done|done].
  pose proof (q_view _ _ Hq) as Hv. unfold ledger_view in Hv. by simplify_eq/=; congruence.
Qed.

(** A member of a group, moved to [Grouped] from the state it had in [m0]. *)
Definition grouped m0 m (x : SequenceId) : Prop :=
  exists s0 s, im_seqs m0 !! x = Some s0 /\ im_seqs m !! x = Some s /\ s_machine s = transition_to_state SequenceState.Grouped (s_machine s0).

Lemma form_cand_rest tn acc c y : y <> c_seq c -> im_seqs (form_cand tn acc c).2 !! y = im_seqs acc.2 !! y.
Proof.
  intros Hn. destruct acc as [[index formed] m]. unfold form_cand. cbv zeta. fold (group_for c index formed).
  destruct (group_for c index formed) as [[gi index1] formed1]. repeat case_match; cbn [snd]; try done.
  autorewrite with seqs. by rewrite !decide_False.
Qed.

(** What formation did so far: members are grouped, everything else is as it was. *)
Record formed_from m0 (formed : list Formed) m : Prop := {
  ff_in : forall x, x ∈ members_of formed -> grouped m0 m x;
  ff_out : forall x, x ∉ members_of formed -> im_seqs m !! x = im_seqs m0 !! x;
}.

Lemma form_cand_grouped tn m0 index formed m c :
  formed_from m0 formed m -> c_seq c ∉ members_of formed ->
  let '(_, formed', m') := form_cand tn (index, formed, m) c in
  formed_from m0 formed' m' /\ (forall x, x ∈ members_of formed' -> x = c_seq c \/ x ∈ members_of formed).
Proof.
  intros [Hin Hout] Hc. pose proof (fun y => form_cand_rest tn (index, formed, m) c y) as Hr. revert Hr.
  unfold form_cand. cbv zeta. fold (group_for c index formed). destruct (group_for c index formed) as [[gi index1] formed1] eqn:Hg.
  assert (Hm : members_of formed1 = members_of formed).
  { unfold group_for in Hg. case_match; injection Hg as _ _ <-; [done|]. unfold members_of. rewrite bind_app. cbn. by rewrite app_nil_r. }
  assert (Hno : formed_from m0 formed1 m /\ (forall x, x ∈ members_of formed1 -> x = c_seq c \/ x ∈ members_of formed)).
  { rewrite Hm. split; [by split; rewrite Hm|by right]. }
  destruct (formed1 !! gi) as [g|] eqn:Hgi; [|done]. destruct (im_seqs m !! c_seq c) as [s|] eqn:Hs; [|done].
  destruct (admits _ _ _ _); [|done]. cbn [snd]. intros Hr. split; [split|].
  - intros x. rewrite members_of_insert by done. rewrite Hm, elem_of_cons. intros [->|Hx].
    + exists s. autorewrite with seqs. rewrite !decide_True, Hs by done. cbn [fmap option_fmap option_map]. eexists.
      split_and!; [by rewrite <- Hout|done|]. by rsimpl.
    + destruct (Hin x Hx) as (s0 & s1 & H1 & H2 & H3). exists s0, s1. rewrite Hr by (intros ->; done). done.
  - intros x. rewrite members_of_insert by done. rewrite Hm, not_elem_of_cons. intros [Hn Hx]. rewrite Hr by done. by apply Hout.
  - intros x. rewrite members_of_insert by done. by rewrite Hm, elem_of_cons.
Qed.

Lemma form_grouped tn m0 cands index formed m :
  NoDup (c_seq <$> cands) -> formed_from m0 formed m -> (forall x, x ∈ members_of formed -> x ∉ c_seq <$> cands) ->
  let '(_, formed', m') := foldl (form_cand tn) (index, formed, m) cands in formed_from m0 formed' m'.
Proof.
  revert index formed m. induction cands as [|c cands IH]; intros index formed m Hnd Hf Hall; cbn [foldl]; [done|].
  cbn [fmap list_fmap] in *. apply NoDup_cons in Hnd as [Hn Hnd].
  pose proof (form_cand_grouped tn m0 index formed m c Hf) as Hg.
  destruct (form_cand tn (index, formed, m) c) as [[index1 formed1] m1].
  destruct Hg as [Hf1 Hm1]; [intros Hc; apply (Hall _ Hc); by left|]. apply IH; [done|done|].
  intros x Hx. destruct (Hm1 x Hx) as [->|Hin]; [done|]. specialize (Hall x Hin). by apply not_elem_of_cons in Hall as [_ ?].
Qed.

Lemma form_inv_init lim T : form_inv lim T [] ∅ [].
Proof. split; try done; constructor. Qed.
End formation.

(** ** Candidates *)

(** A candidate's key is one that a registered worker supports, for the model its request asks for. *)
Definition key_supported (m : Impl) (req : DecodeRequest) (k : CompatibilityKey) : Prop :=
  key_valid k = true /\ k_model k = rq_model req /\ k_revision k = rq_revision req /\ k_adapter k = rq_adapter req /\
  exists wid w, im_workers m !! wid = Some w /\ k ∈ wk_supported_models w /\
    (is_valid (rq_device_constraint req) = true -> d_id (wk_device w) = rq_device_constraint req).

Section candidates.
Context {CLK : Clock} {ORD : MapOrder}.
Implicit Types (m : Impl).

Lemma iter_lookup `{Countable K} {A} n (g : gmap K A) k a : (k, a) ∈ iter n g -> g !! k = Some a.
Proof. rewrite iter_perm. apply elem_of_map_to_list. Qed.

Lemma iter_keys_nodup `{Countable K} {A} n (g : gmap K A) : NoDup (iter n g).*1.
Proof. rewrite iter_perm. apply NoDup_fst_map_to_list. Qed.

Lemma key_for_model_supported req m : key_valid (key_for_model req m) = true -> key_supported m req (key_for_model req m).
Proof.
  intros Hv. split; [done|]. unfold key_for_model in *. cbv zeta in *.
  set (ks := flat_map _ _) in *. destruct ks as [|k ks'] eqn:E; [done|]. cbn [hd] in *.
  assert (Hk : In k ks) by (rewrite E; by left). subst ks.
  apply in_flat_map in Hk as ([wid w] & Hw & Hk). cbn [snd] in Hk. apply list_elem_of_In, iter_lookup in Hw.
  destruct (is_valid (rq_device_constraint req) && _) eqn:Hc; [done|].
  apply filter_In in Hk as [Hk Hm]. rewrite !andb_true_iff, !id_eqb_eq in Hm. destruct Hm as [[? ?] ?].
  split_and!; [done..|]. exists wid, w. split_and!; [done|by apply list_elem_of_In|].
  intros Hd. rewrite Hd in Hc. cbn in Hc. apply negb_false_iff, id_eqb_eq in Hc. done.
Qed.

Lemma key_supported_env m m' req k : env_view m' = env_view m -> key_supported m' req k -> key_supported m req k.
Proof. unfold env_view. intros [= Hw _ _ _]. unfold key_supported. by rewrite Hw. Qed.

(** The deadline pass only ends sequences: their budgets and the states of the others are kept. *)
Definition closes (s s' : Seq) : Prop :=
  s_budget s' = s_budget s /\ (s_machine s' = s_machine s \/ is_terminal (s_machine s') = true).
Definition closing (m m' : Impl) : Prop :=
  forall id s', im_seqs m' !! id = Some s' -> exists s, im_seqs m !! id = Some s /\ closes s s'.

Lemma closing_refl m : closing m m.
Proof. intros id s' H. exists s'. split; [done|]. split; auto. Qed.

Lemma closing_trans m1 m2 m3 : closing m1 m2 -> closing m2 m3 -> closing m1 m3.
Proof.
  intros H12 H23 id s3 H3. destruct (H23 _ _ H3) as (s2 & H2 & B2 & M2). destruct (H12 _ _ H2) as (s1 & H1 & B1 & M1).
  exists s1. split; [done|]. split; [congruence|]. destruct M2 as [M2|M2]; [|by right]. by rewrite M2.
Qed.

Lemma closing_upd m m' x (f : Seq -> Seq) :
  (forall i, im_seqs m' !! i = if decide (i = x) then f <$> (im_seqs m !! i) else im_seqs m !! i) ->
  (forall s, closes s (f s)) -> closing m m'.
Proof.
  intros Hl Hf i s'. rewrite Hl. case_decide; [|by apply closing_refl].
  intros (s & Hs & ->)%fmap_Some. eauto.
Qed.

Lemma closing_release m x : closing m (release x m).
Proof. eapply closing_upd; [intros; apply lookup_release|]. intros s. split; rsimpl; auto. Qed.

Lemma closing_end m x st (f : Impl -> Impl) :
  is_terminal st = true -> (forall m, im_seqs (f m) = im_seqs m) -> closing m (f (transition x st m)).
Proof.
  intros Ht Hf. eapply closing_upd; [intros; rewrite Hf; apply lookup_transition|]. intros s.
  split; rsimpl; [done|]. unfold transition_to_state, transition_to. destruct (can_transition (s_machine s) st); cbn; auto.
Qed.

Lemma closing_expire m x t : closing m (expire_seq x t m).
Proof. apply (closing_end m x SequenceState.DeadlineExpired (fun m => m >>> tenant_done t >>> bump st_deadline_misses
    >>> bump st_sequences_expired >>> record_terminal x SequenceState.DeadlineExpired)); [done|].
  intros m'. by autorewrite with seqs. Qed.
Lemma closing_cancel m x t : closing m (cancel_seq x t m).
Proof. apply (closing_end m x SequenceState.Cancelled (fun m => m >>> tenant_done t >>> bump st_cancellations
    >>> bump st_sequences_cancelled >>> record_terminal x SequenceState.Cancelled)); [done|].
  intros m'. by autorewrite with seqs. Qed.

Lemma closing_boundary tn m : closing m (sched_boundary tn m).
Proof.
  unfold sched_boundary. apply (foldl_inv (closing m)); [apply closing_refl|]. intros m' x _ H.
  eapply closing_trans; [exact H|]. unfold boundary_seq. cbv zeta.
  destruct (im_seqs m' !! x) as [s|]; [|apply closing_refl]. destruct (is_terminal (s_machine s)); [apply closing_refl|].
  set (m1 := if deadline_passed tn s then _ else _).
  assert (H1 : closing m' m1).
  { subst m1. case_match; [|apply closing_refl]. eapply closing_trans; [apply closing_release|apply closing_expire]. }
  clearbody m1. eapply closing_trans; [exact H1|]. destruct (im_seqs m1 !! x) as [s1|]; [|apply closing_refl].
  case_match; [|apply closing_refl]. eapply closing_trans; [apply closing_release|apply closing_cancel].
Qed.

Lemma closing_collect tn m : closing m (sched_collect tn m).2.
Proof.
  unfold sched_collect. apply (foldl_inv (fun acc => closing m acc.2)); [apply closing_refl|]. intros [cands m'] x _ H. cbn [snd] in H.
  eapply closing_trans; [exact H|]. unfold collect_seq. cbv zeta. repeat case_match; cbn [snd]; try apply closing_refl.
  eapply closing_trans; [apply closing_release|].
  apply (closing_end (release x m') x SequenceState.Completed (fun m => record_event EventKind.SequenceCompleted (rq_id (s_req s)) x "budget_exhausted"
    (bump st_sequences_completed (record_terminal x SequenceState.Completed m)))); [done|]. intros m1. by autorewrite with seqs.
Qed.

Lemma env_boundary tn m : env_view (sched_boundary tn m) = env_view m.
Proof.
  unfold sched_boundary. apply (foldl_inv (fun m' => env_view m' = env_view m)); [done|]. intros m' x _ <-.
  unfold boundary_seq, expire_seq, cancel_seq. cbv zeta. repeat case_match; by autorewrite with env.
Qed.

Lemma env_collect_seq tn acc x : env_view (collect_seq tn acc x).2 = env_view acc.2.
Proof.
  destruct acc as [cands m]. unfold collect_seq. cbv zeta. repeat case_match; cbn [snd]; by autorewrite with env.
Qed.

Lemma env_form_cand tn acc c : env_view (form_cand tn acc c).2 = env_view acc.2.
Proof. destruct acc as [[index formed] m]. unfold form_cand. cbv zeta. repeat case_match; cbn [snd]; by autorewrite with env. Qed.

(** What the collected candidates are. *)
Definition cand_ok (m : Impl) (c : Candidate) : Prop :=
  exists s, im_seqs m !! c_seq c = Some s /\ key_supported m (s_req s) (c_key c) /\
    is_candidate_state (s_machine s) = true /\ tb_exhausted (s_budget s) = false.

Record collect_inv (m0 : Impl) (seen : list SequenceId) (cands : list Candidate) (m : Impl) : Prop := {
  ci_quiet : quiet m0 m;
  ci_env : env_view m = env_view m0;
  ci_rest : forall x, x ∉ seen -> im_seqs m !! x = im_seqs m0 !! x;
  ci_seen : forall x, x ∈ c_seq <$> cands -> x ∈ seen;
  ci_kept : forall x, x ∈ c_seq <$> cands -> im_seqs m !! x = im_seqs m0 !! x;
  ci_nodup : NoDup (c_seq <$> cands);
  ci_ok : Forall (cand_ok m0) cands;
}.

Lemma collect_seq_rest tn acc x y : x <> y -> im_seqs (collect_seq tn acc x).2 !! y = im_seqs acc.2 !! y.
Proof.
  intros Hn. destruct acc as [cands m]. unfold collect_seq. cbv zeta.
  repeat case_match; cbn [snd]; autorewrite with seqs; rewrite ?decide_False by done; done.
Qed.

Lemma collect_inv_step tn m0 seen cands m x :
  x ∉ seen -> collect_inv m0 seen cands m ->
  let '(cands', m') := collect_seq tn (cands, m) x in collect_inv m0 (seen ++ [x]) cands' m'.
Proof.
  intros Hx [C1 C2 C3 C4 C7 C5 C6].
  assert (Hq : quiet m0 (collect_seq tn (cands, m) x).2).
  { unfold collect_seq. cbv zeta. quiet_walk. }
  pose proof (env_collect_seq tn (cands, m) x) as He. cbn [snd] in He.
  pose proof (fun y Hn => collect_seq_rest tn (cands, m) x y Hn) as Hr. cbn [snd] in Hr.
  assert (Hc : (collect_seq tn (cands, m) x).1 = cands \/
    exists c, (collect_seq tn (cands, m) x).1 = cands ++ [c] /\ (collect_seq tn (cands, m) x).2 = m /\ c_seq c = x /\ cand_ok m0 c).
  { unfold collect_seq. cbv zeta. rewrite (C3 x Hx). destruct (im_seqs m0 !! x) as [s|] eqn:Hs; [|by left].
    destruct (is_candidate_state (s_machine s)) eqn:H1; [|by left]. cbn [negb].
    destruct (tb_exhausted (s_budget s)) eqn:H2; [by left|].
    destruct (key_valid (key_for_model (s_req s) m)) eqn:H3; [|by left]. right. cbn [negb fst].
    eexists. split; [done|]. split; [done|]. split; [done|]. exists s. cbn [c_seq c_key]. split_and!; [done| |done|done].
    apply (key_supported_env m0 m); [done|]. by apply key_for_model_supported. }
  destruct (collect_seq tn (cands, m) x) as [cands' m']. cbn [fst snd] in *.
  assert (Hrest : forall y, y ∉ seen ++ [x] -> im_seqs m' !! y = im_seqs m0 !! y).
  { intros y Hy. rewrite elem_of_app, list_elem_of_singleton in Hy. rewrite Hr by (intros ->; apply Hy; by right).
    apply C3. intros Hin. apply Hy. by left. }
  assert (Hold : forall y, y ∈ c_seq <$> cands -> y ∈ seen ++ [x]) by (intros; apply elem_of_app; left; by apply C4).
  assert (Hkept : forall y, y ∈ c_seq <$> cands -> im_seqs m' !! y = im_seqs m0 !! y).
  { intros y Hy. rewrite Hr; [by apply C7|]. intros ->. by apply Hx, C4. }
  destruct Hc as [->|(c & -> & Hmm & Hcx & Hok)]; split; auto; try congruence.
  - intros y. rewrite fmap_app, elem_of_app. cbn. rewrite list_elem_of_singleton. intros [?| ->]; [auto|].
    rewrite Hcx. apply elem_of_app. right. by left.
  - intros y. rewrite fmap_app, elem_of_app. cbn. rewrite list_elem_of_singleton. intros [?| ->]; [auto|].
    rewrite Hcx, Hmm. by apply C3.
  - rewrite fmap_app. cbn. apply NoDup_app. split_and!; [done| |apply NoDup_singleton].
    intros y Hy. rewrite list_elem_of_singleton. intros ->. apply Hx. rewrite <- Hcx. by apply C4.
  - apply Forall_app. split; [done|]. by constructor.
Qed.

Lemma collect_inv_foldl tn m0 keys seen cands m :
  NoDup (seen ++ keys) -> collect_inv m0 seen cands m ->
  let '(cands', m') := foldl (collect_seq tn) (cands, m) keys in collect_inv m0 (seen ++ keys) cands' m'.
Proof.
  revert seen cands m. induction keys as [|x keys IH]; intros seen cands m Hnd Hinv.
  { cbn. by rewrite app_nil_r. }
  cbn [foldl]. assert (Hx : x ∉ seen).
  { apply NoDup_app in Hnd as (_ & Hd & _). intros Hin. apply (Hd _ Hin). by left. }
  pose proof (collect_inv_step tn m0 seen cands m x Hx Hinv) as H1.
  destruct (collect_seq tn (cands, m) x) as [cands1 m1].
  specialize (IH (seen ++ [x]) cands1 m1). rewrite <- app_assoc in IH. by apply IH.
Qed.

Lemma sched_collect_inv tn m :
  let '(cands, m') := sched_collect tn m in exists seen, collect_inv m seen cands m'.
Proof.
  pose proof (collect_inv_foldl tn m (iter (im_ticks m) (im_seqs m)).*1 [] [] m) as H.
  unfold sched_collect. destruct (foldl _ _ _) as [cands m'].
  eexists. apply H; [apply iter_keys_nodup|]. split; try done; try constructor; reflexivity.
Qed.
End candidates.

(** ** Placement and dispatch *)

(** A sequence holds the authority of a dispatch, and the member specification describes it. *)
Record holds (d : Dispatch) (spec : DecodeMemberSpec) (s : Seq) : Prop := {
  ho_inflight : s_has_inflight s = true;
  ho_dispatch : s_in_flight_dispatch s = dp_id d;
  ho_worker : s_in_flight_worker s = dp_worker d;
  ho_boot : s_in_flight_worker_boot s = dp_worker_boot d;
  ho_epoch : s_in_flight_epoch s = dp_epoch d;
  ho_generation : s_in_flight_generation s = s_generation s;
  ho_reservation : s_reservation s = dp_reservation d;
  ho_spec : spec = member_spec (ms_sequence spec) s;
}.

(** The lifecycle steps of a sequence that is dispatched. *)
Definition dispatched_from (st : SequenceState) : SequenceState :=
  transition_to_state SequenceState.Dispatched (transition_to_state SequenceState.Reserved st).

(** A member that [m] has in flight under a dispatch, which it entered in the state it had in [m0]. *)
Definition taken (m0 m : Impl) (d : Dispatch) (spec : DecodeMemberSpec) : Prop :=
  exists s, im_seqs m !! ms_sequence spec = Some s /\ holds d spec s /\
    exists s0, im_seqs m0 !! ms_sequence spec = Some s0 /\ s_machine s = dispatched_from (s_machine s0).

Lemma taken_frame m0 m0' m m' d spec :
  im_seqs m0' !! ms_sequence spec = im_seqs m0 !! ms_sequence spec -> im_seqs m' !! ms_sequence spec = im_seqs m !! ms_sequence spec ->
  taken m0 m d spec -> taken m0' m' d spec.
Proof. unfold taken. by intros -> ->. Qed.

(** The head of a dispatch: everything but its members. *)
Definition same_head (d d' : Dispatch) : Prop := d' = d <| dp_members := dp_members d' |>.

Lemma holds_head d d' spec s : same_head d d' -> holds d spec s -> holds d' spec s.
Proof. unfold same_head. intros -> [H1 H2 H3 H4 H5 H6 H7 H8]. split; rsimpl; done. Qed.

Section placement.
Context {CLK : Clock} {ORD : MapOrder}.
Implicit Types (m : Impl).

Lemma dispatch_member_lookup d specs m x s :
  im_seqs m !! x = Some s ->
  exists s', im_seqs (dispatch_member d (specs, m) x).2 !! x = Some s' /\
    (dispatch_member d (specs, m) x).1 = specs ++ [member_spec x s] /\ holds d (member_spec x s) s' /\
    s_machine s' = dispatched_from (s_machine s).
Proof.
  intros Hs. unfold dispatch_member. rewrite Hs. cbn [fst snd]. autorewrite with seqs. rewrite !decide_True, Hs by done.
  cbn [fmap option_fmap option_map]. eexists. split; [done|]. split; [done|]. unfold dispatch_seq.
  split; [split; rsimpl; done|by rsimpl].
Qed.

Lemma dispatch_member_rest d acc x y : x <> y -> im_seqs (dispatch_member d acc x).2 !! y = im_seqs acc.2 !! y.
Proof.
  intros Hn. destruct acc as [specs m]. unfold dispatch_member. case_match; [|done]. cbn [snd].
  autorewrite with seqs. by rewrite !decide_False.
Qed.

Lemma env_dispatch_member d acc x : env_view (dispatch_member d acc x).2 = env_view acc.2.
Proof. destruct acc as [specs m]. unfold dispatch_member. case_match; [|done]. cbn [snd]. by autorewrite with env. Qed.

Lemma dispatch_members_spec d members specs m :
  NoDup members -> (forall x, x ∈ members -> is_Some (im_seqs m !! x)) ->
  let '(specs', m') := foldl (dispatch_member d) (specs, m) members in
  exists added, specs' = specs ++ added /\ ms_sequence <$> added = members /\
    (forall spec, spec ∈ added -> taken m m' d spec) /\
    (forall y, y ∉ members -> im_seqs m' !! y = im_seqs m !! y) /\ env_view m' = env_view m.
Proof.
  revert specs m. induction members as [|x members IH]; intros specs m Hnd Hin.
  { exists []. rewrite app_nil_r. split_and!; try done. intros spec Hs. by apply not_elem_of_nil in Hs. }
  apply NoDup_cons in Hnd as [Hx Hnd]. cbn [foldl].
  destruct (Hin x ltac:(by left)) as [s Hs].
  destruct (dispatch_member_lookup d specs m x s Hs) as (s' & Hs' & H1 & Hh & Hst).
  pose proof (fun y Hn => dispatch_member_rest d (specs, m) x y Hn) as Hr. cbn [snd] in Hr.
  pose proof (env_dispatch_member d (specs, m) x) as He. cbn [snd] in He.
  destruct (dispatch_member d (specs, m) x) as [specs1 m1]. cbn [fst snd] in *. subst specs1.
  specialize (IH (specs ++ [member_spec x s]) m1 Hnd).
  destruct (foldl (dispatch_member d) _ members) as [specs' m'].
  destruct IH as (added & -> & Hadd & Hholds & Hrest & Henv).
  { intros y Hy. rewrite Hr; [by apply Hin; right|]. intros ->. done. }
  exists (member_spec x s :: added). split_and!.
  - by rewrite <- app_assoc.
  - cbn. by rewrite Hadd.
  - intros spec [->|Hspec]%elem_of_cons.
    + exists s'. cbn [ms_sequence member_spec]. split_and!; [by rewrite Hrest|done|]. by exists s.
    + apply (taken_frame m1 m m' m'); [|done|by apply Hholds]. symmetry. apply Hr. intros ->. apply Hx. rewrite <- Hadd.
      by apply list_elem_of_fmap_2.
  - intros y Hy. rewrite not_elem_of_cons in Hy. destruct Hy as [Hn Hy]. rewrite Hrest by done. apply Hr. congruence.
  - congruence.
Qed.

Lemma env_reserve_group tn d growth m : env_view (reserve_group tn d growth m) = env_view m.
Proof.
  unfold reserve_group. cbv zeta.
  assert (K : forall f x, env_view (upd im_next_dispatch f x) = env_view x) by done.
  rewrite K, env_record_event. unfold env_view. by rsimpl.
Qed.

Lemma seqs_reserve_group tn d growth m : im_seqs (reserve_group tn d growth m) = im_seqs m.
Proof. unfold reserve_group. cbv zeta. rsimpl. rewrite seqs_record_event. by rsimpl. Qed.

(** A worker and the same worker with more work counted against it. *)
Definition same_worker (w w' : WorkerDescriptor) : Prop :=
  w' = w <| wk_active_reservations := wk_active_reservations w' |>.
Definition same_workers (m m' : Impl) : Prop :=
  forall wid, option_Forall2 same_worker (im_workers m !! wid) (im_workers m' !! wid).

#[global] Instance same_worker_preorder : PreOrder same_worker.
Proof.
  split; [by intros []|]. unfold same_worker. intros w1 w2 w3 -> H3. rewrite H3. by destruct w1.
Qed.

Lemma same_workers_refl m : same_workers m m.
Proof. intros wid. destruct (im_workers m !! wid); constructor. reflexivity. Qed.
Lemma same_workers_trans m1 m2 m3 : same_workers m1 m2 -> same_workers m2 m3 -> same_workers m1 m3.
Proof.
  intros H12 H23 wid. specialize (H12 wid). specialize (H23 wid). destruct H12; inversion H23; subst; constructor. by etrans.
Qed.
Lemma same_workers_eq m m' : im_workers m' = im_workers m -> same_workers m m'.
Proof. intros H wid. rewrite H. apply same_workers_refl. Qed.

Lemma choose_worker_fits key m wid w :
  choose_worker key m = Some (wid, w) -> im_workers m !! wid = Some w /\ worker_fits key w = true.
Proof.
  unfold choose_worker.
  assert (K : forall l c, (forall kv, kv ∈ l -> im_workers m !! kv.1 = Some kv.2) ->
    (forall kv, c = Some kv -> im_workers m !! kv.1 = Some kv.2 /\ worker_fits key kv.2 = true) ->
    forall kv, foldl (fun chosen kv => if worker_fits key kv.2 then
      match chosen with None => Some kv
      | Some c => if wk_active_reservations kv.2 <? wk_active_reservations c.2 then Some kv else Some c end
      else chosen) c l = Some kv -> im_workers m !! kv.1 = Some kv.2 /\ worker_fits key kv.2 = true).
  { induction l as [|kv l IH]; intros c Hl Hc; [exact Hc|]. cbn [foldl]. apply IH; [intros; apply Hl; by right|].
    destruct (worker_fits key kv.2) eqn:Hf; [|exact Hc].
    assert (Hkv : im_workers m !! kv.1 = Some kv.2) by (apply Hl; by left).
    destruct c as [c|]; [destruct (_ <? _)|]; intros kv' [= <-]; auto. }
  intros H. apply (K _ None) in H; [done| |done]. intros [k a] Hin. by apply iter_lookup in Hin.
Qed.

(** The sequences of a dispatch. *)
Definition dispatched (d : Dispatch) : list SequenceId := ms_sequence <$> dp_members d.

(** A dispatch that carries a formed group, placed on a worker of [m0], with its members' authority in [m]. *)
Record dispatch_ok (m0 : Impl) (g : Formed) (d : Dispatch) (m : Impl) : Prop := {
  do_key : dp_key d = f_key g;
  do_members : dispatched d = f_members g;
  do_some : f_members g <> [];
  do_epoch : dp_epoch d = im_epoch m0;
  do_worker : exists wid w, im_workers m0 !! wid = Some w /\ wk_id w = dp_worker d /\ wk_device w = dp_device d /\
    wk_health w = WorkerHealth.Healthy /\
    (exists k, k ∈ wk_supported_models w /\ k_model k = k_model (f_key g) /\ k_revision k = k_revision (f_key g) /\
       k_device k = k_device (f_key g)) /\
    dp_worker_boot d = default null_id (im_worker_current_boot m0 !! wk_id w);
  do_holds : forall spec, spec ∈ dp_members d -> taken m0 m d spec;
}.

(** A member whose group found no place, sent back from the state it had in [m0]. *)
Definition reverted (m0 m : Impl) (x : SequenceId) : Prop :=
  exists s0 s, im_seqs m0 !! x = Some s0 /\ im_seqs m !! x = Some s /\ s_machine s = transition_to_state SequenceState.Ready (s_machine s0).

Record place_inv (m0 : Impl) (past : list Formed) (out : list Dispatch) (m : Impl) : Prop := {
  pi_quiet : quiet m0 m;
  pi_workers : same_workers m0 m;
  pi_epoch : im_epoch m = im_epoch m0;
  pi_boots : im_worker_current_boot m = im_worker_current_boot m0;
  pi_rest : forall y, y ∉ members_of past -> im_seqs m !! y = im_seqs m0 !! y;
  pi_out : forall d, d ∈ out -> exists g, g ∈ past /\ dispatch_ok m0 g d m;
  pi_seen : forall x, x ∈ out ≫= dispatched -> x ∈ members_of past;
  pi_nodup : NoDup (out ≫= dispatched);
  pi_left : forall x, x ∈ members_of past -> x ∉ out ≫= dispatched -> reverted m0 m x;
}.

Lemma revert_members_rest members m y : y ∉ members -> im_seqs (revert_members members m) !! y = im_seqs m !! y.
Proof.
  unfold revert_members. revert m. induction members as [|x l IH]; intros m Hy; [done|]. cbn [foldl].
  apply not_elem_of_cons in Hy as [Hn Hy]. rewrite IH by done. rewrite lookup_transition. by rewrite decide_False.
Qed.

Lemma revert_members_in members m x :
  NoDup members -> x ∈ members -> is_Some (im_seqs m !! x) -> reverted m (revert_members members m) x.
Proof.
  unfold revert_members. revert m. induction members as [|y l IH]; intros m Hnd Hx [s Hs]; [by apply not_elem_of_nil in Hx|].
  apply NoDup_cons in Hnd as [Hn Hnd]. cbn [foldl]. apply elem_of_cons in Hx as [->|Hx].
  - exists s. fold (revert_members l (transition y SequenceState.Ready m)). rewrite revert_members_rest, lookup_transition, decide_True, Hs by done.
    eexists. split; [done|]. split; [done|]. by rsimpl.
  - assert (Hne : x <> y) by (intros ->; done).
    destruct (IH (transition y SequenceState.Ready m) Hnd Hx) as (s0 & s' & H1 & H2 & H3).
    + exists s. by rewrite lookup_transition, decide_False.
    + exists s0, s'. rewrite lookup_transition, decide_False in H1 by done. done.
Qed.

Lemma reverted_frame m0 m m' x : im_seqs m' !! x = im_seqs m !! x -> reverted m0 m x -> reverted m0 m' x.
Proof. unfold reverted. by intros ->. Qed.

Lemma env_revert_members members m : env_view (revert_members members m) = env_view m.
Proof. unfold revert_members. apply (foldl_inv (fun m' => env_view m' = env_view m)); [done|]. by intros m' x _ <-. Qed.

(** A state that differs outside the members of the past groups only by bookkeeping keeps the invariant. *)
Lemma place_inv_skip m0 past out m m' g :
  place_inv m0 past out m -> quiet m m' -> env_view m' = env_view m ->
  (forall x, x ∈ f_members g -> x ∉ members_of past) ->
  (forall y, y ∉ f_members g -> im_seqs m' !! y = im_seqs m !! y) -> (forall x, x ∈ f_members g -> reverted m m' x) ->
  place_inv m0 (past ++ [g]) out m'.
Proof.
  intros [P1 P2 P3 P4 P5 P6 P7 P8 P9] Hq He Hd Hr Hv. unfold env_view in He. injection He as E1 E2 E3 E4.
  assert (Hm : members_of (past ++ [g]) = members_of past ++ f_members g)
    by (unfold members_of; rewrite bind_app; cbn; by rewrite app_nil_r).
  split; try congruence.
  - by etrans.
  - eapply same_workers_trans; [done|]. by apply same_workers_eq.
  - intros y. rewrite Hm, not_elem_of_app. intros [Hy1 Hy2]. by rewrite Hr, P5.
  - intros d Hin. destruct (P6 d Hin) as (g' & Hg' & [D1 D2 D3 D4 D5 D6]). exists g'.
    split; [apply elem_of_app; by left|]. split; auto. intros spec Hs. apply (taken_frame m0 m0 m); [done| |by apply D6]. rewrite Hr; [done|]. intros Hg. apply (Hd _ Hg). apply P7.
    apply list_elem_of_bind. exists d. split; [|done]. by apply (list_elem_of_fmap_2 ms_sequence).
  - intros x Hx. rewrite Hm. apply elem_of_app. left. by apply P7.
  - intros x. rewrite Hm, elem_of_app. intros [Hx|Hx] Hn.
    + apply (reverted_frame m0 m); [|by apply P9]. apply Hr. intros Hg. by apply (Hd x Hg).
    + destruct (Hv x Hx) as (s0 & s & H1 & H2 & H3). exists s0, s. by rewrite <- P5 by by apply Hd.
Qed.

Lemma worker_fits_inv key w :
  worker_fits key w = true ->
  wk_health w = WorkerHealth.Healthy /\
  exists k, k ∈ wk_supported_models w /\ k_model k = k_model key /\ k_revision k = k_revision key /\ k_device k = k_device key.
Proof.
  unfold worker_fits. rewrite !andb_true_iff, bool_decide_eq_true, existsb_exists.
  intros [[Hh (k & Hk & Hm)] _]. split; [done|]. exists k. rewrite !andb_true_iff, !id_eqb_eq in Hm.
  apply list_elem_of_In in Hk. tauto.
Qed.

Lemma issue_dispatch_spec tn g wid w growth m :
  NoDup (f_members g) -> (forall x, x ∈ f_members g -> is_Some (im_seqs m !! x)) ->
  let '(d, m') := issue_dispatch tn g wid w growth m in
  same_head (new_dispatch tn g w m) d /\ dispatched d = f_members g /\
  (forall spec, spec ∈ dp_members d -> taken m m' d spec) /\
  (forall y, y ∉ f_members g -> im_seqs m' !! y = im_seqs m !! y) /\
  same_workers m m' /\ im_epoch m' = im_epoch m /\ im_worker_current_boot m' = im_worker_current_boot m.
Proof.
  intros Hnd Hin. unfold issue_dispatch. cbv zeta. set (d0 := new_dispatch tn g w m).
  pose proof (dispatch_members_spec d0 (f_members g) [] (reserve_group tn d0 growth m) Hnd) as Hd.
  rewrite seqs_reserve_group in Hd. specialize (Hd Hin).
  pose proof (env_reserve_group tn d0 growth m) as He.
  destruct (foldl (dispatch_member d0) _ _) as [specs m1].
  destruct Hd as (added & Hadd & Hmem & Hholds & Hrest & Henv). cbn in Hadd. subst specs.
  rewrite He in Henv. unfold env_view in Henv. injection Henv as W E B _.
  set (m2 := upd im_workers _ m1). set (d := d0 <| dp_members := added |>).
  pose proof (env_record_event EventKind.DispatchIssued null_id null_id (dispatch_to_string d) (bump st_dispatch_issued m2)) as Hev.
  rewrite env_bump in Hev. unfold env_view in Hev. injection Hev as W2 E2 B2 _.
  assert (Hs2 : im_seqs (record_event EventKind.DispatchIssued null_id null_id (dispatch_to_string d) (bump st_dispatch_issued m2)) = im_seqs m1).
  { by rewrite seqs_record_event, seqs_bump. }
  assert (Hhead : same_head d0 d) by (unfold same_head, d; by rsimpl). rewrite Hs2, E2, B2. subst m2. rsimpl. split_and!; try done.
  - intros spec Hspec. destruct (Hholds spec) as (s & Hs & Hh & Hm); [unfold d in Hspec; by rsimpl in Hspec|].
    exists s. rewrite Hs2. split; [done|]. rewrite seqs_reserve_group in Hm. split; [by apply (holds_head d0)|done].
  - intros i. rewrite W2. rsimpl. rewrite W. destruct (decide (i = wid)) as [->|Hn].
    + rewrite lookup_alter_eq. destruct (im_workers m !! wid) as [x|]; cbn; constructor. unfold same_worker. by destruct x.
    + rewrite lookup_alter_ne by done. destruct (im_workers m !! i); constructor. reflexivity.
Qed.

Lemma place_inv_group tn m0 past out m g :
  place_inv m0 past out m -> NoDup (f_members g) -> (forall x, x ∈ f_members g -> is_Some (im_seqs m0 !! x)) ->
  (forall x, x ∈ f_members g -> x ∉ members_of past) ->
  let '(out', m') := place_group tn (out, m) g in place_inv m0 (past ++ [g]) out' m'.
Proof.
  intros HP Hnd Hin Hd. pose proof (quiet_place_group tn m (out, m) g (quiet_refl m)) as Hq. revert Hq.
  unfold place_group. case_bool_decide as Hne.
  { intros _. apply (place_inv_skip m0 past out m m g); auto; [reflexivity|]. rewrite Hne. by intros x ?%not_elem_of_nil. }
  destruct (choose_worker (f_key g) m) as [[wid w]|] eqn:Hw.
  2:{ cbn [snd]. intros Hq. apply (place_inv_skip m0 past out m _ g); auto; [apply env_revert_members| |].
      - intros y. apply revert_members_rest.
      - intros x Hx. apply revert_members_in; [done|done|]. rewrite (pi_rest _ _ _ _ HP); auto. }
  cbv zeta. set (m1 := upd im_dev_mem _ m).
  assert (Hs1 : im_seqs m1 = im_seqs m) by done. assert (Hw1 : im_workers m1 = im_workers m) by done.
  assert (He1 : im_epoch m1 = im_epoch m /\ im_worker_current_boot m1 = im_worker_current_boot m /\ env_view m1 = env_view m) by done.
  clearbody m1. destruct He1 as (He1 & Hb1 & Hv1).
  destruct (negb (has_headroom _ _)).
  { cbn [snd]. intros Hq. apply (place_inv_skip m0 past out m _ g); auto.
    - by rewrite env_record_event, env_revert_members.
    - intros y Hy. rewrite seqs_record_event, revert_members_rest, Hs1; done.
    - intros x Hx. destruct (revert_members_in (f_members g) m1 x Hnd Hx) as (s0 & s & H1 & H2 & H3).
      { rewrite Hs1, (pi_rest _ _ _ _ HP); auto. }
      exists s0, s. by rewrite seqs_record_event, <- Hs1. }
  assert (Hin1 : forall x, x ∈ f_members g -> is_Some (im_seqs m1 !! x)).
  { intros x Hx. rewrite Hs1, (pi_rest _ _ _ _ HP); auto. }
  pose proof (issue_dispatch_spec tn g wid w (group_growth m (f_members g)) m1 Hnd Hin1) as Hi.
  destruct (issue_dispatch tn g wid w (group_growth m (f_members g)) m1) as [d m2]. cbn [snd]. intros Hq.
  destruct Hi as (I1 & I2 & I3 & I4 & I5 & I6 & I7). rewrite Hs1 in I4.
  destruct HP as [P1 P2 P3 P4 P5 P6 P7 P8 P9]. apply choose_worker_fits in Hw as [Hw Hf]. apply worker_fits_inv in Hf as (Hh & k & Hk & K1 & K2 & K3).
  assert (Hm : members_of (past ++ [g]) = members_of past ++ f_members g)
    by (unfold members_of; rewrite bind_app; cbn; by rewrite app_nil_r).
  assert (Hhead : dp_key d = f_key g /\ dp_epoch d = im_epoch m1 /\ dp_worker d = wk_id w /\ dp_device d = wk_device w /\
    dp_worker_boot d = default null_id (im_worker_current_boot m1 !! wk_id w)).
  { unfold same_head in I1. rewrite I1. unfold new_dispatch. by rsimpl. }
  destruct Hhead as (D1 & D2 & D3 & D4 & D5).
  assert (Hbind : (out ++ [d]) ≫= dispatched = (out ≫= dispatched) ++ f_members g)
    by (rewrite bind_app; cbn; by rewrite app_nil_r, I2).
  split; try congruence.
  - by etrans.
  - eapply same_workers_trans; [done|]. intros i. rewrite <- Hw1. apply I5.
  - intros y. rewrite Hm, not_elem_of_app. intros [Hy1 Hy2]. by rewrite I4, P5.
  - intros d' [Hd'|Hd'%list_elem_of_singleton]%elem_of_app.
    + destruct (P6 d' Hd') as (g' & Hg' & [A1 A2 A3 A4 A5 A6]). exists g'. split; [apply elem_of_app; by left|]. split; auto.
      intros spec Hspec. apply (taken_frame m0 m0 m); [done| |by apply A6].
      rewrite I4; [done|]. intros Hg. apply (Hd _ Hg), P7, list_elem_of_bind. exists d'. split; [|done].
      by apply (list_elem_of_fmap_2 ms_sequence).
    + subst d'. exists g. split; [apply elem_of_app; right; by left|].
      pose proof (P2 wid) as H2. rewrite Hw in H2. inversion H2 as [w0 w1 Hsw Hw0 Hw1'|]; subst w1. unfold same_worker in Hsw.
      split; auto; [congruence| |].
      2:{ intros spec Hspec. apply (taken_frame m1 m0 m2); [|done|by apply I3]. rewrite Hs1. symmetry. apply P5, Hd.
          rewrite <- I2. by apply list_elem_of_fmap_2. }
      exists wid, w0. rewrite Hsw in Hh, Hk, D3, D4, D5. rsimpl in Hh. rsimpl in Hk. rsimpl in D3. rsimpl in D4. rsimpl in D5.
      split_and!; [done|done|done|done|by exists k|]. by rewrite D5, Hb1, P4.
  - intros x. rewrite Hbind, Hm, !elem_of_app. intros [Hx|Hx]; [left; by apply P7|by right].
  - rewrite Hbind. apply NoDup_app. split_and!; [done| |done]. intros x Hx Hg. apply (Hd _ Hg). by apply P7.
  - intros x. rewrite Hbind, Hm, not_elem_of_app, elem_of_app. intros [Hx|Hx] [Hn1 Hn2]; [|done].
    apply (reverted_frame m0 m); [by apply I4|by apply P9].
Qed.
End placement.

(** ** The whole cycle *)

(** A sequence that may be given a step: between steps and with tokens left to generate. *)
Definition runnable (s : Seq) : Prop := is_candidate_state (s_machine s) = true /\ tb_exhausted (s_budget s) = false.

(** What one dispatch of a cycle that started in [m0] and ended in [m] is. *)
Record cycle_ok (m0 m : Impl) (d : Dispatch) : Prop := {
  cy_size : 1 <= Z.of_nat (length (dp_members d)) <= Z.max 1 (gl_max_sequences (cf_group_limits (im_cfg m0)));
  cy_share : 0 < gl_max_tenant_share (cf_group_limits (im_cfg m0)) -> forall t,
    share (tenant_of m0) t (dispatched d) <= gl_max_tenant_share (cf_group_limits (im_cfg m0));
  cy_key : exists w wid, im_workers m0 !! wid = Some w /\ dp_key d ∈ wk_supported_models w;
  cy_dispatch : exists g m1, dispatch_ok m1 g d m /\ env_view m1 = env_view m0;
  cy_members : forall x, x ∈ dispatched d -> exists s k, im_seqs m0 !! x = Some s /\ key_supported m0 (s_req s) k /\
    key_to_string k = key_to_string (dp_key d) /\ runnable s;
  cy_machine : forall x, x ∈ dispatched d -> exists s0 s, im_seqs m0 !! x = Some s0 /\ im_seqs m !! x = Some s /\
    s_machine s = dispatched_from (transition_to_state SequenceState.Grouped (s_machine s0));
}.

Section cycle.
Context {CLK : Clock} {ORD : MapOrder}.
Implicit Types (m : Impl).

Lemma place_inv_foldl tn m0 formed past out m :
  place_inv m0 past out m -> NoDup (members_of (past ++ formed)) ->
  (forall x, x ∈ members_of formed -> is_Some (im_seqs m0 !! x)) ->
  let '(out', m') := foldl (place_group tn) (out, m) formed in place_inv m0 (past ++ formed) out' m'.
Proof.
  revert past out m. induction formed as [|g formed IH]; intros past out m HP Hnd Hin.
  { cbn. by rewrite app_nil_r. }
  cbn [foldl]. unfold members_of in Hnd. rewrite bind_app, bind_cons in Hnd.
  pose proof Hnd as (_ & Hdis & (Hg & _ & _)%NoDup_app)%NoDup_app.
  pose proof (place_inv_group tn m0 past out m g HP Hg) as H1.
  destruct (place_group tn (out, m) g) as [out1 m1].
  specialize (IH (past ++ [g]) out1 m1). rewrite <- app_assoc in IH. apply IH.
  - apply H1.
    + intros x Hx. apply Hin. unfold members_of. rewrite bind_cons. apply elem_of_app. by left.
    + intros x Hx Hp. apply (Hdis x Hp). apply elem_of_app. by left.
  - unfold members_of. cbn [app]. by rewrite bind_app, bind_cons.
  - intros x Hx. apply Hin. unfold members_of. rewrite bind_cons. apply elem_of_app. by right.
Qed.

Lemma quiet_cfg m m' : quiet m m' -> im_cfg m' = im_cfg m.
Proof. intros Hq. pose proof (q_view _ _ Hq) as Hv. unfold ledger_view in Hv. by injection Hv. Qed.

Lemma quiet_back m m' x : quiet m m' -> is_Some (im_seqs m' !! x) -> is_Some (im_seqs m !! x).
Proof. intros Hq [s Hs]. pose proof (q_seqs _ _ Hq x) as H. rewrite Hs in H. inversion H; by eexists. Qed.

Lemma cand_ok_back m m1 c :
  quiet m m1 -> closing m m1 -> env_view m1 = env_view m -> cand_ok m1 c ->
  exists s, im_seqs m !! c_seq c = Some s /\ key_supported m (s_req s) (c_key c) /\ runnable s.
Proof.
  intros Hq Hc He (s1 & Hs1 & Hk & Hr & Hb). pose proof (q_seqs _ _ Hq (c_seq c)) as H. rewrite Hs1 in H.
  inversion H as [s s' Hsq E1 E2|]; subst. exists s. split; [done|].
  rewrite <- (proj1 (seq_quiet_req _ _ Hsq)). split; [by apply (key_supported_env m m1)|].
  destruct (Hc _ _ Hs1) as (s0 & Hs0 & B & M). rewrite <- E1 in Hs0. injection Hs0 as <-.
  unfold runnable. rewrite <- B. split; [|done]. destruct M as [<-|M]; [done|]. by destruct (s_machine s1).
Qed.

(** Formation, as a statement about the groups it returns. *)
Lemma sched_form_spec tn m cands :
  NoDup (c_seq <$> cands) ->
  let '(formed, m') := sched_form tn cands m in
  exists index, form_inv (cf_group_limits (im_cfg m)) (tenant_of m) cands index formed /\ env_view m' = env_view m /\
    formed_from m formed m'.
Proof.
  intros Hnd. pose proof (form_inv_foldl tn _ cands [] ∅ [] m eq_refl Hnd (form_inv_init _ _)) as H.
  pose proof (quiet_form tn cands m m (quiet_refl m)) as Hq. unfold sched_form in *.
  pose proof (form_grouped tn m cands ∅ [] m Hnd ltac:(split; [by intros x ?%not_elem_of_nil|done]) ltac:(by intros x ?%not_elem_of_nil)) as Hgr.
  assert (He : env_view (foldl (form_cand tn) (∅, [], m) cands).2 = env_view m).
  { apply (foldl_inv (fun acc => env_view acc.2 = env_view m)); [done|]. intros acc c _ <-. apply env_form_cand. }
  destruct (foldl (form_cand tn) (∅, [], m) cands) as [[index formed] m']. cbn [snd] in *.
  exists index. split; [|by split]. apply (form_inv_ext _ (tenant_of m')); [|exact H].
  intros x. symmetry. by apply tenant_of_quiet.
Qed.

Lemma schedule_facts tn m :
  let '(ds, m') := schedule tn m in NoDup (ds ≫= dispatched) /\ forall d, d ∈ ds -> cycle_ok m m' d.
Proof.
  unfold schedule. cbv zeta. set (m1 := sched_boundary tn m).
  assert (Q1 : quiet m m1) by (apply quiet_boundary; reflexivity).
  assert (E1 : env_view m1 = env_view m) by apply env_boundary.
  assert (K1 : closing m m1) by apply closing_boundary. clearbody m1.
  pose proof (sched_collect_inv tn m1) as HC. destruct (sched_collect tn m1) as [cands m2].
  destruct HC as (seen & [C1 C2 _ _ C7 C5 C6]).
  assert (Hnd : NoDup (c_seq <$> stable_sort cands)) by (by rewrite stable_sort_perm).
  pose proof (sched_form_spec tn m2 (stable_sort cands) Hnd) as HF.
  pose proof (quiet_form tn (stable_sort cands) m2 m2 (quiet_refl m2)) as Q3.
  destruct (sched_form tn (stable_sort cands) m2) as [formed m3]. cbn [snd] in Q3.
  destruct HF as (index & [F1 F2 F3 F4 F5 F6] & E3 & F7).
  assert (Q2 : quiet m m2) by by etrans. assert (E2 : env_view m2 = env_view m) by congruence.
  assert (Hcand : forall c, c ∈ stable_sort cands -> exists s, im_seqs m !! c_seq c = Some s /\ key_supported m (s_req s) (c_key c) /\ runnable s).
  { intros c Hc. rewrite stable_sort_perm in Hc. rewrite Forall_forall in C6. apply (cand_ok_back m m1); auto. }
  assert (Hex : forall x, x ∈ members_of formed -> is_Some (im_seqs m3 !! x)).
  { intros x Hx. apply F6, list_elem_of_fmap in Hx as (c & -> & Hc). destruct (Hcand c Hc) as (s & Hs & _).
    assert (quiet m m3) as Q by (by etrans). pose proof (q_seqs _ _ Q (c_seq c)) as H. rewrite Hs in H. inversion H; by eexists. }
  assert (HP0 : place_inv m3 [] [] m3).
  { split; try done; try reflexivity; first [apply same_workers_refl | by intros ? ?%not_elem_of_nil | apply NoDup_nil_2]. }
  pose proof (place_inv_foldl tn m3 formed [] [] m3 HP0 F5 Hex) as HP. unfold sched_place.
  destruct (foldl (place_group tn) ([], m3) formed) as [out m4]. cbn [app] in HP.
  destruct HP as [_ _ _ _ _ P6 _ P8 _]. split; [done|]. intros d Hd. destruct (P6 d Hd) as (g & Hg & Hok).
  rewrite Forall_forall in F2, F3, F4. destruct (F2 g Hg) as [G1 G2]. specialize (F3 g Hg). rewrite Forall_forall in F3.
  assert (Hlim : cf_group_limits (im_cfg m2) = cf_group_limits (im_cfg m)) by by rewrite (quiet_cfg m m2).
  pose proof (do_members _ _ _ _ Hok) as Dm. pose proof (do_key _ _ _ _ Hok) as Dk. pose proof (do_some _ _ _ _ Hok) as Dn.
  rewrite Hlim in G1, G2. split.
  - assert (length (dp_members d) = length (f_members g)) as -> by (rewrite <- Dm; unfold dispatched; by rewrite length_fmap).
    destruct (f_members g); [done|]. cbn [length] in *. lia.
  - intros Hc t. rewrite Dm. unfold share. rewrite (List.filter_ext _ (fun x => id_eqb (tenant_of m2 x) t)); [by apply G2|].
    intros x. by rewrite (tenant_of_quiet m m2).
  - destruct (F4 g Hg) as (c & Hc & Hkey). destruct (Hcand c Hc) as (s & _ & (_ & _ & _ & _ & wid & w & Hw & Hin & _) & _).
    exists w, wid. split; [done|]. by rewrite Dk, Hkey.
  - exists g, m3. split; [|congruence]. destruct Hok. by split.
  - intros x Hx. rewrite Dm in Hx. destruct (F3 x Hx) as (c & Hc & <- & Hk). destruct (Hcand c Hc) as (s & Hs & Hsup & Hrun).
    exists s, (c_key c). split_and!; [done|done|by rewrite Dk|done..].
  - intros x Hx. pose proof Hx as Hg'. rewrite Dm in Hg'. apply list_elem_of_fmap in Hx as (spec & -> & Hspec).
    destruct (do_holds _ _ _ _ Hok spec Hspec) as (s & Hs & _ & s3 & Hs3 & Hst).
    destruct (ff_in _ _ _ F7 (ms_sequence spec)) as (s2 & s3' & Hs2 & Hs3' & Hgr); [apply list_elem_of_bind; by exists g|].
    rewrite Hs3 in Hs3'. apply (inj Some) in Hs3' as <-. destruct (F3 _ Hg') as (c & Hc & Hcs & _). rewrite stable_sort_perm in Hc.
    assert (Hc1 : im_seqs m1 !! ms_sequence spec = Some s2) by (rewrite <- C7, Hs2; [done|rewrite <- Hcs; by apply list_elem_of_fmap_2]).
    destruct (K1 _ _ Hc1) as (s0 & Hs0 & _ & Hmm). exists s0, s. split; [done|]. split; [done|]. rewrite Hst, Hgr. do 2 f_equal.
    destruct Hmm as [|Hmm]; [done|]. rewrite Forall_forall in C6. destruct (C6 c Hc) as (s1 & Hs1 & _ & Hcan & _).
    rewrite Hcs, Hc1 in Hs1. apply (inj Some) in Hs1 as <-. by destruct (s_machine s2).
Qed.

(** A sequence that a cycle does not dispatch: as it was, ended, or sent back to [Ready] from its group. *)
Definition left_alone (st st' : SequenceState) : Prop :=
  st' = st \/ is_terminal st' = true \/ st' = transition_to_state SequenceState.Ready (transition_to_state SequenceState.Grouped st).

Lemma schedule_left tn m x s' :
  x ∉ (schedule tn m).1 ≫= dispatched -> im_seqs (schedule tn m).2 !! x = Some s' ->
  exists s, im_seqs m !! x = Some s /\ left_alone (s_machine s) (s_machine s').
Proof.
  unfold schedule. cbv zeta. set (m1 := sched_boundary tn m). assert (K1 : closing m m1) by apply closing_boundary. clearbody m1.
  pose proof (sched_collect_inv tn m1) as HC. pose proof (closing_collect tn m1) as K2. destruct (sched_collect tn m1) as [cands m2].
  destruct HC as (seen & [_ _ _ _ _ C5 C6]). cbn [snd] in K2. assert (K : closing m m2) by by eapply closing_trans.
  assert (Hnd : NoDup (c_seq <$> stable_sort cands)) by (by rewrite stable_sort_perm).
  pose proof (sched_form_spec tn m2 (stable_sort cands) Hnd) as HF. destruct (sched_form tn (stable_sort cands) m2) as [formed m3].
  destruct HF as (index & [_ _ _ _ F5 _] & _ & [F7 F8]).
  assert (HP0 : place_inv m3 [] [] m3).
  { split; try done; try reflexivity; first [apply same_workers_refl | by intros ? ?%not_elem_of_nil | apply NoDup_nil_2]. }
  pose proof (place_inv_foldl tn m3 formed [] [] m3 HP0 F5) as HP. unfold sched_place.
  destruct (foldl (place_group tn) ([], m3) formed) as [out m4]. cbn [app fst snd] in *. rewrite seqs_refresh. intros Hx Hs'.
  destruct HP as [_ _ _ _ P5 _ _ _ P9]; [intros y Hy; destruct (F7 y Hy) as (? & s & _ & ? & _); by exists s|].
  destruct (decide (x ∈ members_of formed)) as [Hin|Hout].
  - destruct (P9 x Hin Hx) as (s3 & s4 & H3 & H4 & E4). destruct (F7 x Hin) as (s2 & s3' & H2 & H3' & E3).
    rewrite H3 in H3'. apply (inj Some) in H3' as <-. rewrite Hs' in H4. apply (inj Some) in H4 as <-.
    destruct (K _ _ H2) as (s & Hs & _ & Hm). exists s. split; [done|]. rewrite E4, E3. destruct Hm as [->|Hm]; [by do 2 right|].
    right; left. by destruct (s_machine s2).
  - rewrite P5, F8 in Hs' by done. destruct (K _ _ Hs') as (s & Hs & _ & Hm). exists s. split; [done|]. unfold left_alone. tauto.
Qed.
End cycle.

(** ** Properties *)

(** The keys that workers registered are values of the key's types, with enumerators that exist. *)
Definition keys_ok (m : Impl) : Prop :=
  forall wid w k, im_workers m !! wid = Some w -> k ∈ wk_supported_models w -> key_ok k = true /\ key_named k.

Section properties.
Context {CLK : Clock} {ORD : MapOrder}.

(** C27: groups are homogeneous, bounded and disjoint.  When the keys of the registered workers have fields within
    their C++ types and name existing backends and data types, in one scheduling cycle no sequence is put in
    two dispatches (or twice in one); every dispatch has at least one member and at most the
    configured number, at most the configured number per tenant, and its key is, for each of its
    members, a key that a registered worker supports for the model, revision and adapter (and, if
    constrained, the device) the member's request asks for; and every member was in a candidate
    state with tokens left in its budget, so terminal, running or exhausted sequences are never
    dispatched. *)
Theorem schedule_groups (tn : Z) (m : Impl) :
  keys_ok m ->
  let '(ds, m') := schedule tn m in
  let lim := cf_group_limits (im_cfg m) in
  NoDup (ds ≫= dispatched) /\
  forall d, d ∈ ds ->
    1 <= Z.of_nat (length (dp_members d)) <= Z.max 1 (gl_max_sequences lim) /\
    (0 < gl_max_tenant_share lim -> forall t, share (tenant_of m) t (dispatched d) <= gl_max_tenant_share lim) /\
    forall x, x ∈ dispatched d ->
      exists s, im_seqs m !! x = Some s /\ key_supported m (s_req s) (dp_key d) /\
        is_candidate_state (s_machine s) = true /\ tb_exhausted (s_budget s) = false.
Proof.
  intros Hk. pose proof (schedule_facts tn m) as H. destruct (schedule tn m) as [ds m']. destruct H as [Hnd Hall].
  split; [done|]. intros d Hd. destruct (Hall d Hd) as [C1 C2 (w & wid & Hw & Hin) _ C5]. split_and!; [lia|lia|done|].
  intros x Hx. destruct (C5 x Hx) as (s & k & Hs & Hsup & Heq & Hrun). exists s. split; [done|]. split; [|exact Hrun].
  destruct (Hk _ _ _ Hw Hin) as [K1 K2]. pose proof Hsup as (_ & _ & _ & _ & wid' & w' & Hw' & Hin' & _).
  destruct (Hk _ _ _ Hw' Hin') as [K3 K4]. by rewrite <- (key_to_string_inj k (dp_key d) K3 K1 K4 K2 Heq).
Qed.

(** A re-queued sequence is dispatched without leaving [Waiting]: the lifecycle has no step from [Waiting] to [Grouped] and the
    refusals are dropped, so after the cycle it is in flight, still [Waiting], and a candidate of the next cycle as well. *)
Theorem waiting_dispatched_again (tn : Z) (m : Impl) (x : SequenceId) (s : Seq) :
  im_seqs m !! x = Some s -> s_machine s = SequenceState.Waiting -> x ∈ (schedule tn m).1 ≫= dispatched ->
  exists s', im_seqs (schedule tn m).2 !! x = Some s' /\ s_has_inflight s' = true /\
    s_machine s' = SequenceState.Waiting /\ is_candidate_state (s_machine s') = true.
Proof.
  intros Hs Hw (d & Hx & Hd)%list_elem_of_bind. pose proof (schedule_facts tn m) as H. destruct (schedule tn m) as [ds m']. cbn [fst snd] in *.
  destruct H as [_ Hall]. destruct (Hall d Hd) as [_ _ _ (g & m1 & Hok & _) _ Hm]. destruct (Hm x Hx) as (s0 & s' & Hs0 & Hs' & E).
  rewrite Hs in Hs0. apply (inj Some) in Hs0 as <-. rewrite Hw in E. exists s'. rewrite E. split; [done|]. split; [|done].
  apply list_elem_of_fmap in Hx as (spec & -> & Hin). destruct (do_holds _ _ _ _ Hok spec Hin) as (s1 & Hs1 & Hh & _).
  rewrite Hs' in Hs1. apply (inj Some) in Hs1 as <-. apply Hh.
Qed.

(** C28: a dispatch carries its own authority.  Every dispatch of a cycle goes to a registered worker
    that is healthy and supports the model, revision and device of the key, under the current epoch
    and the boot identity the worker registered last; and after the cycle every member of it is in
    flight under exactly that dispatch, worker, boot, epoch and reservation, at its current
    generation, as its member specification says. *)
Theorem schedule_authority (tn : Z) (m : Impl) (d : Dispatch) :
  d ∈ (schedule tn m).1 ->
  dp_epoch d = im_epoch m /\
  (exists wid w, im_workers m !! wid = Some w /\ wk_id w = dp_worker d /\ wk_health w = WorkerHealth.Healthy /\
     (exists k, k ∈ wk_supported_models w /\ k_model k = k_model (dp_key d) /\ k_revision k = k_revision (dp_key d) /\
        k_device k = k_device (dp_key d)) /\
     dp_worker_boot d = default null_id (im_worker_current_boot m !! wk_id w)) /\
  forall spec, spec ∈ dp_members d ->
    exists s, im_seqs (schedule tn m).2 !! ms_sequence spec = Some s /\ holds d spec s.
Proof.
  intros Hd. pose proof (schedule_facts tn m) as H. destruct (schedule tn m) as [ds m']. cbn [fst snd] in *.
  destruct H as [_ Hall]. destruct (Hall d Hd) as [_ _ _ (g & m1 & [D1 D2 D3 D4 (wid & w & W1 & W2 & W3 & W4 & W5 & W6) D6] & He) _].
  unfold env_view in He. injection He as E1 E2 E3 _. split_and!; [congruence| |by intros spec Hs; destruct (D6 spec Hs) as (s & ? & ? & _); exists s].
  exists wid, w. rewrite D1, <- E1, <- E3. done.
Qed.
End properties.
