(* ===== verification/ScheduleProgress.v ===== *)
(** * The scheduler leaves no work behind

    What it means that a cycle dispatched nothing: every sequence that could still run asks for something no
    worker can take, or for memory the device of the chosen worker does not have. *)

From S2P Require Import Prelude Enums Errors Token StateMachine Ids Compatibility Types Binary Double FabricState FabricFrame FabricOps Schedule ScheduleTheorems.
From Stdlib Require Import String.
Open Scope Z_scope.

(** The limit on latency classes lets a sequence into groups. *)
Definition class_admitted (lim : GroupLimits) (s : Seq) : bool :=
  negb (negb (bool_decide (gl_max_latency_class lim = LatencyClass.Bulk)) &&
        (enum_code (rq_latency_class (s_req s)) >? enum_code (gl_max_latency_class lim))).

(** A registered worker, healthy or not, lists the model a request asks for. *)
Definition model_served (m : Impl) (req : DecodeRequest) : Prop :=
  exists wid w k, im_workers m !! wid = Some w /\ k ∈ wk_supported_models w /\
    k_model k = rq_model req /\ k_revision k = rq_revision req /\ k_adapter k = rq_adapter req /\
    (is_valid (rq_device_constraint req) = true -> d_id (wk_device w) = rq_device_constraint req).

(** Registered keys are valid: they have a model and a device. *)
Definition keys_valid (m : Impl) : Prop :=
  forall wid w k, im_workers m !! wid = Some w -> k ∈ wk_supported_models w -> key_valid k = true.

(** What a device has booked; a device that is not in the books has nothing. *)
Abbreviation dev_mem m dev := (default (mkDevMem 0 0 0) (im_dev_mem m !! dev)).

(** A worker can take a key now: it is healthy, lists the key's model, revision and device, and has a free reservation. *)
Record takes (k : CompatibilityKey) (w : WorkerDescriptor) : Prop := {
  tk_healthy : wk_health w = WorkerHealth.Healthy;
  tk_lists : exists mk, mk ∈ wk_supported_models w /\ k_model mk = k_model k /\ k_revision mk = k_revision k /\ k_device mk = k_device k;
  tk_room : wk_advertised_capacity w <= 0 \/ wk_active_reservations w < wk_advertised_capacity w;
}.

(** A device whose memory is limited has less free than a group needs, or less than its floor. *)
Definition lacks_memory (dm : DevMem) (growth : Z) : Prop :=
  let free := Z.max 0 (dm_capacity dm - dm_reserved dm) in
  0 < dm_capacity dm /\ (free < growth \/ 0 < dm_headroom_floor dm /\ free < dm_headroom_floor dm).

(** The memory a step of a sequence is estimated to need, and that of a group as a 64-bit number. *)
Definition growth_of (m : Impl) (x : SequenceId) : Z :=
  let e := from_option (fun s => sd_estimated_growth (s_state s)) 0 (im_seqs m !! x) in if e =? 0 then 64 else e.
Definition needs (m : Impl) (members : list SequenceId) : Z := wrap 64 (foldr (fun x n => growth_of m x + n) 0 members).

(** Of the workers that can take the key, the device of one with the fewest reservations lacks the memory the members need. *)
Definition no_memory (m : Impl) (k : CompatibilityKey) (members : list SequenceId) : Prop :=
  exists wid w, im_workers m !! wid = Some w /\ takes k w /\
    (forall wid' w', im_workers m !! wid' = Some w' -> takes k w' -> wk_active_reservations w <= wk_active_reservations w') /\
    lacks_memory (dev_mem m (d_id (wk_device w))) (needs m members).

(** No worker can take the key, or there is no memory for the members. *)
Definition refused (m : Impl) (k : CompatibilityKey) (members : list SequenceId) : Prop :=
  (forall wid w, im_workers m !! wid = Some w -> ~ takes k w) \/ no_memory m k members.

Section progress.
Context {CLK : Clock} {ORD : MapOrder}.
Implicit Types (m : Impl) (x : SequenceId).

(** The candidates and the groups of a cycle. *)
Definition cycle_candidates (tn : Z) m : list Candidate := (sched_collect tn (sched_boundary tn m)).1.
Definition cycle_groups (tn : Z) m : list Formed :=
  let '(cands, m') := sched_collect tn (sched_boundary tn m) in (sched_form tn (stable_sort cands) m').1.

(** A group of distinct sequences that could run, of one key and within the limit on its size. *)
Record queued m (g : Formed) : Prop := {
  qu_some : f_members g <> [];
  qu_distinct : NoDup (f_members g);
  qu_size : Z.of_nat (List.length (f_members g)) <= Z.max 1 (gl_max_sequences (cf_group_limits (im_cfg m)));
  qu_members : forall y, y ∈ f_members g -> exists t, im_seqs m !! y = Some t /\ runnable t /\ key_supported m (s_req t) (f_key g);
}.

(** The cycle chose the key of [g] for the sequence [x], and formed [g]. *)
Record held_back (tn : Z) m x (s : Seq) (g : Formed) : Prop := {
  hb_key : exists c, c ∈ cycle_candidates tn m /\ c_seq c = x /\ c_key c = f_key g;
  hb_supported : key_supported m (s_req s) (f_key g);
  hb_group : g ∈ cycle_groups tn m;
  hb_queued : queued m g;
}.

Lemma key_for_model_valid m req : keys_valid m -> model_served m req -> key_valid (key_for_model req m) = true.
Proof.
  intros Hv (wid & w & k & Hw & Hk & H1 & H2 & H3 & Hc). unfold key_for_model. cbv zeta. set (ks := flat_map _ _).
  assert (Hin : In k ks).
  { apply in_flat_map. exists (wid, w). split; [by apply list_elem_of_In; rewrite iter_perm; apply elem_of_map_to_list|]. cbn [snd].
    assert (is_valid (rq_device_constraint req) && negb (id_eqb (d_id (wk_device w)) (rq_device_constraint req)) = false) as ->.
    { destruct (is_valid _); [|done]. rewrite (Hc eq_refl), id_eqb_refl. done. }
    apply filter_In. split; [by apply list_elem_of_In|]. by rewrite H1, H2, H3, !id_eqb_refl. }
  assert (Hall : Forall (fun k => key_valid k = true) ks).
  { apply List.Forall_forall. intros k' Hk'. apply in_flat_map in Hk' as ([wid' w'] & Hw' & Hk'). cbn [snd] in Hk'.
    apply list_elem_of_In, iter_lookup in Hw'. case_match; [done|]. apply filter_In in Hk' as [Hk' _].
    apply (Hv wid' w'); [done|by apply list_elem_of_In]. }
  destruct ks as [|k0 ks']; [done|]. by apply Forall_inv in Hall.
Qed.

Lemma model_served_env m m' req : env_view m' = env_view m -> model_served m req -> model_served m' req.
Proof. unfold env_view. intros [= Hw _ _ _]. unfold model_served. by rewrite Hw. Qed.
Lemma keys_valid_env m m' : env_view m' = env_view m -> keys_valid m -> keys_valid m'.
Proof. unfold env_view. intros [= Hw _ _ _]. unfold keys_valid. by rewrite Hw. Qed.

(** ** Every runnable sequence is collected *)

Definition left_out m x : Prop := forall s, im_seqs m !! x = Some s -> runnable s -> model_served m (s_req s) -> False.

Lemma exhausted_budget m x k r s s' :
  im_seqs (m >>> release x >>> transition x SequenceState.Completed >>> record_terminal x SequenceState.Completed
             >>> bump st_sequences_completed >>> record_event k r x "budget_exhausted") !! x = Some s' ->
  im_seqs m !! x = Some s -> s_budget s' = s_budget s.
Proof.
  rewrite seqs_record_event, seqs_bump, seqs_record_terminal, lookup_transition, decide_True by done.
  rewrite lookup_release, decide_True by done. intros H Hs. rewrite Hs in H. cbn [fmap option_fmap option_map] in H. injection H as <-. by rsimpl.
Qed.

Lemma collect_seq_complete tn cands m x :
  keys_valid m ->
  let '(cands', m') := collect_seq tn (cands, m) x in x ∈ c_seq <$> cands' \/ left_out m' x.
Proof.
  intros Hv. unfold collect_seq. cbv zeta.
  destruct (im_seqs m !! x) as [s|] eqn:Hs; [|right; intros s' Hs'; congruence].
  destruct (is_candidate_state (s_machine s)) eqn:Hc; cbn [negb]; [|right; intros s' Hs' [Hr _] _; congruence].
  destruct (tb_exhausted (s_budget s)) eqn:Hb.
  - right. intros s' Hs' [_ Hr] _. rewrite (exhausted_budget _ _ _ _ _ _ Hs' Hs) in Hr. congruence.
  - destruct (key_valid (key_for_model (s_req s) m)) eqn:Hk; cbn [negb].
    + left. rewrite fmap_app. apply elem_of_app. right. by left.
    + right. intros s' Hs' _ Hm. assert (s' = s) as -> by congruence. by rewrite key_for_model_valid in Hk.
Qed.

Lemma left_out_keep m m' x :
  im_seqs m' !! x = im_seqs m !! x -> env_view m' = env_view m -> left_out m x -> left_out m' x.
Proof. intros Hs He H s. rewrite Hs. intros H1 H2 H3. apply (H s); [done|done|]. by apply (model_served_env m'). Qed.

Lemma collect_seq_grows tn acc x y : y ∈ c_seq <$> acc.1 -> y ∈ c_seq <$> (collect_seq tn acc x).1.
Proof.
  destruct acc as [cands m]. unfold collect_seq. cbv zeta. intros Hy. repeat case_match; try done. cbn [fst].
  rewrite fmap_app. apply elem_of_app. by left.
Qed.

Lemma collect_complete_foldl tn keys cands m :
  NoDup keys -> keys_valid m ->
  let acc := foldl (collect_seq tn) (cands, m) keys in
  (forall y, y ∈ c_seq <$> cands -> y ∈ c_seq <$> acc.1) /\ (forall y, y ∉ keys -> im_seqs acc.2 !! y = im_seqs m !! y) /\
  env_view acc.2 = env_view m /\ (forall x, x ∈ keys -> x ∈ c_seq <$> acc.1 \/ left_out acc.2 x).
Proof.
  revert cands m. induction keys as [|k keys IH]; intros cands m Hnd Hv; cbn [foldl].
  { split_and!; [done|done|done|by intros x ?%not_elem_of_nil]. }
  apply NoDup_cons in Hnd as [Hk Hnd].
  pose proof (collect_seq_complete tn cands m k Hv) as H1. pose proof (env_collect_seq tn (cands, m) k) as H2. cbn [snd] in H2.
  pose proof (fun y => collect_seq_rest tn (cands, m) k y) as H3. pose proof (collect_seq_grows tn (cands, m) k) as H4. cbn [fst snd] in *.
  destruct (collect_seq tn (cands, m) k) as [cands1 m1]. cbn [fst snd] in *.
  destruct (IH cands1 m1 Hnd (keys_valid_env m m1 H2 Hv)) as (G1 & G2 & G3 & G4). split_and!.
  - intros y Hy. by apply G1, H4.
  - intros y [Hn Hy]%not_elem_of_cons. by rewrite G2, H3.
  - congruence.
  - intros x [->|Hx]%elem_of_cons; [|by apply G4]. destruct H1 as [H1|H1]; [left; by apply G1|right].
    by apply (left_out_keep m1); [apply G2| |].
Qed.

Lemma collect_complete tn m x :
  keys_valid m -> x ∈ c_seq <$> (sched_collect tn m).1 \/ left_out (sched_collect tn m).2 x.
Proof.
  intros Hv. unfold sched_collect.
  destruct (collect_complete_foldl tn (iter (im_ticks m) (im_seqs m)).*1 [] m (iter_keys_nodup _ _) Hv) as (_ & H2 & _ & H4).
  destruct (decide (x ∈ (iter (im_ticks m) (im_seqs m)).*1)) as [Hx|Hx]; [by apply H4|]. right. intros s Hs _ _.
  rewrite H2 in Hs by done. apply Hx. apply list_elem_of_fmap. exists (x, s). split; [done|]. rewrite iter_perm. by apply elem_of_map_to_list.
Qed.

(** ** Every candidate whose class is admitted has a group that is not empty *)

Definition grouped (index : gmap string nat) (formed : list Formed) (c : Candidate) : Prop :=
  exists gi g, index !! key_to_string (c_key c) = Some gi /\ formed !! gi = Some g /\ f_members g <> [].

Lemma form_cand_grows tn index formed m c c' :
  grouped index formed c' -> grouped (form_cand tn (index, formed, m) c).1.1 (form_cand tn (index, formed, m) c).1.2 c'.
Proof.
  intros (gi & g & Hi & Hg & Hn). unfold form_cand. cbv zeta. fold (group_for c index formed).
  assert (Hgf : grouped (group_for c index formed).1.2 (group_for c index formed).2 c').
  { unfold group_for. destruct (index !! key_to_string (c_key c)) eqn:E; [by exists gi, g|]. cbn [fst snd]. exists gi, g.
    split; [|split; [by apply lookup_app_l_Some|done]]. rewrite lookup_insert_ne; [done|]. intros E'. by rewrite E', Hi in E. }
  destruct (group_for c index formed) as [[gj index1] formed1]. cbn [fst snd] in Hgf. clear gi g Hi Hg Hn.
  destruct Hgf as (gi & g & Hi & Hg & Hn). destruct (formed1 !! gj) as [g1|] eqn:Hg1; [|by exists gi, g].
  destruct (im_seqs m !! c_seq c) as [s|]; [|by exists gi, g]. destruct (admits _ _ _ _); [|by exists gi, g]. cbn [fst snd].
  destruct (decide (gi = gj)) as [->|Hne].
  - exists gj, (mkFormed (f_key g1) (f_members g1 ++ [c_seq c])). split; [done|].
    rewrite list_lookup_insert_eq by (by apply lookup_lt_Some in Hg1). split; [done|]. cbn. by destruct (f_members g1).
  - exists gi, g. by rewrite list_lookup_insert_ne.
Qed.

Lemma not_admitted m lim g s :
  class_admitted lim s = true -> admits m lim g s = false -> f_members g <> [].
Proof.
  unfold class_admitted, admits. intros ->. rewrite andb_true_r. intros [H|H]%andb_false_iff; apply negb_false_iff, andb_true_iff in H as [H1 H2].
  - by apply negb_true_iff, bool_decide_eq_false in H1.
  - intros E. rewrite E in H2. cbn [List.filter List.length Z.of_nat] in H2.
    rewrite Z.gtb_ltb, Z.ltb_lt in H1. rewrite Z.geb_leb, Z.leb_le in H2. lia.
Qed.

Definition indexed (index : gmap string nat) (formed : list Formed) : Prop :=
  forall ks gi, index !! ks = Some gi -> exists g, formed !! gi = Some g /\ key_to_string (f_key g) = ks.

Lemma group_for_indexed c index formed :
  indexed index formed ->
  let '(gi, index', formed') := group_for c index formed in
  indexed index' formed' /\ index' !! key_to_string (c_key c) = Some gi /\
  exists g, formed' !! gi = Some g /\ key_to_string (f_key g) = key_to_string (c_key c).
Proof.
  intros Hi. unfold group_for. destruct (index !! key_to_string (c_key c)) as [gi|] eqn:E; [by eauto|].
  assert (Hl : (formed ++ [mkFormed (c_key c) []]) !! List.length formed = Some (mkFormed (c_key c) [])) by (by rewrite list_lookup_middle).
  split_and!; [|apply lookup_insert_eq|by eauto]. intros ks gi. destruct (decide (key_to_string (c_key c) = ks)) as [<-|Hn].
  - rewrite lookup_insert_eq. intros [= <-]. eauto.
  - rewrite lookup_insert_ne by done. intros Hg. destruct (Hi _ _ Hg) as (g & Hg' & Hk). exists g. split; [by apply lookup_app_l_Some|done].
Qed.

Definition admissible (lim : GroupLimits) m (c : Candidate) : Prop :=
  exists s, im_seqs m !! c_seq c = Some s /\ class_admitted lim s = true.

Lemma admissible_quiet lim m m' c : quiet m m' -> admissible lim m c -> admissible lim m' c.
Proof.
  intros Hq (s & Hs & Hc). pose proof (q_seqs _ _ Hq (c_seq c)) as H. rewrite Hs in H. inversion H as [? s' Hsq|]; subst.
  exists s'. split; [done|]. unfold class_admitted in *. by rewrite (proj1 (seq_quiet_req _ _ Hsq)).
Qed.

Lemma form_cand_indexes tn index formed m c :
  indexed index formed ->
  let '(index', formed', _) := form_cand tn (index, formed, m) c in
  indexed index' formed' /\ (admissible (cf_group_limits (im_cfg m)) m c -> grouped index' formed' c).
Proof.
  intros Hi. pose proof (group_for_indexed c index formed Hi) as Hg. unfold form_cand. cbv zeta. fold (group_for c index formed).
  destruct (group_for c index formed) as [[gi index1] formed1]. destruct Hg as (H1 & H2 & (g & H3 & Hkg)). rewrite H3.
  destruct (im_seqs m !! c_seq c) as [s|] eqn:Hs; [|by split; [|intros (s & Hs' & _); congruence]].
  destruct (admits m _ g s) eqn:Ha.
  - assert (Hlt : (gi < List.length formed1)%nat) by (by apply lookup_lt_Some in H3). split.
    + intros ks gj Hk. destruct (H1 ks gj Hk) as (g' & Hg' & Hs'). destruct (decide (gi = gj)) as [<-|Hn].
      { rewrite list_lookup_insert_eq by done. eexists. split; [done|]. cbn. congruence. }
      rewrite list_lookup_insert_ne by done. eauto.
    + intros _. eexists gi, _. rewrite list_lookup_insert_eq by done. split_and!; [done|done|]. cbn. by destruct (f_members g).
  - split; [done|]. intros (s' & Hs' & Hc). rewrite Hs in Hs'. injection Hs' as <-. exists gi, g. split_and!; [done|done|].
    by apply (not_admitted m _ g s Hc Ha).
Qed.

Lemma form_complete tn cands index formed m :
  indexed index formed ->
  let '(index', formed', _) := foldl (form_cand tn) (index, formed, m) cands in
  indexed index' formed' /\ (forall c, grouped index formed c -> grouped index' formed' c) /\
  forall c, c ∈ cands -> admissible (cf_group_limits (im_cfg m)) m c -> grouped index' formed' c.
Proof.
  revert index formed m. induction cands as [|c0 cands IH]; intros index formed m Hi; cbn [foldl].
  { split_and!; [done|done|by intros c ?%not_elem_of_nil]. }
  pose proof (form_cand_indexes tn index formed m c0 Hi) as H1.
  pose proof (fun c => form_cand_grows tn index formed m c0 c) as H2.
  pose proof (quiet_form_cand tn m (index, formed, m) c0 (quiet_refl m)) as Hq.
  destruct (form_cand tn (index, formed, m) c0) as [[index1 formed1] m1]. cbn [fst snd] in *. destruct H1 as [H1 H3].
  specialize (IH index1 formed1 m1 H1). destruct (foldl _ _ cands) as [[index2 formed2] m2]. destruct IH as (I0 & I1 & I2).
  rewrite (quiet_cfg m m1 Hq) in I2. split_and!; [done|by auto|].
  intros c [->|Hc]%elem_of_cons Ha; [by auto|]. apply I2; [done|by apply (admissible_quiet _ m)].
Qed.

(** ** A group that is not placed *)

Lemma worker_fits_iff k w : worker_fits k w = true <-> takes k w.
Proof.
  unfold worker_fits. rewrite !andb_true_iff, bool_decide_eq_true, existsb_exists, negb_true_iff, andb_false_iff, Z.gtb_ltb, Z.geb_leb, Z.ltb_ge, Z.leb_gt.
  split.
  - intros [[H1 (mk & Hin & H2)] H3]. rewrite !andb_true_iff, !id_eqb_eq in H2. split; [done| |done].
    exists mk. rewrite list_elem_of_In. tauto.
  - intros [H1 (mk & Hin & H2 & H3 & H4) H5]. split_and!; [done| |done]. exists mk. rewrite <- list_elem_of_In, !andb_true_iff, !id_eqb_eq. done.
Qed.

Lemma has_headroom_false dm growth : has_headroom dm growth = false <-> lacks_memory dm growth.
Proof.
  unfold has_headroom, lacks_memory. cbv zeta. destruct (Z.gtb_spec (dm_capacity dm) 0); [|split; [done|lia]].
  assert ((if dm_capacity dm >? dm_reserved dm then dm_capacity dm - dm_reserved dm else 0) = Z.max 0 (dm_capacity dm - dm_reserved dm)) as ->
    by (destruct (Z.gtb_spec (dm_capacity dm) (dm_reserved dm)); lia).
  rewrite negb_false_iff, orb_true_iff, andb_true_iff, !Z.gtb_ltb, !Z.ltb_lt. lia.
Qed.

Lemma group_growth_needs m members : group_growth m members = needs m members.
Proof.
  assert (K : forall l z, foldl (fun g x => g +64 growth_of m x) (wrap 64 z) l = wrap 64 (z + foldr (fun x n => growth_of m x + n) 0 l)).
  { induction l as [|x l IH]; intros z; cbn [foldl foldr]; [by rewrite Z.add_0_r|].
    replace (wrap 64 z +64 growth_of m x) with (wrap 64 (z + growth_of m x)) by (unfold wrap; by rewrite Zplus_mod_idemp_l).
    rewrite IH. f_equal. lia. }
  exact (K members 0).
Qed.

(** What a cycle that dispatches nothing leaves alone. *)
Record idle m m' : Prop := {
  id_workers : im_workers m' = im_workers m;
  id_memory : forall dev, dev_mem m' dev = dev_mem m dev;
  id_states : forall x, s_state <$> im_seqs m' !! x = s_state <$> im_seqs m !! x;
}.

Lemma idle_refl m : idle m m.
Proof. by split. Qed.
Lemma idle_trans m1 m2 m3 : idle m1 m2 -> idle m2 m3 -> idle m1 m3.
Proof. intros [A1 A2 A3] [B1 B2 B3]. split; [congruence| |]; intros x; by rewrite ?B2, ?B3. Qed.

Lemma needs_idle m m' members : idle m m' -> needs m' members = needs m members.
Proof.
  intros [_ _ Hs]. unfold needs. f_equal. induction members as [|x l IH]; [done|]. cbn [foldr]. rewrite IH. f_equal. unfold growth_of. specialize (Hs x).
  destruct (im_seqs m' !! x) as [s'|], (im_seqs m !! x) as [s|]; try done. cbn [fmap option_fmap option_map from_option] in *.
  by injection Hs as ->.
Qed.

Lemma refused_idle m m' k l : idle m m' -> refused m k l -> refused m' k l.
Proof.
  intros Hi. pose proof Hi as [Hw Hm _]. unfold refused, no_memory. rewrite Hw. intros [H|(wid & w & H1 & H2 & H3 & H4)]; [by left|right].
  exists wid, w. by rewrite Hm, (needs_idle m m').
Qed.

(** The chosen worker has the fewest reservations of those that can take the key. *)
Lemma choose_worker_least key m wid w wid' w' :
  choose_worker key m = Some (wid, w) -> im_workers m !! wid' = Some w' -> worker_fits key w' = true ->
  wk_active_reservations w <= wk_active_reservations w'.
Proof.
  unfold choose_worker. intros Hc Hw Hf.
  assert (K : forall l c, let r := foldl (fun chosen kv => if worker_fits key kv.2 then
      match chosen with None => Some kv
      | Some c => if wk_active_reservations kv.2 <? wk_active_reservations c.2 then Some kv else Some c end
      else chosen) c l in
    forall kv, r = Some kv -> (forall kv', c = Some kv' -> wk_active_reservations kv.2 <= wk_active_reservations kv'.2) /\
      forall kv' : WorkerId * WorkerDescriptor, kv' ∈ l -> worker_fits key kv'.2 = true -> wk_active_reservations kv.2 <= wk_active_reservations kv'.2).
  { induction l as [|kv0 l IH]; intros c r kv; subst r; cbn [foldl].
    - intros ->. split; [by intros kv' [= ->]|by intros kv' ?%not_elem_of_nil].
    - intros H. destruct (IH _ _ H) as [H1 H2]. destruct (worker_fits key kv0.2) eqn:E0.
      + destruct c as [c|]; [destruct (Z.ltb_spec (wk_active_reservations kv0.2) (wk_active_reservations c.2))|];
          specialize (H1 _ eq_refl); (split; [intros kv' [= <-]; lia|]); intros kv' [->|Hin]%elem_of_cons Hk; auto; lia.
      + split; [done|]. intros kv' [->|Hin]%elem_of_cons Hk; [congruence|auto]. }
  destruct (K _ _ _ Hc) as [_ H]. apply (H (wid', w')); [|done]. rewrite iter_perm. by apply elem_of_map_to_list.
Qed.

Lemma choose_worker_none key m wid w : choose_worker key m = None -> im_workers m !! wid = Some w -> worker_fits key w = false.
Proof.
  unfold choose_worker. intros Hn Hw.
  assert (K : forall l c, foldl (fun chosen kv => if worker_fits key kv.2 then
      match chosen with None => Some kv
      | Some c => if wk_active_reservations kv.2 <? wk_active_reservations c.2 then Some kv else Some c end
      else chosen) c l = None -> c = None /\ Forall (fun kv : WorkerId * WorkerDescriptor => worker_fits key kv.2 = false) l).
  { induction l as [|kv l IH]; intros c; cbn [foldl]; [done|]. intros H. apply IH in H as [H Hl].
    destruct (worker_fits key kv.2) eqn:E; [|by split; [|constructor]]. destruct c as [c|]; [by destruct (_ <? _)|done]. }
  apply K in Hn as [_ Hn]. rewrite Forall_forall in Hn. apply (Hn (wid, w)). rewrite iter_perm. by apply elem_of_map_to_list.
Qed.

Lemma idle_record_event k r x d m : idle m (record_event k r x d m).
Proof. unfold record_event, now. case_match; by split. Qed.

Lemma idle_revert members m : idle m (revert_members members m).
Proof.
  unfold revert_members. apply (foldl_inv (idle m)); [apply idle_refl|]. intros m' x _ H. apply (idle_trans _ m'); [done|].
  split; [done|done|]. intros y. rewrite lookup_transition. case_decide; [|done]. by destruct (im_seqs m' !! y).
Qed.

Lemma place_group_grows tn out m g : exists l, (place_group tn (out, m) g).1 = out ++ l.
Proof.
  unfold place_group. case_bool_decide; [exists []; by rewrite app_nil_r|].
  destruct (choose_worker _ _) as [[wid w]|]; [|exists []; by rewrite app_nil_r]. cbv zeta.
  destruct (negb _); [exists []; by rewrite app_nil_r|]. destruct (issue_dispatch _ _ _ _ _ _) as [d m']. by exists [d].
Qed.

Lemma place_group_idle tn m g :
  let '(out, m') := place_group tn ([], m) g in out = [] ->
  idle m m' /\ (forall y, y ∉ f_members g -> im_seqs m' !! y = im_seqs m !! y) /\ (f_members g <> [] -> refused m' (f_key g) (f_members g)).
Proof.
  unfold place_group. case_bool_decide as Hm; [by split; [apply idle_refl|]|].
  destruct (choose_worker (f_key g) m) as [[wid w]|] eqn:Hw.
  2:{ intros _. pose proof (idle_revert (f_members g) m) as Hi.
      split_and!; [done|by intros y; apply revert_members_rest|]. intros _. apply (refused_idle m); [done|]. left. intros wid w Hwl Ht%worker_fits_iff.
      by rewrite (choose_worker_none _ _ _ _ Hw Hwl) in Ht. }
  cbv zeta. set (m1 := upd im_dev_mem _ m).
  assert (Hi : idle m m1).
  { split; [done| |done]. intros dev. unfold m1. rsimpl. destruct (decide (d_id (wk_device w) = dev)) as [<-|Hn].
    - by rewrite lookup_insert_eq.
    - by rewrite lookup_insert_ne. }
  assert (Hmem : im_dev_mem m1 !! d_id (wk_device w) = Some (dev_mem m (d_id (wk_device w)))).
  { unfold m1. rsimpl. by rewrite lookup_insert_eq. }
  assert (Hs1 : im_seqs m1 = im_seqs m) by done. clearbody m1. rewrite Hmem. cbn [default from_option].
  destruct (has_headroom _ _) eqn:Hh; cbn [negb]; [destruct (issue_dispatch _ _ _ _ _ _) as [d m2]; done|].
  intros _. assert (Hi' : idle m (record_event EventKind.BackpressureApplied null_id null_id "memory_headroom" (revert_members (f_members g) m1))).
  { eapply idle_trans; [exact Hi|]. eapply idle_trans; [apply idle_revert|apply idle_record_event]. }
  split_and!; [exact Hi'|intros y Hy; by rewrite seqs_record_event, revert_members_rest, Hs1|].
  intros _. apply (refused_idle m); [exact Hi'|]. right.
  pose proof (choose_worker_fits _ _ _ _ Hw) as [Hl Hf]. apply has_headroom_false in Hh. rewrite group_growth_needs in Hh.
  exists wid, w. split_and!; [done|by apply worker_fits_iff| |done].
  intros wid' w' Hw' Ht'%worker_fits_iff. by apply (choose_worker_least (f_key g) m wid w wid' w').
Qed.

Lemma place_idle tn formed m :
  let '(out, m') := sched_place tn formed m in
  out = [] -> idle m m' /\ (forall y, y ∉ members_of formed -> im_seqs m' !! y = im_seqs m !! y) /\
  forall g, g ∈ formed -> f_members g <> [] -> refused m' (f_key g) (f_members g).
Proof.
  unfold sched_place. revert m. induction formed as [|g formed IH]; intros m; cbn [foldl].
  { intros _. split_and!; [apply idle_refl|done|by intros g ?%not_elem_of_nil]. }
  pose proof (place_group_idle tn m g) as H1. destruct (place_group tn ([], m) g) as [out1 m1].
  assert (Hout : forall fs acc, exists l, (foldl (place_group tn) acc fs).1 = acc.1 ++ l).
  { clear. induction fs as [|f fs IH]; intros [out m]; cbn [foldl]; [exists []; by rewrite app_nil_r|].
    destruct (IH (place_group tn (out, m) f)) as [l1 H1]. destruct (place_group_grows tn out m f) as [l2 H2].
    exists (l2 ++ l1). cbn [fst]. by rewrite H1, H2, app_assoc. }
  destruct (Hout formed (out1, m1)) as [l Hl]. cbn [fst] in Hl.
  destruct out1 as [|d out1].
  - specialize (IH m1). destruct (foldl _ _ formed) as [out2 m2]. intros E. destruct (H1 eq_refl) as (A1 & A3 & A2).
    destruct (IH E) as (B1 & B3 & B2). split_and!; [by eapply idle_trans| |].
    { intros y. unfold members_of. rewrite bind_cons, not_elem_of_app. intros [Hy1 Hy2]. by rewrite B3, A3. }
    intros g' [->|Hg]%elem_of_cons Hm; [|by apply B2]. apply (refused_idle m1); auto.
  - destruct (foldl _ _ formed) as [out2 m2]. cbn [fst] in Hl. intros E. by rewrite E in Hl.
Qed.

Lemma sched_form_rest tn cands m y : y ∉ c_seq <$> cands -> im_seqs (sched_form tn cands m).2 !! y = im_seqs m !! y.
Proof.
  intros Hy. unfold sched_form.
  assert (K : im_seqs (foldl (form_cand tn) (∅, [], m) cands).2 !! y = im_seqs m !! y).
  { apply (foldl_inv (fun acc => im_seqs acc.2 !! y = im_seqs m !! y)); [done|]. intros acc c Hc <-. apply form_cand_rest.
    intros ->. apply Hy. by apply (list_elem_of_fmap_2 c_seq). }
  by destruct (foldl _ _ cands) as [[index formed] m'].
Qed.

(** Requests do not change. *)
Lemma quiet_request m m' x s s' : quiet m m' -> im_seqs m !! x = Some s -> im_seqs m' !! x = Some s' -> s_req s' = s_req s.
Proof.
  intros Hq Hs Hs'. pose proof (q_seqs _ _ Hq x) as H. rewrite Hs, Hs' in H. inversion H as [? ? Hsq|]; subst. apply (seq_quiet_req _ _ Hsq).
Qed.

Lemma admissible_request lim m c s s1 :
  im_seqs m !! c_seq c = Some s1 -> s_req s = s_req s1 -> class_admitted lim s = true -> admissible lim m c.
Proof. intros Hs Hr Hc. exists s1. split; [done|]. unfold class_admitted in *. by rewrite <- Hr. Qed.

(** Supported keys with the same text are the same. *)
Lemma supported_inj m req req' k k' :
  keys_ok m -> key_supported m req k -> key_supported m req' k' -> key_to_string k = key_to_string k' -> k = k'.
Proof.
  intros Hk (_ & _ & _ & _ & wid & w & Hw & Hin & _) (_ & _ & _ & _ & wid' & w' & Hw' & Hin' & _) Ht.
  destruct (Hk _ _ _ Hw Hin), (Hk _ _ _ Hw' Hin'). by apply key_to_string_inj.
Qed.

(** The candidates of a cycle are runnable and asked for a supported key; so are the members of its groups. *)
Lemma cycle_candidates_ok tn m c :
  c ∈ cycle_candidates tn m -> exists s, im_seqs m !! c_seq c = Some s /\ key_supported m (s_req s) (c_key c) /\ runnable s.
Proof.
  unfold cycle_candidates. pose proof (sched_collect_inv tn (sched_boundary tn m)) as HC.
  destruct (sched_collect tn (sched_boundary tn m)) as [cands m2]. destruct HC as (seen & [C1 C2 _ _ _ C5 C6]). cbn [fst]. intros Hc.
  rewrite Forall_forall in C6. apply (cand_ok_back m (sched_boundary tn m)); [apply quiet_boundary; reflexivity|apply closing_boundary|apply env_boundary|by apply C6].
Qed.

Lemma cycle_groups_queued tn m g :
  keys_ok m -> g ∈ cycle_groups tn m -> f_members g <> [] -> queued m g /\ exists req, key_supported m req (f_key g).
Proof.
  intros Hko. pose proof (cycle_candidates_ok tn m) as Hcand. unfold cycle_groups, cycle_candidates in *. set (m1 := sched_boundary tn m) in *.
  assert (Q1 : quiet m m1) by (apply quiet_boundary; reflexivity). clearbody m1.
  pose proof (sched_collect_inv tn m1) as HC. destruct (sched_collect tn m1) as [cands m2]. destruct HC as (seen & [C1 _ _ _ _ C5 _]).
  assert (Hnd : NoDup (c_seq <$> stable_sort cands)) by (by rewrite stable_sort_perm).
  pose proof (sched_form_spec tn m2 (stable_sort cands) Hnd) as HF. destruct (sched_form tn (stable_sort cands) m2) as [formed m3]. cbn [fst] in *.
  destruct HF as (index & [_ F2 F3 F4 F5 _] & _). intros Hg Hne. rewrite Forall_forall in F2, F3, F4.
  destruct (F4 g Hg) as (c' & Hc' & Hkey). rewrite stable_sort_perm in Hc'. destruct (Hcand c' Hc') as (s2 & _ & Hk2 & _). rewrite <- Hkey in Hk2.
  split; [|by eauto]. split; [done| | |].
  - unfold members_of in F5. apply list_elem_of_lookup in Hg as [i Hi]. rewrite <- (take_drop_middle formed i g Hi), bind_app, bind_cons in F5.
    by apply NoDup_app in F5 as (_ & _ & (F5 & _)%NoDup_app).
  - destruct (F2 g Hg) as [G _]. by rewrite (quiet_cfg m m2) in G by by etrans.
  - intros y Hy. specialize (F3 g Hg). rewrite Forall_forall in F3. destruct (F3 y Hy) as (c & Hc & <- & Ht). rewrite stable_sort_perm in Hc.
    destruct (Hcand c Hc) as (t & Hs & Hk & Hr). exists t. split_and!; [done|done|]. by rewrite <- (supported_inj m (s_req t) (s_req s2) (c_key c) (f_key g)).
Qed.

(** A cycle that dispatches nothing holds back only sequences whose group is refused. *)
Lemma schedule_idle (tn : Z) (m : Impl) :
  keys_ok m -> keys_valid m -> (schedule tn m).1 = [] ->
  forall x s, im_seqs (schedule tn m).2 !! x = Some s -> runnable s -> class_admitted (cf_group_limits (im_cfg m)) s = true ->
    model_served m (s_req s) ->
    exists g, held_back tn m x s g /\ im_workers (schedule tn m).2 = im_workers m /\
      refused (schedule tn m).2 (f_key g) (f_members g).
Proof.
  intros Hko Hkv. pose proof (fun g => cycle_groups_queued tn m g Hko) as HQ. pose proof (eq_refl (cycle_groups tn m)) as EG.
  pose proof (eq_refl (cycle_candidates tn m)) as EC. unfold cycle_groups at 2 in EG. unfold cycle_candidates at 2 in EC.
  unfold schedule. cbv zeta. set (m1 := sched_boundary tn m) in *.
  assert (Q1 : quiet m m1) by (apply quiet_boundary; reflexivity). assert (E1 : env_view m1 = env_view m) by apply env_boundary.
  clearbody m1. pose proof (fun x => collect_complete tn m1 x (keys_valid_env m m1 E1 Hkv)) as HA.
  pose proof (sched_collect_inv tn m1) as HC. destruct (sched_collect tn m1) as [cands m2]. cbn [fst snd] in HA, EC.
  destruct HC as (seen & [C1 C2 _ _ _ C5 C6]).
  assert (Hnd : NoDup (c_seq <$> stable_sort cands)) by (by rewrite stable_sort_perm).
  pose proof (sched_form_spec tn m2 (stable_sort cands) Hnd) as HF.
  pose proof (quiet_form tn (stable_sort cands) m2 m2 (quiet_refl m2)) as Q3.
  pose proof (fun y => sched_form_rest tn (stable_sort cands) m2 y) as HR.
  pose proof (form_complete tn (stable_sort cands) ∅ [] m2) as HG.
  unfold sched_form in *. destruct (foldl (form_cand tn) (∅, [], m2) (stable_sort cands)) as [[index formed] m3]. cbn [fst snd] in Q3, HR, EG.
  destruct HF as (index' & [_ _ _ _ _ F6] & E3 & _). destruct HG as (HI & _ & HG); [by intros ks gi ?%lookup_empty_Some|].
  pose proof (place_idle tn formed m3) as HP. pose proof (quiet_place tn formed m3 m3 (quiet_refl m3)) as Q4.
  destruct (sched_place tn formed m3) as [out m4]. cbn [fst snd] in *. intros ->. destruct (HP eq_refl) as (P1 & P2 & P3).
  intros x s. rewrite seqs_refresh. intros Hs Hrun Hcl Hsv.
  assert (Q : quiet m1 m4) by (etrans; [exact C1|]; by etrans).
  assert (Hin : x ∈ c_seq <$> cands).
  { destruct (HA x) as [Hx|Hx]; [done|]. destruct (decide (x ∈ c_seq <$> cands)) as [?|Hn]; [done|]. exfalso.
    assert (Hn' : x ∉ c_seq <$> stable_sort cands) by (by rewrite stable_sort_perm).
    apply (Hx s); [|done|by apply (model_served_env m); [congruence|]]. rewrite <- Hs, P2; [by symmetry; apply HR|].
    intros Hm. by apply Hn', F6. }
  apply list_elem_of_fmap in Hin as (c & -> & Hc). rewrite Forall_forall in C6. destruct (C6 c Hc) as (s1 & Hs1 & Hk & _).
  assert (Hreq : s_req s = s_req s1) by (by apply (quiet_request m1 m4 (c_seq c))).
  assert (Hk' : key_supported m (s_req s) (c_key c)) by (rewrite Hreq; by apply (key_supported_env m m1)).
  destruct (HG c) as (gi & g & Hi & Hg & Hne).
  { by rewrite stable_sort_perm. }
  { rewrite (quiet_cfg m m2) by by etrans. apply (admissible_quiet _ m1); [done|]. by apply (admissible_request _ _ _ s s1). }
  destruct (HI _ _ Hi) as (g' & Hg' & Htext). rewrite Hg in Hg'. injection Hg' as <-. apply list_elem_of_lookup_2 in Hg.
  destruct (HQ g ltac:(by rewrite EG) Hne) as [Hqu [req Hk2]].
  assert (Heq : f_key g = c_key c) by (by apply (supported_inj m req (s_req s))).
  assert (E : env_view m3 = env_view m) by congruence. unfold env_view in E. injection E as E _ _ _. exists g. split; [|split].
  - split; [exists c; by rewrite EC|by rewrite Heq|by rewrite EG|done].
  - transitivity (im_workers m4); [done|]. by rewrite (id_workers _ _ P1).
  - exact (P3 g Hg Hne).
Qed.

(** C22: the scheduler leaves no work behind.  The workers' keys being well formed (values of their types, enumerators, with a
    model and a device), if a cycle dispatches nothing, then for every sequence that is left
    between steps with tokens to generate, whose latency class is admitted and whose model a registered worker lists,
    the cycle formed a group under the key it chose for the sequence, of distinct runnable sequences of that key and no more than the
    limit, and: no worker can take the key (none is healthy, lists the model,
    revision and device and has a free reservation), or of the workers that can one with the fewest reservations has
    a device whose free memory is less than what the members of that group need together (as a 64-bit sum) or less than
    its floor. *)
Theorem schedule_work_conserving (tn : Z) (m : Impl) :
  keys_ok m -> keys_valid m ->
  let '(ds, m') := schedule tn m in
  ds = [] ->
  forall x s, im_seqs m' !! x = Some s -> runnable s -> class_admitted (cf_group_limits (im_cfg m)) s = true ->
    model_served m (s_req s) ->
    exists g, held_back tn m x s g /\ im_workers m' = im_workers m /\ refused m' (f_key g) (f_members g).
Proof.
  intros Hko Hkv. pose proof (schedule_idle tn m Hko Hkv) as H. destruct (schedule tn m) as [ds m']. exact H.
Qed.
End progress.
