(* ===== verification/Transaction.v ===== *)
(** * Completions and the prepare / authorize / commit / receipt protocol

    [DecodeFabric::apply_completion], [authorize_prepared], [apply_commit_receipt]
    and [abort_prepared] of src/fabric.cpp, with the accepted-generation records
    and the observers of the transactional state. *)

From S2P Require Import Prelude Enums Errors Token StateMachine Ids Compatibility Types Double FabricState FabricFrame.

(** ** Accepted generations *)

(** [acceptance_key_fields]: FNV-1a over the authority identity and the committed position. *)
Definition acceptance_key_fields (ep : CoordinatorEpoch) (wk : WorkerId) (wb : WorkerBootId) (seq : SequenceId)
    (st : StateId) (att : AttemptId) (gen : DecodeGeneration) (disp : DispatchId) (pos : Z) : Z :=
  foldl (fun h v => Z.lxor h v *64 fnv_prime) fnv_offset
    [id_value ep; id_value wk; id_value wb; id_value seq; id_value st; id_value att; id_value gen;
     id_value disp; pos].

Definition acceptance_key_receipt (r : MemberReceipt) : Z :=
  acceptance_key_fields (rc_epoch r) (rc_worker r) (rc_worker_boot r) (rc_sequence r) (rc_state r)
    (rc_attempt r) (rc_generation r) (rc_dispatch r) (rc_committed_position_before r).
Definition acceptance_key_prepared (pm : PreparedMember) : Z :=
  acceptance_key_fields (pm_epoch pm) (pm_worker pm) (pm_worker_boot pm) (pm_sequence pm) (pm_state pm)
    (pm_attempt pm) (pm_generation pm) (pm_dispatch pm) (pm_committed_position_before pm).

(** [make_accepted]. *)
Definition make_accepted (r : MemberReceipt) (promotion_observed : bool) : AcceptedGeneration :=
  mkAccepted (acceptance_key_receipt r) (rc_epoch r) (rc_worker r) (rc_worker_boot r) (rc_sequence r)
    (rc_state r) (rc_attempt r) (rc_generation r) (rc_dispatch r) (rc_committed_position_before r)
    (rc_committed_position_after r) (rc_pre_state_digest r) (rc_post_state_digest r) (rc_delta_digest r)
    (rc_terminal r) promotion_observed.

(** [receipts_match]. *)
Definition receipts_match (a b : MemberReceipt) : bool :=
  id_eqb (rc_receipt_id a) (rc_receipt_id b) && id_eqb (rc_grant_id a) (rc_grant_id b) &&
  id_eqb (rc_proposal a) (rc_proposal b) && id_eqb (rc_sequence a) (rc_sequence b) &&
  id_eqb (rc_state a) (rc_state b) && id_eqb (rc_attempt a) (rc_attempt b) &&
  id_eqb (rc_generation a) (rc_generation b) && id_eqb (rc_worker a) (rc_worker b) &&
  id_eqb (rc_worker_boot a) (rc_worker_boot b) && id_eqb (rc_epoch a) (rc_epoch b) &&
  id_eqb (rc_dispatch a) (rc_dispatch b) &&
  (rc_committed_position_before a =? rc_committed_position_before b) &&
  (rc_committed_position_after a =? rc_committed_position_after b) &&
  (rc_pre_state_digest a =? rc_pre_state_digest b) && (rc_post_state_digest a =? rc_post_state_digest b).

(** [DecodeFabric::GrantOrAbort] and [AuthorizeResult]. *)
Record GrantOrAbort := mkGrantOrAbort {
  ga_grant : option CommitGrant;
  ga_has_abort : bool;
  ga_abort_spec : AbortPrepared;
  ga_proposal : ProposalId;
  ga_aborted : bool;
  ga_rejected : bool;
  ga_error_code : ErrorCode;
  ga_reason : string;
  ga_outcome : MemberOutcome;
}.
#[export] Instance GrantOrAbort_eta : Settable GrantOrAbort := fun r =>
  mkGrantOrAbort (ga_grant r) (ga_has_abort r) (ga_abort_spec r) (ga_proposal r) (ga_aborted r)
    (ga_rejected r) (ga_error_code r) (ga_reason r) (ga_outcome r).

Record AuthorizeResult := mkAuthorizeResult {
  au_dispatch_id : DispatchId;
  au_epoch : CoordinatorEpoch;
  au_worker : WorkerId;
  au_worker_boot : WorkerBootId;
  au_members : list GrantOrAbort;
}.

(** The abort target of a prepared member: its whole authority tuple. *)
Definition abort_of (pm : PreparedMember) : AbortPrepared :=
  mkAbort (pm_proposal pm) (pm_sequence pm) (pm_state pm) (pm_attempt pm) (pm_generation pm)
    (pm_dispatch pm) (pm_epoch pm) (pm_worker pm) (pm_worker_boot pm).

Section transaction.
Context {CLK : Clock} {ORD : MapOrder}.

(** [worker_current_boot] knows the worker under another boot identity. *)
Definition boot_stale (w : WorkerId) (boot : WorkerBootId) (m : Impl) : bool :=
  match im_worker_current_boot m !! w with Some b => negb (id_eqb b boot) | None => false end.

Definition is_cancelling (st : SequenceState) : bool :=
  bool_decide (st = SequenceState.CancelRequested) || bool_decide (st = SequenceState.Cancelled).

(** The count and the event of a rejection. *)
Definition reject_stale (r : RequestId) (seq : SequenceId) (detail : string) (m : Impl) : Impl :=
  m >>> bump st_stale_rejections >>> record_event EventKind.StaleRejected r seq detail.

(** ** apply_completion *)

(** One outcome of [DecodeFabric::apply_completion]. *)
Definition complete_member (result : DecodeExecutionResult) (m : Impl) (mo : MemberOutcome) : Impl :=
  let seq := mo_sequence mo in
  match im_seqs m !! seq with
  | None => reject_stale null_id seq "unknown_sequence" m
  | Some s =>
      let rid := rq_id (s_req s) in
      let drop_inflight := upd_seq seq (fun s => s <| s_has_inflight := false |>) in
      if negb (id_eqb (es_epoch result) (im_epoch m)) then
        m >>> drop_inflight >>> release seq >>> reject_stale rid seq "stale_epoch"
      else if boot_stale (es_worker result) (es_worker_boot result) m then
        reject_stale rid seq "stale_worker_boot" m
      else if negb (id_eqb (mo_attempt mo) (s_current_attempt s)) then reject_stale rid seq "stale_attempt" m
      else if negb (id_value (mo_generation mo) =? s_in_flight_generation s) then
        reject_stale rid seq "stale_generation" m
      else if negb (id_eqb (es_dispatch_id result) (s_in_flight_dispatch s)) then
        reject_stale rid seq "stale_dispatch" m
      else if is_terminal (s_machine s) then reject_stale rid seq "completion_for_terminal" m
      else if is_cancelling (s_machine s) then
        m >>> release seq >>> drop_inflight >>> reject_stale rid seq "completion_for_cancelled"
      else if bool_decide (s_machine s = SequenceState.DeadlineExpired) then
        m >>> release seq >>> drop_inflight >>> reject_stale rid seq "completion_for_expired"
      else if bool_decide (mo_kind mo = MemberOutcomeKind.StaleAuthorityRejected) then
        reject_stale rid seq "backend_rejected" m
      else if mo_succeeded mo then reject_stale rid seq "completion_without_receipt" m
      else
        m >>> drop_inflight >>> upd_seq seq (fun s => s <| s_in_flight_dispatch := null_id |>)
          >>> release seq >>> apply_noncommit_outcome seq mo
  end.

(** [DecodeFabric::apply_completion]. *)
Definition apply_completion (result : DecodeExecutionResult) (m : Impl) : Result unit * Impl :=
  (Ok tt, refresh_derived_stats (foldl (complete_member result) m (es_outcomes result))).

(** ** authorize_prepared *)

(** The authority checks, most stale first: the error code, the event detail and the reason. *)
Definition stale_authority (pm : PreparedMember) (s : Seq) (m : Impl) : option (ErrorCode * string * string) :=
  if negb (id_eqb (pm_epoch pm) (im_epoch m)) then
    Some (ErrorCode.StaleCoordinatorEpoch, "stale_epoch", "stale_epoch")
  else if boot_stale (pm_worker pm) (pm_worker_boot pm) m then
    Some (ErrorCode.StaleWorkerBoot, "stale_worker_boot", "stale_worker_boot")
  else if negb (id_eqb (pm_attempt pm) (s_current_attempt s)) then
    Some (ErrorCode.StaleAttempt, "stale_attempt", "stale_attempt")
  else if negb (id_value (pm_generation pm) =? s_in_flight_generation s) then
    Some (ErrorCode.StaleDecodeGeneration, "stale_generation", "stale_generation")
  else if negb (id_eqb (pm_dispatch pm) (s_in_flight_dispatch s)) then
    Some (ErrorCode.DuplicateCompletion, "stale_dispatch", "stale_dispatch")
  else if is_terminal (s_machine s) then
    Some (ErrorCode.CompletionForTerminal, "completion_for_terminal", "terminal")
  else if is_cancelling (s_machine s) then
    Some (ErrorCode.CompletionForCancelled, "completion_for_cancelled", "cancelled")
  else if bool_decide (s_machine s = SequenceState.DeadlineExpired) then
    Some (ErrorCode.CompletionForExpired, "completion_for_expired", "expired")
  else None.

(** The transaction binding of a commit-eligible member. *)
Definition binding_error (pm : PreparedMember) (s : Seq) : option (ErrorCode * string) :=
  if s_has_inflight_grant s then
    Some (ErrorCode.TransactionConflict, "conflicting pending grant for sequence+generation")
  else if negb (pm_committed_position_before pm =? s_generated s) then
    Some (ErrorCode.InvalidArgument, "committed-position mismatch")
  else if s_state_digest_established s && negb (pm_pre_state_digest pm =? s_committed_state_digest s) then
    Some (ErrorCode.StateDigestMismatch, "pre-state digest does not match committed executor state")
  else None.

(** The one-use grant for a prepared member. *)
Definition grant_for (prepared : PreparedDecode) (pm : PreparedMember) (gid : GrantId) : CommitGrant :=
  mkGrant gid (pm_proposal pm) (pd_epoch prepared) (pd_worker prepared) (pd_worker_boot prepared)
    (pm_sequence pm) (pm_state pm) (pm_attempt pm) (pm_generation pm) (pm_dispatch pm)
    (pm_committed_position_before pm) (pm_pre_state_digest pm) (pm_post_state_digest pm)
    (pm_delta_digest pm) (mo_kind (pm_outcome pm)) (mo_terminal (pm_outcome pm))
    (wrap 32 (mo_token_identifier (pm_outcome pm))) (pm_active_ns pm).

Definition issue_grant (prepared : PreparedDecode) (pm : PreparedMember) (m : Impl) : CommitGrant * Impl :=
  let gid := mkId (im_next_grant m) in
  let g := grant_for prepared pm gid in
  (g, m >>> upd im_next_grant (fun n => n +64 1)
        >>> upd im_grant_ledger <[gid := mkGrantRecord g 0 None]>
        >>> upd_seq (pm_sequence pm) (fun s => s <| s_in_flight_grant := gid |> <| s_has_inflight_grant := true |>
              <| s_in_flight_proposal := pm_proposal pm |>
              <| s_in_flight_position := pm_committed_position_before pm |>)).

(** One member of [DecodeFabric::authorize_prepared]. *)
Definition authorize_member (prepared : PreparedDecode) (acc : list GrantOrAbort * Impl) (pm : PreparedMember)
    : list GrantOrAbort * Impl :=
  let '(out, m) := acc in
  let seq := pm_sequence pm in
  let ga := mkGrantOrAbort None true (abort_of pm) (pm_proposal pm) false false ErrorCode.Ok "" default_outcome in
  let reject code reason := ga <| ga_rejected := true |> <| ga_aborted := true |> <| ga_error_code := code |>
                               <| ga_reason := reason |> in
  match im_seqs m !! seq with
  | None => (out ++ [reject ErrorCode.UnknownSequence "unknown_sequence"],
             reject_stale null_id seq "unknown_sequence" m)
  | Some s =>
      let rid := rq_id (s_req s) in
      match stale_authority pm s m with
      | Some (code, detail, reason) =>
          (out ++ [reject code reason], m >>> stale_reconcile seq >>> reject_stale rid seq detail)
      | None =>
          if negb (is_commit_eligible pm) then
            (out ++ [ga <| ga_aborted := true |> <| ga_outcome := pm_outcome pm |>],
             m >>> upd_seq seq (fun s => s <| s_has_inflight := false |> <| s_in_flight_dispatch := null_id |>)
               >>> release seq >>> apply_noncommit_outcome seq (pm_outcome pm))
          else if s_has_accepted s && (ac_idempotency_key (s_accepted s) =? acceptance_key_prepared pm) then
            (out ++ [reject ErrorCode.DuplicateCompletion "already-accepted generation reconciled idempotently"],
             m >>> stale_reconcile seq
               >>> record_event EventKind.StaleRejected rid seq "already_accepted_replay")
          else match binding_error pm s with
          | Some (code, reason) =>
              (out ++ [reject code reason], m >>> stale_reconcile seq >>> bump st_stale_rejections)
          | None =>
              let '(g, m) := issue_grant prepared pm m in
              (out ++ [ga <| ga_grant := Some g |> <| ga_has_abort := false |>],
               record_event EventKind.ReservationGranted rid seq "commit_grant_issued" m)
          end
      end
  end.

(** [DecodeFabric::authorize_prepared]. *)
Definition authorize_prepared (prepared : PreparedDecode) (m : Impl) : Result AuthorizeResult * Impl :=
  let '(out, m) := foldl (authorize_member prepared) ([], m) (pd_members prepared) in
  (Ok (mkAuthorizeResult (pd_dispatch_id prepared) (pd_epoch prepared) (pd_worker prepared)
         (pd_worker_boot prepared) out), m).

(** ** apply_commit_receipt *)

(** The receipt is the one the grant asked for. *)
Definition receipt_fits (rec : MemberReceipt) (g : CommitGrant) : bool :=
  id_eqb (rc_grant_id rec) (g_grant_id g) && id_eqb (rc_proposal rec) (g_proposal g) &&
  id_eqb (rc_sequence rec) (g_sequence g) && id_eqb (rc_state rec) (g_state g) &&
  id_eqb (rc_attempt rec) (g_attempt g) && id_eqb (rc_generation rec) (g_generation g) &&
  id_eqb (rc_worker_boot rec) (g_worker_boot g) && id_eqb (rc_epoch rec) (g_epoch g) &&
  id_eqb (rc_dispatch rec) (g_dispatch g) && (rc_committed_position_before rec =? g_committed_position g) &&
  (rc_pre_state_digest rec =? g_pre_state_digest g) && (rc_post_state_digest rec =? g_post_state_digest g).

(** The sequence after one more authoritative generation. *)
Definition commit_seq (rec : MemberReceipt) (fin : Z) (s : Seq) : Seq :=
  s <| s_budget := fst (tb_advance 1 (s_budget s)) |>
    <| s_generated ::= (fun n => n +64 1) |> <| s_committed ::= (fun n => n +64 1) |>
    <| s_current_length ::= (fun n => n +64 1) |> <| s_generation ::= (fun n => n +64 1) |>
    <| s_last_token_at := fin |>
    <| s_committed_state_digest := rc_post_state_digest rec |> <| s_state_digest_established := true |>
    <| s_accepted := make_accepted rec true |> <| s_has_accepted := true |>.

(** The counters of a finalized generation. *)
Definition count_step (rec : MemberReceipt) (fin prev_token : Z) (st : Stats) : Stats :=
  let st := st <| st_decode_steps ::= (fun n => n +64 1) |> <| st_generated_tokens ::= (fun n => n +64 1) |>
               <| st_total_active_ns ::= (fun n => to_s64 (n + rc_active_ns rec)) |> in
  if negb (prev_token =? 0) then st <| st_total_inter_token_ns ::= (fun n => to_s64 (n + (fin - prev_token))) |>
  else st.

(** The sequence completes, or becomes ready for its next token. *)
Definition settle_step (rec : MemberReceipt) (fin : Z) (s : Seq) (m : Impl) : Impl :=
  let seq := rc_sequence rec in
  if rc_terminal rec || tb_exhausted (s_budget s) then
    m >>> transition seq SequenceState.StepCompleted >>> transition seq SequenceState.Completed
      >>> tenant_done (rq_tenant (s_req s)) >>> bump st_sequences_completed
      >>> record_terminal seq SequenceState.Completed
      >>> record_event EventKind.SequenceCompleted (rq_id (s_req s)) seq "terminal"
  else
    m >>> transition seq SequenceState.StepCompleted >>> transition seq SequenceState.ReadyForNextToken
      >>> upd_seq seq (fun s => s <| s_ready_at := fin |>).

(** The transaction is closed: the grant is consumed and the sequence holds nothing in flight. *)
Definition close_transaction (rec : MemberReceipt) (rid : RequestId) (m : Impl) : Impl :=
  let seq := rc_sequence rec in
  m >>> upd im_grant_ledger (alter (fun gr => gr <| gr_status := 1 |> <| gr_receipt := Some rec |>) (rc_grant_id rec))
    >>> upd_seq seq (fun s => s <| s_has_inflight := false |> <| s_in_flight_dispatch := null_id |>)
    >>> release seq
    >>> upd_seq seq (fun s => s <| s_has_inflight_grant := false |> <| s_in_flight_grant := null_id |>
                                <| s_in_flight_proposal := null_id |>)
    >>> upd im_receipt_count (fun n => n +64 1)
    >>> record_event EventKind.ReservationReleased rid seq "receipt_consumed".

(** Finalize exactly one authoritative generation of the sequence [s]. *)
Definition finalize_receipt (rec : MemberReceipt) (s : Seq) (m : Impl) : Impl :=
  let seq := rc_sequence rec in
  let rid := rq_id (s_req s) in
  let '(fin, m) := if negb (rc_committed_at rec =? 0) then (rc_committed_at rec, m) else now m in
  let s' := commit_seq rec fin s in
  m >>> upd_seq seq (commit_seq rec fin)
    >>> upd im_stats (count_step rec fin (s_last_token_at s))
    >>> update_tenant_tokens (rq_tenant (s_req s)) 1
    >>> record_event EventKind.StepCompleted rid seq ("token " +:+ u64_string (s_generated s'))
    >>> settle_step rec fin s'
    >>> close_transaction rec rid.

(** Why a receipt whose grant is pending is not accepted, if it is not: the request and the detail. *)
Definition receipt_error (rec : MemberReceipt) (g : CommitGrant) (m : Impl) : option (RequestId * string) :=
  if negb (receipt_fits rec g) then Some (null_id, "receipt_grant_mismatch")
  else match im_seqs m !! rc_sequence rec with
  | None => Some (null_id, "unknown_sequence")
  | Some s =>
      let rid := rq_id (s_req s) in
      if negb (s_has_inflight_grant s) || negb (id_eqb (s_in_flight_grant s) (rc_grant_id rec)) ||
         negb (id_eqb (s_in_flight_proposal s) (rc_proposal rec)) then Some (rid, "grant_not_inflight")
      else if is_terminal (s_machine s) || is_cancelling (s_machine s) ||
              bool_decide (s_machine s = SequenceState.DeadlineExpired) then Some (rid, "completion_for_terminal")
      else None
  end.

(** The replay of the generation a sequence has already accepted. *)
Definition already_accepted (rec : MemberReceipt) (m : Impl) : bool :=
  match im_seqs m !! rc_sequence rec with
  | Some s => s_has_accepted s && (ac_idempotency_key (s_accepted s) =? acceptance_key_receipt rec) &&
              ac_promotion_observed (s_accepted s)
  | None => false
  end.

(** One receipt of [DecodeFabric::apply_commit_receipt]. *)
Definition apply_receipt (m : Impl) (rec : MemberReceipt) : Impl :=
  let seq := rc_sequence rec in
  match im_grant_ledger m !! rc_grant_id rec with
  | None => reject_stale null_id seq "unknown_grant" m
  | Some gr =>
      if gr_status gr =? 1 then
        if from_option (fun r => receipts_match r rec) false (gr_receipt gr) then m
        else if already_accepted rec m then m
        else reject_stale null_id seq "conflicting_duplicate_receipt" m
      else if gr_status gr =? 2 then reject_stale null_id seq "aborted_grant" m
      else match receipt_error rec (gr_grant gr) m with
      | Some (rid, detail) => reject_stale rid seq detail m
      | None =>
          match im_seqs m !! seq with
          | Some s => finalize_receipt rec s m
          | None => m
          end
      end
  end.

(** [DecodeFabric::apply_commit_receipt]. *)
Definition apply_commit_receipt (receipts : ReceiptDecode) (m : Impl) : Result unit * Impl :=
  (Ok tt, refresh_derived_stats (foldl apply_receipt m (rd_receipts receipts))).

(** ** abort_prepared *)

(** [DecodeFabric::abort_prepared]. *)
Definition abort_prepared (abort : AbortPrepared) (m : Impl) : Result unit * Impl :=
  let seq := ab_sequence abort in
  match im_seqs m !! seq with
  | None => (Ok tt, m)
  | Some s =>
      if s_has_inflight_grant s && id_eqb (s_in_flight_proposal s) (ab_proposal abort) then
        let m := m >>> upd im_grant_ledger (alter (fun gr => if gr_status gr =? 0 then gr <| gr_status := 2 |> else gr)
                                              (s_in_flight_grant s))
                   >>> upd_seq seq (fun s => s <| s_has_inflight_grant := false |> <| s_in_flight_grant := null_id |>
                         <| s_in_flight_proposal := null_id |> <| s_in_flight_position := 0 |>
                         <| s_has_inflight := false |>)
                   >>> release seq in
        let m := if negb (is_terminal (s_machine s)) && is_running (s_machine s) then
                   m >>> transition seq SequenceState.StepCompleted >>> transition seq SequenceState.Waiting
                     >>> stamp_ready seq
                 else m in
        (Ok tt, record_event EventKind.StaleRejected (rq_id (s_req s)) seq "aborted_prepared" m)
      else (Ok tt, m)
  end.

(** ** Observers *)

Definition sequence_committed_digest (seq : SequenceId) (m : Impl) : Z :=
  from_option s_committed_state_digest 0 (im_seqs m !! seq).
Definition has_pending_grant (seq : SequenceId) (m : Impl) : bool :=
  from_option s_has_inflight_grant false (im_seqs m !! seq).
Definition pending_grant (seq : SequenceId) (m : Impl) : GrantId :=
  from_option s_in_flight_grant null_id (im_seqs m !! seq).
Definition grant_status (g : GrantId) (m : Impl) : Z := from_option gr_status (-1) (im_grant_ledger m !! g).
Definition has_accepted_generation (seq : SequenceId) (m : Impl) : bool :=
  from_option s_has_accepted false (im_seqs m !! seq).
Definition accepted_generation (seq : SequenceId) (m : Impl) : AcceptedGeneration :=
  from_option s_accepted default_accepted (im_seqs m !! seq).

End transaction.
