(* ===== verification/Executor.v ===== *)
(** * The executor interface

    include/decodefabric/executor.hpp: [DecodeExecutor], the transactional contract between the
    fabric and a backend.  The operations are a class over the executor's state; what a caller
    may rely on is a second class, [ExecutorLaws], which the CPU executor discharges in CpuTheorems.v,
    the CUDA executor in CudaTheorems.v (whatever calls of its runtime fail), and against which the pump
    of PumpTheorems.v is verified.  [CommitLaws] adds what only an executor that cannot fail promises. *)

From S2P Require Import Prelude Enums Errors Ids Compatibility Types Double FabricState Transaction.

(** The three phases; each returns its result and the executor's next state. *)
Class DecodeExecutor (E : Type) := {
  ex_prepare : DecodeExecutionRequest -> E -> Result PreparedDecode * E;
  ex_commit : CommitGrant -> E -> Result MemberReceipt * E;
  ex_abort : AbortPrepared -> E -> Result unit * E;
}.

(** The member prepared for a specification, under the authority of the request. *)
Record prepared_for (req : DecodeExecutionRequest) (spec : DecodeMemberSpec) (pm : PreparedMember) : Prop := {
  pf_sequence : pm_sequence pm = ms_sequence spec;
  pf_state : pm_state pm = sd_id (ms_state spec);
  pf_attempt : pm_attempt pm = ms_attempt spec;
  pf_generation : pm_generation pm = ms_generation spec;
  pf_dispatch : pm_dispatch pm = er_dispatch_id req;
  pf_epoch : pm_epoch pm = er_epoch req;
  pf_worker : pm_worker pm = er_worker req;
  pf_worker_boot : pm_worker_boot pm = er_worker_boot req;
}.

(** A prepared group answers its request member by member. *)
Record answers (req : DecodeExecutionRequest) (pd : PreparedDecode) : Prop := {
  an_dispatch : pd_dispatch_id pd = er_dispatch_id req;
  an_epoch : pd_epoch pd = er_epoch req;
  an_worker : pd_worker pd = er_worker req;
  an_worker_boot : pd_worker_boot pd = er_worker_boot req;
  an_members : Forall2 (prepared_for req) (er_members req) (pd_members pd);
}.

Class ExecutorLaws (E : Type) `{DecodeExecutor E} := {
  (** One prepared member per specification, under the request's authority. *)
  law_prepare : forall req e pd e', ex_prepare req e = (Ok pd, e') -> answers req pd;
  (** A receipt is bound to the grant it was asked for. *)
  law_receipt : forall g e rec e', ex_commit g e = (Ok rec, e') -> receipt_fits rec g = true;
}.

Class CommitLaws (E : Type) `{DecodeExecutor E} := {
  (** A rejected commit changes nothing. *)
  law_reject : forall g e err e', ex_commit g e = (Err err, e') -> e' = e;
  (** Committing again returns the same receipt and changes nothing. *)
  law_idempotent : forall g e rec e', ex_commit g e = (Ok rec, e') -> ex_commit g e' = (Ok rec, e');
}.
