(* ===== verification/CpuExecutor.v ===== *)
(** * The CPU executor

    src/cpu_executor.cpp and include/decodefabric/cpu_executor.hpp: per state identifier a
    committed recurrent state with its token and byte counts, and at most one tentative
    transition; [prepare] stages one, [commit] promotes it on a grant, [abort] drops it.

    The numeric work is IEEE binary64.  [std::tanh] and [std::sin] are not specified to the
    last bit and are an interface, as is the bit pattern the machine gives a NaN; the steady
    clock is an arbitrary stream of readings. *)

From S2P Require Import Prelude Enums Errors Ids Compatibility Types Double FabricState Executor.
From Stdlib Require Import Floats.SpecFloat.

(** The parts of the C++ numeric library whose values the language leaves open. *)
Class Libm := {
  lm_tanh : double -> double;
  lm_sin : double -> double;
  lm_nan_bits : Z;
}.
Class SteadyClock := steady_now : nat -> Z.

(** ** Numerics *)

(** [std::memcpy] of a double into a 64-bit word. *)
Definition d_bits `{Libm} (d : double) : Z :=
  let sign (s : bool) := if s then 2 ^ 63 else 0 in
  match d with
  | S754_zero s => sign s
  | S754_infinity s => sign s + 2047 * 2 ^ 52
  | S754_nan => lm_nan_bits
  | S754_finite s m e =>
      if Z.pos m <? 2 ^ 52 then sign s + Z.pos m else sign s + (e + 1075) * 2 ^ 52 + (Z.pos m - 2 ^ 52)
  end.

Definition fnv_mix (h v : Z) : Z := Z.lxor h v *64 fnv_prime.

Definition kStateSize : nat := 8.

Section numerics.
Context `{LM : Libm}.

(** One element of the hash: the eight bytes of a double, low byte first. *)
Definition checksum_word (h : Z) (d : double) : Z :=
  foldl (fun h i => Z.lxor h (Z.land (Z.shiftr (d_bits d) (8 * i)) 0xFF) *64 fnv_prime) h [0; 1; 2; 3; 4; 5; 6; 7].
Definition state_checksum (s : list double) : Z := foldl checksum_word 1469598103934665603 s.
Definition digest_state (s : list double) (tokens kv_bytes : Z) : Z :=
  fnv_mix (fnv_mix (state_checksum s) tokens) kv_bytes.

(** The tanh recurrence and its renormalization. *)
Definition raw_step (state : list double) : list double :=
  imap (fun i x =>
    let prev := default d_zero (state !! (Nat.modulo (i + 1) (length state))) in
    let acc := d_add (d_mul (d_ratio 1 2) x) (d_mul (d_ratio 1 4) prev) in
    lm_tanh (d_add acc (d_mul (d_ratio 1 10) (lm_sin (d_of_Z (Z.of_nat i)))))) state.
Definition step_state (state : list double) : list double :=
  let next := raw_step state in
  let norm := foldl (fun n v => d_add n (d_mul v v)) d_zero next in
  if d_ltb d_zero norm then
    let inv := d_div (d_of_Z 1) (d_sqrt norm) in (fun v => d_mul v inv) <$> next
  else next.

(** The generator of the initial state. *)
Definition xorshift (h : Z) : Z :=
  let h := Z.lxor h (Z.shiftr h 12) in
  let h := Z.lxor h (wrap 64 (Z.shiftl h 25)) in
  Z.lxor h (Z.shiftr h 27).
Definition state_element (h : Z) : double :=
  let v := h *64 0x2545F4914F6CDD1D in
  let d := d_div (d_of_Z (Z.shiftr v 11)) (d_of_Z (2 ^ 53)) in
  d_mul (d_sub (d_mul d (d_of_Z 2)) (d_of_Z 1)) (d_ratio 1 2).
Fixpoint state_elements (n : nat) (h : Z) : list double :=
  match n with O => [] | S n => let h := xorshift h in state_element h :: state_elements n h end.
Definition initial_state (sid : StateId) (seed : Z) : list double :=
  state_elements kStateSize (Z.lxor seed (id_value sid *64 0x9E3779B97F4A7C15)).

(** The argmax of the transformed state. *)
Fixpoint best_token (s : list double) (i best : Z) (bestv : double) : Z :=
  match s with
  | [] => best
  | x :: s =>
      let v := d_add (d_mul x (d_of_Z (i + 1))) (lm_sin x) in
      if d_ltb bestv v then best_token s (i + 1) i v else best_token s (i + 1) best bestv
  end.
Definition step_token (s : list double) : Z := best_token s 0 0 (d_of_Z (- 10 ^ 300)).
End numerics.

(** ** State *)

Record SeqState := mkSeqState {
  ss_state : list double;
  ss_tokens : Z;
  ss_kv_bytes : Z;
  ss_eos_enabled : bool;
  ss_eos_target : Z;
  ss_has_tentative : bool;
  ss_tentative_state : list double;
  ss_tentative_kv_bytes : Z;
  ss_prepared_proposal : ProposalId;
  ss_prepared_attempt : AttemptId;
  ss_prepared_generation : DecodeGeneration;
  ss_prepared_sequence : SequenceId;
  ss_prepared_worker : WorkerId;
  ss_prepared_worker_boot : WorkerBootId;
  ss_prepared_epoch : CoordinatorEpoch;
  ss_prepared_dispatch : DispatchId;
  ss_prepared_pre_digest : Z;
  ss_prepared_post_digest : Z;
}.
#[export] Instance SeqState_eta : Settable SeqState := fun r =>
  mkSeqState (ss_state r) (ss_tokens r) (ss_kv_bytes r) (ss_eos_enabled r) (ss_eos_target r) (ss_has_tentative r)
    (ss_tentative_state r) (ss_tentative_kv_bytes r) (ss_prepared_proposal r) (ss_prepared_attempt r)
    (ss_prepared_generation r) (ss_prepared_sequence r) (ss_prepared_worker r) (ss_prepared_worker_boot r)
    (ss_prepared_epoch r) (ss_prepared_dispatch r) (ss_prepared_pre_digest r) (ss_prepared_post_digest r).
Definition default_seq_state : SeqState :=
  mkSeqState [] 0 0 false 0 false [] 0 null_id null_id null_id null_id null_id null_id null_id null_id 0 0.

Record CpuDecodeExecutor := mkCpu {
  ce_states : gmap StateId SeqState;
  ce_receipts_by_grant : gmap GrantId MemberReceipt;
  ce_consumed_proposals : gmap ProposalId bool;
  ce_next_proposal : Z;
  ce_device_id : DeviceId;
  ce_id : ExecutorId;
  ce_device : DeviceDescriptor;
  ce_ticks : nat;
}.
#[export] Instance CpuDecodeExecutor_eta : Settable CpuDecodeExecutor := fun r =>
  mkCpu (ce_states r) (ce_receipts_by_grant r) (ce_consumed_proposals r) (ce_next_proposal r) (ce_device_id r)
    (ce_id r) (ce_device r) (ce_ticks r).

(** The constructor, and the descriptor it advertises. *)
Definition cpu_device (device_id : DeviceId) : DeviceDescriptor :=
  mkDevice device_id BackendKind.CPU "DecodeFabric CPU decode device" 0 0 (16 * 1024 * 1024 * 1024)
    (Z.lor (Z.shiftl 1 (DType.DType_code DType.F32)) (Z.shiftl 1 (DType.DType_code DType.F64))) 0.
Definition new_cpu (device_id : DeviceId) : CpuDecodeExecutor :=
  mkCpu ∅ ∅ ∅ 0 device_id (mkId 1) (cpu_device device_id) 0.

Definition cpu_supports (key : CompatibilityKey) (c : CpuDecodeExecutor) : bool :=
  bool_decide (k_backend key = BackendKind.CPU) && id_eqb (k_device key) (ce_device_id c).

(** ** Operations *)

(** [clear_tentative]. *)
Definition clear_tentative (st : SeqState) : SeqState :=
  st <| ss_has_tentative := false |> <| ss_tentative_state := [] |> <| ss_tentative_kv_bytes := 0 |>
     <| ss_prepared_proposal := null_id |> <| ss_prepared_attempt := null_id |> <| ss_prepared_generation := null_id |>
     <| ss_prepared_sequence := null_id |> <| ss_prepared_worker := null_id |> <| ss_prepared_worker_boot := null_id |>
     <| ss_prepared_epoch := null_id |> <| ss_prepared_dispatch := null_id |> <| ss_prepared_pre_digest := 0 |>
     <| ss_prepared_post_digest := 0 |>.

Definition kv_delta : Z := 64.

Section operations.
Context `{LM : Libm} {SC : SteadyClock}.

(** The first touch of a state: S0 and the end-of-sequence settings of the payload. *)
Definition init_state (m : DecodeMemberSpec) (st : SeqState) : SeqState :=
  match ss_state st with
  | [] =>
      st <| ss_state := initial_state (sd_id (ms_state m)) (id_value (ms_attempt m)) |> <| ss_tokens := 0 |>
         <| ss_kv_bytes := sd_bytes_held (ms_state m) |>
         <| ss_eos_enabled := from_option (fun b => negb (Z.land b 0x01 =? 0)) false (ms_payload m !! 0%nat) |>
         <| ss_eos_target := default 0 (ms_payload m !! 1%nat) |>
  | _ :: _ => st
  end.

(** One turn of the catch-up loop, and the loop: [while (st.tokens < m.generated_tokens)]. *)
Definition catch_up_step (st : SeqState) : SeqState :=
  st <| ss_state ::= step_state |> <| ss_tokens ::= (fun n => n +64 1) |> <| ss_kv_bytes ::= (fun n => n +64 kv_delta) |>.
Fixpoint catch_up (fuel : nat) (target : Z) (st : SeqState) : SeqState :=
  match fuel with
  | O => st
  | S fuel => if ss_tokens st <? target then catch_up fuel target (catch_up_step st) else st
  end.
Definition ensure_initialized (m : DecodeMemberSpec) (st : SeqState) : SeqState :=
  let st := init_state m st in
  catch_up (Z.to_nat (ms_generated_tokens m - ss_tokens st)) (ms_generated_tokens m) st.

(** An unresolved transition for the same attempt refuses the new prepare; one of another attempt is dropped. *)
Definition settle_tentative (m : DecodeMemberSpec) (st : SeqState) : Result SeqState :=
  if ss_has_tentative st then
    if id_eqb (ss_prepared_attempt st) (ms_attempt m) && id_eqb (ss_prepared_generation st) (ms_generation m) then
      failed ErrorCode.DuplicateCompletion "duplicate prepare for the same authoritative generation"
    else if negb (id_eqb (ss_prepared_attempt st) (ms_attempt m)) then Ok (clear_tentative st)
    else failed ErrorCode.TransactionConflict "prepare out of order: prior generation unresolved"
  else Ok st.

(** The staged transition. *)
Definition stage (m : DecodeMemberSpec) (req : DecodeExecutionRequest) (proposal : ProposalId) (st : SeqState) : SeqState :=
  let next := step_state (ss_state st) in
  st <| ss_has_tentative := true |> <| ss_tentative_state := next |>
     <| ss_tentative_kv_bytes := ss_kv_bytes st +64 kv_delta |> <| ss_prepared_proposal := proposal |>
     <| ss_prepared_attempt := ms_attempt m |> <| ss_prepared_generation := ms_generation m |>
     <| ss_prepared_sequence := ms_sequence m |> <| ss_prepared_worker := er_worker req |>
     <| ss_prepared_worker_boot := er_worker_boot req |> <| ss_prepared_epoch := er_epoch req |>
     <| ss_prepared_dispatch := er_dispatch_id req |>
     <| ss_prepared_pre_digest := digest_state (ss_state st) (ss_tokens st) (ss_kv_bytes st) |>
     <| ss_prepared_post_digest := digest_state next (ss_tokens st +64 1) (ss_kv_bytes st +64 kv_delta) |>.

(** The proposed outcome of a step that produced [token]. *)
Definition step_outcome (m : DecodeMemberSpec) (st : SeqState) (token ns : Z) : MemberOutcome :=
  let max := ms_generated_tokens m +64 ms_remaining_budget m in
  let terminal := (ss_eos_enabled st && (token =? ss_eos_target st)) || (ms_generated_tokens m +64 1 >=? max) in
  mkOutcome (ms_sequence m)
    (if terminal then MemberOutcomeKind.StepSuccessTerminal else MemberOutcomeKind.StepSuccessContinue)
    (ms_attempt m) (ms_generation m) 1 token terminal ErrorCode.Ok "" false 0 ns ns kv_delta
    (ss_kv_bytes st +64 kv_delta).

(** The prepared member; the request's authority is filled in by [prepare]. *)
Definition member_of (m : DecodeMemberSpec) (st : SeqState) (proposal : ProposalId) (ns : Z) : PreparedMember :=
  let next := step_state (ss_state st) in
  let pre := digest_state (ss_state st) (ss_tokens st) (ss_kv_bytes st) in
  let post := digest_state next (ss_tokens st +64 1) (ss_kv_bytes st +64 kv_delta) in
  mkPrepared (ms_sequence m) (sd_id (ms_state m)) (ms_attempt m) (ms_generation m) null_id null_id null_id null_id
    proposal pre post (fnv_mix pre post) (step_outcome m st (step_token next) ns) (ss_tokens st) (ss_tokens st +64 1) ns.

(** [prepare_member].  [states_[id]] creates the entry, and a refused prepare keeps what [ensure_initialized] did. *)
Definition prepare_member (m : DecodeMemberSpec) (req : DecodeExecutionRequest) (c : CpuDecodeExecutor)
    : Result PreparedMember * CpuDecodeExecutor :=
  let sid := sd_id (ms_state m) in
  let t0 := steady_now (ce_ticks c) in
  let st := ensure_initialized m (default default_seq_state (ce_states c !! sid)) in
  let c := c <| ce_ticks ::= S |> <| ce_states ::= <[sid := st]> |> in
  match settle_tentative m st with
  | Err e => (Err e, c)
  | Ok st =>
      let proposal := mkId (ce_next_proposal c +64 1) in
      let ns := steady_now (ce_ticks c) - t0 in
      (Ok (member_of m st proposal ns),
       c <| ce_next_proposal ::= (fun n => n +64 1) |> <| ce_states ::= <[sid := stage m req proposal st]> |>
         <| ce_ticks ::= S |>)
  end.

(** The member under the request's authority. *)
Definition authorized (req : DecodeExecutionRequest) (pm : PreparedMember) : PreparedMember :=
  pm <| pm_dispatch := er_dispatch_id req |> <| pm_epoch := er_epoch req |> <| pm_worker := er_worker req |>
     <| pm_worker_boot := er_worker_boot req |>.

(** The loop of [prepare]: the first failure ends it and keeps what was staged. *)
Fixpoint prepare_members (ms : list DecodeMemberSpec) (req : DecodeExecutionRequest) (c : CpuDecodeExecutor)
    : Result (list PreparedMember) * CpuDecodeExecutor :=
  match ms with
  | [] => (Ok [], c)
  | m :: ms =>
      match prepare_member m req c with
      | (Err e, c) => (Err e, c)
      | (Ok pm, c) =>
          match prepare_members ms req c with
          | (Err e, c) => (Err e, c)
          | (Ok pms, c) => (Ok (authorized req pm :: pms), c)
          end
      end
  end.
Definition cpu_prepare (req : DecodeExecutionRequest) (c : CpuDecodeExecutor) : Result PreparedDecode * CpuDecodeExecutor :=
  match prepare_members (er_members req) req c with
  | (Err e, c) => (Err e, c)
  | (Ok pms, c) =>
      (Ok (mkPreparedDecode (er_dispatch_id req) (er_epoch req) (er_worker req) (er_worker_boot req) pms
             (foldl (fun n pm => to_s64 (n + pm_active_ns pm)) 0 pms) ErrorCode.Ok ""), c)
  end.

(** A recorded receipt is for exactly this grant. *)
Definition same_grant (existing : MemberReceipt) (grant : CommitGrant) : bool :=
  id_eqb (rc_grant_id existing) (g_grant_id grant) && id_eqb (rc_proposal existing) (g_proposal grant) &&
  id_eqb (rc_sequence existing) (g_sequence grant) && id_eqb (rc_state existing) (g_state grant) &&
  id_eqb (rc_attempt existing) (g_attempt grant) && id_eqb (rc_generation existing) (g_generation grant) &&
  id_eqb (rc_worker_boot existing) (g_worker_boot grant) && id_eqb (rc_epoch existing) (g_epoch grant) &&
  id_eqb (rc_dispatch existing) (g_dispatch grant) &&
  (rc_committed_position_before existing =? g_committed_position grant) &&
  (rc_pre_state_digest existing =? g_pre_state_digest grant) &&
  (rc_post_state_digest existing =? g_post_state_digest grant).

(** The staged transition was prepared under exactly the grant's authority. *)
Definition same_authority (st : SeqState) (grant : CommitGrant) : bool :=
  id_eqb (ss_prepared_proposal st) (g_proposal grant) && id_eqb (ss_prepared_attempt st) (g_attempt grant) &&
  id_eqb (ss_prepared_generation st) (g_generation grant) && id_eqb (ss_prepared_sequence st) (g_sequence grant) &&
  id_eqb (ss_prepared_worker st) (g_worker grant) && id_eqb (ss_prepared_worker_boot st) (g_worker_boot grant) &&
  id_eqb (ss_prepared_epoch st) (g_epoch grant) && id_eqb (ss_prepared_dispatch st) (g_dispatch grant).

(** Tentative to committed. *)
Definition promote (st : SeqState) : SeqState :=
  clear_tentative (st <| ss_state := ss_tentative_state st |> <| ss_tokens ::= (fun n => n +64 1) |>
                      <| ss_kv_bytes := ss_tentative_kv_bytes st |>).

Definition receipt_of (grant : CommitGrant) (st : SeqState) : MemberReceipt :=
  mkReceipt (mkId (id_value (g_grant_id grant))) (g_grant_id grant) (g_proposal grant) (g_epoch grant) (g_worker grant)
    (g_worker_boot grant) (g_sequence grant) (g_state grant) (g_attempt grant) (g_generation grant) (g_dispatch grant)
    (ss_tokens st) (ss_tokens st +64 1) (ss_prepared_pre_digest st) (ss_prepared_post_digest st)
    (g_delta_digest grant) (g_outcome_kind grant) (g_terminal grant) (g_token_identifier grant) (g_active_ns grant) 0.

(** [commit]. *)
Definition cpu_commit (grant : CommitGrant) (c : CpuDecodeExecutor) : Result MemberReceipt * CpuDecodeExecutor :=
  match ce_receipts_by_grant c !! g_grant_id grant with
  | Some existing =>
      if same_grant existing grant then (Ok existing, c)
      else (failed ErrorCode.DuplicateCompletion "conflicting reuse of an already-consumed commit grant", c)
  | None =>
      match ce_states c !! g_state grant with
      | None => (failed ErrorCode.UnknownState "no prepared transition for grant state", c)
      | Some st =>
          if negb (ss_has_tentative st) then (failed ErrorCode.UnknownState "no prepared transition for grant state", c)
          else if negb (same_authority st grant) then
            (failed ErrorCode.SupersededByRetry "grant proposal/authority mismatch", c)
          else if negb (ss_prepared_pre_digest st =? g_pre_state_digest grant) ||
                  negb (ss_prepared_post_digest st =? g_post_state_digest grant) then
            (failed ErrorCode.StateDigestMismatch "grant digest mismatch", c)
          else if negb (ss_tokens st =? g_committed_position grant) then
            (failed ErrorCode.InvalidArgument "grant committed-position mismatch", c)
          else
            let rec := receipt_of grant st in
            (Ok rec, c <| ce_states ::= <[g_state grant := promote st]> |>
                       <| ce_consumed_proposals ::= <[g_proposal grant := true]> |>
                       <| ce_receipts_by_grant ::= <[g_grant_id grant := rec]> |>)
      end
  end.

(** [abort]. *)
Definition cpu_abort (abort : AbortPrepared) (c : CpuDecodeExecutor) : Result unit * CpuDecodeExecutor :=
  match ce_consumed_proposals c !! ab_proposal abort with
  | Some _ => (failed ErrorCode.AlreadyTerminal "abort after commit", c)
  | None =>
      match ce_states c !! ab_state abort with
      | None => (Ok tt, c)
      | Some st =>
          if ss_has_tentative st && id_eqb (ss_prepared_proposal st) (ab_proposal abort)
          then (Ok tt, c <| ce_states ::= <[ab_state abort := clear_tentative st]> |>)
          else (Ok tt, c)
      end
  end.

#[export] Instance cpu_executor : DecodeExecutor CpuDecodeExecutor :=
  {| ex_prepare := cpu_prepare; ex_commit := cpu_commit; ex_abort := cpu_abort |}.

(** ** Observers *)

Definition committed_state_digest (id : StateId) (c : CpuDecodeExecutor) : Z :=
  from_option (fun st => digest_state (ss_state st) (ss_tokens st) (ss_kv_bytes st)) 0 (ce_states c !! id).
Definition has_prepared (id : StateId) (proposal : ProposalId) (c : CpuDecodeExecutor) : bool :=
  from_option (fun st => ss_has_tentative st && id_eqb (ss_prepared_proposal st) proposal) false (ce_states c !! id).
Definition tentative_tokens (id : StateId) (c : CpuDecodeExecutor) : Z :=
  from_option (fun st => ss_tokens st +64 (if ss_has_tentative st then 1 else 0)) 0 (ce_states c !! id).
Definition committed_tokens (id : StateId) (c : CpuDecodeExecutor) : Z :=
  from_option ss_tokens 0 (ce_states c !! id).

End operations.
