(* ===== verification/CpuTheorems.v ===== *)
(** * The CPU executor is transactional and reconstructible

    The committed state of every sequence is a fixed number of steps from its first state,
    whatever prepares, commits and aborts came before; a commit promotes exactly the staged
    step, once; and a fresh executor rebuilds the state another one committed. *)

From S2P Require Import Prelude Enums Errors Ids Compatibility Types Double FabricState Transaction Executor CpuExecutor.
From stdpp Require Import relations.
Open Scope Z_scope.

Section cpu.
Context `{LM : Libm} {SC : SteadyClock}.
Implicit Types (c : CpuDecodeExecutor) (st : SeqState) (sid : StateId).

(** ** Positions *)

(** The state [n] steps after the first state of [sid] under [seed], and the bytes it holds. *)
Definition state_after sid (seed : Z) (n : nat) : list double := Nat.iter n step_state (initial_state sid seed).
Definition kv_after (kv0 : Z) (n : nat) : Z := Nat.iter n (fun k => k +64 kv_delta) kv0.
Definition tokens_after (n : nat) : Z := wrap 64 (Z.of_nat n).
Definition digest_at sid seed kv0 (n : nat) : Z := digest_state (state_after sid seed n) (tokens_after n) (kv_after kv0 n).

Record at_position sid seed kv0 (n : nat) st : Prop := {
  ap_state : ss_state st = state_after sid seed n;
  ap_tokens : ss_tokens st = tokens_after n;
  ap_kv : ss_kv_bytes st = kv_after kv0 n;
  ap_bound : Z.of_nat n < 2 ^ 64;
}.

(** The staged transition leads from position [n] to the next one. *)
Record staged_at sid seed kv0 (n : nat) st : Prop := {
  sg_state : ss_tentative_state st = state_after sid seed (S n);
  sg_kv : ss_tentative_kv_bytes st = kv_after kv0 (S n);
  sg_pre : ss_prepared_pre_digest st = digest_at sid seed kv0 n;
  sg_post : ss_prepared_post_digest st = digest_at sid seed kv0 (S n);
  sg_bound : Z.of_nat n < 2 ^ 64;
}.

Lemma tokens_after_S n : tokens_after n +64 1 = tokens_after (S n).
Proof. unfold tokens_after, wrap. rewrite Zplus_mod_idemp_l. f_equal. lia. Qed.

Lemma length_step_state s : length (step_state s) = length s.
Proof. unfold step_state, raw_step. case_match; by rewrite ?length_fmap, length_imap. Qed.

Lemma state_after_nonempty sid seed n : state_after sid seed n <> [].
Proof.
  assert (H : length (state_after sid seed n) = kStateSize).
  { unfold state_after. induction n as [|n IH]; [done|]. cbn [Nat.iter nat_rect]. by rewrite length_step_state. }
  by intros E; rewrite E in H.
Qed.

Lemma at_position_digest sid seed kv0 n st :
  at_position sid seed kv0 n st -> digest_state (ss_state st) (ss_tokens st) (ss_kv_bytes st) = digest_at sid seed kv0 n.
Proof. by intros [-> -> -> _]. Qed.

Lemma tokens_after_small n : Z.of_nat n < 2 ^ 64 -> tokens_after n = Z.of_nat n.
Proof. intros. apply wrap_id_small. lia. Qed.

(** ** The steps of prepare *)

Lemma at_position_step sid seed kv0 n st :
  at_position sid seed kv0 n st -> Z.of_nat (S n) < 2 ^ 64 -> at_position sid seed kv0 (S n) (catch_up_step st).
Proof. intros [H1 H2 H3 _] Hb. split; unfold catch_up_step; rsimpl; rewrite ?H1, ?H2, ?H3; [done|apply tokens_after_S|done|done]. Qed.

Lemma catch_up_position fuel target sid seed kv0 n st :
  target < 2 ^ 64 -> at_position sid seed kv0 n st ->
  exists k, at_position sid seed kv0 (n + k) (catch_up fuel target st).
Proof.
  intros Ht. revert n st. induction fuel as [|fuel IH]; intros n st H; cbn [catch_up]; [exists 0%nat; by rewrite Nat.add_0_r|].
  destruct (Z.ltb_spec (ss_tokens st) target) as [Hlt|]; [|exists 0%nat; by rewrite Nat.add_0_r].
  rewrite (ap_tokens _ _ _ _ _ H), (tokens_after_small n (ap_bound _ _ _ _ _ H)) in Hlt.
  destruct (IH (S n) _ (at_position_step _ _ _ _ _ H ltac:(lia))) as [k Hk]. exists (S k). by rewrite Nat.add_succ_r.
Qed.

(** The loop ends exactly at its target. *)
Lemma catch_up_exact sid seed kv0 n k st :
  at_position sid seed kv0 n st -> Z.of_nat (n + k) < 2 ^ 64 ->
  at_position sid seed kv0 (n + k) (catch_up k (Z.of_nat (n + k)) st).
Proof.
  revert n st. induction k as [|k IH]; intros n st H Hb; cbn [catch_up]; [by rewrite Nat.add_0_r|].
  rewrite (ap_tokens _ _ _ _ _ H), tokens_after_small by lia.
  destruct (Z.ltb_spec (Z.of_nat n) (Z.of_nat (n + S k))); [|lia]. rewrite <- Nat.add_succ_comm in *.
  apply IH; [|done]. apply at_position_step; [done|lia].
Qed.

(** What the catch-up and the first touch leave alone. *)
Definition tentative_view st :=
  (ss_has_tentative st, ss_tentative_state st, ss_tentative_kv_bytes st, ss_prepared_proposal st,
   ss_prepared_attempt st, ss_prepared_generation st, ss_prepared_pre_digest st, ss_prepared_post_digest st).

Lemma catch_up_tentative fuel target st : tentative_view (catch_up fuel target st) = tentative_view st.
Proof. revert st. induction fuel as [|fuel IH]; intros st; cbn [catch_up]; [done|]. case_match; [|done]. by rewrite IH. Qed.

Lemma init_tentative m st : tentative_view (init_state m st) = tentative_view st.
Proof. unfold init_state. by destruct (ss_state st). Qed.

Lemma ensure_tentative m st : tentative_view (ensure_initialized m st) = tentative_view st.
Proof. unfold ensure_initialized. by rewrite catch_up_tentative, init_tentative. Qed.

(** A state that is not behind the specification is left alone. *)
Lemma ensure_ahead m st :
  ss_state st <> [] -> ms_generated_tokens m <= ss_tokens st -> ensure_initialized m st = st.
Proof.
  intros Hn Hle. unfold ensure_initialized, init_state. destruct (ss_state st) as [|x l] eqn:E; [done|].
  by replace (Z.to_nat _) with 0%nat by lia.
Qed.

Lemma init_position m st :
  ss_state st = [] -> at_position (sd_id (ms_state m)) (id_value (ms_attempt m)) (sd_bytes_held (ms_state m)) 0 (init_state m st).
Proof. intros E. unfold init_state. rewrite E. by split; rsimpl. Qed.

(** The values of the source's 64-bit field. *)
Definition spec_ok (m : DecodeMemberSpec) : Prop := in_range 64 (ms_generated_tokens m) = true.

Lemma ensure_position m st sid seed kv0 n :
  spec_ok m -> at_position sid seed kv0 n st -> exists k, at_position sid seed kv0 (n + k) (ensure_initialized m st).
Proof.
  intros Hm%in_range_iff H. unfold ensure_initialized, init_state.
  destruct (ss_state st) as [|x l] eqn:E; [|apply catch_up_position; [lia|done]].
  rewrite (ap_state _ _ _ _ _ H) in E. by apply state_after_nonempty in E.
Qed.

(** ** The invariant of the executor *)

(** [issued]: the members that successful prepares have returned. *)
Record entry_ok (issued : list PreparedMember) sid seed kv0 st : Prop := {
  en_position : exists n, at_position sid seed kv0 n st;
  en_staged : ss_has_tentative st = true -> exists n, staged_at sid seed kv0 n st /\
    forall pm, pm ∈ issued -> pm_proposal pm = ss_prepared_proposal st -> pm_committed_position_before pm = tokens_after n;
}.

Record cpu_inv (origin : gmap StateId (Z * Z)) (issued : list PreparedMember) c : Prop := {
  ci_entry : forall sid st, ce_states c !! sid = Some st ->
    exists seed kv0, origin !! sid = Some (seed, kv0) /\ entry_ok issued sid seed kv0 st;
  ci_origin : forall sid, is_Some (origin !! sid) -> is_Some (ce_states c !! sid);
  ci_counter : 0 <= ce_next_proposal c;
  ci_used : forall sid st, ce_states c !! sid = Some st -> ss_has_tentative st = true ->
    id_value (ss_prepared_proposal st) <= ce_next_proposal c;
  ci_issued : forall pm, pm ∈ issued -> id_value (pm_proposal pm) <= ce_next_proposal c;
}.

Lemma entry_ok_sub issued issued' sid seed kv0 st :
  issued' ⊆ issued -> entry_ok issued sid seed kv0 st -> entry_ok issued' sid seed kv0 st.
Proof.
  intros Hs [Hp Hg]. split; [done|]. intros Ht. destruct (Hg Ht) as (n & Hn & Hpm). exists n. split; [done|]. auto.
Qed.
Lemma cpu_inv_sub origin issued issued' c : issued' ⊆ issued -> cpu_inv origin issued c -> cpu_inv origin issued' c.
Proof.
  intros Hs [He Ho Hc Hu Hi]. split; auto. intros sid st Hst. destruct (He _ _ Hst) as (seed & kv0 & H1 & H2).
  exists seed, kv0. split; [done|]. by eapply entry_ok_sub.
Qed.

Lemma entry_ok_clear issued sid seed kv0 st : entry_ok issued sid seed kv0 st -> entry_ok issued sid seed kv0 (clear_tentative st).
Proof. intros [[n [H1 H2 H3 H4]] _]. split; [exists n; split; unfold clear_tentative; by rsimpl|]. unfold clear_tentative. by rsimpl. Qed.

(** Replacing the entry of one state. *)
Lemma cpu_inv_insert origin issued issued' c c' sid seed kv0 st :
  cpu_inv origin issued c -> ce_states c' = <[sid := st]> (ce_states c) -> ce_next_proposal c <= ce_next_proposal c' ->
  (forall s, origin !! sid = Some s -> s = (seed, kv0)) ->
  entry_ok issued' sid seed kv0 st -> (ss_has_tentative st = true -> id_value (ss_prepared_proposal st) <= ce_next_proposal c') ->
  (forall pm, pm ∈ issued' -> pm ∈ issued \/ ce_next_proposal c < id_value (pm_proposal pm) <= ce_next_proposal c') ->
  cpu_inv (<[sid := (seed, kv0)]> origin) issued' c' /\ origin ⊆ <[sid := (seed, kv0)]> origin.
Proof.
  intros [He Ho Hc Hu Hi] Hst Hn Hor Hok Hp Hiss. split.
  2:{ apply map_subseteq_spec. intros x s Hx. destruct (decide (x = sid)) as [->|]; [|by rewrite lookup_insert_ne].
      rewrite lookup_insert_eq. by rewrite (Hor _ Hx). }
  split.
  - rewrite Hst. intros x st'. destruct (decide (x = sid)) as [->|Hne].
    + rewrite !lookup_insert_eq. intros [= <-]. by exists seed, kv0.
    + rewrite !lookup_insert_ne by done. intros Hx. destruct (He _ _ Hx) as (sd & kv & H1 & [H2 H3]). exists sd, kv.
      split; [done|]. split; [done|]. intros Ht. destruct (H3 Ht) as (n & Hs & Hpm). exists n. split; [done|].
      intros pm [Hin|Hb]%Hiss E; [by apply Hpm|]. specialize (Hu _ _ Hx Ht). rewrite E in Hb. lia.
  - rewrite Hst. intros x. destruct (decide (x = sid)) as [->|Hne]; [by rewrite !lookup_insert_eq|].
    rewrite !lookup_insert_ne by done. apply Ho.
  - lia.
  - rewrite Hst. intros x st'. destruct (decide (x = sid)) as [->|Hne].
    + rewrite lookup_insert_eq. by intros [= <-].
    + rewrite lookup_insert_ne by done. intros Hx Ht. specialize (Hu _ _ Hx Ht). lia.
  - intros pm [Hin|]%Hiss; [|lia]. specialize (Hi _ Hin). lia.
Qed.

(** The entry before a prepare: fresh, or as the invariant says. *)
Lemma ensure_entry origin issued c m :
  spec_ok m -> cpu_inv origin issued c ->
  let sid := sd_id (ms_state m) in
  let st := ensure_initialized m (default default_seq_state (ce_states c !! sid)) in
  exists seed kv0, (forall s, origin !! sid = Some s -> s = (seed, kv0)) /\ entry_ok issued sid seed kv0 st /\
    (ss_has_tentative st = true -> id_value (ss_prepared_proposal st) <= ce_next_proposal c).
Proof.
  intros Hm [He Ho Hc Hu Hi]. cbv zeta. set (sid := sd_id (ms_state m)).
  destruct (ce_states c !! sid) as [st0|] eqn:Hst.
  - change (default default_seq_state (Some st0)) with st0. destruct (He _ _ Hst) as (seed & kv0 & Hor & [[n Hp] Hg]). exists seed, kv0.
    pose proof (ensure_tentative m st0) as Ht. unfold tentative_view in Ht. injection Ht as T1 T2 T3 T4 _ _ T5 T6.
    split; [congruence|]. split; [split|].
    + destruct (ensure_position m _ _ _ _ _ Hm Hp) as [k Hk]. by eexists.
    + rewrite T1, T4. intros H. destruct (Hg H) as (n0 & [G1 G2 G3 G4 G5] & Hpm). exists n0. split; [|done].
      split; by rewrite ?T2, ?T3, ?T5, ?T6.
    + rewrite T1, T4. by apply (Hu sid).
  - change (default default_seq_state None) with default_seq_state. eexists _, _. split; [|split; [split|]].
    + intros s Hs. destruct (Ho sid) as [x Hx]; [by rewrite Hs|congruence].
    + pose proof (proj1 (in_range_iff _ _) Hm). destruct (catch_up_position (Z.to_nat (ms_generated_tokens m - ss_tokens (init_state m default_seq_state)))
        (ms_generated_tokens m) _ _ _ _ _ ltac:(lia) (init_position m default_seq_state eq_refl)) as [k Hk]. by eexists.
    + pose proof (ensure_tentative m default_seq_state) as Ht. unfold tentative_view in Ht. injection Ht as -> _. done.
    + pose proof (ensure_tentative m default_seq_state) as Ht. unfold tentative_view in Ht. injection Ht as -> _. done.
Qed.

Lemma settle_entry m issued sid seed kv0 st st' :
  settle_tentative m st = Ok st' -> entry_ok issued sid seed kv0 st -> entry_ok issued sid seed kv0 st'.
Proof. unfold settle_tentative. repeat case_match; intros [=]; subst; auto using entry_ok_clear. Qed.

Lemma stage_entry m req issued sid seed kv0 st ns proposal :
  entry_ok issued sid seed kv0 st -> (forall pm, pm ∈ issued -> pm_proposal pm <> proposal) ->
  entry_ok (authorized req (member_of m st proposal ns) :: issued) sid seed kv0 (stage m req proposal st).
Proof.
  intros [[n Hn] _] Hf. pose proof (at_position_digest _ _ _ _ _ Hn) as Hd. destruct Hn as [H1 H2 H3 H4].
  split; [exists n; by split; unfold stage; rsimpl|]. intros _. exists n. split.
  - split; unfold stage; cbv zeta; rsimpl; rewrite ?Hd, ?H1, ?H2, ?H3; try done.
    by rewrite tokens_after_S.
  - intros pm [->|Hin]%elem_of_cons; unfold stage, authorized, member_of; rsimpl; [by rewrite <- H2|].
    intros E. by destruct (Hf pm Hin).
Qed.

(** The invariant with some origin that extends [origin]. *)
Definition cpu_inv_from origin issued c : Prop := exists origin', origin ⊆ origin' /\ cpu_inv origin' issued c.

Lemma cpu_inv_from_trans origin origin' issued c : origin ⊆ origin' -> cpu_inv_from origin' issued c -> cpu_inv_from origin issued c.
Proof. intros Hs (o & Ho & H). exists o. split; [by etrans|done]. Qed.

Lemma prepare_member_inv origin issued m req c res c' :
  spec_ok m -> cpu_inv origin issued c -> ce_next_proposal c + 1 < 2 ^ 64 -> prepare_member m req c = (res, c') ->
  cpu_inv_from origin (match res with Ok pm => authorized req pm :: issued | Err _ => issued end) c' /\
  ce_next_proposal c' <= ce_next_proposal c + 1.
Proof.
  intros Hm HI Hb. unfold prepare_member. cbv zeta.
  destruct (ensure_entry origin issued c m Hm HI) as (seed & kv0 & Hor & Hok & Hu).
  set (sid := sd_id (ms_state m)) in *. set (st := ensure_initialized m _) in *. clearbody st.
  pose proof (ci_counter _ _ _ HI) as Hc. pose proof (ci_issued _ _ _ HI) as Hi.
  destruct (settle_tentative m st) as [st'|e] eqn:Hs; intros [= <- <-]; rsimpl.
  - rewrite wrap_id_small by lia. split; [|lia]. apply (settle_entry _ _ _ _ _ _ _ Hs) in Hok.
    eexists. apply and_comm. eapply (cpu_inv_insert origin issued); [done|rsimpl; apply insert_insert_eq|..]; rsimpl;
      rewrite ?wrap_id_small by lia; [lia|done| | |].
    + apply stage_entry; [done|]. intros pm Hin E. specialize (Hi pm Hin). rewrite E in Hi. cbn in Hi. lia.
    + unfold stage. rsimpl. cbn [id_value]. lia.
    + intros pm [->|]%elem_of_cons; [right|by left]. unfold authorized, member_of. rsimpl. cbn. lia.
  - split; [|lia]. eexists. apply and_comm. eapply (cpu_inv_insert origin issued); [done|by rsimpl|..]; rsimpl; auto. lia.
Qed.

Lemma prepare_members_inv ms req origin issued c res c' :
  Forall spec_ok ms -> cpu_inv origin issued c -> ce_next_proposal c + Z.of_nat (length ms) < 2 ^ 64 -> prepare_members ms req c = (res, c') ->
  cpu_inv_from origin (match res with Ok pms => pms ++ issued | Err _ => issued end) c'.
Proof.
  revert origin issued c res c'. induction ms as [|m ms IH]; intros origin issued c res c' Hms HI Hb; cbn [prepare_members].
  { intros [= <- <-]. exists origin. by split. }
  cbn [length] in Hb. apply Forall_cons in Hms as [Hm Hms]. destruct (prepare_member m req c) as [[pm|e] c1] eqn:E1.
  - destruct (prepare_member_inv _ _ _ _ _ _ _ Hm HI ltac:(lia) E1) as [(o1 & Ho1 & H1) Hn].
    destruct (prepare_members ms req c1) as [[pms|e] c2] eqn:E2; intros [= <- <-];
      destruct (IH _ _ _ _ _ Hms H1 ltac:(lia) E2) as (o2 & Ho2 & H2); exists o2; (split; [by etrans|]);
      eapply cpu_inv_sub; [|done| |done]; [set_solver|set_solver].
  - intros [= <- <-]. by destruct (prepare_member_inv _ _ _ _ _ _ _ Hm HI ltac:(lia) E1).
Qed.

(** ** Commits *)

(** The checks of a first commit. *)
Record committable (g : CommitGrant) c st : Prop := {
  cm_fresh : ce_receipts_by_grant c !! g_grant_id g = None;
  cm_entry : ce_states c !! g_state g = Some st;
  cm_tentative : ss_has_tentative st = true;
  cm_authority : same_authority st g = true;
  cm_pre : ss_prepared_pre_digest st = g_pre_state_digest g;
  cm_post : ss_prepared_post_digest st = g_post_state_digest g;
  cm_position : ss_tokens st = g_committed_position g;
}.

(** The executor after a first commit. *)
Definition promoted (g : CommitGrant) st c : CpuDecodeExecutor :=
  c <| ce_states ::= <[g_state g := promote st]> |> <| ce_consumed_proposals ::= <[g_proposal g := true]> |>
    <| ce_receipts_by_grant ::= <[g_grant_id g := receipt_of g st]> |>.

(** A commit is refused, recalls its receipt, or promotes. *)
Inductive commit_case (g : CommitGrant) c : Result MemberReceipt * CpuDecodeExecutor -> Prop :=
  | cc_refused e : (forall st, ~ committable g c st) -> commit_case g c (Err e, c)
  | cc_recalled rec : ce_receipts_by_grant c !! g_grant_id g = Some rec -> same_grant rec g = true -> commit_case g c (Ok rec, c)
  | cc_promoted st : committable g c st -> commit_case g c (Ok (receipt_of g st), promoted g st c).

Lemma cpu_commit_case g c : commit_case g c (cpu_commit g c).
Proof.
  unfold cpu_commit. destruct (ce_receipts_by_grant c !! g_grant_id g) as [rec|] eqn:Er.
  { destruct (same_grant rec g) eqn:Es; [by apply cc_recalled|]. apply cc_refused. intros st [H _ _ _ _ _ _]. congruence. }
  destruct (ce_states c !! g_state g) as [st|] eqn:Es; [|apply cc_refused; intros st [_ H _ _ _ _ _]; congruence].
  destruct (ss_has_tentative st) eqn:Et; cbn [negb]; [|apply cc_refused; intros st' [_ H H' _ _ _ _]; congruence].
  destruct (same_authority st g) eqn:Ea; cbn [negb]; [|apply cc_refused; intros st' [_ H _ H' _ _ _]; congruence].
  destruct (Z.eqb_spec (ss_prepared_pre_digest st) (g_pre_state_digest g)); cbn [negb orb];
    [|apply cc_refused; intros st' [_ H _ _ H' _ _]; congruence].
  destruct (Z.eqb_spec (ss_prepared_post_digest st) (g_post_state_digest g)); cbn [negb orb];
    [|apply cc_refused; intros st' [_ H _ _ _ H' _]; congruence].
  destruct (Z.eqb_spec (ss_tokens st) (g_committed_position g)); cbn [negb];
    [|apply cc_refused; intros st' [_ H _ _ _ _ H']; congruence].
  by apply (cc_promoted g c st).
Qed.

Lemma same_grant_fits rec g : same_grant rec g = receipt_fits rec g.
Proof. done. Qed.

Lemma receipt_of_fits g c st : committable g c st -> receipt_fits (receipt_of g st) g = true.
Proof. intros [_ _ _ _ H1 H2 H3]. unfold receipt_fits, receipt_of. cbn. by rewrite H1, H2, H3, !id_eqb_refl, !Z.eqb_refl. Qed.

Lemma cpu_commit_fits g c rec c' : cpu_commit g c = (Ok rec, c') -> receipt_fits rec g = true.
Proof. destruct (cpu_commit_case g c) as [e _|rec' _ Hs|st Hc]; intros [=]; subst; [done|by eapply receipt_of_fits]. Qed.

Lemma cpu_commit_again g c rec c' : cpu_commit g c = (Ok rec, c') -> cpu_commit g c' = (Ok rec, c').
Proof.
  destruct (cpu_commit_case g c) as [e _|rec' Hr Hs|st Hc]; intros [=]; subst.
  - unfold cpu_commit. by rewrite Hr, Hs.
  - unfold cpu_commit, promoted. rsimpl. by rewrite lookup_insert_eq, same_grant_fits, (receipt_of_fits _ _ _ Hc).
Qed.

Lemma prepare_members_answer ms req c pms c' :
  prepare_members ms req c = (Ok pms, c') -> Forall2 (prepared_for req) ms pms.
Proof.
  revert c pms c'. induction ms as [|m ms IH]; intros c pms c'; cbn [prepare_members]; [by intros [= <- <-]|].
  destruct (prepare_member m req c) as [[pm|e] c1] eqn:E1; [|done].
  destruct (prepare_members ms req c1) as [[pms'|e] c2] eqn:E2; [|done]. intros [= <- <-]. constructor; [|by eapply IH].
  unfold prepare_member in E1. cbv zeta in E1. destruct (settle_tentative m _); [|done]. injection E1 as <- _.
  split; unfold authorized, member_of; by rsimpl.
Qed.

(** The CPU executor keeps the contract the pump relies on. *)
#[export] Instance cpu_laws : ExecutorLaws CpuDecodeExecutor.
Proof.
  split; cbn [ex_prepare ex_commit ex_abort cpu_executor].
  - intros req c pd c'. unfold cpu_prepare. destruct (prepare_members _ req c) as [[pms|e] c1] eqn:E; [|done].
    intros [= <- <-]. split; try done. by apply prepare_members_answer in E.
  - apply cpu_commit_fits.
Qed.
#[export] Instance cpu_commit_laws : CommitLaws CpuDecodeExecutor.
Proof.
  split; cbn [ex_prepare ex_commit ex_abort cpu_executor].
  - intros g c e c'. destruct (cpu_commit_case g c); by intros [=].
  - apply cpu_commit_again.
Qed.

(** ** Traces *)

(** The members a prepare hands to its caller. *)
Definition returned (res : Result PreparedDecode) : list PreparedMember :=
  match res with Ok pd => pd_members pd | Err _ => [] end.

(** The grant is for a returned member, at the position the member was prepared at. *)
Definition granted_from (issued : list PreparedMember) (g : CommitGrant) : Prop :=
  exists pm, pm ∈ issued /\ g_proposal g = pm_proposal pm /\ g_committed_position g = pm_committed_position_before pm.

(** One call of an executor whose callers commit only what it prepared.  The proposal counter and
    the positions are far from the end of their 64 bits. *)
Inductive estep : CpuDecodeExecutor * list PreparedMember -> CpuDecodeExecutor * list PreparedMember -> Prop :=
  | es_prepare req c issued res c' :
      cpu_prepare req c = (res, c') -> Forall spec_ok (er_members req) ->
      ce_next_proposal c + Z.of_nat (length (er_members req)) < 2 ^ 64 ->
      estep (c, issued) (c', returned res ++ issued)
  | es_commit g c issued res c' :
      cpu_commit g c = (res, c') -> granted_from issued g -> g_committed_position g + 1 < 2 ^ 64 ->
      estep (c, issued) (c', issued)
  | es_abort a c issued res c' : cpu_abort a c = (res, c') -> estep (c, issued) (c', issued).

Definition reachable (x : CpuDecodeExecutor * list PreparedMember) : Prop :=
  exists dev, rtc estep (new_cpu dev, []) x.

(** A committable grant of a returned member continues the committed state. *)
Lemma committable_position origin issued c g st seed kv0 :
  cpu_inv origin issued c -> origin !! g_state g = Some (seed, kv0) -> committable g c st -> granted_from issued g ->
  exists n, at_position (g_state g) seed kv0 n st /\ staged_at (g_state g) seed kv0 n st /\ g_committed_position g = Z.of_nat n.
Proof.
  intros HI Hor [_ Hst Ht Ha _ _ Hpos] (pm & Hin & Hp & Hq).
  destruct (ci_entry _ _ _ HI _ _ Hst) as (sd & kv & Ho & [[n Hn] Hg]). rewrite Hor in Ho. injection Ho as <- <-.
  destruct (Hg Ht) as (n0 & Hs & Hpm). unfold same_authority in Ha. rewrite !andb_true_iff, !id_eqb_eq in Ha.
  assert (E : pm_committed_position_before pm = tokens_after n0) by (apply Hpm; [done|]; rewrite <- Hp; symmetry; tauto).
  rewrite <- Hq, <- Hpos, (ap_tokens _ _ _ _ _ Hn), !tokens_after_small in E
    by (apply Hn || apply Hs). apply Nat2Z.inj in E as ->.
  exists n0. split_and!; [done|done|]. by rewrite <- Hpos, (ap_tokens _ _ _ _ _ Hn), tokens_after_small by apply Hn.
Qed.

Lemma promote_position sid seed kv0 n st :
  at_position sid seed kv0 n st -> staged_at sid seed kv0 n st -> Z.of_nat n + 1 < 2 ^ 64 ->
  at_position sid seed kv0 (S n) (promote st).
Proof.
  intros [H1 H2 H3 H4] [G1 G2 _ _ _] Hb.
  split; unfold promote, clear_tentative; rsimpl; [done|by rewrite H2, tokens_after_S|done|lia].
Qed.

Lemma estep_inv origin c issued c' issued' :
  cpu_inv origin issued c -> estep (c, issued) (c', issued') -> cpu_inv_from origin issued' c'.
Proof.
  intros HI Hstep. inversion Hstep as [req ? ? res ? E Hok Hb|g ? ? res ? E Hg Hb|a ? ? res ? E]; subst.
  - unfold cpu_prepare in E. destruct (prepare_members _ req c) as [[pms|e] c1] eqn:E1; injection E as <- <-;
      apply (prepare_members_inv _ _ _ _ _ _ _ Hok HI Hb E1).
  - pose proof (cpu_commit_case g c) as Hc. rewrite E in Hc. inversion Hc as [e _|rec _ _|st Hcm]; subst;
      [exists origin; by split..|].
    destruct (ci_entry _ _ _ HI _ _ (cm_entry _ _ _ Hcm)) as (seed & kv0 & Ho & _).
    destruct (committable_position _ _ _ _ _ _ _ HI Ho Hcm Hg) as (n & Hp & Hs & Hq). rewrite Hq in Hb.
    eexists. apply and_comm. eapply (cpu_inv_insert origin issued' issued'); [done|unfold promoted; by rsimpl|..]; auto.
    + done.
    + intros s. rewrite Ho. by intros [= <-].
    + split; [exists (S n); by apply promote_position|]. unfold promote, clear_tentative. by rsimpl.
    + unfold promote, clear_tentative. by rsimpl.
  - unfold cpu_abort in E. destruct (ce_consumed_proposals c !! ab_proposal a); [injection E as _ <-; exists origin; by split|].
    destruct (ce_states c !! ab_state a) as [st|] eqn:Hst; [|injection E as _ <-; exists origin; by split].
    destruct (ss_has_tentative st && _); injection E as _ <-; [|exists origin; by split].
    destruct (ci_entry _ _ _ HI _ _ Hst) as (seed & kv0 & Ho & Hok).
    eexists. apply and_comm. eapply (cpu_inv_insert origin issued' issued'); [done|by rsimpl|..]; auto.
    + done.
    + intros s. rewrite Ho. by intros [= <-].
    + by apply entry_ok_clear.
    + unfold clear_tentative. by rsimpl.
Qed.

Lemma estep_inv_rtc origin x y : cpu_inv origin x.2 x.1 -> rtc estep x y -> cpu_inv_from origin y.2 y.1.
Proof.
  intros HI Hr. revert origin HI. induction Hr as [x|[c i] [c' i'] y Hs _ IH]; intros origin HI; [exists origin; by split|].
  destruct (estep_inv _ _ _ _ _ HI Hs) as (o & Ho & HI'). eapply cpu_inv_from_trans; [done|]. by apply IH.
Qed.

Lemma cpu_inv_new dev : cpu_inv ∅ [] (new_cpu dev).
Proof. split; cbn; try done. - intros sid [x Hx]. by rewrite lookup_empty in Hx. - by intros pm ?%not_elem_of_nil. Qed.

Lemma reachable_inv c issued : reachable (c, issued) -> exists origin, cpu_inv origin issued c.
Proof. intros [dev Hr]. destruct (estep_inv_rtc ∅ (new_cpu dev, []) _ (cpu_inv_new dev) Hr) as (o & _ & H). by exists o. Qed.

Lemma inv_position origin issued c sid st :
  cpu_inv origin issued c -> ce_states c !! sid = Some st ->
  exists seed kv0 n, origin !! sid = Some (seed, kv0) /\ at_position sid seed kv0 n st.
Proof. intros HI Hst. destruct (ci_entry _ _ _ HI _ _ Hst) as (seed & kv0 & Ho & [[n Hn] _]). eauto 10. Qed.

(** ** Properties *)

(** C15: committed state is a function of its position.  In every reachable executor the committed state
    of a state identifier is some number [n] of decode steps from its first state, its token count
    is [n], and its digest is that of the position; and whatever calls follow, the state stays on
    that same chain: same first state, same initial bytes. *)
Theorem cpu_state_canonical c issued sid st :
  reachable (c, issued) -> ce_states c !! sid = Some st ->
  exists seed kv0 n, at_position sid seed kv0 n st /\ committed_tokens sid c = Z.of_nat n /\
    committed_state_digest sid c = digest_at sid seed kv0 n /\
    forall c' issued', rtc estep (c, issued) (c', issued') ->
      exists st' n', ce_states c' !! sid = Some st' /\ at_position sid seed kv0 n' st'.
Proof.
  intros [origin HI]%reachable_inv Hst. destruct (inv_position _ _ _ _ _ HI Hst) as (seed & kv0 & n & Ho & Hn).
  exists seed, kv0, n. split_and!; [done| | |].
  - unfold committed_tokens. rewrite Hst. cbn. by rewrite (ap_tokens _ _ _ _ _ Hn), tokens_after_small by apply Hn.
  - unfold committed_state_digest. rewrite Hst. cbn. by apply at_position_digest.
  - intros c' issued' Hr. destruct (estep_inv_rtc origin (c, issued) (c', issued') HI Hr) as (o' & Hsub & HI').
    pose proof (lookup_weaken _ _ _ _ Ho Hsub) as Ho'. destruct (ci_origin _ _ _ HI' sid) as [st' Hst']; [by rewrite Ho'|].
    destruct (inv_position _ _ _ _ _ HI' Hst') as (sd & kv & n' & Ho2 & Hn'). exists st', n'. split; [done|].
    cbn in Ho2. rewrite Ho' in Ho2. injection Ho2 as <- <-. done.
Qed.

(** C17: a grant commits at most once.  For any executor and grant: a refused commit changes nothing, and a grant whose number is
    unused and whose staged transition has its authority, position and digests is not refused; an
    accepted one returns a receipt bound to the grant, and committing again returns the same receipt
    and changes nothing.  If a receipt is recorded under the grant's number it is returned and nothing
    changes; otherwise the commit recorded it, promoted exactly the staged
    transition of the grant's state (one token more, the tentative state and bytes, nothing staged),
    left every other state alone, and made a later abort of the proposal fail without effect. *)
Theorem cpu_commit_once (g : CommitGrant) c :
  match cpu_commit g c with
  | (Err _, c') => c' = c /\ forall st, ~ committable g c st
  | (Ok rec, c') =>
      receipt_fits rec g = true /\ cpu_commit g c' = (Ok rec, c') /\
      match ce_receipts_by_grant c !! g_grant_id g with
      | Some earlier => rec = earlier /\ c' = c
      | None =>
          ce_receipts_by_grant c' = <[g_grant_id g := rec]> (ce_receipts_by_grant c) /\
          exists st, ce_states c !! g_state g = Some st /\ ss_has_tentative st = true /\
            ce_states c' = <[g_state g := promote st]> (ce_states c) /\
            ss_state (promote st) = ss_tentative_state st /\ ss_kv_bytes (promote st) = ss_tentative_kv_bytes st /\
            committed_tokens (g_state g) c' = committed_tokens (g_state g) c +64 1 /\
            has_prepared (g_state g) (g_proposal g) c' = false /\
            forall a, ab_proposal a = g_proposal g -> cpu_abort a c' = (failed ErrorCode.AlreadyTerminal "abort after commit", c')
      end
  end.
Proof.
  destruct (cpu_commit g c) as [[rec|e] c'] eqn:E; pose proof (cpu_commit_case g c) as Hc; rewrite E in Hc.
  - split; [by eapply cpu_commit_fits|]. split; [by eapply cpu_commit_again|].
    inversion Hc as [|? Hr _|st Hcm]; subst; [by rewrite Hr|]. destruct Hcm as [Hn Hst Ht _ _ _ _]. rewrite Hn.
    split; [unfold promoted; by rsimpl|]. exists st.
    unfold promoted, committed_tokens, has_prepared, promote, clear_tentative. rsimpl.
    rewrite lookup_insert_eq, Hst. cbn [from_option]. split_and!; try done; rsimpl; try done.
    intros a Ha. unfold cpu_abort. rsimpl. by rewrite Ha, lookup_insert_eq.
  - by inversion Hc; subst.
Qed.

(** Receipts tell the truth.  In a reachable executor, a first commit of a returned member's grant
    reports the digests and positions the executor really has: the pre-state digest is that of the
    committed state before, the post-state digest that of the committed state after, and the
    committed token count goes from the receipt's position to the next. *)
Theorem cpu_receipts_truthful c issued g rec c' :
  reachable (c, issued) -> granted_from issued g -> g_committed_position g + 1 < 2 ^ 64 ->
  cpu_commit g c = (Ok rec, c') -> ce_receipts_by_grant c !! g_grant_id g = None ->
  committed_state_digest (g_state g) c = rc_pre_state_digest rec /\
  committed_state_digest (g_state g) c' = rc_post_state_digest rec /\
  committed_tokens (g_state g) c = rc_committed_position_before rec /\
  committed_tokens (g_state g) c' = rc_committed_position_after rec /\
  rc_committed_position_after rec = rc_committed_position_before rec + 1.
Proof.
  intros [origin HI]%reachable_inv Hg Hb E Hf. pose proof (cpu_commit_case g c) as Hc. rewrite E in Hc.
  inversion Hc as [|? Hr _|st Hcm]; subst; [congruence|].
  destruct (inv_position _ _ _ _ _ HI (cm_entry _ _ _ Hcm)) as (seed & kv0 & _ & Ho & _).
  destruct (committable_position _ _ _ _ _ _ _ HI Ho Hcm Hg) as (n & Hp & Hs & Hq). rewrite Hq in Hb.
  pose proof (promote_position _ _ _ _ _ Hp Hs ltac:(lia)) as Hp'.
  unfold committed_state_digest, committed_tokens, promoted. rsimpl. rewrite lookup_insert_eq, (cm_entry _ _ _ Hcm).
  cbn [from_option]. rewrite (at_position_digest _ _ _ _ _ Hp), (at_position_digest _ _ _ _ _ Hp').
  cbn [receipt_of rc_pre_state_digest rc_post_state_digest rc_committed_position_before rc_committed_position_after].
  rewrite (sg_pre _ _ _ _ _ Hs), (sg_post _ _ _ _ _ Hs), (ap_tokens _ _ _ _ _ Hp), (ap_tokens _ _ _ _ _ Hp'), tokens_after_S.
  split_and!; try done. rewrite !tokens_after_small; lia.
Qed.

(** ** Reading and rebuilding *)

(** What a commit would change. *)
Definition committed_part st := (ss_state st, ss_tokens st, ss_kv_bytes st).

Lemma prepare_member_frame m req c res c' sid st :
  prepare_member m req c = (res, c') -> ce_states c !! sid = Some st -> ss_state st <> [] ->
  (sd_id (ms_state m) = sid -> ms_generated_tokens m <= ss_tokens st) ->
  exists st', ce_states c' !! sid = Some st' /\ committed_part st' = committed_part st.
Proof.
  unfold prepare_member. cbv zeta. intros E Hst Hne Hle.
  destruct (decide (sd_id (ms_state m) = sid)) as [Hs|Hn].
  - subst sid. rewrite Hst in E. change (default default_seq_state (Some st)) with st in E. rewrite (ensure_ahead m st Hne (Hle eq_refl)) in E.
    unfold settle_tentative in E. repeat case_match; simplify_eq; rsimpl; rewrite ?lookup_insert_eq; eexists; split; try done;
      unfold committed_part, stage, clear_tentative; by rsimpl.
  - exists st. split; [|done]. destruct (settle_tentative _ _); injection E as _ <-; rsimpl; by rewrite ?lookup_insert_ne.
Qed.

Lemma prepare_members_frame ms req c res c' sid st :
  prepare_members ms req c = (res, c') -> ce_states c !! sid = Some st -> ss_state st <> [] ->
  (forall m, m ∈ ms -> sd_id (ms_state m) = sid -> ms_generated_tokens m <= ss_tokens st) ->
  exists st', ce_states c' !! sid = Some st' /\ committed_part st' = committed_part st.
Proof.
  revert c res c' st. induction ms as [|m ms IH]; intros c res c' st; cbn [prepare_members]; intros E Hst Hne Hle.
  { injection E as _ <-. by exists st. }
  destruct (prepare_member m req c) as [r1 c1] eqn:E1.
  destruct (prepare_member_frame _ _ _ _ _ _ _ E1 Hst Hne) as (st1 & Hst1 & P1); [apply Hle; by left|].
  unfold committed_part in P1. injection P1 as P1 P2 P3.
  destruct r1 as [pm|e]; [|injection E as _ <-; exists st1; split; [done|unfold committed_part; congruence]].
  destruct (prepare_members ms req c1) as [r2 c2] eqn:E2.
  assert (c' = c2) as -> by (by destruct r2; injection E).
  destruct (IH _ _ _ _ E2 Hst1) as (st2 & Hst2 & Q); [congruence|rewrite P2; intros; apply Hle; [by right|done]|].
  exists st2. split; [done|]. rewrite Q. unfold committed_part. congruence.
Qed.

(** Prepare reads, abort discards.  A prepare, whether it succeeds or fails, leaves the committed
    state, tokens and bytes of every state that no member of the request runs ahead of as they were;
    an abort leaves those of every state as they were. *)
Theorem cpu_prepare_read_only (req : DecodeExecutionRequest) (a : AbortPrepared) c sid st :
  ce_states c !! sid = Some st -> ss_state st <> [] ->
  (forall m, m ∈ er_members req -> sd_id (ms_state m) = sid -> ms_generated_tokens m <= ss_tokens st) ->
  (exists st', ce_states (cpu_prepare req c).2 !! sid = Some st' /\ committed_part st' = committed_part st) /\
  (exists st', ce_states (cpu_abort a c).2 !! sid = Some st' /\ committed_part st' = committed_part st).
Proof.
  intros Hst Hne Hle. split.
  - unfold cpu_prepare. destruct (prepare_members (er_members req) req c) as [r c1] eqn:E.
    destruct (prepare_members_frame _ _ _ _ _ _ _ E Hst Hne Hle) as (st' & H1 & H2). by destruct r; exists st'.
  - unfold cpu_abort. destruct (ce_consumed_proposals c !! ab_proposal a); [by exists st|].
    destruct (ce_states c !! ab_state a) as [st1|] eqn:Ha; [|by exists st].
    destruct (ss_has_tentative st1 && _); [|by exists st]. cbn [snd]. rsimpl.
    destruct (decide (ab_state a = sid)) as [Hs|Hn]; [|rewrite lookup_insert_ne by done; by exists st].
    rewrite Hs, Hst in Ha. injection Ha as <-. rewrite Hs, lookup_insert_eq. eexists. split; [done|].
    unfold committed_part, clear_tentative. by rsimpl.
Qed.

(** C18: any worker can take a sequence over.  A fresh executor that is asked to prepare the step after
    [n] tokens of a state, under the attempt and the initial bytes the state was started with, first
    rebuilds exactly the committed state another executor has at [n] tokens: its prepared member
    has that position, that digest as pre-state, and the digest of the next position as post-state. *)
Theorem cpu_reconstruction (sid : StateId) (seed kv0 : Z) (n : nat) c st c0 (m : DecodeMemberSpec) (req : DecodeExecutionRequest) :
  ce_states c !! sid = Some st -> at_position sid seed kv0 n st -> ce_states c0 !! sid = None ->
  sd_id (ms_state m) = sid -> id_value (ms_attempt m) = seed -> sd_bytes_held (ms_state m) = kv0 ->
  ms_generated_tokens m = Z.of_nat n ->
  exists pm c0', prepare_member m req c0 = (Ok pm, c0') /\
    pm_committed_position_before pm = committed_tokens sid c /\
    pm_pre_state_digest pm = committed_state_digest sid c /\ pm_post_state_digest pm = digest_at sid seed kv0 (S n) /\
    committed_state_digest sid c0' = committed_state_digest sid c.
Proof.
  intros Hst Hn Hf Hsid Hseed Hkv Hgen. pose proof (ap_bound _ _ _ _ _ Hn) as Hb.
  unfold prepare_member. cbv zeta. rewrite Hsid, Hf. change (default default_seq_state None) with default_seq_state.
  set (st0 := ensure_initialized m default_seq_state).
  assert (H0 : at_position sid seed kv0 n st0).
  { subst st0. unfold ensure_initialized. pose proof (init_position m default_seq_state eq_refl) as Hi.
    rewrite Hsid, Hseed, Hkv in Hi. rewrite (ap_tokens _ _ _ _ _ Hi), Hgen.
    replace (Z.to_nat (Z.of_nat n - tokens_after 0)) with n by (unfold tokens_after, wrap; rewrite Zmod_0_l; lia).
    by apply (catch_up_exact _ _ _ 0 n). }
  assert (Ht : ss_has_tentative st0 = false).
  { pose proof (ensure_tentative m default_seq_state) as E. fold st0 in E. unfold tentative_view in E. by injection E as -> _. }
  clearbody st0. unfold settle_tentative. rewrite Ht. eexists _, _. split; [done|].
  unfold committed_tokens, committed_state_digest. rsimpl. rewrite lookup_insert_eq, Hst. cbn [from_option].
  unfold member_of, stage. cbv zeta. rsimpl.
  cbn [pm_committed_position_before pm_pre_state_digest pm_post_state_digest].
  rewrite (at_position_digest _ _ _ _ _ H0), (at_position_digest _ _ _ _ _ Hn).
  destruct H0 as [-> -> -> _], Hn as [_ -> _ _]. by rewrite tokens_after_S.
Qed.
End cpu.
