(* ===== verification/Pump.v ===== *)
(** * The synchronous pump

    [DecodeFabric::pump_once] and [pump_until_idle] of src/fabric.cpp drive an executor through
    prepare, authorize, commit and receipt; the executor is any instance of the interface of
    Executor.v. *)

From S2P Require Import Prelude Enums Errors Token StateMachine Ids Compatibility Types Binary Double FabricState FabricFrame FabricOps Schedule Transaction Executor.

(** The execution request of a dispatch. *)
Definition exec_request (d : Dispatch) : DecodeExecutionRequest :=
  mkExecRequest (dp_id d) (dp_epoch d) (dp_worker d) (dp_worker_boot d) (dp_key d) (dp_device d)
    (id_value (dp_reservation d)) (dp_members d) (string_bytes (key_to_string (dp_key d))) 0.

(** The completion reported when the backend could not prepare the group. *)
Definition failed_prepare (d : Dispatch) (e : Error) : DecodeExecutionResult :=
  mkExecResult (dp_id d) (dp_epoch d) (dp_worker d) (dp_worker_boot d)
    ((fun spec => mkOutcome (ms_sequence spec) MemberOutcomeKind.RetryableFailure (ms_attempt spec) (ms_generation spec)
        0 0 false ErrorCode.Ok (err_message e) true 0 0 0 0 0) <$> dp_members d)
    0 (err_code e) (err_message e) false.

Section pump.
Context {CLK : Clock} {ORD : MapOrder} {E : Type} {EX : DecodeExecutor E}.

(** Commit or abort of one authorized member. *)
Definition commit_member (tn : Z) (acc : list MemberReceipt * E) (ga : GrantOrAbort) : list MemberReceipt * E :=
  let '(rs, e) := acc in
  let drop_prepared e := if ga_has_abort ga then (ex_abort (ga_abort_spec ga) e).2 else e in
  match ga_grant ga with
  | Some g =>
      if ga_rejected ga || ga_aborted ga then (rs, drop_prepared e)
      else match ex_commit g e with
      | (Ok mr, e) => (rs ++ [mr <| rc_committed_at := tn |>], e)
      | (Err _, e) => (rs, drop_prepared e)
      end
  | None => (rs, drop_prepared e)
  end.
Definition commit_members (tn : Z) (gas : list GrantOrAbort) (e : E) : list MemberReceipt * E :=
  foldl (commit_member tn) ([], e) gas.

(** One dispatch: prepare, authorize, commit, receipt. *)
Definition pump_dispatch (tn : Z) (em : E * Impl) (d : Dispatch) : E * Impl :=
  let '(e, m) := em in
  match ex_prepare (exec_request d) e with
  | (Err err, e) => (e, (apply_completion (failed_prepare d err) m).2)
  | (Ok pd, e) =>
      match authorize_prepared pd m with
      | (Err _, m) => (foldl (fun e pm => (ex_abort (abort_of pm) e).2) e (pd_members pd), m)
      | (Ok ar, m) =>
          let '(rs, e) := commit_members tn (au_members ar) e in
          (e, (apply_commit_receipt
                 (mkReceiptDecode (dp_id d) (dp_epoch d) (dp_worker d) (dp_worker_boot d) rs ErrorCode.Ok "") m).2)
      end
  end.

(** [DecodeFabric::pump_once]. *)
Definition pump_once (tn : Z) (e : E) (m : Impl) : list Dispatch * (E * Impl) :=
  let m := (advance tn m).2 in
  let '(ds, m) := schedule tn m in
  (ds, foldl (pump_dispatch tn) (e, m) ds).

(** Some sequence could be scheduled. *)
Definition any_candidate (m : Impl) : bool :=
  existsb (fun kv => is_candidate_state (s_machine kv.2)) (iter (im_ticks m) (im_seqs m)).

(** The loop of [pump_until_idle], from its [cycles]-th turn; [None] when [fuel] runs out. *)
Fixpoint pump_loop (fuel : nat) (max_cycles cycles : Z) (e : E) (m : Impl) : option (Result unit * (E * Impl)) :=
  match fuel with
  | O => None
  | S fuel =>
      let '(tn, m) := now m in
      let '(ds, (e, m)) := pump_once tn e m in
      let cycles := cycles + 1 in
      if (max_cycles >? 0) && (cycles >=? max_cycles) then Some (Ok tt, (e, m))
      else
        let has_candidate := any_candidate m in
        if negb has_candidate && bool_decide (ds = []) then Some (Ok tt, (e, m))
        else if bool_decide (ds = []) && any_candidate m then Some (Ok tt, (e, m))
        else pump_loop fuel max_cycles cycles e m
  end.
Definition pump_until_idle (fuel : nat) (max_cycles : Z) (e : E) (m : Impl) : option (Result unit * (E * Impl)) :=
  pump_loop fuel max_cycles 0 e m.

End pump.
