(* ===== verification/Kernel.v ===== *)
(** * The CUDA decode kernel

    src/cuda_executor.cu: the numerics of the CUDA executor in IEEE binary32, the kernel
    [df_decode_step_kernel] as threads that run in any order up to a barrier, and its host mirror
    [step_state_float].

    The language leaves [tanhf], [sinf] and the contraction of [a * b + c] to the compiler and the
    processor, and they may differ between host and device: each side is a [Mathf]. *)

From S2P Require Import Prelude Enums Errors Ids Compatibility Types Binary Double FabricState Executor CpuExecutor.
From Stdlib Require Import Floats.SpecFloat.
From stdpp Require Import relations.
Open Scope Z_scope.

(** ** IEEE-754 binary32 *)

Abbreviation float := spec_float.
Definition f_prec : Z := 24.
Definition f_emax : Z := 128.
Definition f_zero : float := S754_zero false.
Definition f_of_Z (z : Z) : float := binary_normalize f_prec f_emax z 0 false.
Definition f_add : float -> float -> float := SFadd f_prec f_emax.
Definition f_mul : float -> float -> float := SFmul f_prec f_emax.
Definition f_ltb : float -> float -> bool := SFltb.
(** A literal [n / d]. *)
Definition f_ratio (n d : Z) : float := SFdiv f_prec f_emax (f_of_Z n) (f_of_Z d).
(** [static_cast<float>] of a double. *)
Definition f_of_double (d : double) : float :=
  match d with
  | S754_finite s m e => binary_normalize f_prec f_emax (if s then Z.neg m else Z.pos m) e s
  | _ => d
  end.

(** Single-precision arithmetic as a compiler and a processor provide it. *)
Record Mathf := mkMathf {
  mf_tanh : float -> float;
  mf_sin : float -> float;
  (** [a * x + b * y] *)
  mf_dot : float -> float -> float -> float -> float;
  (** [a * x + s] *)
  mf_acc : float -> float -> float -> float;
}.
(** Every operation rounded by itself. *)
Definition separate (tanh sin : float -> float) : Mathf :=
  mkMathf tanh sin (fun a x b y => f_add (f_mul a x) (f_mul b y)) (fun a x s => f_add (f_mul a x) s).

Class CudaMath := {
  host_math : Mathf;
  device_math : Mathf;
  f_nan_bits : Z;
}.

(** The four bytes of a float as a word. *)
Definition f_bits `{CudaMath} (d : float) : Z :=
  let sign (s : bool) := if s then 2 ^ 31 else 0 in
  match d with
  | S754_zero s => sign s
  | S754_infinity s => sign s + 255 * 2 ^ 23
  | S754_nan => f_nan_bits
  | S754_finite s m e =>
      if Z.pos m <? 2 ^ 23 then sign s + Z.pos m else sign s + (e + 150) * 2 ^ 23 + (Z.pos m - 2 ^ 23)
  end.

Section numerics.
Context `{CM : CudaMath}.

(** One element of the recurrence. *)
Definition step_elem (M : Mathf) (s : list float) (i : nat) : float :=
  let x := default f_zero (s !! i) in
  let prev := default f_zero (s !! (Nat.modulo (i + 1) (length s))) in
  mf_tanh M (mf_acc M (f_ratio 1 10) (mf_sin M (f_of_Z (Z.of_nat i))) (mf_dot M (f_ratio 1 2) x (f_ratio 1 4) prev)).
(** [step_state_float]. *)
Definition step_state_float (s : list float) : list float := step_elem host_math s <$> seq 0 (length s).

(** The argmax loop. *)
Fixpoint best_of (M : Mathf) (s : list float) (i best : Z) (bestv : float) : Z :=
  match s with
  | [] => best
  | x :: s =>
      let v := mf_acc M x (f_of_Z (i + 1)) (mf_sin M x) in
      if f_ltb bestv v then best_of M s (i + 1) i v else best_of M s (i + 1) best bestv
  end.
(** [CudaDecodeExecutor::step_token]. *)
Definition step_token_float (s : list float) : Z := best_of host_math s 0 0 (f_of_Z (- 10 ^ 30)).

(** [CudaDecodeExecutor::state_checksum]. *)
Definition hash_bytes (h bits : Z) : Z :=
  foldl (fun h k => Z.lxor h (Z.land (Z.shiftr bits (8 * k)) 0xFF) *64 fnv_prime) h [0; 1; 2; 3].
Definition checksum_float (s : list float) : Z := foldl (fun h x => hash_bytes h (f_bits x)) 1469598103934665603 s.

(** [digest_dev]. *)
Definition digest_dev (s : list float) (tokens kv_bytes : Z) : Z :=
  fnv_mix (fnv_mix (checksum_float s) tokens) kv_bytes.

(** [CudaDecodeExecutor::initial_state]: the elements of the CPU executor, narrowed. *)
Definition initial_state_float (sid : StateId) (seed : Z) : list float := f_of_double <$> initial_state sid seed.

(** ** The kernel *)

(** The word thread 0 assembles from the bytes of [out[j]]. *)
Definition dev_bits (x : float) : Z :=
  foldl (fun bits k => Z.lor bits (Z.shiftl (Z.land (Z.shiftr (f_bits x) (8 * Z.of_nat k)) 0xFF) (8 * Z.of_nat k))) 0 (seq 0 4).
(** What thread 0 writes after the barrier. *)
Definition dev_token (out : list float) : Z := best_of device_math out 0 0 (f_of_Z (- 10 ^ 30)).
Definition dev_checksum (out : list float) : Z := foldl (fun h x => hash_bytes h (dev_bits x)) 1469598103934665603 out.

(** Where a thread is: before its element, at the barrier, behind it, finished. *)
Inductive KPc := KStart | KBarrier | KAfter | KDone.
#[export] Instance KPc_eq_dec : EqDecision KPc.
Proof. solve_decision. Defined.

(** The threads of the block and the buffers the kernel writes. *)
Record Kernel := mkKernel {
  k_pc : list KPc;
  k_out : list float;
  k_token : Z;
  k_cksum : Z;
}.

(** One step of one thread, or the release of the barrier, on the committed buffer [input]. *)
Inductive kstep (input : list float) : Kernel -> Kernel -> Prop :=
  | k_element i pc out tok ck :
      pc !! i = Some KStart ->
      kstep input (mkKernel pc out tok ck) (mkKernel (<[i := KBarrier]> pc) (<[i := step_elem device_math input i]> out) tok ck)
  | k_release pc out tok ck :
      pc <> [] -> Forall (eq KBarrier) pc ->
      kstep input (mkKernel pc out tok ck) (mkKernel (replicate (length pc) KAfter) out tok ck)
  | k_reduce pc out tok ck :
      pc !! 0%nat = Some KAfter ->
      kstep input (mkKernel pc out tok ck) (mkKernel (<[0%nat := KDone]> pc) out (dev_token out) (dev_checksum out))
  | k_finish i pc out tok ck :
      i <> 0%nat -> pc !! i = Some KAfter ->
      kstep input (mkKernel pc out tok ck) (mkKernel (<[i := KDone]> pc) out tok ck).

(** The launch of one thread per element; the output buffers hold whatever they held. *)
Definition launched (input out : list float) (tok ck : Z) : Kernel := mkKernel (replicate (length input) KStart) out tok ck.

(** What the kernel computes. *)
Definition dev_step (input : list float) : list float := step_elem device_math input <$> seq 0 (length input).
End numerics.

(** ** Every schedule computes the same *)

Section schedule.
Context `{CM : CudaMath}.
Implicit Types (input : list float) (k : Kernel).

Definition before_barrier (p : KPc) : bool := match p with KStart | KBarrier => true | _ => false end.

(** The elements that were computed are in the output buffer; the threads are all on one side of the barrier; once
    thread 0 has finished, the token and the checksum are those of the buffer. *)
Record kernel_inv input k : Prop := {
  ki_threads : length (k_pc k) = length input;
  ki_out : length (k_out k) = length input;
  ki_written : forall i p, k_pc k !! i = Some p -> p <> KStart -> k_out k !! i = Some (step_elem device_math input i);
  ki_side : Forall (fun p => before_barrier p = true) (k_pc k) \/ Forall (fun p => before_barrier p = false) (k_pc k);
  ki_reduced : k_pc k !! 0%nat = Some KDone -> k_token k = dev_token (k_out k) /\ k_cksum k = dev_checksum (k_out k);
}.

Lemma kernel_inv_launched input out tok ck : length out = length input -> kernel_inv input (launched input out tok ck).
Proof.
  intros Hl. split; cbn [k_pc k_out launched]; [apply length_replicate|done| | |].
  - by intros i p [-> _]%lookup_replicate.
  - left. by apply Forall_replicate.
  - by intros [? _]%lookup_replicate.
Qed.

(** Behind the barrier the output buffer is complete. *)
Lemma kernel_out_complete input k :
  kernel_inv input k -> Forall (fun p => p <> KStart) (k_pc k) -> k_out k = dev_step input.
Proof.
  intros [Hp Ho Hw _ _] Hall. apply list_eq. intros i. unfold dev_step. rewrite list_lookup_fmap.
  destruct (decide (i < length input)%nat) as [Hi|Hi].
  - rewrite lookup_seq_lt by done. cbn. destruct (lookup_lt_is_Some_2 (k_pc k) i) as [p Hpi]; [lia|].
    apply (Hw i p Hpi). exact (Forall_lookup_1 _ _ _ _ Hall Hpi).
  - rewrite !lookup_ge_None_2; [done|rewrite length_seq; lia|lia].
Qed.

Lemma after_barrier_side input k i :
  kernel_inv input k -> k_pc k !! i = Some KAfter -> Forall (fun p => before_barrier p = false) (k_pc k).
Proof. intros Hk Hi. destruct (ki_side _ _ Hk) as [H|H]; [|done]. by pose proof (Forall_lookup_1 _ _ _ _ H Hi). Qed.

Lemma kernel_inv_step input k k' : kernel_inv input k -> kstep input k k' -> kernel_inv input k'.
Proof.
  intros Hk Hs. pose proof Hk as [Hp Ho Hw Hsd Hr]. destruct Hs as [i pc out tok ck Hi|pc out tok ck Hne Hb|pc out tok ck Hi|i pc out tok ck H0 Hi];
    cbn [k_pc k_out k_token k_cksum] in *.
  - assert (Hlt : (i < length out)%nat) by (rewrite Ho, <- Hp; by eapply lookup_lt_Some).
    split; cbn [k_pc k_out k_token k_cksum]; rewrite ?length_insert; try done.
    + intros j p. destruct (decide (j = i)) as [->|Hn]; [by rewrite !list_lookup_insert_eq by lia|].
      rewrite !list_lookup_insert_ne by done. apply Hw.
    + destruct Hsd as [H|H]; [|by pose proof (Forall_lookup_1 _ _ _ _ H Hi)]. left. by apply Forall_insert.
    + destruct (decide (i = 0%nat)) as [->|Hn]; [by rewrite list_lookup_insert_eq by lia|].
      rewrite list_lookup_insert_ne by done. intros Hd. destruct Hsd as [H|H]; [|by pose proof (Forall_lookup_1 _ _ _ _ H Hi)].
      by pose proof (Forall_lookup_1 _ _ _ _ H Hd).
  - split; cbn [k_pc k_out k_token k_cksum]; rewrite ?length_replicate; try done.
    + intros i p [-> Hi]%lookup_replicate _. destruct (lookup_lt_is_Some_2 pc i Hi) as [p Hpi].
      apply (Hw i p Hpi). by rewrite <- (Forall_lookup_1 _ _ _ _ Hb Hpi).
    + right. by apply Forall_replicate.
    + by intros [? _]%lookup_replicate.
  - pose proof (after_barrier_side _ _ _ Hk Hi) as Hside. split; cbn [k_pc k_out k_token k_cksum] in *; rewrite ?length_insert; try done.
    + intros j p. destruct (decide (j = 0%nat)) as [->|Hn]; [by intros; apply (Hw _ _ Hi)|].
      rewrite list_lookup_insert_ne by done. apply Hw.
    + right. by apply Forall_insert.
  - pose proof (after_barrier_side _ _ _ Hk Hi) as Hside. split; cbn [k_pc k_out k_token k_cksum] in *; rewrite ?length_insert; try done.
    + intros j p. destruct (decide (j = i)) as [->|Hn]; [by intros; apply (Hw _ _ Hi)|].
      rewrite list_lookup_insert_ne by done. apply Hw.
    + right. by apply Forall_insert.
    + by rewrite list_lookup_insert_ne.
Qed.

(** Each step moves a thread on, or all of them over the barrier. *)
Definition pc_weight (p : KPc) : nat := match p with KStart => 3 | KBarrier => 2 | KAfter => 1 | KDone => 0 end.
Definition kernel_weight k : nat := sum_list_with pc_weight (k_pc k).

Lemma weight_insert pc i p q :
  pc !! i = Some p -> (sum_list_with pc_weight (<[i := q]> pc) + pc_weight p = sum_list_with pc_weight pc + pc_weight q)%nat.
Proof.
  revert i. induction pc as [|x pc IH]; intros [|i] Hi; try done.
  - injection Hi as ->. change (<[0%nat := q]> (p :: pc)) with (q :: pc). cbn [sum_list_with]. lia.
  - specialize (IH i Hi). change (<[S i := q]> (x :: pc)) with (x :: <[i := q]> pc). cbn [sum_list_with]. lia.
Qed.

Lemma kernel_step_weight input k k' : kstep input k k' -> (kernel_weight k' < kernel_weight k)%nat.
Proof.
  unfold kernel_weight. intros [i pc out tok ck Hi|pc out tok ck Hne Hb|pc out tok ck Hi|i pc out tok ck H0 Hi]; cbn [k_pc].
  1,3,4: pose proof (weight_insert pc _ _ KBarrier Hi); pose proof (weight_insert pc _ _ KDone Hi); cbn in *; lia.
  assert (H1 : sum_list_with pc_weight (replicate (length pc) KAfter) = length pc) by (clear; induction pc; cbn; lia).
  assert (H2 : sum_list_with pc_weight pc = (2 * length pc)%nat).
  { clear Hne H1. induction Hb as [|p pc <- _ IH]; [done|]. cbn [sum_list_with length pc_weight]. lia. }
  destruct pc; [done|]. rewrite H1, H2. cbn. lia.
Qed.

Lemma kernel_steps_weight input n k k' : nsteps (kstep input) n k k' -> (n + kernel_weight k' <= kernel_weight k)%nat.
Proof.
  induction 1 as [k|n k k1 k' Hs _ IH]; [done|]. pose proof (kernel_step_weight _ _ _ Hs). lia.
Qed.

(** The device hashes the bytes the host hashes. *)
Lemma dev_checksum_float s : dev_checksum s = checksum_float s.
Proof.
  unfold dev_checksum, checksum_float. generalize 1469598103934665603. induction s as [|x s IH]; intros h; [done|].
  cbn [foldl]. rewrite IH. f_equal. unfold hash_bytes.
  assert (Hb : dev_bits x = f_bits x mod 2 ^ 32) by exact (le_value_bytes 4 (f_bits x) _ (fun _ _ => eq_refl)).
  assert (Hk : forall k : Z, In k [0; 1; 2; 3] ->
    Z.land (Z.shiftr (dev_bits x) (8 * k)) 0xFF = Z.land (Z.shiftr (f_bits x) (8 * k)) 0xFF).
  { intros k Hk. rewrite Hb. apply Z.bits_inj'. intros b Hb0. change 0xFF with (Z.ones 8).
    rewrite !Z.land_spec, Z.testbit_ones_nonneg, !Z.shiftr_spec by lia. destruct (Z.ltb_spec b 8); [|by rewrite !andb_false_r].
    rewrite Z.testbit_mod_pow2 by lia. destruct (Z.ltb_spec (b + 8 * k) 32); [done|]. cbn in Hk. lia. }
  cbn [foldl]. rewrite !Hk by (cbn; tauto). done.
Qed.

(** A block that is not finished can go on: nobody waits forever at the barrier. *)
Lemma kernel_progress input k :
  kernel_inv input k -> Forall (eq KDone) (k_pc k) \/ exists k', kstep input k k'.
Proof.
  intros Hk. destruct k as [pc out tok ck]. destruct (ki_side _ _ Hk) as [Hs|Hs]; cbn [k_pc] in *.
  - destruct (decide (Exists (eq KStart) pc)) as [(p & Hp & <-)%Exists_exists|Hn].
    + apply list_elem_of_lookup in Hp as [i Hi]. right. eexists. by apply (k_element input i).
    + destruct pc as [|p pc]; [by left|right]. eexists. apply k_release; [done|]. apply not_Exists_Forall in Hn; [|apply _].
      eapply Forall_impl; [by apply Forall_and; split; [exact Hn|exact Hs]|]. intros [] [H1 H2]; done.
  - destruct (decide (Exists (eq KAfter) pc)) as [(p & Hp & <-)%Exists_exists|Hn].
    + apply list_elem_of_lookup in Hp as [i Hi]. right. destruct (decide (i = 0%nat)) as [->|H0]; eexists;
        [by apply k_reduce|by apply (k_finish input i)].
    + left. apply not_Exists_Forall in Hn; [|apply _].
      eapply Forall_impl; [by apply Forall_and; split; [exact Hn|exact Hs]|]. intros [] [H1 H2]; done.
Qed.

(** C21: the threads of the kernel need no luck.  Whatever the order in which the threads of a block run, the
    block never gets stuck and finishes within three steps per thread, and then the output buffer, the
    token and the checksum are those of the sequential recurrence, whatever the buffers held before;
    where the device computes [tanhf], [sinf] and [a * b + c] as the host does, they are exactly what
    the host mirror [step_state_float], [step_token] and [state_checksum] compute. *)
Theorem kernel_schedule_independent input (out : list float) (tok ck : Z) k :
  input <> [] -> length out = length input -> rtc (kstep input) (launched input out tok ck) k ->
  (Forall (eq KDone) (k_pc k) ->
     k_out k = dev_step input /\ k_token k = dev_token (dev_step input) /\ k_cksum k = dev_checksum (dev_step input) /\
     (device_math = host_math ->
        k_out k = step_state_float input /\ k_token k = step_token_float (step_state_float input) /\
        k_cksum k = checksum_float (step_state_float input))) /\
  (Forall (eq KDone) (k_pc k) \/ exists k', kstep input k k') /\
  (forall n k', nsteps (kstep input) n (launched input out tok ck) k' -> (n <= 3 * length input)%nat).
Proof.
  intros Hne Hl Hr.
  assert (Hk : kernel_inv input k).
  { revert Hr. apply (rtc_ind_r (kernel_inv input)); [by apply kernel_inv_launched|]. intros; by eapply kernel_inv_step. }
  split_and!; [|by apply kernel_progress|].
  - intros Hd. assert (Ho : k_out k = dev_step input).
    { apply kernel_out_complete; [done|]. eapply Forall_impl; [exact Hd|]. by intros ? <-. }
    destruct (ki_reduced _ _ Hk) as [Ht Hc].
    { destruct (lookup_lt_is_Some_2 (k_pc k) 0%nat) as [p Hp].
      - rewrite (ki_threads _ _ Hk). by destruct input; [|apply Nat.lt_0_succ].
      - rewrite Hp. f_equal. symmetry. exact (Forall_lookup_1 _ _ _ _ Hd Hp). }
    rewrite Ho in Ht, Hc. split_and!; try done.
    intros Hm. rewrite Ho, Ht, Hc, dev_checksum_float. unfold dev_token, dev_step, step_token_float, step_state_float.
    by rewrite Hm.
  - intros n k' Hn. pose proof (kernel_steps_weight _ _ _ _ Hn) as Hw. unfold kernel_weight at 2 in Hw. cbn [k_pc launched] in Hw.
    assert (E : sum_list_with pc_weight (replicate (length input) KStart) = (3 * length input)%nat) by (clear; induction (length input); cbn in *; lia).
    lia.
Qed.
End schedule.

(** Two threads, the second one first. *)
Definition plain_math : CudaMath :=
  {| host_math := separate (fun x => x) (fun x => x); device_math := separate (fun x => x) (fun x => x); f_nan_bits := 0x7FC00000 |}.

Lemma kernel_schedule_independent_witness :
  exists k : Kernel, Forall (eq KDone) (k_pc k) /\
    k_out k = step_state_float (CM := plain_math) [f_of_Z 1; f_of_Z 2] /\
    k_token k = step_token_float (CM := plain_math) (step_state_float (CM := plain_math) [f_of_Z 1; f_of_Z 2]) /\
    k_cksum k = checksum_float (CM := plain_math) (step_state_float (CM := plain_math) [f_of_Z 1; f_of_Z 2]).
Proof.
  set (input := [f_of_Z 1; f_of_Z 2]). set (out := [f_zero; f_zero]).
  eassert (Hr : rtc (kstep (CM := plain_math) input) (launched input out 0 0) _).
  { eapply rtc_l; [by apply (k_element input 1)|]. eapply rtc_l; [by apply (k_element input 0)|].
    eapply rtc_l; [by apply k_release; repeat constructor|]. eapply rtc_l; [by apply k_reduce|].
    eapply rtc_l; [by apply (k_finish input 1)|]. apply rtc_refl. }
  destruct (kernel_schedule_independent (CM := plain_math) input out 0 0 _ ltac:(done) eq_refl Hr) as [H _].
  destruct H as (_ & _ & _ & H); [repeat constructor|]. eexists. split; [|exact (H eq_refl)]. repeat constructor.
Defined.
