(* ===== verification/CudaExecutor.v ===== *)
(** * The CUDA executor

    src/cuda_executor.cu and include/decodefabric/cuda_executor.hpp: the transactional executor whose
    committed and tentative states are buffers in device memory.

    Device memory is a finite map from live pointers to buffers.  Every call of the CUDA runtime can
    fail: a [CudaRuntime] says which ones do, and what a failed copy or kernel and a fresh allocation
    leave in a buffer.  Using or freeing a pointer that is not live sets [gpu_fault].  The kernel's
    effect on memory is that of Kernel.v, which every schedule of its threads has. *)

From S2P Require Import Prelude Enums Errors Ids Compatibility Types Double FabricState Executor CpuExecutor Kernel.
Open Scope Z_scope.

(** ** The CUDA runtime *)

Abbreviation Ptr := positive.
(** A buffer of [kStateSize] floats, or one integer. *)
Inductive Cell := CFloats (l : list float) | CWord (v : Z).

Record Gpu := mkGpu {
  gpu_mem : gmap Ptr Cell;
  gpu_calls : nat;
  gpu_fault : bool;
}.
#[export] Instance Gpu_eta : Settable Gpu := fun r => mkGpu (gpu_mem r) (gpu_calls r) (gpu_fault r).

Class CudaRuntime := {
  (** whether a call fails, and [cudaGetErrorString] of its error *)
  cuda_error : nat -> option string;
  cuda_garbage : nat -> list float;
  cuda_junk : nat -> Z;
  cuda_garbage_length : forall n, length (cuda_garbage n) = kStateSize;
}.

Definition Cuda (A : Type) : Type := Gpu -> (string + A) * Gpu.

Section runtime.
Context `{CM : CudaMath} `{CR : CudaRuntime}.

(** A call without an effect of its own: [cudaSetDevice]. *)
Definition cuda_call : Cuda unit := fun g =>
  (match cuda_error (gpu_calls g) with Some e => inl e | None => inr tt end, g <| gpu_calls ::= S |>).
Definition faulty (g : Gpu) : Gpu := g <| gpu_fault := true |>.
Definition store (p : Ptr) (c : Cell) (g : Gpu) : Gpu := g <| gpu_mem ::= <[p := c]> |>.

Definition cuda_malloc (init : nat -> Cell) : Cuda Ptr := fun g =>
  match cuda_call g with
  | (inl e, g) => (inl e, g)
  | (inr _, g) => let p := fresh (dom (gpu_mem g)) in (inr p, store p (init (gpu_calls g)) g)
  end.
Definition malloc_floats : Cuda Ptr := cuda_malloc (fun n => CFloats (cuda_garbage n)).
Definition malloc_word : Cuda Ptr := cuda_malloc (fun n => CWord (cuda_junk n)).
(** [cudaFree], whose result is not looked at. *)
Definition cuda_free (p : Ptr) (g : Gpu) : Gpu :=
  match gpu_mem g !! p with Some _ => g <| gpu_mem ::= delete p |> | None => faulty g end.

(** [cudaMemcpy] between host and device, and on the device. *)
Definition copy_to_host (p : option Ptr) : Cuda (list float) := fun g =>
  match p ≫= (fun p => gpu_mem g !! p) with
  | Some (CFloats l) => match cuda_call g with (inl e, g) => (inl e, g) | (inr _, g) => (inr l, g) end
  | _ => (inl "invalid argument"%string, faulty g)
  end.
Definition copy_word (p : Ptr) : Cuda Z := fun g =>
  match gpu_mem g !! p with
  | Some (CWord v) => match cuda_call g with (inl e, g) => (inl e, g) | (inr _, g) => (inr v, g) end
  | _ => (inl "invalid argument"%string, faulty g)
  end.
Definition copy_to_device (p : option Ptr) (l : list float) : Cuda unit := fun g =>
  match p with
  | Some p =>
      match gpu_mem g !! p with
      | Some (CFloats _) =>
          match cuda_call g with
          | (inl e, g) => (inl e, store p (CFloats (cuda_garbage (gpu_calls g))) g)
          | (inr _, g) => (inr tt, store p (CFloats l) g)
          end
      | _ => (inl "invalid argument"%string, faulty g)
      end
  | None => (inl "invalid argument"%string, faulty g)
  end.
Definition copy_on_device (dst src : option Ptr) : Cuda unit := fun g =>
  match src ≫= (fun p => gpu_mem g !! p) with
  | Some (CFloats l) => copy_to_device dst l g
  | _ => (inl "invalid argument"%string, faulty g)
  end.

(** The four buffers of a launch, which must be live and different. *)
Definition launch_args (input output : option Ptr) (tok ck : Ptr) (g : Gpu) : option (Ptr * list float) :=
  match input, output with
  | Some i, Some o =>
      match gpu_mem g !! i, gpu_mem g !! o, gpu_mem g !! tok, gpu_mem g !! ck with
      | Some (CFloats l), Some (CFloats _), Some (CWord _), Some (CWord _) =>
          if bool_decide (NoDup [i; o; tok; ck]) then Some (o, l) else None
      | _, _, _, _ => None
      end
  | _, _ => None
  end.
(** [df_decode_step_kernel<<<1, kStateSize>>>] and [cudaGetLastError]. *)
Definition launch_kernel (input output : option Ptr) (tok ck : Ptr) : Cuda unit := fun g =>
  match launch_args input output tok ck g with
  | Some (o, l) =>
      match cuda_call g with
      | (inl e, g) => (inl e, g)
      | (inr _, g) =>
          let out := dev_step l in
          (inr tt, store ck (CWord (dev_checksum out)) (store tok (CWord (dev_token out)) (store o (CFloats out) g)))
      end
  | None => (inl "invalid argument"%string, faulty g)
  end.
(** [cudaDeviceSynchronize]: a kernel that failed leaves anything in its output buffers. *)
Definition synchronize (output : option Ptr) (tok ck : Ptr) : Cuda unit := fun g =>
  match cuda_call g with
  | (inl e, g) =>
      let n := gpu_calls g in
      (inl e, store ck (CWord (cuda_junk n)) (store tok (CWord (cuda_junk n))
        (match output with Some o => store o (CFloats (cuda_garbage n)) g | None => faulty g end)))
  | (inr _, g) => (inr tt, g)
  end.
End runtime.

(** ** State *)

Record DevState := mkDevState {
  ds_device : option Ptr;
  ds_tentative : option Ptr;
  ds_kv_bytes : Z;
  ds_tokens : Z;
  ds_token : Z;
  ds_checksum : Z;
  ds_inited : bool;
  ds_has_tentative : bool;
  ds_prepared_proposal : ProposalId;
  ds_prepared_attempt : AttemptId;
  ds_prepared_generation : DecodeGeneration;
  ds_prepared_sequence : SequenceId;
  ds_prepared_worker : WorkerId;
  ds_prepared_worker_boot : WorkerBootId;
  ds_prepared_epoch : CoordinatorEpoch;
  ds_prepared_dispatch : DispatchId;
  ds_tentative_kv_bytes : Z;
  ds_tentative_token : Z;
  ds_tentative_checksum : Z;
  ds_prepared_pre_digest : Z;
  ds_prepared_post_digest : Z;
}.
#[export] Instance DevState_eta : Settable DevState := fun r =>
  mkDevState (ds_device r) (ds_tentative r) (ds_kv_bytes r) (ds_tokens r) (ds_token r) (ds_checksum r) (ds_inited r)
    (ds_has_tentative r) (ds_prepared_proposal r) (ds_prepared_attempt r) (ds_prepared_generation r)
    (ds_prepared_sequence r) (ds_prepared_worker r) (ds_prepared_worker_boot r) (ds_prepared_epoch r)
    (ds_prepared_dispatch r) (ds_tentative_kv_bytes r) (ds_tentative_token r) (ds_tentative_checksum r)
    (ds_prepared_pre_digest r) (ds_prepared_post_digest r).
Definition default_dev_state : DevState :=
  mkDevState None None 0 0 0 0 false false null_id null_id null_id null_id null_id null_id null_id null_id 0 0 0 0 0.

Record CudaDecodeExecutor := mkCuda {
  cu_states : gmap StateId DevState;
  cu_receipts_by_grant : gmap GrantId MemberReceipt;
  cu_consumed_proposals : gmap ProposalId bool;
  cu_next_proposal : Z;
  cu_device_id : DeviceId;
  cu_id : ExecutorId;
  cu_device : DeviceDescriptor;
  cu_ticks : nat;
  cu_gpu : Gpu;
}.
#[export] Instance CudaDecodeExecutor_eta : Settable CudaDecodeExecutor := fun r =>
  mkCuda (cu_states r) (cu_receipts_by_grant r) (cu_consumed_proposals r) (cu_next_proposal r) (cu_device_id r)
    (cu_id r) (cu_device r) (cu_ticks r) (cu_gpu r).

(** What [cudaGetDeviceProperties] reports of the device. *)
Record DeviceProp := mkProp { dpr_name : string; dpr_major : Z; dpr_minor : Z; dpr_totalGlobalMem : Z }.
(** The constructor. *)
Definition cuda_device (device_id : DeviceId) (prop : option DeviceProp) : DeviceDescriptor :=
  match prop with
  | Some p =>
      mkDevice device_id BackendKind.CUDA (dpr_name p) (dpr_major p) (dpr_minor p) (dpr_totalGlobalMem p)
        (Z.shiftl 1 (DType.DType_code DType.F32)) 1
  | None => mkDevice device_id BackendKind.CUDA "cuda_device_unavailable" 0 0 0 0 0
  end.
Definition new_cuda (device_id : DeviceId) (prop : option DeviceProp) : CudaDecodeExecutor :=
  mkCuda ∅ ∅ ∅ 0 device_id (mkId 2) (cuda_device device_id prop) 0 (mkGpu ∅ 0 false).

Definition cuda_supports (key : CompatibilityKey) (c : CudaDecodeExecutor) : bool :=
  bool_decide (k_backend key = BackendKind.CUDA) && id_eqb (k_device key) (cu_device_id c).

(** ** Host code on one state: the entry, the device, and early returns *)

Abbreviation HostState := (DevState * Gpu)%type.
Definition Host (A : Type) : Type := HostState -> Result A * HostState.
Definition h_ret {A} (a : A) : Host A := fun s => (Ok a, s).
Definition h_fail {A} (code : ErrorCode) (msg : string) : Host A := fun s => (failed code msg, s).
Definition h_bind {A B} (c : Host A) (k : A -> Host B) : Host B := fun s =>
  match c s with (Ok a, s) => k a s | (Err e, s) => (Err e, s) end.
Definition h_get : Host DevState := fun s => (Ok s.1, s).
Definition h_do (f : HostState -> HostState) : Host unit := fun s => (Ok tt, f s).
Definition h_set (f : DevState -> DevState) : Host unit := h_do (fun s => (f s.1, s.2)).
(** A call of the runtime: if it fails, clean up and return [BackendError]. *)
Definition attempt {A} (c : Cuda A) (cleanup : HostState -> HostState) (msg : string -> string) : Host A := fun '(st, g) =>
  match c g with
  | (inr a, g) => (Ok a, (st, g))
  | (inl e, g) => (failed ErrorCode.BackendError (msg e), cleanup (st, g))
  end.

Declare Scope host_scope.
Delimit Scope host_scope with host.
Notation "x <- c ;; k" := (h_bind c (fun x => k)) (at level 100, c at next level, right associativity) : host_scope.
Notation "c ;;; k" := (h_bind c (fun _ => k)) (at level 100, right associativity) : host_scope.
Open Scope host_scope.

(** [clear_tentative]. *)
Definition dev_cleared (st : DevState) : DevState :=
  st <| ds_tentative := None |> <| ds_has_tentative := false |> <| ds_prepared_proposal := null_id |>
     <| ds_prepared_attempt := null_id |> <| ds_prepared_generation := null_id |> <| ds_prepared_sequence := null_id |>
     <| ds_prepared_worker := null_id |> <| ds_prepared_worker_boot := null_id |> <| ds_prepared_epoch := null_id |>
     <| ds_prepared_dispatch := null_id |> <| ds_tentative_kv_bytes := 0 |> <| ds_tentative_token := 0 |>
     <| ds_tentative_checksum := 0 |>.
Definition dev_clear (s : HostState) : HostState :=
  (dev_cleared s.1, match ds_tentative s.1 with Some p => cuda_free p s.2 | None => s.2 end).
Definition free_buffer (p : Ptr) (s : HostState) : HostState := (s.1, cuda_free p s.2).

Section operations.
Context `{LM : Libm} `{CM : CudaMath} `{CR : CudaRuntime} {SC : SteadyClock}.

(** The first touch of a state. *)
Definition dev_init (m : DecodeMemberSpec) : Host unit :=
  st <- h_get ;;
  if ds_inited st then h_ret tt
  else
    p <- attempt malloc_floats (fun s => s) (fun _ => "cudaMalloc committed failed") ;;
    h_set (fun st => st <| ds_device := Some p |>) ;;;
    attempt (copy_to_device (Some p) (initial_state_float (sd_id (ms_state m)) (id_value (ms_attempt m))))
      (fun s => let '(st, g) := free_buffer p s in (st <| ds_device := None |>, g)) (fun _ => "cudaMemcpy init failed") ;;;
    h_set (fun st => st <| ds_kv_bytes := sd_bytes_held (ms_state m) |> <| ds_tokens := 0 |> <| ds_token := 0 |>
                        <| ds_checksum := 0 |> <| ds_inited := true |>).

(** The reconstruction loop: [while (st.tokens < m.generated_tokens)]. *)
Fixpoint catch_up_float (fuel : nat) (target : Z) (x : list float * Z * Z) : list float * Z * Z :=
  match fuel with
  | O => x
  | S fuel =>
      let '(host, tokens, kv) := x in
      if tokens <? target then catch_up_float fuel target (step_state_float host, tokens +64 1, kv +64 kv_delta) else x
  end.

(** [ensure_initialized].  The counters advance before the reconstructed state is written back. *)
Definition dev_ensure (m : DecodeMemberSpec) : Host unit :=
  dev_init m ;;;
  st <- h_get ;;
  if ds_tokens st <? ms_generated_tokens m then
    host <- attempt (copy_to_host (ds_device st)) (fun s => s) (fun _ => "cudaMemcpy reconstruction read failed") ;;
    let '(host, tokens, kv) :=
      catch_up_float (Z.to_nat (ms_generated_tokens m - ds_tokens st)) (ms_generated_tokens m)
        (host, ds_tokens st, ds_kv_bytes st) in
    h_set (fun st => st <| ds_tokens := tokens |> <| ds_kv_bytes := kv |>) ;;;
    attempt (copy_to_device (ds_device st) host) (fun s => s) (fun _ => "cudaMemcpy reconstruction write failed")
  else h_ret tt.

(** An unresolved transition of the same attempt refuses the prepare; one of another attempt is dropped. *)
Definition dev_settle (m : DecodeMemberSpec) : Host unit :=
  st <- h_get ;;
  if ds_has_tentative st then
    if id_eqb (ds_prepared_attempt st) (ms_attempt m) && id_eqb (ds_prepared_generation st) (ms_generation m) then
      h_fail ErrorCode.DuplicateCompletion "duplicate prepare for the same authoritative generation"
    else if negb (id_eqb (ds_prepared_attempt st) (ms_attempt m)) then h_do dev_clear
    else h_fail ErrorCode.TransactionConflict "prepare out of order: prior generation unresolved"
  else h_ret tt.

(** The step on the device: the digest before, the kernel into the tentative buffer, its token and checksum, and
    the digest after. *)
Record StepResult := mkStepResult { sr_pre : Z; sr_post : Z; sr_token : Z; sr_cksum : Z }.
Definition dev_run (tok ck : Ptr) : Host (Z * Z) :=
  let cleanup s := dev_clear (free_buffer ck (free_buffer tok s)) in
  st <- h_get ;;
  attempt (launch_kernel (ds_device st) (ds_tentative st) tok ck) cleanup (fun e => "kernel launch failed: " +:+ e) ;;;
  attempt (synchronize (ds_tentative st) tok ck) cleanup (fun e => "cudaDeviceSynchronize failed: " +:+ e) ;;;
  token <- attempt (copy_word tok) cleanup (fun _ => "cudaMemcpy token failed") ;;
  cksum <- attempt (copy_word ck) cleanup (fun _ => "cudaMemcpy cksum failed") ;;
  h_do (fun s => free_buffer ck (free_buffer tok s)) ;;;
  h_ret (token, cksum).
Definition dev_alloc_tentative : Host unit :=
  st <- h_get ;;
  match ds_tentative st with
  | Some _ => h_ret tt
  | None =>
      p <- attempt malloc_floats (fun s => s) (fun _ => "cudaMalloc tentative failed") ;;
      h_set (fun st => st <| ds_tentative := Some p |>)
  end.
Definition dev_compute : Host StepResult :=
  st <- h_get ;;
  committed <- attempt (copy_to_host (ds_device st)) (fun s => s) (fun _ => "cudaMemcpy committed failed") ;;
  let pre := digest_dev committed (ds_tokens st) (ds_kv_bytes st) in
  dev_alloc_tentative ;;;
  tok <- attempt malloc_word dev_clear (fun _ => "cudaMalloc token failed") ;;
  ck <- attempt malloc_word (fun s => dev_clear (free_buffer tok s)) (fun _ => "cudaMalloc cksum failed") ;;
  words <- dev_run tok ck ;;
  st <- h_get ;;
  next <- attempt (copy_to_host (ds_tentative st)) dev_clear (fun _ => "cudaMemcpy tentative failed") ;;
  h_ret (mkStepResult pre (digest_dev next (ds_tokens st +64 1) (ds_kv_bytes st +64 kv_delta)) words.1 words.2).

(** The staged transition. *)
Definition dev_stage (m : DecodeMemberSpec) (req : DecodeExecutionRequest) (proposal : ProposalId) (r : StepResult)
    (st : DevState) : DevState :=
  st <| ds_has_tentative := true |> <| ds_prepared_proposal := proposal |> <| ds_prepared_attempt := ms_attempt m |>
     <| ds_prepared_generation := ms_generation m |> <| ds_prepared_sequence := ms_sequence m |>
     <| ds_prepared_worker := er_worker req |> <| ds_prepared_worker_boot := er_worker_boot req |>
     <| ds_prepared_epoch := er_epoch req |> <| ds_prepared_dispatch := er_dispatch_id req |>
     <| ds_tentative_kv_bytes := ds_kv_bytes st +64 kv_delta |> <| ds_tentative_token := sr_token r |>
     <| ds_tentative_checksum := sr_cksum r |> <| ds_prepared_pre_digest := sr_pre r |>
     <| ds_prepared_post_digest := sr_post r |>.

(** The proposed outcome; the end-of-sequence settings are read from the payload of every step. *)
Definition dev_outcome (m : DecodeMemberSpec) (st : DevState) (token ns : Z) : MemberOutcome :=
  let max := ms_generated_tokens m +64 ms_remaining_budget m in
  let eos := from_option (fun b => negb (Z.land b 0x01 =? 0)) false (ms_payload m !! 0%nat) in
  let eos_target := default 0 (ms_payload m !! 1%nat) in
  let terminal := (eos && (token =? eos_target)) || (ms_generated_tokens m +64 1 >=? max) in
  mkOutcome (ms_sequence m)
    (if terminal then MemberOutcomeKind.StepSuccessTerminal else MemberOutcomeKind.StepSuccessContinue)
    (ms_attempt m) (ms_generation m) 1 token terminal ErrorCode.Ok "" false 0 ns ns kv_delta
    (ds_kv_bytes st +64 kv_delta).
Definition dev_member (m : DecodeMemberSpec) (st : DevState) (proposal : ProposalId) (r : StepResult) (ns : Z) : PreparedMember :=
  mkPrepared (ms_sequence m) (sd_id (ms_state m)) (ms_attempt m) (ms_generation m) null_id null_id null_id null_id
    proposal (sr_pre r) (sr_post r) (fnv_mix (sr_pre r) (sr_post r)) (dev_outcome m st (sr_token r) ns)
    (ds_tokens st) (ds_tokens st +64 1) ns.

(** [prepare_member]. *)
Definition cuda_prepare_member (m : DecodeMemberSpec) (req : DecodeExecutionRequest) (c : CudaDecodeExecutor)
    : Result PreparedMember * CudaDecodeExecutor :=
  let t0 := steady_now (cu_ticks c) in
  let '(set, g) := cuda_call (cu_gpu c) in
  let c := c <| cu_ticks ::= S |> <| cu_gpu := g |> in
  match set with
  | inl e => (failed ErrorCode.BackendError ("cudaSetDevice failed: " +:+ e), c)
  | inr _ =>
      let sid := sd_id (ms_state m) in
      let st := default default_dev_state (cu_states c !! sid) in
      let '(res, (st, g)) := (dev_ensure m ;;; dev_settle m ;;; dev_compute) (st, cu_gpu c) in
      let c := c <| cu_gpu := g |> in
      match res with
      | Err e => (Err e, c <| cu_states ::= <[sid := st]> |>)
      | Ok r =>
          let proposal := mkId (cu_next_proposal c +64 1) in
          let ns := steady_now (cu_ticks c) - t0 in
          (Ok (dev_member m st proposal r ns),
           c <| cu_next_proposal ::= (fun n => n +64 1) |> <| cu_states ::= <[sid := dev_stage m req proposal r st]> |>
             <| cu_ticks ::= S |>)
      end
  end.

Fixpoint cuda_prepare_members (ms : list DecodeMemberSpec) (req : DecodeExecutionRequest) (c : CudaDecodeExecutor)
    : Result (list PreparedMember) * CudaDecodeExecutor :=
  match ms with
  | [] => (Ok [], c)
  | m :: ms =>
      match cuda_prepare_member m req c with
      | (Err e, c) => (Err e, c)
      | (Ok pm, c) =>
          match cuda_prepare_members ms req c with
          | (Err e, c) => (Err e, c)
          | (Ok pms, c) => (Ok (authorized req pm :: pms), c)
          end
      end
  end.
(** [prepare], [commit] and [abort] select the device first. *)
Definition with_device {A} (f : CudaDecodeExecutor -> Result A * CudaDecodeExecutor) (c : CudaDecodeExecutor)
    : Result A * CudaDecodeExecutor :=
  match cuda_call (cu_gpu c) with
  | (inl _, g) => (failed ErrorCode.BackendError "cudaSetDevice failed", c <| cu_gpu := g |>)
  | (inr _, g) => f (c <| cu_gpu := g |>)
  end.
Definition cuda_prepare (req : DecodeExecutionRequest) : CudaDecodeExecutor -> Result PreparedDecode * CudaDecodeExecutor :=
  with_device (fun c =>
    match cuda_prepare_members (er_members req) req c with
    | (Err e, c) => (Err e, c)
    | (Ok pms, c) =>
        (Ok (mkPreparedDecode (er_dispatch_id req) (er_epoch req) (er_worker req) (er_worker_boot req) pms
               (foldl (fun n pm => to_s64 (n + pm_active_ns pm)) 0 pms) ErrorCode.Ok ""), c)
    end).

(** The staged transition was prepared under exactly the grant's authority. *)
Definition dev_same_authority (st : DevState) (grant : CommitGrant) : bool :=
  id_eqb (ds_prepared_proposal st) (g_proposal grant) && id_eqb (ds_prepared_attempt st) (g_attempt grant) &&
  id_eqb (ds_prepared_generation st) (g_generation grant) && id_eqb (ds_prepared_sequence st) (g_sequence grant) &&
  id_eqb (ds_prepared_worker st) (g_worker grant) && id_eqb (ds_prepared_worker_boot st) (g_worker_boot grant) &&
  id_eqb (ds_prepared_epoch st) (g_epoch grant) && id_eqb (ds_prepared_dispatch st) (g_dispatch grant).

(** The commit of a staged transition: the checks against the grant, the promotion on the device, the counters. *)
Definition dev_commit (grant : CommitGrant) : Host unit :=
  st <- h_get ;;
  if negb (dev_same_authority st grant) then h_fail ErrorCode.SupersededByRetry "grant proposal/authority mismatch"
  else if negb (ds_tokens st =? g_committed_position grant) then
    h_fail ErrorCode.InvalidArgument "grant committed-position mismatch"
  else
    committed <- attempt (copy_to_host (ds_device st)) (fun s => s) (fun _ => "cudaMemcpy committed failed") ;;
    if negb (digest_dev committed (ds_tokens st) (ds_kv_bytes st) =? g_pre_state_digest grant) ||
       negb (ds_prepared_pre_digest st =? g_pre_state_digest grant) then
      h_fail ErrorCode.StateDigestMismatch "grant pre-state digest mismatch"
    else if negb (ds_prepared_post_digest st =? g_post_state_digest grant) then
      h_fail ErrorCode.StateDigestMismatch "grant post-state digest mismatch"
    else
      attempt (copy_on_device (ds_device st) (ds_tentative st)) (fun s => s) (fun _ => "cudaMemcpy promote failed") ;;;
      h_set (fun st => st <| ds_kv_bytes := ds_tentative_kv_bytes st |> <| ds_tokens := ds_tokens st +64 1 |>
                          <| ds_token := ds_tentative_token st |> <| ds_checksum := ds_tentative_checksum st |>) ;;;
      h_do dev_clear.

Definition dev_receipt (grant : CommitGrant) (before : Z) : MemberReceipt :=
  mkReceipt (mkId (id_value (g_grant_id grant))) (g_grant_id grant) (g_proposal grant) (g_epoch grant) (g_worker grant)
    (g_worker_boot grant) (g_sequence grant) (g_state grant) (g_attempt grant) (g_generation grant) (g_dispatch grant)
    before (before +64 1) (g_pre_state_digest grant) (g_post_state_digest grant)
    (g_delta_digest grant) (g_outcome_kind grant) (g_terminal grant) (g_token_identifier grant) (g_active_ns grant) 0.

(** [commit]. *)
Definition cuda_commit (grant : CommitGrant) : CudaDecodeExecutor -> Result MemberReceipt * CudaDecodeExecutor :=
  with_device (fun c =>
    match cu_receipts_by_grant c !! g_grant_id grant with
    | Some existing =>
        if same_grant existing grant then (Ok existing, c)
        else (failed ErrorCode.DuplicateCompletion "conflicting reuse of an already-consumed commit grant", c)
    | None =>
        match cu_states c !! g_state grant with
        | None => (failed ErrorCode.UnknownState "no prepared transition for grant state", c)
        | Some st =>
            if negb (ds_has_tentative st) || bool_decide (ds_tentative st = None) then
              (failed ErrorCode.UnknownState "no prepared transition for grant state", c)
            else
              let '(res, (st', g)) := dev_commit grant (st, cu_gpu c) in
              let c := c <| cu_gpu := g |> <| cu_states ::= <[g_state grant := st']> |> in
              match res with
              | Err e => (Err e, c)
              | Ok _ =>
                  let rec := dev_receipt grant (ds_tokens st) in
                  (Ok rec, c <| cu_consumed_proposals ::= <[g_proposal grant := true]> |>
                             <| cu_receipts_by_grant ::= <[g_grant_id grant := rec]> |>)
              end
        end
    end).

(** [abort]. *)
Definition cuda_abort (abort : AbortPrepared) : CudaDecodeExecutor -> Result unit * CudaDecodeExecutor :=
  with_device (fun c =>
    match cu_consumed_proposals c !! ab_proposal abort with
    | Some _ => (failed ErrorCode.AlreadyTerminal "abort after commit", c)
    | None =>
        match cu_states c !! ab_state abort with
        | None => (Ok tt, c)
        | Some st =>
            if ds_has_tentative st && id_eqb (ds_prepared_proposal st) (ab_proposal abort) then
              let '(st, g) := dev_clear (st, cu_gpu c) in
              (Ok tt, c <| cu_gpu := g |> <| cu_states ::= <[ab_state abort := st]> |>)
            else (Ok tt, c)
        end
    end).

#[export] Instance cuda_executor : DecodeExecutor CudaDecodeExecutor :=
  {| ex_prepare := cuda_prepare; ex_commit := cuda_commit; ex_abort := cuda_abort |}.

(** The destructor. *)
Definition destroy_state (st : DevState) (g : Gpu) : Gpu :=
  let g := match ds_device st with Some p => cuda_free p g | None => g end in
  match ds_tentative st with Some p => cuda_free p g | None => g end.
Definition cuda_destroy (c : CudaDecodeExecutor) : Gpu :=
  foldl (fun g kv => destroy_state kv.2 g) (cu_gpu c) (map_to_list (cu_states c)).

(** ** Observers *)

Definition cuda_committed_digest (id : StateId) (c : CudaDecodeExecutor) : Z * CudaDecodeExecutor :=
  match cu_states c !! id with
  | Some st =>
      if ds_inited st then
        match copy_to_host (ds_device st) (cu_gpu c) with
        | (inr host, g) => (digest_dev host (ds_tokens st) (ds_kv_bytes st), c <| cu_gpu := g |>)
        | (inl _, g) => (0, c <| cu_gpu := g |>)
        end
      else (0, c)
  | None => (0, c)
  end.
Definition cuda_has_prepared (id : StateId) (proposal : ProposalId) (c : CudaDecodeExecutor) : bool :=
  from_option (fun st => ds_has_tentative st && id_eqb (ds_prepared_proposal st) proposal) false (cu_states c !! id).
Definition cuda_committed_tokens (id : StateId) (c : CudaDecodeExecutor) : Z := from_option ds_tokens 0 (cu_states c !! id).
Definition dev_committed_checksum (id : StateId) (c : CudaDecodeExecutor) : Z := from_option ds_checksum 0 (cu_states c !! id).
End operations.
