(* ===== verification/CudaHost.v ===== *)
(** * The host code of the CUDA executor

    What [ensure_initialized], the step, [commit] and [clear_tentative] do to the device buffers of one
    state, whatever calls of the runtime fail.

    The proofs run the host code symbolically: [heap fm own g] splits device memory into the buffers
    [own] of the state at hand and a frame [fm] of all others, and [runs] is what a piece of host code
    does to [own]; in both outcomes the frame is untouched and no dead pointer was used. *)

From S2P Require Import Prelude Enums Errors Ids Compatibility Types Double FabricState Transaction Executor CpuExecutor Kernel CudaExecutor.
Open Scope Z_scope.
Open Scope host_scope.

Record heap (fm own : gmap Ptr Cell) (g : Gpu) : Prop := {
  hp_fault : gpu_fault g = false;
  hp_disjoint : own ##ₘ fm;
  hp_mem : gpu_mem g = own ∪ fm;
}.

Section cuda.
Context `{LM : Libm} `{CM : CudaMath} `{CR : CudaRuntime} {SC : SteadyClock}.
Implicit Types (fm own : gmap Ptr Cell) (g : Gpu) (st : DevState) (c : CudaDecodeExecutor).

(** ** Device memory *)

Lemma heap_lookup fm own g p x : heap fm own g -> own !! p = Some x -> gpu_mem g !! p = Some x.
Proof. intros [_ _ ->] H. by rewrite lookup_union_l'. Qed.

Lemma heap_store fm own g p x y : heap fm own g -> own !! p = Some x -> heap fm (<[p := y]> own) (store p y g).
Proof.
  intros [Hf Hd Hm] H. split; unfold store; rsimpl; [done| |by rewrite Hm, insert_union_l].
  apply map_disjoint_insert_l_2; [|done]. by eapply map_disjoint_Some_l.
Qed.

Lemma heap_call fm own g : heap fm own g -> heap fm own (cuda_call g).2.
Proof. by intros [Hf Hd Hm]. Qed.

Lemma heap_free fm own g p x : heap fm own g -> own !! p = Some x -> heap fm (delete p own) (cuda_free p g).
Proof.
  intros Hh H. unfold cuda_free. rewrite (heap_lookup _ _ _ _ _ Hh H). destruct Hh as [Hf Hd Hm]. split; rsimpl; [done| |].
  - by apply map_disjoint_delete_l.
  - rewrite Hm, delete_union. f_equal. apply delete_id. by eapply map_disjoint_Some_l.
Qed.

Lemma heap_malloc fm own g init :
  heap fm own g ->
  match cuda_malloc init g with
  | (inl _, g') => heap fm own g'
  | (inr p, g') => own !! p = None /\ exists n, heap fm (<[p := init n]> own) g'
  end.
Proof.
  intros Hh. apply heap_call in Hh. unfold cuda_malloc. destruct (cuda_call g) as [[e|u] g1]; [done|]. cbn [snd] in Hh.
  destruct Hh as [Hf Hd Hm]. pose proof (is_fresh (dom (gpu_mem g1))) as Hp. set (p := fresh _) in *. clearbody p.
  apply not_elem_of_dom in Hp. rewrite Hm, lookup_union_None in Hp. destruct Hp as [Hp1 Hp2]. split; [done|]. eexists.
  split; unfold store; rsimpl; [done| |by rewrite Hm, insert_union_l]. by apply map_disjoint_insert_l_2.
Qed.

(** ** Host code *)

(** From the state [st] that owns [own], the code ends in [Q], or in [R] with an error. *)
Definition runs {A} fm own st (h : Host A) (Q : A -> DevState -> gmap Ptr Cell -> Prop)
    (R : DevState -> gmap Ptr Cell -> Prop) : Prop :=
  forall g, heap fm own g ->
    match h (st, g) with
    | (Ok a, (st', g')) => exists own', heap fm own' g' /\ Q a st' own'
    | (Err _, (st', g')) => exists own', heap fm own' g' /\ R st' own'
    end.

(** From there the clean-up ends in [R]. *)
Definition cleans fm own st (f : HostState -> HostState) (R : DevState -> gmap Ptr Cell -> Prop) : Prop :=
  forall g, heap fm own g -> exists own', heap fm own' (f (st, g)).2 /\ R (f (st, g)).1 own'.

Lemma runs_ret {A} fm own st (a : A) (Q : A -> DevState -> gmap Ptr Cell -> Prop) R : Q a st own -> runs fm own st (h_ret a) Q R.
Proof. intros HQ g Hh. by exists own. Qed.
Lemma runs_fail {A} fm own st code msg (Q : A -> DevState -> gmap Ptr Cell -> Prop) (R : DevState -> gmap Ptr Cell -> Prop) :
  R st own -> runs fm own st (h_fail code msg) Q R.
Proof. intros HR g Hh. by exists own. Qed.
Lemma runs_bind {A B} fm own st (h : Host A) (k : A -> Host B) Q1 Q R :
  runs fm own st h Q1 R -> (forall a st' own', Q1 a st' own' -> runs fm own' st' (k a) Q R) -> runs fm own st (h_bind h k) Q R.
Proof.
  intros H1 Hk g Hh. unfold h_bind. specialize (H1 g Hh). destruct (h (st, g)) as [[a|e] [st' g']]; [|done].
  destruct H1 as (own' & Hh' & HQ). by apply (Hk a st' own' HQ).
Qed.
Lemma runs_get {B} fm own st (k : DevState -> Host B) Q R : runs fm own st (k st) Q R -> runs fm own st (h_bind h_get k) Q R.
Proof. intros H g Hh. exact (H g Hh). Qed.
Lemma runs_set {B} fm own st f (k : unit -> Host B) Q R :
  runs fm own (f st) (k tt) Q R -> runs fm own st (h_bind (h_set f) k) Q R.
Proof. intros H g Hh. exact (H g Hh). Qed.
Lemma runs_do fm own st f (Q : unit -> DevState -> gmap Ptr Cell -> Prop) R :
  cleans fm own st f (Q tt) -> runs fm own st (h_do f) Q R.
Proof. intros H g Hh. destruct (H g Hh) as (own' & H1 & H2). cbn. destruct (f (st, g)) as [st' g']. by exists own'. Qed.

(** A runtime call: [post] is what it does to the buffers, [fail] what a failure may do. *)
Lemma runs_attempt {A} fm own st (cu : Cuda A) cleanup msg (Q : A -> DevState -> gmap Ptr Cell -> Prop) R (post : A -> gmap Ptr Cell -> Prop) (fail : gmap Ptr Cell -> Prop) :
  (forall g, heap fm own g -> match cu g with
    | (inr a, g') => exists own', heap fm own' g' /\ post a own'
    | (inl _, g') => exists own', heap fm own' g' /\ fail own' end) ->
  (forall a own', post a own' -> Q a st own') -> (forall own', fail own' -> cleans fm own' st cleanup R) ->
  runs fm own st (attempt cu cleanup msg) Q R.
Proof.
  intros Hc Hp Hf g Hh. unfold attempt. specialize (Hc g Hh). destruct (cu g) as [[e|a] g'];
    destruct Hc as (own' & Hh' & H); [|exists own'; auto].
  cbn. destruct (Hf own' H g' Hh') as (own2 & H1 & H2). destruct (cleanup (st, g')) as [st2 g2]. by exists own2.
Qed.

Lemma runs_malloc fm own st init cleanup msg (Q : Ptr -> DevState -> gmap Ptr Cell -> Prop) R :
  (forall p n, own !! p = None -> Q p st (<[p := init n]> own)) -> cleans fm own st cleanup R ->
  runs fm own st (attempt (cuda_malloc init) cleanup msg) Q R.
Proof.
  intros HQ Hf. apply (runs_attempt _ _ _ _ _ _ _ _ (fun p own' => own !! p = None /\ exists n, own' = <[p := init n]> own) (eq own)).
  - intros g Hh. pose proof (heap_malloc fm own g init Hh) as H. destruct (cuda_malloc init g) as [[e|p] g']; [by exists own|].
    destruct H as [Hp [n Hn]]. eexists. split; [exact Hn|]. eauto.
  - intros p own' [Hp [n ->]]. auto.
  - by intros own' <-.
Qed.

Lemma runs_read fm own st p l cleanup msg (Q : list float -> DevState -> gmap Ptr Cell -> Prop) R :
  own !! p = Some (CFloats l) -> Q l st own -> cleans fm own st cleanup R ->
  runs fm own st (attempt (copy_to_host (Some p)) cleanup msg) Q R.
Proof.
  intros Hp HQ Hf. apply (runs_attempt _ _ _ _ _ _ _ _ (fun l' own' => l' = l /\ own' = own) (eq own)).
  - intros g Hh. unfold copy_to_host. cbn [mbind option_bind]. rewrite (heap_lookup _ _ _ _ _ Hh Hp).
    pose proof (heap_call _ _ _ Hh). destruct (cuda_call g) as [[e|u] g']; by exists own.
  - by intros l' own' [-> ->].
  - by intros own' <-.
Qed.

Lemma runs_read_word fm own st p v cleanup msg (Q : Z -> DevState -> gmap Ptr Cell -> Prop) R :
  own !! p = Some (CWord v) -> Q v st own -> cleans fm own st cleanup R ->
  runs fm own st (attempt (copy_word p) cleanup msg) Q R.
Proof.
  intros Hp HQ Hf. apply (runs_attempt _ _ _ _ _ _ _ _ (fun v' own' => v' = v /\ own' = own) (eq own)).
  - intros g Hh. unfold copy_word. rewrite (heap_lookup _ _ _ _ _ Hh Hp).
    pose proof (heap_call _ _ _ Hh). destruct (cuda_call g) as [[e|u] g']; by exists own.
  - by intros v' own' [-> ->].
  - by intros own' <-.
Qed.

Lemma heap_write fm own g p l0 l :
  heap fm own g -> own !! p = Some (CFloats l0) ->
  match copy_to_device (Some p) l g with
  | (inr _, g') => heap fm (<[p := CFloats l]> own) g'
  | (inl _, g') => exists l', length l' = kStateSize /\ heap fm (<[p := CFloats l']> own) g'
  end.
Proof.
  intros Hh Hp. unfold copy_to_device. rewrite (heap_lookup _ _ _ _ _ Hh Hp). apply heap_call in Hh.
  destruct (cuda_call g) as [[e|u] g']; [eexists; split; [apply cuda_garbage_length|]|]; by eapply heap_store.
Qed.

Lemma runs_write fm own st p l0 l cleanup msg (Q : unit -> DevState -> gmap Ptr Cell -> Prop) R :
  own !! p = Some (CFloats l0) -> Q tt st (<[p := CFloats l]> own) ->
  (forall l', length l' = kStateSize -> cleans fm (<[p := CFloats l']> own) st cleanup R) ->
  runs fm own st (attempt (copy_to_device (Some p) l) cleanup msg) Q R.
Proof.
  intros Hp HQ Hf. apply (runs_attempt _ _ _ _ _ _ _ _ (fun _ own' => own' = <[p := CFloats l]> own)
    (fun own' => exists l', length l' = kStateSize /\ own' = <[p := CFloats l']> own)).
  - intros g Hh. pose proof (heap_write fm own g p l0 l Hh Hp) as H. destruct (copy_to_device _ _ g) as [[e|u] g']; [|by eexists].
    destruct H as (l' & Hl & Hh'). eexists. eauto.
  - by intros [] own' ->.
  - intros own' (l' & Hl & ->). auto.
Qed.

Lemma runs_promote fm own st d t l0 l cleanup msg (Q : unit -> DevState -> gmap Ptr Cell -> Prop) R :
  own !! d = Some (CFloats l0) -> own !! t = Some (CFloats l) -> Q tt st (<[d := CFloats l]> own) ->
  (forall l', length l' = kStateSize -> cleans fm (<[d := CFloats l']> own) st cleanup R) ->
  runs fm own st (attempt (copy_on_device (Some d) (Some t)) cleanup msg) Q R.
Proof.
  intros Hd Ht HQ Hf. pose proof (runs_write fm own st d l0 l cleanup msg Q R Hd HQ Hf) as H. intros g Hh. specialize (H g Hh).
  unfold attempt, copy_on_device in *. cbn [mbind option_bind]. by rewrite (heap_lookup _ _ _ _ _ Hh Ht).
Qed.

(** ** The step on the device *)

(** The buffers of an idle state, of a staged one, and during a step. *)
Definition one (d : Ptr) (l : list float) : gmap Ptr Cell := {[d := CFloats l]}.
Definition two (d t : Ptr) (l x : list float) : gmap Ptr Cell := <[t := CFloats x]> (one d l).
Definition four (d t tok ck : Ptr) (l x : list float) (v w : Z) : gmap Ptr Cell :=
  <[ck := CWord w]> (<[tok := CWord v]> (two d t l x)).

Record apart (d t tok ck : Ptr) : Prop := {
  ap_dt : d <> t; ap_dk : d <> tok; ap_dc : d <> ck; ap_tk : t <> tok; ap_tc : t <> ck; ap_kc : tok <> ck;
}.
Lemma apart_NoDup d t tok ck : apart d t tok ck -> NoDup [d; t; tok; ck].
Proof. intros []. repeat (constructor; [rewrite ?not_elem_of_cons; auto using not_elem_of_nil|]). constructor. Qed.

Lemma four_lookups d t tok ck l x v w :
  apart d t tok ck ->
  four d t tok ck l x v w !! d = Some (CFloats l) /\ four d t tok ck l x v w !! t = Some (CFloats x) /\
  four d t tok ck l x v w !! tok = Some (CWord v) /\ four d t tok ck l x v w !! ck = Some (CWord w).
Proof. intros []. unfold four, two, one. split_and!; by simplify_map_eq. Qed.

Lemma four_update d t tok ck l x v w x' v' w' :
  apart d t tok ck ->
  <[ck := CWord w']> (<[tok := CWord v']> (<[t := CFloats x']> (four d t tok ck l x v w))) = four d t tok ck l x' v' w'.
Proof.
  intros []. unfold four, two, one. apply map_eq. intros i.
  destruct (decide (i = ck)) as [->|]; [by simplify_map_eq|]. destruct (decide (i = tok)) as [->|]; [by simplify_map_eq|].
  destruct (decide (i = t)) as [->|]; by simplify_map_eq.
Qed.

Lemma four_free d t tok ck l x v w : apart d t tok ck -> delete ck (delete tok (four d t tok ck l x v w)) = two d t l x.
Proof.
  intros []. unfold four, two, one. apply map_eq. intros i.
  destruct (decide (i = ck)) as [->|]; [by simplify_map_eq|]. destruct (decide (i = tok)) as [->|]; by simplify_map_eq.
Qed.

Lemma two_free d t l x : d <> t -> delete t (two d t l x) = one d l.
Proof. intros H. unfold two. apply delete_insert_id. by unfold one; simplify_map_eq. Qed.

Lemma two_lookups d t l x : d <> t -> two d t l x !! d = Some (CFloats l) /\ two d t l x !! t = Some (CFloats x).
Proof. intros H. unfold two, one. split; by simplify_map_eq. Qed.

(** The clean-ups of the early returns. *)
Lemma cleans_id fm own st (R : DevState -> gmap Ptr Cell -> Prop) : R st own -> cleans fm own st (fun s => s) R.
Proof. intros HR g Hh. by exists own. Qed.
Lemma cleans_free fm own st p x f (R : DevState -> gmap Ptr Cell -> Prop) :
  own !! p = Some x -> cleans fm (delete p own) st f R -> cleans fm own st (fun s => f (free_buffer p s)) R.
Proof. intros Hp Hc g Hh. apply Hc. by eapply heap_free. Qed.
Lemma cleans_clear fm own st t x (R : DevState -> gmap Ptr Cell -> Prop) :
  ds_tentative st = Some t -> own !! t = Some x -> R (dev_cleared st) (delete t own) -> cleans fm own st dev_clear R.
Proof. intros Ht Hx HR g Hh. exists (delete t own). unfold dev_clear. cbn [fst snd]. rewrite Ht. split; [by eapply heap_free|done]. Qed.

Lemma cleans_step fm d t tok ck l x v w st (R : DevState -> gmap Ptr Cell -> Prop) :
  apart d t tok ck -> ds_tentative st = Some t -> R (dev_cleared st) (one d l) ->
  cleans fm (four d t tok ck l x v w) st (fun s => dev_clear (free_buffer ck (free_buffer tok s))) R.
Proof.
  intros Ha Ht HR. destruct (four_lookups d t tok ck l x v w Ha) as (_ & _ & Hk & Hc). pose proof Ha as [].
  eapply (cleans_free _ _ _ tok _ (fun s => dev_clear (free_buffer ck s))); [exact Hk|].
  eapply cleans_free; [rewrite lookup_delete_ne by done; exact Hc|]. rewrite four_free by done.
  eapply cleans_clear; [done|by apply two_lookups|]. by rewrite two_free.
Qed.

Lemma runs_launch fm d t tok ck l x v w st cleanup msg (Q : unit -> DevState -> gmap Ptr Cell -> Prop) R :
  apart d t tok ck ->
  Q tt st (four d t tok ck l (dev_step l) (dev_token (dev_step l)) (dev_checksum (dev_step l))) ->
  cleans fm (four d t tok ck l x v w) st cleanup R ->
  runs fm (four d t tok ck l x v w) st (attempt (launch_kernel (Some d) (Some t) tok ck) cleanup msg) Q R.
Proof.
  intros Ha HQ Hf. destruct (four_lookups d t tok ck l x v w Ha) as (Hd & Ht & Hk & Hc).
  apply (runs_attempt _ _ _ _ _ _ _ _ (fun _ own' => own' = four d t tok ck l (dev_step l) (dev_token (dev_step l)) (dev_checksum (dev_step l)))
    (eq (four d t tok ck l x v w))).
  - intros g Hh. unfold launch_kernel, launch_args. rewrite !(heap_lookup _ _ _ _ _ Hh Hd), !(heap_lookup _ _ _ _ _ Hh Ht),
      !(heap_lookup _ _ _ _ _ Hh Hk), !(heap_lookup _ _ _ _ _ Hh Hc).
    rewrite bool_decide_true by by apply apart_NoDup. apply heap_call in Hh.
    destruct (cuda_call g) as [[e|u] g']; [by eexists|]. eexists. split; [|done]. rewrite <- (four_update _ _ _ _ _ x v w) by done.
    pose proof Ha as []. eapply heap_store; [eapply heap_store; [eapply heap_store; [exact Hh|]|]|]; by rewrite ?lookup_insert_ne by done.
  - by intros [] own' ->.
  - by intros own' <-.
Qed.

Lemma runs_sync fm d t tok ck l x v w st cleanup msg (Q : unit -> DevState -> gmap Ptr Cell -> Prop) R :
  apart d t tok ck -> Q tt st (four d t tok ck l x v w) ->
  (forall x' v' w', cleans fm (four d t tok ck l x' v' w') st cleanup R) ->
  runs fm (four d t tok ck l x v w) st (attempt (synchronize (Some t) tok ck) cleanup msg) Q R.
Proof.
  intros Ha HQ Hf. destruct (four_lookups d t tok ck l x v w Ha) as (Hd & Ht & Hk & Hc).
  apply (runs_attempt _ _ _ _ _ _ _ _ (fun _ own' => own' = four d t tok ck l x v w) (fun own' => exists x' v' w', own' = four d t tok ck l x' v' w')).
  - intros g Hh. unfold synchronize. apply heap_call in Hh. destruct (cuda_call g) as [[e|u] g']; [|by eexists].
    eexists. split; [|do 3 eexists; by rewrite <- (four_update _ _ _ _ _ x v w)].
    pose proof Ha as []. eapply heap_store; [eapply heap_store; [eapply heap_store; [exact Hh|]|]|]; by rewrite ?lookup_insert_ne by done.
  - by intros [] own' ->.
  - intros own' (x' & v' & w' & ->). auto.
Qed.

Lemma runs_run fm d t tok ck l x v w st (Q : Z * Z -> DevState -> gmap Ptr Cell -> Prop) R :
  apart d t tok ck -> ds_device st = Some d -> ds_tentative st = Some t ->
  Q (dev_token (dev_step l), dev_checksum (dev_step l)) st (two d t l (dev_step l)) -> R (dev_cleared st) (one d l) ->
  runs fm (four d t tok ck l x v w) st (dev_run tok ck) Q R.
Proof.
  intros Ha Hd Ht HQ HR. unfold dev_run. apply runs_get. rewrite Hd, Ht.
  assert (Hcl : forall x v w, cleans fm (four d t tok ck l x v w) st (fun s => dev_clear (free_buffer ck (free_buffer tok s))) R)
    by (intros; by apply cleans_step).
  eapply runs_bind; [eapply (runs_launch _ _ _ _ _ _ _ _ _ _ _ _ (fun _ st' own' => st' = st /\ own' = _)); eauto|].
  intros _ st' own' [-> ->].
  eapply runs_bind; [eapply (runs_sync _ _ _ _ _ _ _ _ _ _ _ _ (fun _ st' own' => st' = st /\ own' = _)); eauto|].
  intros _ st' own' [-> ->]. pose proof (four_lookups d t tok ck l (dev_step l) (dev_token (dev_step l)) (dev_checksum (dev_step l)) Ha) as (_ & _ & Hk & Hc).
  eapply runs_bind; [eapply (runs_read_word _ _ _ _ _ _ _ (fun v st' own' => v = _ /\ st' = st /\ own' = _)); eauto|].
  intros ? st' own' (-> & -> & ->).
  eapply runs_bind; [eapply (runs_read_word _ _ _ _ _ _ _ (fun v st' own' => v = _ /\ st' = st /\ own' = _)); eauto|].
  intros ? st' own' (-> & -> & ->).
  apply (runs_bind _ _ _ _ _ (fun _ => Q (dev_token (dev_step l), dev_checksum (dev_step l)))); [|intros; by apply runs_ret].
  apply runs_do. pose proof Ha as [].
  eapply (cleans_free _ _ _ tok _ (free_buffer ck)); [exact Hk|].
  eapply (cleans_free _ _ _ ck _ (fun s => s)); [rewrite lookup_delete_ne by done; exact Hc|]. rewrite four_free by done.
  by apply cleans_id.
Qed.

(** The state of one transaction: what a commit changes. *)
Definition idle (d : Ptr) (tokens kv : Z) st : Prop :=
  ds_device st = Some d /\ ds_tentative st = None /\ ds_inited st = true /\ ds_has_tentative st = false /\
  ds_tokens st = tokens /\ ds_kv_bytes st = kv.
Definition staged (d t : Ptr) (tokens kv : Z) st : Prop :=
  ds_device st = Some d /\ ds_tentative st = Some t /\ ds_inited st = true /\ ds_has_tentative st = true /\
  ds_tokens st = tokens /\ ds_kv_bytes st = kv /\ d <> t.

(** The result of a step from the committed state [l]. *)
Definition step_result (l : list float) (tokens kv : Z) : StepResult :=
  mkStepResult (digest_dev l tokens kv) (digest_dev (dev_step l) (tokens +64 1) (kv +64 kv_delta))
    (dev_token (dev_step l)) (dev_checksum (dev_step l)).

Lemma runs_compute fm d l tokens kv st (Q : StepResult -> DevState -> gmap Ptr Cell -> Prop) (R : DevState -> gmap Ptr Cell -> Prop) :
  idle d tokens kv st ->
  (forall t, d <> t -> Q (step_result l tokens kv) (st <| ds_tentative := Some t |>) (two d t l (dev_step l))) ->
  (forall st', idle d tokens kv st' -> R st' (one d l)) ->
  runs fm (one d l) st dev_compute Q R.
Proof.
  intros Hi HQ HR. pose proof Hi as (Hd & Ht & H3 & H4 & Hk & Hv). unfold dev_compute. apply runs_get.
  rewrite Hd. eapply runs_bind; [eapply (runs_read _ _ _ _ l _ _ (fun l' st' own' => l' = l /\ st' = st /\ own' = one d l)); [apply lookup_singleton_eq|done|apply cleans_id; auto]|].
  intros ? st' own' (-> & -> & ->). rewrite Hk, Hv.
  eapply (runs_bind _ _ _ _ _ (fun _ st' own' => exists t x, d <> t /\ st' = st <| ds_tentative := Some t |> /\ own' = two d t l x)).
  { unfold dev_alloc_tentative. apply runs_get. rewrite Ht.
    eapply runs_bind; [eapply (runs_malloc _ _ _ _ _ _ (fun p st' own' => st' = st /\ d <> p /\ exists x, own' = two d p l x))|].
    - intros p n Hp. split_and!; [done| |by eexists]. intros <-. by unfold one in Hp; simplify_map_eq.
    - apply cleans_id. auto.
    - intros t st' own' (-> & Hdt & x & ->). intros g Hh. exists (two d t l x). split; [exact Hh|]. by exists t, x. }
  intros [] st' own' (t & x & Hdt & -> & ->). set (st1 := st <| ds_tentative := Some t |>).
  assert (Hcl : idle d tokens kv (dev_cleared st1)) by (unfold idle, dev_cleared; subst st1; by rsimpl).
  destruct (two_lookups d t l x Hdt) as [Ld Lt].
  eapply runs_bind; [eapply (runs_malloc _ _ _ _ _ _ (fun p st' own' => st' = st1 /\ d <> p /\ t <> p /\ exists v, own' = <[p := CWord v]> (two d t l x)))|].
  { intros p n Hp. split_and!; [done|by intros <-; congruence|by intros <-; congruence|by eexists]. }
  { eapply cleans_clear; [by subst st1; rsimpl|exact Lt|]. rewrite two_free by done. auto. }
  intros tok st' own' (-> & Hdk & Htk & v & ->).
  eapply runs_bind; [eapply (runs_malloc _ _ _ _ _ _ (fun p st' own' => st' = st1 /\ apart d t tok p /\ exists w, own' = four d t tok p l x v w))|].
  { intros p n Hp. split_and!; [done| |by eexists]. apply lookup_insert_None in Hp as [Hp Hpk].
    split; try done; intros <-; congruence. }
  { eapply (cleans_free _ _ _ tok _ dev_clear); [apply lookup_insert_eq|]. rewrite delete_insert_id by (unfold two, one; by simplify_map_eq).
    eapply cleans_clear; [by subst st1; rsimpl|exact Lt|]. rewrite two_free by done. auto. }
  intros ck st' own' (-> & Ha & w & ->).
  eapply runs_bind; [eapply (runs_run _ _ _ _ _ _ _ _ _ _ (fun r st' own' => r = (dev_token (dev_step l), dev_checksum (dev_step l)) /\ st' = st1 /\ own' = two d t l (dev_step l)))|];
    [exact Ha|by subst st1; rsimpl|by subst st1; rsimpl|done|auto|].
  intros ? st' own' (-> & -> & ->). apply runs_get. subst st1. rsimpl. rewrite Hk, Hv.
  eapply runs_bind; [eapply (runs_read _ _ _ _ (dev_step l) _ _ (fun l' st' own' => l' = dev_step l /\ st' = st <| ds_tentative := Some t |> /\ own' = two d t l (dev_step l)))|].
  { by apply two_lookups. } { done. }
  { eapply cleans_clear; [by rsimpl|by apply two_lookups|]. rewrite two_free by done. auto. }
  intros ? st' own' (-> & -> & ->). apply runs_ret. by apply HQ.
Qed.

(** ** The entry of one state *)

(** Between operations a state owns nothing, its committed buffer, or its committed and its tentative buffer. *)
Inductive entry : gmap Ptr Cell -> DevState -> Prop :=
  | en_fresh st : ds_device st = None -> ds_tentative st = None -> ds_inited st = false -> ds_has_tentative st = false -> entry ∅ st
  | en_idle d l st : length l = kStateSize -> idle d (ds_tokens st) (ds_kv_bytes st) st -> entry (one d l) st
  | en_staged d t l x st : length l = kStateSize -> length x = kStateSize ->
      staged d t (ds_tokens st) (ds_kv_bytes st) st -> entry (two d t l x) st.

Lemma entry_default : entry ∅ default_dev_state.
Proof. by apply en_fresh. Qed.

(** The committed buffer of an initialized state, which may be overwritten together with the counters. *)
Lemma entry_device own st :
  entry own st -> ds_inited st = true ->
  exists d l, ds_device st = Some d /\ own !! d = Some (CFloats l) /\ length l = kStateSize /\
    forall l' tokens kv, length l' = kStateSize ->
      entry (<[d := CFloats l']> own) (st <| ds_tokens := tokens |> <| ds_kv_bytes := kv |>).
Proof.
  intros He Hin. destruct He as [st _ _ H _|d l st Hl (H1 & H2 & H3 & H4 & _ & _)|d t l x st Hl Hx (H1 & H2 & H3 & H4 & _ & _ & Hdt)]; [congruence| |].
  - exists d, l. split_and!; [done|apply lookup_singleton_eq|done|]. intros l' tokens kv Hl'. unfold one. rewrite insert_singleton_eq.
    apply (en_idle d l'); [done|]. unfold idle. by rsimpl.
  - exists d, l. split_and!; [done|by apply two_lookups|done|]. intros l' tokens kv Hl'. unfold two, one.
    rewrite insert_insert_ne, insert_singleton_eq by done. apply (en_staged d t l' x); [done|done|]. unfold staged. by rsimpl.
Qed.

Lemma length_step_float s : length (step_state_float s) = length s.
Proof. unfold step_state_float. by rewrite length_fmap, length_seq. Qed.
Lemma length_dev_step s : length (dev_step s) = length s.
Proof. unfold dev_step. by rewrite length_fmap, length_seq. Qed.
Lemma length_initial_float sid seed : length (initial_state_float sid seed) = kStateSize.
Proof. unfold initial_state_float. by rewrite length_fmap. Qed.
Lemma length_catch_up fuel target x : length (catch_up_float fuel target x).1.1 = length x.1.1.
Proof.
  revert x. induction fuel as [|fuel IH]; intros [[host tokens] kv]; cbn [catch_up_float]; [done|].
  destruct (tokens <? target); [|done]. rewrite IH. apply length_step_float.
Qed.

Lemma runs_init fm own st m :
  entry own st -> runs fm own st (dev_init m) (fun _ st' own' => entry own' st' /\ ds_inited st' = true) (fun st' own' => entry own' st').
Proof.
  intros He. unfold dev_init. apply runs_get. destruct (ds_inited st) eqn:Hin; [by apply runs_ret|].
  destruct He as [st H1 H2 H3 H4|d l st _ (_ & _ & H & _)|d t l x st _ _ (_ & _ & H & _)]; [|congruence..].
  eapply runs_bind; [eapply (runs_malloc _ _ _ _ _ _ (fun p st' own' => st' = st /\ exists x, own' = one p x)); [|by apply cleans_id, en_fresh]|].
  { intros p n _. split; [done|]. by eexists. }
  intros p st' own' (-> & x & ->). apply runs_set.
  eapply runs_bind.
  - eapply (runs_write _ _ _ _ _ _ _ _ (fun _ st' own' => st' = _ /\ own' = _)); [apply lookup_singleton_eq|split; reflexivity|].
    intros l' _ g Hh. exists ∅. cbn [free_buffer fst snd]. split; [|apply en_fresh; by rsimpl].
    eapply heap_free in Hh; [|unfold one; rewrite insert_singleton_eq; apply lookup_singleton_eq].
    unfold one in Hh. by rewrite insert_singleton_eq, delete_singleton_eq in Hh.
  - intros [] st' own' [-> ->]. intros g Hh. eexists. split; [exact Hh|]. unfold one. rewrite insert_singleton_eq. rsimpl. split; [|done].
    eapply (en_idle p); [apply length_initial_float|]. unfold idle. rsimpl. split_and!; done.
Qed.

Lemma runs_ensure fm own st m :
  entry own st -> runs fm own st (dev_ensure m) (fun _ st' own' => entry own' st' /\ ds_inited st' = true) (fun st' own' => entry own' st').
Proof.
  intros He. unfold dev_ensure. eapply runs_bind; [by apply runs_init|]. intros [] st1 own1 [He1 Hin1]. apply runs_get.
  destruct (ds_tokens st1 <? ms_generated_tokens m); [|by apply runs_ret].
  destruct (entry_device own1 st1 He1 Hin1) as (d & l & Hd & Hl & Hlen & Hup). rewrite Hd.
  eapply runs_bind; [eapply (runs_read _ _ _ _ l _ _ (fun l' st' own' => l' = l /\ st' = st1 /\ own' = own1)); [done|done|by apply cleans_id]|].
  intros ? st' own' (-> & -> & ->).
  pose proof (length_catch_up (Z.to_nat (ms_generated_tokens m - ds_tokens st1)) (ms_generated_tokens m) (l, ds_tokens st1, ds_kv_bytes st1)) as Hc.
  destruct (catch_up_float _ _ _) as [[host tokens] kv]. cbn in Hc. apply runs_set.
  eapply runs_write; [exact Hl| |].
  - split; [apply Hup; congruence|by rsimpl].
  - intros l' Hl'. apply cleans_id, Hup. done.
Qed.

(** A state that is not behind is left alone. *)
Lemma ensure_not_behind st g m :
  ds_inited st = true -> ms_generated_tokens m <= ds_tokens st -> dev_ensure m (st, g) = (Ok tt, (st, g)).
Proof.
  intros Hin Hle. unfold dev_ensure, dev_init, h_bind, h_get. cbn [fst]. rewrite Hin. cbn [h_ret fst].
  destruct (Z.ltb_spec (ds_tokens st) (ms_generated_tokens m)); [lia|done].
Qed.

(** ** Preparing one state *)

(** The committed buffer [l] and the counters. *)
Definition committed_as (d : Ptr) (l : list float) (tokens kv : Z) own st : Prop :=
  ds_device st = Some d /\ own !! d = Some (CFloats l) /\ ds_inited st = true /\ ds_tokens st = tokens /\ ds_kv_bytes st = kv.

Lemma committed_idle d l tokens kv st : idle d tokens kv st -> committed_as d l tokens kv (one d l) st.
Proof. intros (H1 & H2 & H3 & H4 & H5 & H6). split_and!; try done. apply lookup_singleton_eq. Qed.

(** A step was computed into a new tentative buffer; the committed one is as it was. *)
Record computed (d t : Ptr) (l : list float) (tokens kv : Z) (r : StepResult) st own : Prop := {
  cp_apart : d <> t;
  cp_result : r = step_result l tokens kv;
  cp_own : own = two d t l (dev_step l);
  cp_device : ds_device st = Some d;
  cp_tentative : ds_tentative st = Some t;
  cp_inited : ds_inited st = true;
  cp_tokens : ds_tokens st = tokens;
  cp_kv : ds_kv_bytes st = kv;
}.

Lemma computed_committed d t l tokens kv r st own : computed d t l tokens kv r st own -> committed_as d l tokens kv own st.
Proof. intros [H1 _ -> H3 _ H5 H6 H7]. split_and!; try done. by apply two_lookups. Qed.

Lemma computed_entry d t l tokens kv r st own m req proposal :
  length l = kStateSize -> computed d t l tokens kv r st own -> entry own (dev_stage m req proposal r st).
Proof.
  intros Hl [H1 _ -> H3 H4 H5 H6 H7]. apply (en_staged d t); [done|by rewrite length_dev_step|].
  unfold staged, dev_stage. rsimpl. split_and!; done.
Qed.

Lemma runs_compute_idle fm d l tokens kv st :
  length l = kStateSize -> idle d tokens kv st ->
  runs fm (one d l) st dev_compute (fun r st' own' => exists t, computed d t l tokens kv r st' own')
    (fun st' own' => entry own' st' /\ committed_as d l tokens kv own' st').
Proof.
  intros Hl Hi. eapply runs_compute; [exact Hi| |].
  - intros t Hdt. exists t. destruct Hi as (H1 & H2 & H3 & H4 & H5 & H6). split; rsimpl; done.
  - intros st' Hi'. split; [|by apply committed_idle]. apply (en_idle d); [done|]. destruct Hi' as (H1 & H2 & H3 & H4 & H5 & H6).
    by split_and!.
Qed.

Lemma runs_transition fm own st m d l tokens kv :
  entry own st -> committed_as d l tokens kv own st ->
  runs fm own st (dev_settle m ;;; dev_compute) (fun r st' own' => exists t, computed d t l tokens kv r st' own')
    (fun st' own' => entry own' st' /\ committed_as d l tokens kv own' st').
Proof.
  intros He Hc. pose proof Hc as (Hd & Hl & Hin & Hk & Hv).
  assert (Hlen : length l = kStateSize) by (destruct (entry_device own st He Hin) as (d' & l' & ? & ? & ? & _); congruence).
  apply (runs_bind _ _ _ _ _ (fun _ st' own' => idle d tokens kv st' /\ own' = one d l));
    [|intros [] st' own' [Hi ->]; by apply runs_compute_idle].
  apply runs_get. destruct He as [st _ _ H _|d' l' st _ Hi|d' t l' x st H6 Hx Hs]; [congruence| |].
  - pose proof Hi as (H1 & H2 & H3 & H4 & _ & _). assert (d' = d) as -> by congruence.
    assert (l' = l) as -> by (unfold one in Hl; simplify_map_eq; congruence). rewrite H4. apply runs_ret. by split_and!.
  - pose proof Hs as (H1 & H2 & H3 & H4 & _ & _ & Hdt). assert (d' = d) as -> by congruence.
    assert (l' = l) as -> by (destruct (two_lookups d t l' x Hdt); congruence). rewrite H4.
    assert (Hsame : entry (two d t l x) st /\ committed_as d l tokens kv (two d t l x) st) by (split; [by apply (en_staged d t)|done]).
    destruct (_ && _); [by apply runs_fail|]. destruct (negb _); [|by apply runs_fail]. apply runs_do.
    eapply cleans_clear; [done|by apply two_lookups|]. rewrite two_free by done. split; [|done]. unfold idle, dev_cleared. by rsimpl.
Qed.

(** The whole host code of a prepare. *)
Lemma runs_prepare fm own st m :
  entry own st ->
  runs fm own st (dev_ensure m ;;; dev_settle m ;;; dev_compute)
    (fun r st' own' => forall m req proposal, entry own' (dev_stage m req proposal r st')) (fun st' own' => entry own' st').
Proof.
  intros He. eapply runs_bind; [by apply runs_ensure|]. intros [] st1 own1 [He1 Hin].
  destruct (entry_device own1 st1 He1 Hin) as (d & l & Hd & Hl & Hlen & _).
  intros g Hh. pose proof (runs_transition fm own1 st1 m d l _ _ He1 (conj Hd (conj Hl (conj Hin (conj eq_refl eq_refl)))) g Hh) as H.
  destruct ((dev_settle m ;;; dev_compute) (st1, g)) as [[r|e] [st' g']]; destruct H as (own' & Hh' & H); exists own'; (split; [done|]).
  - destruct H as [t H]. intros. by eapply computed_entry.
  - by destruct H.
Qed.

(** When the state is not behind, its committed buffer and counters survive, success or not. *)
Lemma runs_prepare_committed fm own st m d l tokens kv :
  entry own st -> committed_as d l tokens kv own st -> ms_generated_tokens m <= tokens ->
  runs fm own st (dev_ensure m ;;; dev_settle m ;;; dev_compute)
    (fun r st' own' => exists t, computed d t l tokens kv r st' own') (fun st' own' => committed_as d l tokens kv own' st').
Proof.
  intros He Hc Hle g Hh. pose proof Hc as (_ & _ & Hin & Hk & _). unfold h_bind at 1.
  rewrite ensure_not_behind by (done || lia). pose proof (runs_transition fm own st m d l tokens kv He Hc g Hh) as H.
  destruct ((dev_settle m ;;; dev_compute) (st, g)) as [[r|e] [st' g']]; destruct H as (own' & Hh' & H); exists own'; (split; [done|]); [done|].
  by destruct H.
Qed.

(** ** Committing one state *)

(** The checks a grant passes. *)
Record dev_committable (grant : CommitGrant) (l : list float) st : Prop := {
  dc_authority : dev_same_authority st grant = true;
  dc_position : ds_tokens st = g_committed_position grant;
  dc_pre : digest_dev l (ds_tokens st) (ds_kv_bytes st) = g_pre_state_digest grant;
  dc_prepared_pre : ds_prepared_pre_digest st = g_pre_state_digest grant;
  dc_prepared_post : ds_prepared_post_digest st = g_post_state_digest grant;
}.

(** A commit promotes the tentative buffer and counters, or fails and changes at most the committed buffer, in a
    copy that failed. *)
Lemma runs_commit fm d t l x grant st :
  staged d t (ds_tokens st) (ds_kv_bytes st) st ->
  runs fm (two d t l x) st (dev_commit grant)
    (fun _ st' own' => dev_committable grant l st /\ idle d (ds_tokens st +64 1) (ds_tentative_kv_bytes st) st' /\ own' = one d x)
    (fun st' own' => st' = st /\ (own' = two d t l x \/ exists l', length l' = kStateSize /\ own' = two d t l' x)).
Proof.
  intros (Hd & Ht & Hin & Hh & _ & _ & Hdt). destruct (two_lookups d t l x Hdt) as [Ld Lt]. unfold dev_commit. apply runs_get.
  destruct (dev_same_authority st grant) eqn:Ha; cbn [negb]; [|apply runs_fail; auto].
  destruct (Z.eqb_spec (ds_tokens st) (g_committed_position grant)) as [Hp|]; cbn [negb]; [|apply runs_fail; auto].
  rewrite Hd, Ht. eapply runs_bind; [eapply (runs_read _ _ _ _ l _ _ (fun l' st' own' => l' = l /\ st' = st /\ own' = two d t l x)); [done|done|apply cleans_id; auto]|].
  intros ? st' own' (-> & -> & ->).
  destruct (Z.eqb_spec (digest_dev l (ds_tokens st) (ds_kv_bytes st)) (g_pre_state_digest grant)) as [H1|]; cbn [negb orb]; [|apply runs_fail; auto].
  destruct (Z.eqb_spec (ds_prepared_pre_digest st) (g_pre_state_digest grant)) as [H2|]; cbn [negb orb]; [|apply runs_fail; auto].
  destruct (Z.eqb_spec (ds_prepared_post_digest st) (g_post_state_digest grant)) as [H3|]; cbn [negb]; [|apply runs_fail; auto].
  assert (Hins : forall l', <[d := CFloats l']> (two d t l x) = two d t l' x).
  { intros l'. unfold two, one. by rewrite insert_insert_ne, insert_singleton_eq by done. }
  eapply runs_bind; [eapply (runs_promote _ _ _ _ _ _ _ _ _ (fun _ st' own' => st' = st /\ own' = two d t x x)); [done|done|by rewrite Hins|]|].
  { intros l' Hl'. rewrite Hins. apply cleans_id. eauto. }
  intros [] st' own' [-> ->]. apply runs_set, runs_do. eapply cleans_clear; [by rsimpl|by apply two_lookups|].
  rewrite two_free by done. split_and!; [done| |done]. unfold idle, dev_cleared. by rsimpl.
Qed.

(** Aborting drops the tentative buffer. *)
Lemma cleans_abort fm d t l x tokens kv st :
  staged d t tokens kv st -> cleans fm (two d t l x) st dev_clear (fun st' own' => idle d tokens kv st' /\ own' = one d l).
Proof.
  intros (Hd & Ht & Hin & Hh & Hk & Hv & Hdt). eapply cleans_clear; [done|by apply two_lookups|].
  rewrite two_free by done. split; [|done]. unfold idle, dev_cleared. by rsimpl.
Qed.
End cuda.
