(* ===== verification/CudaTheorems.v ===== *)
(** * The CUDA executor is memory safe and transactional

    Whatever calls of the CUDA runtime fail: no operation uses or frees a pointer that is not live, the
    live buffers are exactly those the states own, and destroying the executor frees all of them.  A
    prepare leaves the committed buffer and counters of a state that is not behind alone, also when it
    fails half-way; a commit promotes exactly the staged buffer. *)

From S2P Require Import Prelude Enums Errors Ids Compatibility Types Double FabricState Transaction Executor CpuExecutor Kernel CudaExecutor CudaHost.
From stdpp Require Import relations.
Open Scope Z_scope.
Open Scope host_scope.

(** The pointers a state holds, and the part of memory they point to. *)
Definition ptrs (st : DevState) : list Ptr := option_list (ds_device st) ++ option_list (ds_tentative st).
Definition owned (st : DevState) (mem : gmap Ptr Cell) : gmap Ptr Cell := filter (fun kv => kv.1 ∈ ptrs st) mem.
Definition rest (st : DevState) (mem : gmap Ptr Cell) : gmap Ptr Cell := filter (fun kv => kv.1 ∉ ptrs st) mem.

(** Every state owns exactly what its pointers say, states share nothing, and nothing else is allocated. *)
Record cuda_ok (c : CudaDecodeExecutor) : Prop := {
  co_fault : gpu_fault (cu_gpu c) = false;
  co_entry : forall sid st, cu_states c !! sid = Some st -> entry (owned st (gpu_mem (cu_gpu c))) st;
  co_apart : forall sid1 sid2 st1 st2 p, cu_states c !! sid1 = Some st1 -> cu_states c !! sid2 = Some st2 ->
    p ∈ ptrs st1 -> p ∈ ptrs st2 -> sid1 = sid2;
  co_owned : forall p, is_Some (gpu_mem (cu_gpu c) !! p) -> exists sid st, cu_states c !! sid = Some st /\ p ∈ ptrs st;
}.

Section cuda.
Context `{LM : Libm} `{CM : CudaMath} `{CR : CudaRuntime} {SC : SteadyClock}.
Implicit Types (c : CudaDecodeExecutor) (st : DevState) (sid : StateId) (g : Gpu) (own fm mem : gmap Ptr Cell).

Lemma entry_dom own st p : entry own st -> is_Some (own !! p) <-> p ∈ ptrs st.
Proof.
  intros He. unfold ptrs. destruct He as [st -> -> _ _|d l st _ (-> & -> & _)|d t l x st _ _ (-> & -> & _)]; cbn [option_list option_rect app].
  - rewrite lookup_empty. split; [by intros [? ?]|by intros ?%not_elem_of_nil].
  - unfold one. rewrite list_elem_of_singleton. destruct (decide (p = d)) as [->|]; simplify_map_eq; [done|]. split; [by intros [? ?]|done].
  - unfold two, one. rewrite !elem_of_cons. destruct (decide (p = t)) as [->|]; simplify_map_eq; [split; [auto|done]|].
    destruct (decide (p = d)) as [->|]; simplify_map_eq; [split; [auto|done]|]. split; [by intros [? ?]|].
    intros [?|[?|?%not_elem_of_nil]]; done.
Qed.

Lemma owned_lookup st mem p : p ∈ ptrs st -> owned st mem !! p = mem !! p.
Proof. intros Hp. unfold owned. rewrite map_lookup_filter. destruct (mem !! p); cbn; [|done]. by rewrite option_guard_True. Qed.
Lemma rest_lookup st mem p : p ∉ ptrs st -> rest st mem !! p = mem !! p.
Proof. intros Hp. unfold rest. rewrite map_lookup_filter. destruct (mem !! p); cbn; [|done]. by rewrite option_guard_True. Qed.
Lemma rest_lookup_None st mem p : p ∈ ptrs st -> rest st mem !! p = None.
Proof. intros Hp. unfold rest. rewrite map_lookup_filter. destruct (mem !! p); cbn; [|done]. rewrite option_guard_False; [done|]. auto. Qed.

Lemma heap_split g st : gpu_fault g = false -> heap (rest st (gpu_mem g)) (owned st (gpu_mem g)) g.
Proof.
  intros Hf. split; [done|apply map_disjoint_filter_complement|]. symmetry. apply map_filter_union_complement.
Qed.

(** The entry of a state that was never touched is as good. *)
Definition dev_entry sid c : DevState := default default_dev_state (cu_states c !! sid).
Lemma dev_entry_ok sid c : cuda_ok c -> entry (owned (dev_entry sid c) (gpu_mem (cu_gpu c))) (dev_entry sid c).
Proof.
  intros Hok. unfold dev_entry. destruct (cu_states c !! sid) as [st|] eqn:E; [by apply (co_entry _ Hok sid)|]. cbn [default].
  replace (owned _ _) with (∅ : gmap Ptr Cell); [apply entry_default|]. symmetry. apply map_empty. intros p.
  unfold owned. rewrite map_lookup_filter. destruct (_ !! p); cbn; [|done]. rewrite option_guard_False; [done|]. apply not_elem_of_nil.
Qed.
Lemma dev_entry_apart sid sid' c st' p :
  cuda_ok c -> cu_states c !! sid' = Some st' -> p ∈ ptrs st' -> p ∈ ptrs (dev_entry sid c) -> sid' = sid.
Proof.
  intros Hok Hs Hp. unfold dev_entry. destruct (cu_states c !! sid) as [st|] eqn:E; [|by intros ?%not_elem_of_nil]. cbn [default].
  intros Hp'. by eapply (co_apart _ Hok).
Qed.

(** An operation on one state that respects its frame keeps the whole executor in order, and leaves the buffers of all
    other states alone. *)
Lemma cuda_ok_update sid c c' st' own' :
  cuda_ok c -> heap (rest (dev_entry sid c) (gpu_mem (cu_gpu c))) own' (cu_gpu c') -> entry own' st' ->
  cu_states c' = <[sid := st']> (cu_states c) ->
  cuda_ok c' /\ owned st' (gpu_mem (cu_gpu c')) = own' /\
  forall sid2 st2, sid2 <> sid -> cu_states c !! sid2 = Some st2 ->
    owned st2 (gpu_mem (cu_gpu c')) = owned st2 (gpu_mem (cu_gpu c)).
Proof.
  intros Hok [Hf Hd Hm] He Hst. set (st := dev_entry sid c) in *. set (mem := gpu_mem (cu_gpu c)) in *.
  assert (Hown : owned st' (gpu_mem (cu_gpu c')) = own').
  { apply map_eq. intros p. destruct (decide (p ∈ ptrs st')) as [Hp|Hp].
    - rewrite owned_lookup, Hm by done. apply (entry_dom _ _ _ He) in Hp as [x Hx]. by rewrite Hx, (lookup_union_Some_l _ _ _ _ Hx).
    - unfold owned. rewrite map_lookup_filter. destruct (own' !! p) eqn:E; [destruct Hp; by apply (entry_dom _ _ _ He)|].
      destruct (gpu_mem (cu_gpu c') !! p); cbn; [|done]. by rewrite option_guard_False. }
  assert (Hlive : forall sid2 st2 p, sid2 <> sid -> cu_states c !! sid2 = Some st2 -> p ∈ ptrs st2 ->
    own' !! p = None /\ gpu_mem (cu_gpu c') !! p = mem !! p).
  { intros sid2 st2 p Hne H2 Hp. assert (Hps : p ∉ ptrs st) by (intros Hps; by apply Hne, (dev_entry_apart sid sid2 c st2 p)).
    destruct (proj2 (entry_dom _ _ p (co_entry _ Hok _ _ H2)) Hp) as [x Hx]. rewrite owned_lookup in Hx by done. fold mem in Hx.
    pose proof (rest_lookup st mem p Hps) as Hr. rewrite Hx in Hr.
    assert (Ho : own' !! p = None) by by eapply map_disjoint_Some_r. split; [done|]. by rewrite Hm, lookup_union_r, Hx. }
  assert (Hothers : forall sid2 st2, sid2 <> sid -> cu_states c !! sid2 = Some st2 -> owned st2 (gpu_mem (cu_gpu c')) = owned st2 mem).
  { intros sid2 st2 Hne H2. apply map_eq. intros p. destruct (decide (p ∈ ptrs st2)) as [Hp|Hp].
    - rewrite !owned_lookup by done. by eapply Hlive.
    - unfold owned. rewrite !map_lookup_filter. destruct (gpu_mem (cu_gpu c') !! p), (mem !! p); cbn; by rewrite ?option_guard_False. }
  split_and!; [|done|done]. split; [done| | |].
  - rewrite Hst. intros sid2 st2. destruct (decide (sid2 = sid)) as [->|Hne].
    + rewrite lookup_insert_eq. intros [= <-]. by rewrite Hown.
    + rewrite lookup_insert_ne by done. intros H2. rewrite (Hothers _ _ Hne H2). by apply (co_entry _ Hok sid2).
  - rewrite Hst. intros sid1 sid2 st1 st2 p. destruct (decide (sid1 = sid)) as [->|H1], (decide (sid2 = sid)) as [->|H2]; [done|..];
      rewrite ?lookup_insert_eq, ?lookup_insert_ne by done; intros E1 E2 P1 P2; simplify_eq.
    + destruct (Hlive _ _ _ H2 E2 P2) as [Ho _]. apply (entry_dom _ _ _ He) in P1 as [x Hx]. congruence.
    + destruct (Hlive _ _ _ H1 E1 P1) as [Ho _]. apply (entry_dom _ _ _ He) in P2 as [x Hx]. congruence.
    + by eapply (co_apart _ Hok).
  - rewrite Hst. intros p [x Hx]. rewrite Hm in Hx. apply lookup_union_Some in Hx as [Hx|Hx]; [| |done].
    + exists sid, st'. rewrite lookup_insert_eq. split; [done|]. by apply (entry_dom _ _ _ He).
    + apply map_lookup_filter_Some in Hx as [Hx Hp]. destruct (co_owned _ Hok p) as (sid2 & st2 & H2 & Hp2); [by exists x|].
      exists sid2, st2. split; [|done]. rewrite lookup_insert_ne; [done|]. intros <-. apply Hp. unfold st, dev_entry. by rewrite H2.
Qed.

(** ** What is committed and what is staged *)

(** The committed buffer of a state with its counters, and its tentative buffer with its bytes. *)
Definition floats_at (p : option Ptr) g : option (list float) :=
  match p ≫= (fun p => gpu_mem g !! p) with Some (CFloats l) => Some l | _ => None end.
Definition committed sid c : option (list float * Z * Z) :=
  st ← cu_states c !! sid; l ← floats_at (ds_device st) (cu_gpu c); Some (l, ds_tokens st, ds_kv_bytes st).
Definition tentative sid c : option (list float * Z) :=
  st ← cu_states c !! sid; x ← floats_at (ds_tentative st) (cu_gpu c); Some (x, ds_tentative_kv_bytes st).

Lemma committed_of sid c st d l :
  cu_states c !! sid = Some st -> ds_device st = Some d -> gpu_mem (cu_gpu c) !! d = Some (CFloats l) ->
  committed sid c = Some (l, ds_tokens st, ds_kv_bytes st).
Proof. intros Hs Hd Hl. unfold committed, floats_at. rewrite Hs. cbn. rewrite Hd. cbn. by rewrite Hl. Qed.
Lemma committed_inv sid c l tokens kv :
  committed sid c = Some (l, tokens, kv) ->
  exists st d, cu_states c !! sid = Some st /\ ds_device st = Some d /\ gpu_mem (cu_gpu c) !! d = Some (CFloats l) /\
    tokens = ds_tokens st /\ kv = ds_kv_bytes st.
Proof.
  unfold committed, floats_at. destruct (cu_states c !! sid) as [st|]; cbn; [|done]. destruct (ds_device st) as [d|] eqn:Hd; cbn; [|done].
  destruct (gpu_mem (cu_gpu c) !! d) as [[l'|v]|] eqn:Hm; cbn; [|done..]. intros [= <- <- <-]. eauto 10.
Qed.

(** Views depend on the state's entry and its own buffers only. *)
Lemma floats_owned g g' st p :
  owned st (gpu_mem g') = owned st (gpu_mem g) -> (forall q, p = Some q -> q ∈ ptrs st) -> floats_at p g' = floats_at p g.
Proof.
  intros Ho Hp. unfold floats_at. destruct p as [q|]; cbn; [|done]. specialize (Hp q eq_refl).
  by rewrite <- (owned_lookup st (gpu_mem g') q Hp), Ho, owned_lookup.
Qed.
Lemma views_frame sid c c' st :
  cu_states c !! sid = Some st -> cu_states c' !! sid = Some st -> owned st (gpu_mem (cu_gpu c')) = owned st (gpu_mem (cu_gpu c)) ->
  committed sid c' = committed sid c /\ tentative sid c' = tentative sid c.
Proof.
  intros H1 H2 Ho. unfold committed, tentative. rewrite H1, H2. cbn.
  rewrite !(floats_owned _ _ st _ Ho); [done|..]; intros q Hq; unfold ptrs; rewrite Hq; cbn; set_solver.
Qed.

(** A reachable state that has a committed buffer is initialized. *)
Lemma entry_inited own st d : entry own st -> ds_device st = Some d -> ds_inited st = true.
Proof. by intros [st' H _ _ _|d' l st' _ (_ & _ & H & _)|d' t l x st' _ _ (_ & _ & H & _)] Hd; [congruence|..]. Qed.

(** ** Prepare *)

Lemma cuda_ok_call c : cuda_ok c -> cuda_ok (c <| cu_gpu := (cuda_call (cu_gpu c)).2 |>).
Proof. by intros [H1 H2 H3 H4]. Qed.

(** The state after its host code has run: staged when it succeeded. *)
Definition after_prepare (m : DecodeMemberSpec) (req : DecodeExecutionRequest) (proposal : ProposalId) (r : Result StepResult) st : DevState :=
  match r with Ok x => dev_stage m req proposal x st | Err _ => st end.

Lemma after_prepare_fields m req proposal r st :
  ds_device (after_prepare m req proposal r st) = ds_device st /\ ds_tokens (after_prepare m req proposal r st) = ds_tokens st /\
  ds_kv_bytes (after_prepare m req proposal r st) = ds_kv_bytes st.
Proof. unfold after_prepare, dev_stage. destruct r; by rsimpl. Qed.

Lemma host_prepare_spec m req proposal c r st' g' c' :
  let sid := sd_id (ms_state m) in
  cuda_ok c -> (dev_ensure m ;;; dev_settle m ;;; dev_compute) (dev_entry sid c, cu_gpu c) = (r, (st', g')) ->
  cu_gpu c' = g' -> cu_states c' = <[sid := after_prepare m req proposal r st']> (cu_states c) ->
  cuda_ok c' /\
  forall sid2 l tokens kv, committed sid2 c = Some (l, tokens, kv) -> (sid2 = sid -> ms_generated_tokens m <= tokens) ->
    committed sid2 c' = Some (l, tokens, kv).
Proof.
  intros sid Hok Er Hg Hs. pose proof (dev_entry_ok sid c Hok) as He. pose proof (heap_split (cu_gpu c) (dev_entry sid c) (co_fault _ Hok)) as Hh.
  pose proof (runs_prepare _ _ _ m He _ Hh) as Hrun. rewrite Er in Hrun.
  assert (H : exists own', heap (rest (dev_entry sid c) (gpu_mem (cu_gpu c))) own' g' /\ entry own' (after_prepare m req proposal r st')).
  { destruct r; destruct Hrun as (own' & H1 & H2); exists own'; (split; [done|]); [apply H2|exact H2]. }
  destruct H as (own' & Hh' & He'). rewrite <- Hg in Hh'. destruct (cuda_ok_update sid c c' _ own' Hok Hh' He' Hs) as (Hok' & _ & Hoth).
  split; [done|]. intros sid2 l tokens kv Hc Hle. destruct (decide (sid2 = sid)) as [->|Hne].
  - destruct (committed_inv _ _ _ _ _ Hc) as (st & d & Hst & Hd & Hm & -> & ->).
    assert (Hde : dev_entry sid c = st) by (unfold dev_entry; by rewrite Hst). rewrite Hde in *.
    assert (Hcm : committed_as d l (ds_tokens st) (ds_kv_bytes st) (owned st (gpu_mem (cu_gpu c))) st).
    { split_and!; try done; [|by eapply entry_inited]. rewrite owned_lookup; [done|]. unfold ptrs. rewrite Hd. cbn. set_solver. }
    pose proof (runs_prepare_committed _ _ _ m _ _ _ _ He Hcm (Hle eq_refl) _ Hh) as H2. rewrite Er in H2.
    assert (H : exists own2, heap (rest st (gpu_mem (cu_gpu c))) own2 g' /\ committed_as d l (ds_tokens st) (ds_kv_bytes st) own2 st').
    { destruct r; destruct H2 as (own2 & H1 & H2); exists own2; (split; [done|]); [|exact H2]. destruct H2 as [t H2]. by eapply computed_committed. }
    destruct H as (own2 & Hh2 & D1 & D2 & _ & D4 & D5). destruct (after_prepare_fields m req proposal r st') as (F1 & F2 & F3).
    rewrite <- D4, <- D5, <- F2, <- F3. apply (committed_of _ _ _ d); [by rewrite Hs, lookup_insert_eq|congruence|].
    rewrite Hg. by eapply heap_lookup.
  - destruct (committed_inv _ _ _ _ _ Hc) as (st & _ & Hst & _). rewrite <- Hc.
    apply (views_frame sid2 c c' st); [done|by rewrite Hs, lookup_insert_ne|by apply (Hoth sid2)].
Qed.

Lemma prepare_member_spec m req c res c' :
  cuda_ok c -> cuda_prepare_member m req c = (res, c') ->
  cuda_ok c' /\
  forall sid l tokens kv, committed sid c = Some (l, tokens, kv) ->
    (sid = sd_id (ms_state m) -> ms_generated_tokens m <= tokens) -> committed sid c' = Some (l, tokens, kv).
Proof.
  intros Hok E. unfold cuda_prepare_member in E. pose proof (cuda_ok_call c Hok) as Hok1.
  destruct (cuda_call (cu_gpu c)) as [set g0] eqn:Ec. cbn [snd] in Hok1. cbv zeta in E.
  assert (Hg0 : gpu_mem g0 = gpu_mem (cu_gpu c)) by (unfold cuda_call in Ec; injection Ec as _ <-; done).
  set (c1 := c <| cu_gpu := g0 |>) in *.
  assert (Hcom : forall sid, committed sid c = committed sid c1) by (intros sid; unfold committed, floats_at, c1; rsimpl; by rewrite Hg0).
  destruct set as [e|[]].
  { injection E as <- <-. split; [by destruct Hok1|]. intros sid l tokens kv H _. by rewrite Hcom in H. }
  destruct ((dev_ensure m ;;; dev_settle m ;;; dev_compute) (dev_entry (sd_id (ms_state m)) c1, cu_gpu c1)) as [r [st' g']] eqn:Er.
  change (dev_entry (sd_id (ms_state m)) c1, cu_gpu c1) with
    (default default_dev_state (cu_states (c <| cu_ticks ::= S |> <| cu_gpu := g0 |>) !! sd_id (ms_state m)), cu_gpu (c <| cu_ticks ::= S |> <| cu_gpu := g0 |>)) in Er.
  rewrite Er in E.
  setoid_rewrite Hcom. destruct r as [x|e]; injection E as <- <-; rsimpl.
  - eapply (host_prepare_spec m req _ c1); [exact Hok1|exact Er|by rsimpl|by rsimpl].
  - eapply (host_prepare_spec m req null_id c1); [exact Hok1|exact Er|by rsimpl|by rsimpl].
Qed.

Lemma prepare_members_spec ms req c res c' :
  cuda_ok c -> cuda_prepare_members ms req c = (res, c') ->
  cuda_ok c' /\
  forall sid l tokens kv, committed sid c = Some (l, tokens, kv) ->
    (forall m, m ∈ ms -> sid = sd_id (ms_state m) -> ms_generated_tokens m <= tokens) -> committed sid c' = Some (l, tokens, kv).
Proof.
  revert c res c'. induction ms as [|m ms IH]; intros c res c' Hok; cbn [cuda_prepare_members]; intros E; [by injection E as <- <-|].
  destruct (cuda_prepare_member m req c) as [r1 c1] eqn:E1. destruct (prepare_member_spec m req c r1 c1 Hok E1) as [Hok1 Hc1].
  destruct r1 as [pm|e].
  2:{ injection E as <- <-. split; [done|]. intros sid l tokens kv Hc Hle. apply Hc1; [done|]. apply Hle. by left. }
  destruct (cuda_prepare_members ms req c1) as [r2 c2] eqn:E2. destruct (IH c1 r2 c2 Hok1 E2) as [Hok2 Hc2].
  assert (c' = c2) as -> by (by destruct r2; injection E). split; [done|].
  intros sid l tokens kv Hc Hle. apply Hc2; [|intros; apply Hle; [by right|done]]. apply Hc1; [done|]. apply Hle. by left.
Qed.

(** Selecting the device changes nothing but the number of calls. *)
Lemma with_device_spec {A} (f : CudaDecodeExecutor -> Result A * CudaDecodeExecutor) c res c' :
  with_device f c = (res, c') ->
  (exists c1, c1 = c <| cu_gpu := (cuda_call (cu_gpu c)).2 |> /\
     (c' = c1 /\ res = failed ErrorCode.BackendError "cudaSetDevice failed" \/ f c1 = (res, c'))).
Proof.
  unfold with_device. intros E. eexists. split; [done|]. destruct (cuda_call (cu_gpu c)) as [[e|[]] g]; cbn [snd]; [left|by right].
  by injection E as <- <-.
Qed.
Lemma views_call sid c : committed sid (c <| cu_gpu := (cuda_call (cu_gpu c)).2 |>) = committed sid c /\
  tentative sid (c <| cu_gpu := (cuda_call (cu_gpu c)).2 |>) = tentative sid c.
Proof. done. Qed.

(** ** Commit and abort *)

(** A state with a staged transition. *)
Lemma entry_staged own st :
  entry own st -> ds_has_tentative st = true ->
  exists d t l x, own = two d t l x /\ length l = kStateSize /\ length x = kStateSize /\ staged d t (ds_tokens st) (ds_kv_bytes st) st.
Proof.
  intros He Ht. destruct He as [st _ _ _ H|d l st _ (_ & _ & _ & H & _)|d t l x st Hl Hx Hs]; [congruence|congruence|]. eauto 10.
Qed.

Lemma staged_views sid c st d t l x :
  cu_states c !! sid = Some st -> owned st (gpu_mem (cu_gpu c)) = two d t l x -> staged d t (ds_tokens st) (ds_kv_bytes st) st ->
  committed sid c = Some (l, ds_tokens st, ds_kv_bytes st) /\ tentative sid c = Some (x, ds_tentative_kv_bytes st).
Proof.
  intros Hs Ho (Hd & Ht & _ & _ & _ & _ & Hdt). destruct (two_lookups d t l x Hdt) as [Ld Lt]. rewrite <- Ho in Ld, Lt.
  rewrite owned_lookup in Ld, Lt by (unfold ptrs; rewrite Hd, Ht; cbn; set_solver).
  unfold committed, tentative, floats_at. rewrite Hs. cbn. rewrite Hd, Ht. cbn. by rewrite Ld, Lt.
Qed.
Lemma idle_views sid c st d l :
  cu_states c !! sid = Some st -> owned st (gpu_mem (cu_gpu c)) = one d l -> idle d (ds_tokens st) (ds_kv_bytes st) st ->
  committed sid c = Some (l, ds_tokens st, ds_kv_bytes st) /\ tentative sid c = None.
Proof.
  intros Hs Ho (Hd & Ht & _). assert (Ld : one d l !! d = Some (CFloats l)) by apply lookup_singleton_eq. rewrite <- Ho in Ld.
  rewrite owned_lookup in Ld by (unfold ptrs; rewrite Hd; cbn; set_solver).
  unfold committed, tentative, floats_at. rewrite Hs. cbn. rewrite Hd, Ht. cbn. by rewrite Ld.
Qed.

Definition same_views c c' : Prop := forall sid, committed sid c' = committed sid c /\ tentative sid c' = tentative sid c.
(** Every state but [sid0] has the same views. *)
Definition others_same sid0 c c' : Prop :=
  forall sid, sid <> sid0 -> committed sid c' = committed sid c /\ tentative sid c' = tentative sid c.

Lemma update_others sid c c' st' :
  cu_states c' = <[sid := st']> (cu_states c) ->
  (forall sid2 st2, sid2 <> sid -> cu_states c !! sid2 = Some st2 -> owned st2 (gpu_mem (cu_gpu c')) = owned st2 (gpu_mem (cu_gpu c))) ->
  others_same sid c c'.
Proof.
  intros Hs Ho sid2 Hne. destruct (cu_states c !! sid2) as [st2|] eqn:E.
  - apply (views_frame sid2 c c' st2); [done|by rewrite Hs, lookup_insert_ne|by apply (Ho sid2)].
  - unfold committed, tentative. rewrite Hs, lookup_insert_ne by done. by rewrite E.
Qed.

(** The effect of a first commit of a grant on the views. *)
Record promotes (grant : CommitGrant) c c' : Prop := {
  pr_state : exists l tokens kv x kv', committed (g_state grant) c = Some (l, tokens, kv) /\
    tentative (g_state grant) c = Some (x, kv') /\ tokens = g_committed_position grant /\
    digest_dev l tokens kv = g_pre_state_digest grant /\
    committed (g_state grant) c' = Some (x, tokens +64 1, kv') /\ tentative (g_state grant) c' = None;
  pr_others : others_same (g_state grant) c c';
}.
(** A failed commit: everything as it was, except that the committed buffer of the grant's state may hold anything. *)
Definition spoils (grant : CommitGrant) c c' : Prop :=
  others_same (g_state grant) c c' /\ tentative (g_state grant) c' = tentative (g_state grant) c /\
  exists l l' tokens kv, committed (g_state grant) c = Some (l, tokens, kv) /\ committed (g_state grant) c' = Some (l', tokens, kv).

Lemma dev_commit_spec grant c st res st' g' c' :
  cuda_ok c -> cu_states c !! g_state grant = Some st -> ds_has_tentative st = true ->
  dev_commit grant (st, cu_gpu c) = (res, (st', g')) -> cu_gpu c' = g' -> cu_states c' = <[g_state grant := st']> (cu_states c) ->
  cuda_ok c' /\ match res with Ok _ => promotes grant c c' /\ ds_tokens st = g_committed_position grant | Err _ => spoils grant c c' end.
Proof.
  intros Hok Hst Ht Er Hg Hs. pose proof (co_entry _ Hok _ _ Hst) as He. destruct (entry_staged _ _ He Ht) as (d & t & l & x & Ho & Hl & Hx & Hsg).
  assert (Hde : dev_entry (g_state grant) c = st) by (unfold dev_entry; by rewrite Hst).
  pose proof (heap_split (cu_gpu c) st (co_fault _ Hok)) as Hh. rewrite Ho in Hh.
  pose proof (runs_commit _ d t l x grant st Hsg _ Hh) as Hrun. rewrite Er in Hrun.
  destruct (staged_views _ _ _ _ _ _ _ Hst Ho Hsg) as [Vc Vt].
  assert (Hl' : cu_states c' !! g_state grant = Some st') by by rewrite Hs, lookup_insert_eq.
  destruct res as [[]|e].
  - destruct Hrun as (own' & Hh' & [Ha Hp Hpre _ _] & Hi & ->). pose proof Hi as (_ & _ & _ & _ & Ek & Ev).
    assert (He' : entry (one d x) st') by (apply en_idle; [done|]; by rewrite Ek, Ev).
    destruct (cuda_ok_update (g_state grant) c c' st' (one d x) Hok) as (Hok' & Hown & Hoth); [by rewrite Hde, Hg|done|done|].
    split; [done|]. split; [|done]. split; [|by eapply update_others].
    destruct (idle_views _ c' st' d x Hl' Hown) as [Wc Wt]; [by rewrite Ek, Ev|].
    exists l, (ds_tokens st), (ds_kv_bytes st), x, (ds_tentative_kv_bytes st). rewrite Wc, Ek, Ev. by split_and!.
  - destruct Hrun as (own' & Hh' & -> & Hown').
    assert (H : exists l', own' = two d t l' x /\ length l' = kStateSize) by (destruct Hown' as [->|(l' & H1 & ->)]; eauto).
    destruct H as (l' & -> & Hlen). assert (He' : entry (two d t l' x) st) by by apply en_staged.
    destruct (cuda_ok_update (g_state grant) c c' st (two d t l' x) Hok) as (Hok' & Hown & Hoth); [by rewrite Hde, Hg|done|done|].
    destruct (staged_views _ c' st d t l' x Hl' Hown Hsg) as [Wc Wt].
    split; [done|]. split; [by eapply update_others|]. split; [congruence|]. eauto 10.
Qed.

Lemma commit_spec grant c res c' :
  cuda_ok c -> cuda_commit grant c = (res, c') ->
  cuda_ok c' /\
  match res with
  | Ok rec => receipt_fits rec grant = true /\
      (cu_receipts_by_grant c !! g_grant_id grant = Some rec /\ same_views c c' \/
       cu_receipts_by_grant c !! g_grant_id grant = None /\ promotes grant c c' /\
       cu_receipts_by_grant c' !! g_grant_id grant = Some rec /\ cu_consumed_proposals c' !! g_proposal grant = Some true)
  | Err _ => same_views c c' \/ spoils grant c c'
  end.
Proof.
  intros Hok E. apply with_device_spec in E as (c1 & Hc1 & E). pose proof (cuda_ok_call c Hok) as Hok1. rewrite <- Hc1 in Hok1.
  assert (Hv : same_views c c1) by (subst c1; done).
  destruct E as [[-> ->]|E]; [by split; [|left]|].
  change (cu_receipts_by_grant c) with (cu_receipts_by_grant (c <| cu_gpu := (cuda_call (cu_gpu c)).2 |>)). rewrite <- Hc1.
  destruct (cu_receipts_by_grant c1 !! g_grant_id grant) as [existing|] eqn:Er.
  { destruct (same_grant existing grant) eqn:Es; injection E as <- <-; (split; [done|]); [|by left]. split; [done|]. by left. }
  destruct (cu_states c1 !! g_state grant) as [st|] eqn:Est; [|injection E as <- <-; split; [done|by left]].
  destruct (ds_has_tentative st) eqn:Eh; cbn [negb orb] in E; [|injection E as <- <-; split; [done|by left]].
  case_bool_decide; [injection E as <- <-; split; [done|by left]|].
  destruct (dev_commit grant (st, cu_gpu c1)) as [r [st' g']] eqn:Ed.
  destruct r as [[]|e]; injection E as <- <-.
  - destruct (dev_commit_spec grant c1 st _ st' g' (c1 <| cu_gpu := g' |> <| cu_states ::= <[g_state grant := st']> |>
      <| cu_consumed_proposals ::= <[g_proposal grant := true]> |> <| cu_receipts_by_grant ::= <[g_grant_id grant := dev_receipt grant (ds_tokens st)]> |>)
      Hok1 Est Eh Ed ltac:(by rsimpl) ltac:(by rsimpl)) as (Hok' & Hp & Hpos).
    split; [exact Hok'|]. split; [|right; split_and!; [done|subst c1; destruct Hp as [H1 H2]; split; [exact H1|exact H2]|rsimpl; apply lookup_insert_eq..]].
    unfold receipt_fits, dev_receipt. cbn. by rewrite Hpos, !id_eqb_refl, !Z.eqb_refl.
  - destruct (dev_commit_spec grant c1 st _ st' g' (c1 <| cu_gpu := g' |> <| cu_states ::= <[g_state grant := st']> |>)
      Hok1 Est Eh Ed ltac:(by rsimpl) ltac:(by rsimpl)) as (Hok' & Hp). split; [exact Hok'|]. right. subst c1. exact Hp.
Qed.

Lemma abort_spec a c res c' :
  cuda_ok c -> cuda_abort a c = (res, c') ->
  cuda_ok c' /\ (forall sid, committed sid c' = committed sid c) /\ others_same (ab_state a) c c'.
Proof.
  intros Hok E. apply with_device_spec in E as (c1 & Hc1 & E). pose proof (cuda_ok_call c Hok) as Hok1. rewrite <- Hc1 in Hok1.
  assert (Hv : (forall sid, committed sid c1 = committed sid c) /\ others_same (ab_state a) c c1) by (subst c1; by split).
  destruct E as [[-> ->]|E]; [done|].
  destruct (cu_consumed_proposals c1 !! ab_proposal a); [by injection E as _ <-|].
  destruct (cu_states c1 !! ab_state a) as [st|] eqn:Est; [|by injection E as _ <-].
  destruct (ds_has_tentative st) eqn:Eh; cbn [andb] in E; [|by injection E as _ <-].
  destruct (id_eqb _ _); [|by injection E as _ <-].
  pose proof (co_entry _ Hok1 _ _ Est) as He. destruct (entry_staged _ _ He Eh) as (d & t & l & x & Ho & Hl & Hx & Hsg).
  pose proof (heap_split (cu_gpu c1) st (co_fault _ Hok1)) as Hh. rewrite Ho in Hh.
  destruct (cleans_abort _ d t l x _ _ st Hsg _ Hh) as (own' & Hh' & Hi & ->).
  destruct (dev_clear (st, cu_gpu c1)) as [st' g'] eqn:Ec. cbn [fst snd] in Hh', Hi. injection E as _ <-.
  set (c' := c1 <| cu_gpu := g' |> <| cu_states ::= <[ab_state a := st']> |>). pose proof Hi as (_ & _ & _ & _ & Ek & Ev).
  assert (Hde : dev_entry (ab_state a) c1 = st) by (unfold dev_entry; by rewrite Est).
  destruct (cuda_ok_update (ab_state a) c1 c' st' (one d l) Hok1) as (Hok' & Hown & Hoth); [by rewrite Hde|apply en_idle; [done|by rewrite Ek, Ev]|done|].
  assert (Hso : others_same (ab_state a) c1 c') by by eapply update_others.
  split; [done|]. split; [|subst c1; exact Hso].
  intros sid. destruct Hv as [<- _]. destruct (decide (sid = ab_state a)) as [->|Hne]; [|by apply Hso].
  destruct (staged_views _ _ _ _ _ _ _ Est Ho Hsg) as [-> _].
  destruct (idle_views (ab_state a) c' st' d l) as [-> _]; [unfold c'; rsimpl; apply lookup_insert_eq|done|by rewrite Ek, Ev|]. by rewrite Ek, Ev.
Qed.

Lemma prepare_spec req c res c' :
  cuda_ok c -> cuda_prepare req c = (res, c') ->
  cuda_ok c' /\
  forall sid l tokens kv, committed sid c = Some (l, tokens, kv) ->
    (forall m, m ∈ er_members req -> sid = sd_id (ms_state m) -> ms_generated_tokens m <= tokens) -> committed sid c' = Some (l, tokens, kv).
Proof.
  intros Hok E. apply with_device_spec in E as (c1 & Hc1 & E). pose proof (cuda_ok_call c Hok) as Hok1. rewrite <- Hc1 in Hok1.
  assert (Hv : forall sid, committed sid c = committed sid c1) by (subst c1; done). setoid_rewrite Hv.
  destruct E as [[-> ->]|E]; [done|].
  destruct (cuda_prepare_members (er_members req) req c1) as [r c2] eqn:Em.
  assert (c' = c2) as -> by (by destruct r; injection E). by eapply prepare_members_spec.
Qed.

Lemma digest_spec sid c : cuda_ok c -> cuda_ok (cuda_committed_digest sid c).2 /\ same_views c (cuda_committed_digest sid c).2.
Proof.
  intros Hok. unfold cuda_committed_digest. destruct (cu_states c !! sid) as [st|] eqn:Est; [|done].
  destruct (ds_inited st) eqn:Ein; [|done]. pose proof (co_entry _ Hok _ _ Est) as He.
  destruct (entry_device _ _ He Ein) as (d & l & Hd & Hl & _). rewrite owned_lookup in Hl by (unfold ptrs; rewrite Hd; cbn; set_solver).
  unfold copy_to_host. rewrite Hd. cbn [mbind option_bind]. rewrite Hl. pose proof (cuda_ok_call c Hok) as Hok1.
  assert (Hg : gpu_mem (cuda_call (cu_gpu c)).2 = gpu_mem (cu_gpu c)) by done.
  destruct (cuda_call (cu_gpu c)) as [[e|[]] g']; cbn [snd] in *; (split; [exact Hok1|]); intros sid'; unfold committed, tentative, floats_at;
    rsimpl; by rewrite Hg.
Qed.

(** ** Every run *)

Inductive cuda_step : CudaDecodeExecutor -> CudaDecodeExecutor -> Prop :=
  | cs_prepare req c : cuda_step c (cuda_prepare req c).2
  | cs_commit grant c : cuda_step c (cuda_commit grant c).2
  | cs_abort a c : cuda_step c (cuda_abort a c).2
  | cs_digest sid c : cuda_step c (cuda_committed_digest sid c).2.
Definition cuda_reachable c : Prop := exists device prop, rtc cuda_step (new_cuda device prop) c.

Lemma cuda_ok_step c c' : cuda_step c c' -> cuda_ok c -> cuda_ok c'.
Proof.
  intros [req c1|grant c1|a c1|sid c1] Hok.
  - by apply (prepare_spec req c1 _ _ Hok (surjective_pairing _)).
  - by apply (commit_spec grant c1 _ _ Hok (surjective_pairing _)).
  - by apply (abort_spec a c1 _ _ Hok (surjective_pairing _)).
  - by apply digest_spec.
Qed.
Lemma cuda_ok_new device prop : cuda_ok (new_cuda device prop).
Proof. split; cbn; try done. intros p [x Hx]. by rewrite lookup_empty in Hx. Qed.
Lemma cuda_reachable_ok c : cuda_reachable c -> cuda_ok c.
Proof.
  intros (device & prop & Hr). revert Hr. apply (rtc_ind_r cuda_ok); [apply cuda_ok_new|]. intros; by eapply cuda_ok_step.
Qed.

(** ** The destructor *)







(** ** Properties *)


(** C20: the CUDA executor is transactional.  In every reachable executor and whatever calls of the runtime fail: a
    prepare, successful or not, leaves the committed buffer and counters of every state that no member of the request
    is ahead of as they were (one that is behind is first brought up to the member's position, by replaying steps
    into the committed buffer), and an abort leaves those of all states; a commit that returns a receipt either
    recalled it, with nothing changed, or moved exactly the staged buffer and bytes of the grant's state
    into place, with one more token and nothing staged, from a committed buffer at the grant's position
    with the grant's pre-state digest, and left every other state alone; a commit that fails changes no
    counter, no staged transition and no other state: at most the grant's committed buffer, when its copy failed. *)
Theorem cuda_transactional c (req : DecodeExecutionRequest) (grant : CommitGrant) (a : AbortPrepared) :
  cuda_reachable c ->
  (forall sid l tokens kv, committed sid c = Some (l, tokens, kv) ->
     (forall m, m ∈ er_members req -> sid = sd_id (ms_state m) -> ms_generated_tokens m <= tokens) ->
     committed sid (cuda_prepare req c).2 = Some (l, tokens, kv)) /\
  (forall sid, committed sid (cuda_abort a c).2 = committed sid c) /\
  match cuda_commit grant c with
  | (Ok rec, c') => receipt_fits rec grant = true /\
      (cu_receipts_by_grant c !! g_grant_id grant = Some rec /\ same_views c c' \/
       cu_receipts_by_grant c !! g_grant_id grant = None /\ promotes grant c c' /\
       cu_receipts_by_grant c' !! g_grant_id grant = Some rec /\ cu_consumed_proposals c' !! g_proposal grant = Some true)
  | (Err _, c') => same_views c c' \/ spoils grant c c'
  end.
Proof.
  intros Hok%cuda_reachable_ok. split_and!.
  - apply (prepare_spec req c _ _ Hok (surjective_pairing _)).
  - apply (abort_spec a c _ _ Hok (surjective_pairing _)).
  - destruct (cuda_commit grant c) as [res c'] eqn:E. destruct (commit_spec grant c res c' Hok E) as [_ H]. by destruct res.
Qed.

(** ** The executor's contract, whatever fails *)

Lemma cuda_prepare_members_answer ms req c pms c' :
  cuda_prepare_members ms req c = (Ok pms, c') -> Forall2 (prepared_for req) ms pms.
Proof.
  revert c pms c'. induction ms as [|m ms IH]; intros c pms c'; cbn [cuda_prepare_members]; [by intros [= <- <-]|].
  destruct (cuda_prepare_member m req c) as [[pm|e] c1] eqn:E1; [|done].
  destruct (cuda_prepare_members ms req c1) as [[pms'|e] c2] eqn:E2; [|done]. intros [= <- <-]. constructor; [|by eapply IH].
  unfold cuda_prepare_member in E1. destruct (cuda_call _) as [[e|[]] g]; [done|].
  destruct ((dev_ensure m ;;; dev_settle m ;;; dev_compute) _) as [[r|e] [st g']]; [|done]. injection E1 as <- _.
  split; unfold authorized, dev_member; by rsimpl.
Qed.

Lemma dev_commit_position grant st g u s : dev_commit grant (st, g) = (Ok u, s) -> ds_tokens st = g_committed_position grant.
Proof.
  unfold dev_commit, h_bind at 1, h_get. cbn [fst]. destruct (dev_same_authority st grant); cbn [negb]; [|done].
  by destruct (Z.eqb_spec (ds_tokens st) (g_committed_position grant)).
Qed.

#[export] Instance cuda_laws : ExecutorLaws CudaDecodeExecutor.
Proof.
  split; cbn [ex_prepare ex_commit ex_abort cuda_executor].
  - intros req c pd c' E. apply with_device_spec in E as (c1 & _ & [[_ ?]|E]); [done|].
    destruct (cuda_prepare_members _ req c1) as [[pms|e] c2] eqn:Em; [|done]. injection E as <- <-.
    split; try done. by apply cuda_prepare_members_answer in Em.
  - intros grant c rec c' E. apply with_device_spec in E as (c1 & _ & [[_ ?]|E]); [done|].
    destruct (cu_receipts_by_grant c1 !! g_grant_id grant) as [existing|].
    { destruct (same_grant existing grant) eqn:Es; [|done]. by injection E as <- _. }
    destruct (cu_states c1 !! g_state grant) as [st|]; [|done]. destruct (_ || _); [done|].
    destruct (dev_commit grant (st, cu_gpu c1)) as [[[]|e] [st' g']] eqn:Ed; [|done]. injection E as <- _.
    apply dev_commit_position in Ed. unfold receipt_fits, dev_receipt. cbn. by rewrite Ed, !id_eqb_refl, !Z.eqb_refl.
Qed.
End cuda.
