(* ===== verification/Observability.v ===== *)
(** * What the fabric reports

    The read-only queries of [DecodeFabric] in src/fabric.cpp (snapshot, explain, counts, authority
    in flight), the texts and JSON of src/core.cpp, and the structs of
    include/decodefabric/{observability,explain,group,schedule}.hpp they fill.  Printing a double is
    left to the stream library and is an interface. *)

From S2P Require Import Prelude Enums Errors Token StateMachine Ids Compatibility Types Double FabricState FabricOps Schedule Transaction.
From Stdlib Require Import Ascii String.
Open Scope Z_scope.
Open Scope list_scope.

(** [std::ostream& operator<<(double)]. *)
Class Ostream := show_double : double -> string.

(** ** Texts *)

(** The quotation mark. *)
Definition dq : string := String (ascii_of_nat 34) EmptyString.
(** A text between quotation marks: no character is escaped. *)
Definition quoted (s : string) : string := dq +:+ s +:+ dq.
(** [operator<<] of an [int64_t]. *)
Definition s64_string (v : Z) : string := if v <? 0 then "-" +:+ u64_string (- v) else u64_string v.
(** A loop that puts a comma before every element but the first. *)
Fixpoint comma_list (l : list string) : string :=
  match l with
  | [] => ""
  | [x] => x
  | x :: l => x +:+ "," +:+ comma_list l
  end.
(** A JSON member, and an integer one. *)
Definition json_field (name value : string) : string := quoted name +:+ ":" +:+ value.
Definition json_id (v : Z) : string := u64_string v.
Definition json_bool (b : bool) : string := if b then "true" else "false".

(** [CompatibilityDecision::to_string] and [to_json]. *)
Definition decision_to_string (d : CompatibilityDecision) : string :=
  (if cd_compatible d then "compatible" else "incompatible") +:+ ": " +:+ cd_reason d.
Definition decision_to_json (d : CompatibilityDecision) : string :=
  "{" +:+ json_field "compatible" (json_bool (cd_compatible d)) +:+
  "," +:+ json_field "key" (quoted (key_to_string (cd_key d))) +:+
  "," +:+ json_field "reason" (quoted (cd_reason d)) +:+
  "," +:+ json_field "matched" ("[" +:+ comma_list (quoted <$> cd_matched d) +:+ "]") +:+
  "," +:+ json_field "mismatched" ("[" +:+ comma_list (quoted <$> cd_mismatched d) +:+ "]") +:+ "}".

(** [DeviceDescriptor::supports_dtype] and [to_string]. *)
Definition supports_dtype (t : DType) (d : DeviceDescriptor) : bool :=
  negb (Z.land (d_supported_dtypes d) (wrap 32 (Z.shiftl 1 (DType.DType_code t))) =? 0).
Definition device_to_string (d : DeviceDescriptor) : string :=
  "device[backend=" +:+ BackendKind.BackendKind_to_string (d_backend d) +:+ ",name=" +:+ d_name d +:+
  ",cc=" +:+ u64_string (d_compute_capability_major d) +:+ "." +:+ u64_string (d_compute_capability_minor d) +:+
  ",mem=" +:+ u64_string (d_memory_bytes d) +:+ ",id=" +:+ u64_string (id_value (d_id d)) +:+ "]".

(** [WorkerDescriptor::to_string]. *)
Definition worker_to_string (w : WorkerDescriptor) : string :=
  "worker[id=" +:+ u64_string (id_value (wk_id w)) +:+ ",boot=" +:+ u64_string (id_value (wk_boot_id w)) +:+
  ",health=" +:+ WorkerHealth.WorkerHealth_to_string (wk_health w) +:+
  ",cap=" +:+ u64_string (wk_advertised_capacity w) +:+ ",resv=" +:+ u64_string (wk_active_reservations w) +:+
  ",dev=" +:+ u64_string (id_value (d_id (wk_device w))) +:+ "]".

Record DecodeGroup := mkGroup {
  dg_id : DecodeGroupId;
  dg_key : CompatibilityKey;
  dg_members : list SequenceId;
  dg_created_at : Z;
  dg_estimated_work : Z;
  dg_estimated_kv_growth : Z;
}.
Definition group_to_string (g : DecodeGroup) : string :=
  "group[id=" +:+ u64_string (id_value (dg_id g)) +:+ ",members=" +:+ u64_string (Z.of_nat (List.length (dg_members g))) +:+
  ",key=" +:+ key_to_string (dg_key g) +:+ ",work=" +:+ u64_string (dg_estimated_work g) +:+
  ",kv=" +:+ u64_string (dg_estimated_kv_growth g) +:+ "]".

Record DecodePlan := mkPlan {
  pl_sequence : SequenceId;
  pl_scheduled : bool;
  pl_primary_reason : string;
  pl_factors : list string;
  pl_components : SchedulingComponents;
}.
Definition plan_to_string (p : DecodePlan) : string :=
  "plan[seq=" +:+ u64_string (id_value (pl_sequence p)) +:+ ",scheduled=" +:+ json_bool (pl_scheduled p) +:+
  ",reason=" +:+ pl_primary_reason p +:+ "]".

Definition event_to_string (e : Event) : string :=
  "event[time=" +:+ s64_string (ev_time e) +:+ ",kind=" +:+ EventKind.EventKind_to_string (ev_kind e) +:+
  ",request=" +:+ u64_string (id_value (ev_request e)) +:+ ",sequence=" +:+ u64_string (id_value (ev_sequence e)) +:+
  ",detail=" +:+ ev_detail e +:+ "]".

(** ** Snapshot *)

(** Without the vector of sequence states, which is never filled nor read. *)
Record Snapshot := mkSnapshot {
  sn_epoch : CoordinatorEpoch;
  sn_admitted : Z;
  sn_active : Z;
  sn_ready : Z;
  sn_grouped : Z;
  sn_running : Z;
  sn_completed : Z;
  sn_cancelled : Z;
  sn_expired : Z;
  sn_groups : list DecodeGroup;
  sn_reservations : list Reservation;
  sn_workers : list WorkerDescriptor;
  sn_per_tenant_tokens : list string;
  sn_stats : Stats;
}.
#[export] Instance Snapshot_eta : Settable Snapshot := fun r =>
  mkSnapshot (sn_epoch r) (sn_admitted r) (sn_active r) (sn_ready r) (sn_grouped r) (sn_running r) (sn_completed r)
    (sn_cancelled r) (sn_expired r) (sn_groups r) (sn_reservations r) (sn_workers r) (sn_per_tenant_tokens r) (sn_stats r).

Definition snapshot_to_json {OS : Ostream} (s : Snapshot) : string :=
  "{" +:+ json_field "epoch" (json_id (id_value (sn_epoch s))) +:+ "," +:+
  json_field "admitted" (u64_string (sn_admitted s)) +:+ "," +:+ json_field "active" (u64_string (sn_active s)) +:+ "," +:+
  json_field "ready" (u64_string (sn_ready s)) +:+ "," +:+ json_field "grouped" (u64_string (sn_grouped s)) +:+ "," +:+
  json_field "running" (u64_string (sn_running s)) +:+ "," +:+
  json_field "completed" (u64_string (sn_completed s)) +:+ "," +:+
  json_field "cancelled" (u64_string (sn_cancelled s)) +:+ "," +:+ json_field "expired" (u64_string (sn_expired s)) +:+ "," +:+
  json_field "groups" ("[" +:+ comma_list ((fun g =>
    "{" +:+ json_field "id" (json_id (id_value (dg_id g))) +:+ "," +:+
    json_field "members" (u64_string (Z.of_nat (List.length (dg_members g)))) +:+ "," +:+
    json_field "key" (quoted (key_to_string (dg_key g))) +:+ "}") <$> sn_groups s) +:+ "]") +:+ "," +:+
  json_field "reservations" (u64_string (Z.of_nat (List.length (sn_reservations s)))) +:+ "," +:+
  json_field "workers" (u64_string (Z.of_nat (List.length (sn_workers s)))) +:+ "," +:+
  json_field "per_tenant_tokens" ("[" +:+ comma_list (quoted <$> sn_per_tenant_tokens s) +:+ "]") +:+ "," +:+
  json_field "stats" ("{" +:+
    json_field "requests_admitted" (u64_string (st_requests_admitted (sn_stats s))) +:+ "," +:+
    json_field "decode_steps" (u64_string (st_decode_steps (sn_stats s))) +:+ "," +:+
    json_field "generated_tokens" (u64_string (st_generated_tokens (sn_stats s))) +:+ "," +:+
    json_field "cancellations" (u64_string (st_cancellations (sn_stats s))) +:+ "," +:+
    json_field "retries" (u64_string (st_retries (sn_stats s))) +:+ "," +:+
    json_field "stale_rejections" (u64_string (st_stale_rejections (sn_stats s))) +:+ "," +:+
    json_field "tokens_per_second" (show_double (st_tokens_per_second (sn_stats s))) +:+ "}") +:+ "}".

(** ** Explain *)

Record Explain := mkExplain {
  xp_sequence : SequenceId;
  xp_request : RequestId;
  xp_question : string;
  xp_answer : string;
  xp_facts : list string;
  xp_factors : list string;
}.
Definition explain_to_json (e : Explain) : string :=
  "{" +:+ json_field "sequence" (json_id (id_value (xp_sequence e))) +:+ "," +:+
  json_field "request" (json_id (id_value (xp_request e))) +:+ "," +:+
  json_field "question" (quoted (xp_question e)) +:+ "," +:+ json_field "answer" (quoted (xp_answer e)) +:+ "," +:+
  json_field "facts" ("[" +:+ comma_list (quoted <$> xp_facts e) +:+ "]") +:+ "}".

Section observers.
Context {ORD : MapOrder}.

(** The counters one sequence adds to; the last branch adds to [active], which is recomputed. *)
Definition snapshot_seq (s : Seq) (sn : Snapshot) : Snapshot :=
  let st := s_machine s in
  let incr (n : Z) := n +64 1 in
  if bool_decide (st = SequenceState.Admitted_) then sn <| sn_admitted ::= incr |>
  else if bool_decide (st = SequenceState.Waiting) then sn <| sn_admitted ::= incr |>
  else if is_candidate_state st then sn <| sn_ready ::= incr |>
  else if bool_decide (st = SequenceState.Grouped) || bool_decide (st = SequenceState.Reserved) then sn <| sn_grouped ::= incr |>
  else if bool_decide (st = SequenceState.Dispatched) || bool_decide (st = SequenceState.Running) then sn <| sn_running ::= incr |>
  else if bool_decide (st = SequenceState.Completed) then sn <| sn_completed ::= incr |>
  else if bool_decide (st = SequenceState.Cancelled) then sn <| sn_cancelled ::= incr |>
  else if bool_decide (st = SequenceState.DeadlineExpired) then sn <| sn_expired ::= incr |>
  else if negb (is_terminal st) then sn <| sn_active ::= incr |>
  else sn.

(** [DecodeFabric::snapshot]. *)
Definition snapshot (m : Impl) : Snapshot :=
  let sn := mkSnapshot (im_epoch m) 0 0 0 0 0 0 0 0 [] [] [] [] (im_stats m) in
  let seqs := (iter (im_ticks m) (im_seqs m)).*2 in
  let sn := foldl (fun sn s => snapshot_seq s sn) sn seqs in
  let sn := foldl (fun sn s => if negb (is_terminal (s_machine s)) then sn <| sn_active ::= (fun n => n +64 1) |> else sn)
              (sn <| sn_active := 0 |>) seqs in
  sn <| sn_reservations := (iter (im_ticks m) (im_reservations m)).*2 |>
     <| sn_workers := (iter (im_ticks m) (im_workers m)).*2 |>
     <| sn_per_tenant_tokens :=
          (fun kv => "tenant=" +:+ u64_string (id_value kv.1) +:+ " tokens=" +:+ u64_string kv.2) <$>
          iter (im_ticks m) (im_tenant_tokens m) |>.

(** [DecodeFabric::explain]. *)
Definition explain (seq : SequenceId) (q : string) (m : Impl) : Explain :=
  match im_seqs m !! seq with
  | None => mkExplain seq null_id q "unknown sequence" ["unknown_sequence"] []
  | Some s =>
      let state := SequenceState.SequenceState_to_string (s_machine s) in
      let '(answer, factors) :=
        if String.eqb q "why_waiting" then
          ("sequence has " +:+ state +:+ "; lacking a compatible worker/group or memory headroom",
           ["no_compatible_worker"; "no_memory_headroom"])
        else if String.eqb q "why_ready" then ("sequence is eligible for the next decode iteration", ["ready"])
        else if String.eqb q "why_grouped" then ("sequence shares a compatibility key with its group", ["compatible_key"])
        else ("sequence in state " +:+ state, []) in
      mkExplain seq (rq_id (s_req s)) q answer
        ["state=" +:+ state; "generated=" +:+ u64_string (s_generated s);
         "budget=" +:+ u64_string (tb_remaining (s_budget s)); "key=" +:+ key_to_string (key_for_model (s_req s) m)] factors
  end.

(** ** Counts and lookups *)

Definition count_seqs (P : SequenceState -> bool) (m : Impl) : Z :=
  foldl (fun n s => if P (s_machine s) then wrap 32 (n + 1) else n) 0 (iter (im_ticks m) (im_seqs m)).*2.
Definition active_sequences (m : Impl) : Z := count_seqs (fun st => negb (is_terminal st)) m.
Definition ready_sequences (m : Impl) : Z := count_seqs is_candidate_state m.

Definition stats (m : Impl) : Stats := im_stats m.
Definition events (m : Impl) : list Event := im_events m.
Definition receipt_count (m : Impl) : Z := im_receipt_count m.
Definition stale_rejections (m : Impl) : Z := st_stale_rejections (im_stats m).
Definition sequence_generated (seq : SequenceId) (m : Impl) : Z := from_option s_generated 0 (im_seqs m !! seq).
Definition sequence_state (seq : SequenceId) (m : Impl) : SequenceState :=
  from_option s_machine SequenceState.Admitted_ (im_seqs m !! seq).

(** [DecodeFabric::DispatchAuthority] and [in_flight_authority]. *)
Record DispatchAuthority := mkAuthority {
  da_exists : bool;
  da_dispatch : DispatchId;
  da_epoch : CoordinatorEpoch;
  da_worker : WorkerId;
  da_worker_boot : WorkerBootId;
  da_attempt : AttemptId;
  da_generation : DecodeGeneration;
  da_generated : Z;
}.
Definition no_authority : DispatchAuthority := mkAuthority false null_id null_id null_id null_id null_id null_id 0.
Definition in_flight_authority (seq : SequenceId) (m : Impl) : DispatchAuthority :=
  match im_seqs m !! seq with
  | None => no_authority
  | Some s =>
      if s_has_inflight s && is_valid (s_in_flight_dispatch s) then
        mkAuthority true (s_in_flight_dispatch s) (s_in_flight_epoch s) (s_in_flight_worker s) (s_in_flight_worker_boot s)
          (s_current_attempt s) (mkId (s_in_flight_generation s)) (s_generated s)
      else no_authority
  end.
End observers.

(** ** Counting *)

(** The sequences whose state satisfies a predicate. *)
Definition in_states (P : SequenceState -> bool) (m : Impl) : Z :=
  Z.of_nat (count_entries (fun s => P (s_machine s)) (im_seqs m)).

Section counting.
Context {ORD : MapOrder}.

Lemma foldl_counter {A} (P : A -> bool) w (l : list A) n :
  0 <= w -> foldl (fun n x => if P x then wrap w (n + 1) else n) (wrap w n) l =
  wrap w (n + Z.of_nat (List.length (List.filter P l))).
Proof.
  intros Hw. revert n. induction l as [|x l IH]; intros n; cbn [foldl List.filter]; [by rewrite Z.add_0_r|].
  destruct (P x); [|apply IH].
  replace (wrap w (wrap w n + 1)) with (wrap w (n + 1)) by (unfold wrap; by rewrite Zplus_mod_idemp_l).
  rewrite IH. cbn [List.length]. f_equal. lia.
Qed.

(** Counting along any iteration order counts the entries of the map. *)
Lemma iter_count `{Countable K} {A} (P : A -> bool) t (mp : gmap K A) :
  List.length (List.filter P (iter t mp).*2) = count_entries P mp.
Proof.
  assert (Hp : List.filter P (iter t mp).*2 ≡ₚ List.filter P (map_to_list mp).*2).
  { assert (G : forall l l' : list A, l ≡ₚ l' -> List.filter P l ≡ₚ List.filter P l').
    { induction 1 as [|x l l' _ IH|x y l|l1 l2 l3 _ IH1 _ IH2]; cbn [List.filter]; try done.
      - by case_match; rewrite ?IH.
      - repeat case_match; try done. apply Permutation_swap.
      - by etrans. }
    apply G. by rewrite iter_perm. }
  rewrite Hp. unfold count_entries. rewrite map_filter_alt, <- length_map_to_list.
  rewrite map_to_list_to_map by (eapply sublist_NoDup; [apply (NoDup_fst_map_to_list mp)|]; apply fmap_sublist, sublist_filter).
  clear Hp. induction (map_to_list mp) as [|[k x] l IH]; [done|]. cbn [fmap list_fmap snd List.filter].
  rewrite filter_cons. destruct (P x) eqn:E; [rewrite decide_True by exact E|rewrite decide_False by (cbn; congruence)];
    cbn [List.length]; by rewrite IH.
Qed.

Lemma foldl_field {A B X} (get : X -> A) (f : X -> B -> X) (g : A -> B -> A) l x :
  (forall x b, get (f x b) = g (get x) b) -> get (foldl f x l) = foldl g (get x) l.
Proof. intros Hf. revert x. induction l as [|b l IH]; intros x; [done|]. cbn [foldl]. by rewrite IH, Hf. Qed.

Lemma foldl_const {A B} (x : A) (l : list B) : foldl (fun n _ => n) x l = x.
Proof. by induction l. Qed.

(** A counter that counts the sequences in some states. *)
Lemma counter_exact (get : Snapshot -> Z) (f : Snapshot -> Seq -> Snapshot) (P : SequenceState -> bool) sn m :
  get sn = 0 -> (forall sn s, get (f sn s) = if P (s_machine s) then get sn +64 1 else get sn) ->
  get (foldl f sn (iter (im_ticks m) (im_seqs m)).*2) = wrap 64 (in_states P m).
Proof.
  intros H0 Hf. rewrite (foldl_field get f (fun n s => if P (s_machine s) then n +64 1 else n) _ _ Hf), H0. unfold in_states. rewrite <- (iter_count _ (im_ticks m)).
  apply (foldl_counter (fun s => P (s_machine s)) 64 _ 0). lia.
Qed.

Lemma wrap_sum w (l : list Z) y : wrap w (foldr (fun x n => wrap w x + n) y l) = wrap w (foldr Z.add y l).
Proof.
  unfold wrap. induction l as [|x l IH]; [done|]. cbn [foldr]. rewrite Zplus_mod_idemp_l, (Zplus_mod x), IH. by rewrite <- Zplus_mod.
Qed.

(** Classes that hold each entry exactly once hold all entries together. *)
Lemma count_partition `{Countable K} {A} (Ps : list (A -> bool)) (mp : gmap K A) :
  (forall x, sum_list_with (fun P : A -> bool => if P x then 1 else 0)%nat Ps = 1%nat) ->
  sum_list_with (fun P => count_entries P mp) Ps = size mp.
Proof.
  intros HP. induction mp as [|k x mp Hf IH] using map_ind.
  - rewrite map_size_empty. clear HP. induction Ps as [|P Ps IHP]; [done|]. cbn [sum_list_with]. by rewrite IHP.
  - rewrite map_size_insert_None, <- IH by done. specialize (HP x). rewrite <- (Nat.add_1_l (sum_list_with _ Ps)), <- HP. clear IH HP.
    induction Ps as [|P Ps IHP]; [done|]. cbn [sum_list_with]. rewrite count_entries_insert_new, IHP by done. lia.
Qed.

(** The states that a snapshot counts in none of its classes. *)
Definition unclassified (st : SequenceState) : bool :=
  match st with
  | SequenceState.StepCompleted | SequenceState.Paused | SequenceState.CancelRequested | SequenceState.RetryableFailure
  | SequenceState.NonRetryableFailure | SequenceState.Retrying | SequenceState.StaleSuperseded | SequenceState.Unnamed _ => true
  | _ => false
  end.

Definition snapshot_classes : list (SequenceState -> bool) :=
  let within states st := bool_decide (st ∈ states) in
  [within [SequenceState.Admitted_; SequenceState.Waiting];
   within [SequenceState.Ready; SequenceState.ReadyForNextToken; SequenceState.Yielded];
   within [SequenceState.Grouped; SequenceState.Reserved]; within [SequenceState.Dispatched; SequenceState.Running];
   within [SequenceState.Completed]; within [SequenceState.Cancelled]; within [SequenceState.DeadlineExpired]; unclassified].

Lemma snapshot_classes_total m :
  sum_list_with (fun P => count_entries (fun s => P (s_machine s)) (im_seqs m)) snapshot_classes = size (im_seqs m).
Proof.
  pose proof (count_partition ((fun (P : SequenceState -> bool) (s : Seq) => P (s_machine s)) <$> snapshot_classes) (im_seqs m)) as H.
  rewrite <- H; [done|]. intros s. cbn. by destruct (s_machine s).
Qed.

Lemma snapshot_counters (m : Impl) :
  let sn := snapshot m in
  let within states := wrap 64 (in_states (fun st => bool_decide (st ∈ states)) m) in
  sn_admitted sn = within [SequenceState.Admitted_; SequenceState.Waiting] /\
  sn_ready sn = within [SequenceState.Ready; SequenceState.ReadyForNextToken; SequenceState.Yielded] /\
  sn_grouped sn = within [SequenceState.Grouped; SequenceState.Reserved] /\
  sn_running sn = within [SequenceState.Dispatched; SequenceState.Running] /\
  sn_completed sn = within [SequenceState.Completed] /\ sn_cancelled sn = within [SequenceState.Cancelled] /\
  sn_expired sn = within [SequenceState.DeadlineExpired] /\
  sn_active sn = wrap 64 (in_states (fun st => negb (is_terminal st)) m) /\
  sn_epoch sn = im_epoch m /\ sn_stats sn = im_stats m /\
  sn_workers sn ≡ₚ (map_to_list (im_workers m)).*2 /\ sn_reservations sn ≡ₚ (map_to_list (im_reservations m)).*2.
Proof.
  cbv zeta. unfold snapshot. cbv zeta.
  set (f := fun sn s => snapshot_seq s sn). set (g := fun sn s => if negb _ then _ else _).
  assert (K : forall (get : Snapshot -> Z) (P : SequenceState -> bool) sn0, get sn0 = 0 ->
    (forall sn s, get (f sn s) = if P (s_machine s) then get sn +64 1 else get sn) ->
    (forall sn s, get (g sn s) = get sn) -> (forall sn, get (sn <| sn_active := 0 |>) = get sn) ->
    get (foldl g (foldl f sn0 (iter (im_ticks m) (im_seqs m)).*2 <| sn_active := 0 |>) (iter (im_ticks m) (im_seqs m)).*2)
      = wrap 64 (in_states P m)).
  { intros get P sn0 H0 Hf Hg Ha. rewrite (foldl_field get g (fun n _ => n)) by apply Hg.
    by rewrite foldl_const, Ha, (counter_exact get f P sn0 m H0 Hf). }
  split_and!; rsimpl; [..|by rewrite iter_perm|by rewrite iter_perm].
  9,10: rewrite (foldl_field _ g (fun n _ => n)) by (intros sn s; unfold g; by destruct (negb _)); rewrite foldl_const;
    rsimpl; rewrite (foldl_field _ f (fun n _ => n)) by (intros sn s; unfold f, snapshot_seq; repeat case_match; done);
    by rewrite foldl_const.
  8:{ apply (counter_exact sn_active g (fun st => negb (is_terminal st))); [done|]. intros sn s. unfold g. by destruct (negb _). }
  all: apply K; [done| |intros sn s; unfold g; by destruct (negb _)|done].
  all: intros sn s; unfold f, snapshot_seq; cbv zeta; generalize (s_machine s); intros st; destruct st; reflexivity.
Qed.

(** C29: a snapshot counts every sequence where it is.  Whatever order the map is traversed in, each
    class counter of a snapshot is the number of sequences in its states (as a 64-bit number): admitted or
    waiting, ready, grouped or reserved, dispatched or running, completed, cancelled, expired.  No sequence is
    counted in two classes, and the class counters fall short of the number of sequences by exactly those in the states
    of [unclassified] (among them failed ones), which no class counts.  Besides the classes, [active]
    is the number of sequences that are not terminal; and the epoch, the counters, the workers and
    the reservations are those of the fabric. *)
Theorem snapshot_exact (m : Impl) :
  let sn := snapshot m in
  let within states := wrap 64 (in_states (fun st => bool_decide (st ∈ states)) m) in
  sn_admitted sn = within [SequenceState.Admitted_; SequenceState.Waiting] /\
  sn_ready sn = within [SequenceState.Ready; SequenceState.ReadyForNextToken; SequenceState.Yielded] /\
  sn_grouped sn = within [SequenceState.Grouped; SequenceState.Reserved] /\
  sn_running sn = within [SequenceState.Dispatched; SequenceState.Running] /\
  sn_completed sn = within [SequenceState.Completed] /\ sn_cancelled sn = within [SequenceState.Cancelled] /\
  sn_expired sn = within [SequenceState.DeadlineExpired] /\
  wrap 64 (sn_admitted sn + sn_ready sn + sn_grouped sn + sn_running sn + sn_completed sn + sn_cancelled sn + sn_expired sn +
    in_states unclassified m) = wrap 64 (Z.of_nat (size (im_seqs m))) /\
  sn_active sn = wrap 64 (in_states (fun st => negb (is_terminal st)) m) /\
  sn_epoch sn = im_epoch m /\ sn_stats sn = im_stats m /\
  sn_workers sn ≡ₚ (map_to_list (im_workers m)).*2 /\ sn_reservations sn ≡ₚ (map_to_list (im_reservations m)).*2.
Proof.
  cbv zeta. destruct (snapshot_counters m) as (E1 & E2 & E3 & E4 & E5 & E6 & E7 & E). split_and!; [done..| |apply E|apply E|apply E|apply E|apply E].
  rewrite E1, E2, E3, E4, E5, E6, E7. rewrite <- (snapshot_classes_total m). unfold in_states, snapshot_classes. cbn [sum_list_with].
  repeat match goal with |- context [Z.of_nat (count_entries ?P (im_seqs m))] => set (Z.of_nat (count_entries P (im_seqs m))) end.
  match goal with |- wrap 64 (wrap 64 ?a + wrap 64 ?b + wrap 64 ?c + wrap 64 ?d + wrap 64 ?e + wrap 64 ?f + wrap 64 ?g + ?h) = _ =>
    pose proof (wrap_sum 64 [a; b; c; d; e; f; g] h) as H end. cbn [foldr] in H.
  etrans; [etrans; [|exact H]|]; f_equal; lia.
Qed.
End counting.
