(* ===== verification/Distributed.v ===== *)
(** * Coordinator, workers and clients

    src/distributed.cpp: what the coordinator does with each frame of a worker's or a client's
    connection, its dispatch loop, and what a worker does with each frame of the coordinator.

    Every connection of the coordinator has a thread of its own; the fabric's operations are atomic,
    so a run of the coordinator is a sequence of events (a frame arrives, a connection is lost, the
    dispatch thread ticks) in an arbitrary interleaving, and a thread is the state of its session.
    Sockets and threads themselves are not modelled; Frame.v and Messages.v show that the bytes of a
    connection are the frames that were sent. *)

From S2P Require Import Prelude Enums Errors Token StateMachine Ids Compatibility Types Binary Frame Messages Double FabricState FabricFrame FabricOps Schedule Transaction Executor CpuExecutor Pump Observability.

(** [TcpConnection::send_frame(type, payload)]: what is sent. *)
Abbreviation Sent := (FrameType * bytes)%type.
Abbreviation ConnId := nat.

(** The fabric and [g_worker_conns]. *)
Record Coordinator := mkCoordinator {
  co_fabric : Impl;
  co_conns : gmap WorkerId ConnId;
}.
#[export] Instance Coordinator_eta : Settable Coordinator := fun r => mkCoordinator (co_fabric r) (co_conns r).

(** Where a connection's thread is: before its first frame, in the worker loop, in the client loop, gone. *)
Inductive Session :=
  | Opened
  | WorkerSession (w : WorkerDescriptor)
  | ClientSession
  | Closed.

(** [make_supported_key]. *)
Definition make_supported_key (device : DeviceId) (backend : BackendKind) : CompatibilityKey :=
  mkKey (mkId 1) (mkId 1) null_id backend device DType.F32 0 0 0 0.

Section coordinator.
Context {CLK : Clock} {ORD : MapOrder} {OS : Ostream}.

(** *** The worker loop *)

(** The grants and aborts that answer a prepared group. *)
Definition answer_member (ga : GrantOrAbort) : list Sent :=
  match ga_grant ga with
  | Some g => [(FrameType.CommitGrant, encode_commit_grant g)]
  | None => if ga_has_abort ga then [(FrameType.AbortPrepared, encode_abort_prepared (ga_abort_spec ga))] else []
  end.

Definition drop_conn (w : WorkerDescriptor) (co : Coordinator) : Coordinator := co <| co_conns ::= delete (wk_id w) |>.

Definition worker_frame (w : WorkerDescriptor) (f : Frame) (co : Coordinator) : list Sent * Session * Coordinator :=
  match fr_type f with
  | FrameType.PreparedResult =>
      match decode_prepared_result (fr_payload f) with
      | Ok pd =>
          match authorize_prepared pd (co_fabric co) with
          | (Ok ar, m) => (au_members ar ≫= answer_member, WorkerSession w, co <| co_fabric := m |>)
          | (Err _, m) => ([], WorkerSession w, co <| co_fabric := m |>)
          end
      | Err _ => ([], WorkerSession w, co)
      end
  | FrameType.CommitReceipt =>
      match decode_commit_receipts (fr_payload f) with
      | Ok rd => ([], WorkerSession w, co <| co_fabric ::= (fun m => (apply_commit_receipt rd m).2) |>)
      | Err _ => ([], WorkerSession w, co)
      end
  | FrameType.Shutdown => ([], Closed, drop_conn w co)
  | _ => ([], WorkerSession w, co)
  end.

(** The first frame of a worker. *)
Definition worker_hello (conn : ConnId) (f : Frame) (co : Coordinator) : Session * Coordinator :=
  match dec_worker (fr_payload f) with
  | Ok w => (WorkerSession w, co <| co_fabric ::= (fun m => (register_worker w m).2) |> <| co_conns ::= <[wk_id w := conn]> |>)
  | Err _ => (Closed, co)
  end.

(** *** The client loop *)

(** The reply to a status query. *)
Definition status_reply (m : Impl) : StatusReply :=
  let sn := snapshot m in
  mkStatusReply (wrap 32 (sn_active sn)) (wrap 32 (sn_ready sn)) (st_generated_tokens (sn_stats sn))
    (st_decode_steps (sn_stats sn)) (wrap 32 (Z.of_nat (List.length (sn_groups sn)))) (st_requests_admitted (sn_stats sn))
    (stale_rejections m) (id_value (im_epoch m)).
(** The reply to an epoch roll. *)
Definition epoch_reply (m : Impl) : StatusReply :=
  let sn := snapshot m in
  mkStatusReply (wrap 32 (sn_active sn)) (wrap 32 (sn_ready sn)) (st_generated_tokens (sn_stats sn))
    (st_decode_steps (sn_stats sn)) 0 (st_requests_admitted (sn_stats sn)) (stale_rejections m) (id_value (im_epoch m)).
(** The reply to a completion. *)
Definition completion_reply (m : Impl) : StatusReply :=
  mkStatusReply (active_sequences m) (ready_sequences m) (st_generated_tokens (stats m)) (st_decode_steps (stats m)) 0
    (st_requests_admitted (stats m)) 0 0.

Definition authority_reply (q : Result GetAuthority) (m : Impl) : AuthorityReply :=
  match q with
  | Ok q =>
      let ia := in_flight_authority (gq_sequence q) m in
      if da_exists ia then
        mkAuthorityReply true (gq_sequence q) (da_dispatch ia) (da_epoch ia) (da_worker ia) (da_worker_boot ia)
          (da_attempt ia) (da_generation ia) (da_generated ia)
      else mkAuthorityReply false (gq_sequence q) null_id null_id null_id null_id null_id null_id 0
  | Err _ => mkAuthorityReply false null_id null_id null_id null_id null_id null_id null_id 0
  end.

Definition explain_reply (q : Result ExplainRequest) (m : Impl) : ExplainReply :=
  match q with
  | Ok q => let ex := explain (xq_sequence q) (xq_question q) m in mkExplainReply (xp_answer ex) (explain_to_json ex)
  | Err _ => mkExplainReply "bad explain request" "{}"
  end.

(** One frame of a client: the replies and the fabric. *)
Definition client_request (f : Frame) (m : Impl) : list Sent * Impl :=
  match fr_type f with
  | FrameType.SubmitRequest =>
      match decode_submit_request (fr_payload f) with
      | Ok req =>
          let '(d, m) := submit req m in
          ([(FrameType.SubmitAck, encode_submit_ack (mkSubmitAck (ad_admitted d) (ad_sequence d) (ad_reason d)))], m)
      | Err _ => ([], m)
      end
  | FrameType.CancelRequest =>
      match decode_query (fr_payload f) with
      | Ok q =>
          let '(r, m) := cancel_request (q_request q) m in
          ([(FrameType.Acknowledge, [if cn_cancelled r then 1 else 0])], m)
      | Err _ => ([], m)
      end
  | FrameType.StatusQuery => ([(FrameType.StatusReply, encode_status_reply (status_reply m))], m)
  | FrameType.SnapshotRequest => ([(FrameType.SnapshotReply, encode_snapshot_reply (snapshot_to_json (snapshot m)))], m)
  | FrameType.GetAuthority =>
      ([(FrameType.AuthorityReply, encode_authority_reply (authority_reply (decode_get_authority (fr_payload f)) m))], m)
  | FrameType.ExecuteResult =>
      match decode_execute_result (fr_payload f) with
      | Ok res =>
          let m := (apply_completion res m).2 in
          ([(FrameType.StatusReply, encode_status_reply (completion_reply m))], m)
      | Err _ => ([], m)
      end
  | FrameType.ExplainRequest =>
      ([(FrameType.ExplainReply, encode_explain_reply (explain_reply (decode_explain_request (fr_payload f)) m))], m)
  | FrameType.RollEpoch =>
      let m := (roll_epoch m).2 in
      ([(FrameType.StatusReply, encode_status_reply (epoch_reply m))], m)
  | _ => ([], m)
  end.

Definition client_frame (f : Frame) (co : Coordinator) : list Sent * Session * Coordinator :=
  if bool_decide (fr_type f = FrameType.Shutdown) then ([], Closed, co)
  else let '(out, m) := client_request f (co_fabric co) in (out, ClientSession, co <| co_fabric := m |>).

(** *** A connection's thread *)

(** The thread receives a frame. *)
Definition on_frame (conn : ConnId) (s : Session) (f : Frame) (co : Coordinator) : list Sent * Session * Coordinator :=
  match s with
  | Opened =>
      if bool_decide (fr_type f = FrameType.Hello) then let '(s, co) := worker_hello conn f co in ([], s, co)
      else client_frame f co
  | WorkerSession w => worker_frame w f co
  | ClientSession => client_frame f co
  | Closed => ([], Closed, co)
  end.

(** [recv_frame] fails: a worker is declared dead. *)
Definition on_lost (s : Session) (co : Coordinator) : Session * Coordinator :=
  match s with
  | WorkerSession w => (Closed, drop_conn w (co <| co_fabric ::= (fun m => (mark_worker_dead (wk_id w) m).2) |>))
  | _ => (Closed, co)
  end.

(** One turn of the dispatch thread: what is sent on which connection. *)
Definition dispatch_tick (co : Coordinator) : list (ConnId * Sent) * Coordinator :=
  let '(ds, m) := schedule 0 (co_fabric co) in
  (omap (fun d => (fun conn => (conn, (FrameType.ExecuteRequest, encode_execute_request (exec_request d)))) <$>
                  (co_conns co !! dp_worker d)) ds,
   co <| co_fabric := m |>).

(** *** The coordinator *)

Inductive CoordEvent :=
  | EvAccept (conn : ConnId)
  | EvFrame (conn : ConnId) (f : Frame)
  | EvLost (conn : ConnId)
  | EvTick.

(** The coordinator, its threads, and everything sent so far. *)
Record Server := mkServer {
  sv_coord : Coordinator;
  sv_sessions : gmap ConnId Session;
  sv_sent : list (ConnId * Sent);
}.

Definition server_step (sv : Server) (ev : CoordEvent) : Server :=
  let '(mkServer co ss sent) := sv in
  match ev with
  | EvAccept conn => if bool_decide (is_Some (ss !! conn)) then sv else mkServer co (<[conn := Opened]> ss) sent
  | EvFrame conn f =>
      match ss !! conn with
      | Some s =>
          let '(out, s, co) := on_frame conn s f co in mkServer co (<[conn := s]> ss) (sent ++ (pair conn <$> out))
      | None => sv
      end
  | EvLost conn =>
      match ss !! conn with
      | Some s => let '(s, co) := on_lost s co in mkServer co (<[conn := s]> ss) sent
      | None => sv
      end
  | EvTick => let '(out, co) := dispatch_tick co in mkServer co ss (sent ++ out)
  end.
Definition serve (sv : Server) (evs : list CoordEvent) : Server := foldl server_step sv evs.

(** [coordinator_main]: the fabric it creates. *)
Definition coordinator_config : Config :=
  mkConfig (mkGroupLimits 64 0 0 0 0 LatencyClass.Bulk 0) (mkFabricLimits 0 0 0 0 0) (mkRetryPolicy 3 1000000 true) 16384 true.
Definition new_server : Server := mkServer (mkCoordinator (new_fabric coordinator_config) ∅) ∅ [].

(** *** The main loop *)

(** [run_coordinator] after its threads are started: the test at the head of the main loop, and the turns it
    makes within [fuel] turns ([None]: it is still running). *)
Definition keeps_running (max_loops loops : Z) (running : bool) : bool :=
  running && negb ((0 <? max_loops) && (max_loops <=? loops)).
Fixpoint main_loop (fuel : nat) (max_loops loops : Z) (running : bool) : option Z :=
  if keeps_running max_loops loops running then
    match fuel with
    | O => None
    | S n => main_loop n max_loops (loops + 1) running
    end
  else Some loops.
(** [coordinator_main]: the turns made for its [loops] argument, whose default is -1. *)
Definition coordinator_loops (fuel : nat) (arg : option Z) : option Z :=
  let loops := default (-1) arg in
  main_loop fuel loops 0 (loops <? 0).

(** The flag that lets the loops run is set exactly when no number of loops was asked for: with a number the
    coordinator stops at once, without one it never stops by itself. *)
Lemma coordinator_stops_at_once (fuel : nat) (n : Z) : 0 <= n -> coordinator_loops fuel (Some n) = Some 0.
Proof. intros Hn. unfold coordinator_loops; simpl. destruct (Z.ltb_spec n 0); [lia | by destruct fuel]. Qed.
Lemma coordinator_never_stops (fuel : nat) : coordinator_loops fuel None = None.
Proof.
  unfold coordinator_loops. change (_ <? 0) with true. generalize 0. induction fuel as [|n IH]; intros z; [done | apply IH].
Qed.
End coordinator.

(** *** The worker process *)

(** The descriptor a worker introduces itself with. *)
Definition worker_descriptor (wid : WorkerId) (boot : WorkerBootId) (dev : DeviceId) (device : DeviceDescriptor)
    (backend : BackendKind) : WorkerDescriptor :=
  mkWorker wid boot device WorkerHealth.Healthy 256 0 [make_supported_key dev backend] 0.
Definition worker_greeting (w : WorkerDescriptor) : Sent := (FrameType.Hello, enc_worker w).

Section worker.
Context {E : Type} {EX : DecodeExecutor E}.

(** The answer to an execute request. *)
Definition prepare_reply (req : DecodeExecutionRequest) (res : Result PreparedDecode) : PreparedDecode :=
  match res with
  | Ok pd => pd
  | Err e => mkPreparedDecode (er_dispatch_id req) (er_epoch req) (er_worker req) (er_worker_boot req) [] 0 (err_code e) (err_message e)
  end.
(** The answer to a grant. *)
Definition commit_reply (g : CommitGrant) (res : Result MemberReceipt) : ReceiptDecode :=
  mkReceiptDecode (g_dispatch g) (g_epoch g) (g_worker g) (g_worker_boot g)
    (match res with Ok mr => [mr <| rc_committed_at := 0 |>] | Err _ => [] end) ErrorCode.Ok "".

(** One frame of the worker's loop: what it sends, the executor, and whether it goes on. *)
Definition worker_loop (f : Frame) (e : E) : list Sent * E * bool :=
  match fr_type f with
  | FrameType.ExecuteRequest =>
      match decode_execute_request (fr_payload f) with
      | Ok req =>
          let '(res, e) := ex_prepare req e in
          ([(FrameType.PreparedResult, encode_prepared_result (prepare_reply req res))], e, true)
      | Err _ => ([], e, true)
      end
  | FrameType.CommitGrant =>
      match decode_commit_grant (fr_payload f) with
      | Ok g =>
          let '(res, e) := ex_commit g e in
          ([(FrameType.CommitReceipt, encode_commit_receipts (commit_reply g res))], e, true)
      | Err _ => ([], e, true)
      end
  | FrameType.AbortPrepared =>
      match decode_abort_prepared (fr_payload f) with
      | Ok a => ([], (ex_abort a e).2, true)
      | Err _ => ([], e, true)
      end
  | FrameType.Shutdown => ([(FrameType.WorkerShutdownAck, [])], e, false)
  | _ => ([], e, true)
  end.
End worker.

(** *** The client helpers *)

(** [client_submit] and [client_status], from the reply they receive. *)
Definition client_submit (reply : Result Frame) : Result SubmitAck :=
  match reply with
  | Err e => Err e
  | Ok f => if bool_decide (fr_type f = FrameType.SubmitAck) then decode_submit_ack (fr_payload f)
            else failed ErrorCode.ProtocolMalformed "expected SubmitAck"
  end.
Definition client_status (reply : Result Frame) : Result StatusReply :=
  match reply with
  | Err e => Err e
  | Ok f => if bool_decide (fr_type f = FrameType.StatusReply) then decode_status_reply (fr_payload f)
            else failed ErrorCode.ProtocolMalformed "expected StatusReply"
  end.
