(* ===== verification/Programs.v ===== *)
(** * The coordinator and the worker as programs

    [coordinator_main] and [worker_main] of src/distributed.cpp, which src/tools call: their arguments,
    what they print and return, the retried connection of a worker, and its loop.  What the threads of a
    running coordinator do is Distributed.v. *)

From S2P Require Import Prelude Enums Errors Token StateMachine Ids Compatibility Types Binary Frame Messages Transport SocketOwnership Double FabricState CLib FabricOps Schedule Transaction Executor CpuExecutor Pump Kernel CudaExecutor Observability Distributed.
From Stdlib Require Import Ascii String.
Open Scope Z_scope.

(** What a program writes. *)
Inductive Output :=
  | Stdout (s : string)
  | Stderr (s : string).
Definition nl : string := String (ascii_of_nat 10) EmptyString.

(** [argv[i]]. *)
Definition arg (argv : list string) (i : nat) : string := default EmptyString (argv !! i).
Definition argc (argv : list string) : nat := List.length argv.

(** ** The coordinator *)

Section coordinator.
Context {AO : AtoiOverflow}.

Definition coordinator_usage : string := "usage: df-coordinator <port> [loops]" +:+ nl.
(** Port and loops. *)
Definition coordinator_args (argv : list string) : option (Z * Z) :=
  if (argc argv <? 2)%nat then None
  else Some (atoi (arg argv 1), if (3 <=? argc argv)%nat then atoi (arg argv 2) else -1).

(** [run_coordinator] as its caller sees it: it binds or fails, and returns when its main loop has ended and its
    threads have.  The thread that accepts, if it was started with [running] set, ends when the call of [accept] it is
    in returns; [accept_returns] says whether it does, since nothing closes the listener before the thread is joined. *)
Definition run_coordinator (fuel : nat) (startup : Z) (o : ListenOutcome) (port max_loops : Z) (running accept_returns : bool) (os : Os) : option (Result unit) :=
  let '(l, os) := new_listener startup os in
  match tl_listen o "127.0.0.1" port l os with
  | (Err e, _, _) => Some (failed ErrorCode.BackendError ("coordinator bind failed: " +:+ err_message e))
  | (Ok _, _, _) =>
      match main_loop fuel max_loops 0 running with
      | Some _ => if running && negb accept_returns then None else Some (Ok tt)
      | None => None
      end
  end.

(** [coordinator_main]: exit code and output, or still running. *)
Definition coordinator_main (fuel : nat) (startup : Z) (o : ListenOutcome) (accept_returns : bool) (argv : list string) (os : Os) : option (Z * list Output) :=
  match coordinator_args argv with
  | None => Some (2, [Stderr coordinator_usage])
  | Some (port, loops) =>
      match run_coordinator fuel startup o port loops (loops <? 0) accept_returns os with
      | None => None
      | Some (Err e) => Some (1, [Stderr ("coordinator error: " +:+ c_str (err_message e) +:+ nl)])
      | Some (Ok _) => Some (0, [])
      end
  end.

Lemma run_coordinator_bound fuel startup o port loops running ar os :
  is_ok (tl_listen o "127.0.0.1" port (new_listener startup os).1 (new_listener startup os).2).1.1 = true ->
  run_coordinator fuel startup o port loops running ar os =
  match main_loop fuel loops 0 running with Some _ => if running && negb ar then None else Some (Ok tt) | None => None end.
Proof.
  intros Hl. unfold run_coordinator. destruct (new_listener startup os) as [l os1]. cbn [fst snd] in Hl.
  by destruct (tl_listen o "127.0.0.1" port l os1) as [[[u|e] ?] ?].
Qed.

(** A coordinator that could bind its port and was given a number of loops returns at once; without the number it
    never returns. *)
Lemma coordinator_main_returns fuel startup o ar argv os :
  is_ok (tl_listen o "127.0.0.1" (atoi (arg argv 1)) (new_listener startup os).1 (new_listener startup os).2).1.1 = true ->
  ((3 <= argc argv)%nat -> 0 <= atoi (arg argv 2) -> coordinator_main fuel startup o ar argv os = Some (0, [])) /\
  (argc argv = 2%nat -> coordinator_main fuel startup o ar argv os = None).
Proof.
  intros Hl. unfold coordinator_main, coordinator_args. split.
  - intros Hn H0. destruct (Nat.ltb_spec (argc argv) 2); [lia|]. destruct (Nat.leb_spec 3 (argc argv)); [|lia].
    rewrite run_coordinator_bound by done.
    change (main_loop fuel ?l 0 (?l <? 0)) with (coordinator_loops fuel (Some l)). rewrite coordinator_stops_at_once by done.
    by destruct (Z.ltb_spec (atoi (arg argv 2)) 0); [lia|].
  - intros Hn. rewrite Hn. cbn [Nat.ltb Nat.leb]. rewrite run_coordinator_bound by done.
    change (main_loop fuel (-1) 0 (-1 <? 0)) with (coordinator_loops fuel None). by rewrite coordinator_never_stops.
Qed.
End coordinator.

(** ** The worker *)

Record WorkerArgs := mkWorkerArgs {
  wa_host : string;
  wa_port : Z;
  wa_worker : WorkerId;
  wa_boot : WorkerBootId;
  wa_device : DeviceId;
  wa_cuda : bool;
}.

Definition worker_usage : string := "usage: df-worker <host> <port> <worker_id> <boot_id> <device_id> [--cuda]" +:+ nl.
Definition worker_args {AO : AtoiOverflow} (argv : list string) : option WorkerArgs :=
  if (argc argv <? 6)%nat then None
  else Some (mkWorkerArgs (arg argv 1) (atoi (arg argv 2)) (mkId (strtoull (arg argv 3))) (mkId (strtoull (arg argv 4)))
    (mkId (strtoull (arg argv 5))) (String.eqb (arg argv (argc argv - 1)) "--cuda")).

(** The connection is tried again up to [tries] times; [outcomes k] is how the k-th attempt ends. *)
Fixpoint connect_again (tries : nat) (outcomes : nat -> ConnectOutcome) (k : nat) (cr : Result unit) (c : TcpConnection) (os : Os)
    : Result unit * TcpConnection * Os :=
  match cr, tries with
  | Err _, S tries => let '(cr, c, os) := tc_connect (outcomes k) c os in connect_again tries outcomes (S k) cr c os
  | _, _ => (cr, c, os)
  end.
Definition worker_connect (outcomes : nat -> ConnectOutcome) (c : TcpConnection) (os : Os) : Result unit * TcpConnection * Os :=
  let '(cr, c, os) := tc_connect (outcomes 0%nat) c os in connect_again 500 outcomes 1 cr c os.

(** The backend of the executor; [cuda_enabled] is DECODEFABRIC_CUDA_ENABLED. *)
Definition worker_backend (cuda_enabled want_cuda : bool) : BackendKind * list Output :=
  if want_cuda then
    if cuda_enabled then (BackendKind.CUDA, [])
    else (BackendKind.CPU, [Stderr ("worker: CUDA not enabled in this build; using CPU" +:+ nl)])
  else (BackendKind.CPU, []).
(** The descriptor it introduces itself with. *)
Definition worker_hello_descriptor (cuda_enabled : bool) (prop : option DeviceProp) (a : WorkerArgs) : WorkerDescriptor :=
  let kb := (worker_backend cuda_enabled (wa_cuda a)).1 in
  let device := if bool_decide (kb = BackendKind.CUDA) then cuda_device (wa_device a) prop else cpu_device (wa_device a) in
  worker_descriptor (wa_worker a) (wa_boot a) (wa_device a) device kb.

(** The loop: what [recv_frame] returns turn by turn; whether it has ended. *)
Fixpoint worker_session {E} `{DecodeExecutor E} (received : list (Result Frame)) (e : E) : list Sent * E * bool :=
  match received with
  | [] => ([], e, false)
  | Err _ :: _ => ([], e, true)
  | Ok f :: received =>
      let '(out, e, goes_on) := worker_loop f e in
      if goes_on then let '(out', e, ended) := worker_session received e in (out ++ out', e, ended) else (out, e, true)
  end.

(** [worker_main] up to its loop: the arguments, the connection and the greeting, or its exit code. *)
Definition worker_main {AO : AtoiOverflow} (cuda_enabled : bool) (prop : option DeviceProp) (outcomes : nat -> ConnectOutcome)
    (argv : list string) (os : Os) : (Z + TcpConnection * Sent) * list Output * Os :=
  match worker_args argv with
  | None => (inl 2, [Stderr worker_usage], os)
  | Some a =>
      match worker_connect outcomes new_connection os with
      | (Err e, c, os) => (inl 1, [Stderr ("worker connect failed: " +:+ c_str (err_message e) +:+ nl)], (tc_close c os).2)
      | (Ok _, c, os) =>
          (inr (c, worker_greeting (worker_hello_descriptor cuda_enabled prop a)), (worker_backend cuda_enabled (wa_cuda a)).2, os)
      end
  end.

(** ** The retried connection *)

Definition connect_ok (o : ConnectOutcome) : Prop :=
  cn_startup o = 0 /\ cn_socket o = true /\ cn_resolve o = 0 /\ cn_connect o = 0.

(** An attempt whose calls all succeed connects; one that does not leaves the connection without a socket. *)
Lemma tc_connect_cases o c os :
  tc_socket c = None ->
  (exists s os', tc_connect o c os = (Ok tt, c <| tc_socket := Some s |>, os')) \/
  (exists e c' os', tc_connect o c os = (Err e, c', os') /\ tc_socket c' = None /\ ~ connect_ok o).
Proof.
  intros Hc. unfold tc_connect. assert (Hrc : cn_startup o = 0 -> (ensure_winsock (cn_startup o) os).1 = 0).
  { intros ->. unfold ensure_winsock. by destruct (os_started os). }
  destruct (ensure_winsock (cn_startup o) os) as [rc os1]. cbn [fst] in Hrc.
  destruct (Z.eqb_spec rc 0) as [->|Hn]; cbn [negb]; [|right; eexists _, _, _; split_and!; [done|done|intros (? & _); auto]].
  destruct (cn_socket o) eqn:Es; cbn [negb]; [|right; eexists _, _, _; split_and!; [done|done|intros (_ & ? & _); congruence]].
  destruct (open_socket os1) as [s os2].
  destruct (Z.eqb_spec (cn_resolve o) 0); cbn [negb]; [|right; eexists _, _, _; split_and!; [done|done|by intros (_ & _ & ? & _)]].
  destruct (Z.eqb_spec (cn_connect o) 0); cbn [negb]; [left; eauto|].
  right. eexists _, _, _. split_and!; [done|by rsimpl|by intros (_ & _ & _ & ?)].
Qed.

Lemma connect_again_spec tries outcomes k cr c os :
  (forall e, cr = Err e -> tc_socket c = None) ->
  (exists u, cr = Ok u) \/ (exists j, (k <= j < k + tries)%nat /\ connect_ok (outcomes j)) ->
  is_ok (connect_again tries outcomes k cr c os).1.1 = true.
Proof.
  revert k cr c os. induction tries as [|tries IH]; intros k cr c os Hc Hex.
  - destruct Hex as [(u & ->)|(j & Hj & _)]; [done|lia].
  - destruct cr as [u|e]; [done|]. cbn [connect_again]. destruct Hex as [(u & ?)|(j & Hj & Hok)]; [done|].
    destruct (tc_connect_cases (outcomes k) c os (Hc e eq_refl)) as [(s & os' & ->)|(e' & c' & os' & -> & Hn & Hbad)].
    + apply IH; [done|by left; eexists].
    + apply IH; [done|]. right. exists j. split; [|done]. destruct (decide (j = k)) as [->|]; [done|lia].
Qed.

(** A worker connects if any of its first 501 attempts can succeed. *)
Lemma worker_connects (outcomes : nat -> ConnectOutcome) (os : Os) (j : nat) :
  (j <= 500)%nat -> connect_ok (outcomes j) -> is_ok (worker_connect outcomes new_connection os).1.1 = true.
Proof.
  intros Hj Hok. unfold worker_connect.
  destruct (tc_connect_cases (outcomes 0%nat) new_connection os eq_refl) as [(s & os' & ->)|(e & c & os' & -> & Hn & Hbad)].
  - apply connect_again_spec; [done|by left; eexists].
  - apply connect_again_spec; [done|]. right. exists j. split; [|done]. destruct j; [done|lia].
Qed.
