(* ===== verification/System.v ===== *)
(** * The coordinator together with its workers

    src/distributed.cpp as a whole: [run_coordinator] of Distributed.v on one side, any number of
    worker processes running [worker_main]'s loop on the other, and clients that send any frames.

    A connection delivers in each direction what was sent, in order; how far the reader has come is
    a counter, so what has been sent and not yet read is in flight.  Processes die, connections are
    lost at any moment, and the steps of all parties interleave arbitrarily.  [sy_commits] records the
    commits the executors accepted; no part of the program reads it. *)

From S2P Require Import Prelude Enums Errors Token StateMachine Ids Compatibility Types Binary Frame Messages Double FabricState FabricFrame FabricOps Schedule Transaction Executor Pump Observability Distributed.

(** A message as the receiver's decoder returns it. *)
Definition sent_frame (s : Sent) : Frame := Frame.frame_of s.1 s.2.

(** A worker process and the two directions of its connection. *)
Record Process (E : Type) := mkProcess {
  pr_executor : E;
  pr_sent : list Sent;
  pr_delivered : nat;
  pr_read : nat;
  pr_running : bool;
}.
Arguments mkProcess {E}.
Arguments pr_executor {E}.
Arguments pr_sent {E}.
Arguments pr_delivered {E}.
Arguments pr_read {E}.
Arguments pr_running {E}.

Record System (E : Type) := mkSystem {
  sy_server : Server;
  sy_procs : gmap ConnId (Process E);
  sy_commits : list (CommitGrant * MemberReceipt);
}.
Arguments mkSystem {E}.
Arguments sy_server {E}.
Arguments sy_procs {E}.
Arguments sy_commits {E}.

Inductive Action (E : Type) :=
  | AStart (conn : ConnId) (w : WorkerDescriptor) (e : E)
  | AWork (conn : ConnId)
  | ADeliver (conn : ConnId)
  | ACrash (conn : ConnId)
  | AClient (conn : ConnId)
  | AClientFrame (conn : ConnId) (f : Frame)
  | ALost (conn : ConnId)
  | ATick.
Arguments AStart {E}.
Arguments AWork {E}.
Arguments ADeliver {E}.
Arguments ACrash {E}.
Arguments AClient {E}.
Arguments AClientFrame {E}.
Arguments ALost {E}.
Arguments ATick {E}.

Section system.
Context {CLK : Clock} {ORD : MapOrder} {OS : Ostream} {E : Type} {EX : DecodeExecutor E}.
Implicit Types (sy : System E) (p : Process E).

(** What the coordinator sent on a connection. *)
Definition sent_to (conn : ConnId) (sv : Server) : list Sent := (filter (fun x => x.1 = conn) (sv_sent sv)).*2.

(** The commit an executor accepts when its process handles a frame. *)
Definition commit_of (f : Frame) (e : E) : list (CommitGrant * MemberReceipt) :=
  match fr_type f with
  | FrameType.CommitGrant =>
      match decode_commit_grant (fr_payload f) with
      | Ok g => match (ex_commit g e).1 with Ok rec => [(g, rec)] | Err _ => [] end
      | Err _ => []
      end
  | _ => []
  end.

(** One turn of the loop of [worker_main]: [recv_frame] returns the next frame the coordinator sent. *)
Definition worker_turn (conn : ConnId) p sy : System E :=
  match sent_to conn (sy_server sy) !! pr_read p with
  | Some s =>
      let '(out, e, goes_on) := worker_loop (sent_frame s) (pr_executor p) in
      mkSystem (sy_server sy) (<[conn := mkProcess e (pr_sent p ++ out) (pr_delivered p) (S (pr_read p)) goes_on]> (sy_procs sy))
        (sy_commits sy ++ commit_of (sent_frame s) (pr_executor p))
  | None => sy
  end.

Definition with_server (ev : CoordEvent) sy : System E :=
  mkSystem (server_step (sy_server sy) ev) (sy_procs sy) (sy_commits sy).

Definition sys_step sy (a : Action E) : System E :=
  let accepted conn := bool_decide (is_Some (sv_sessions (sy_server sy) !! conn)) in
  match a with
  | AStart conn w e =>
      if accepted conn then sy
      else mkSystem (server_step (sy_server sy) (EvAccept conn))
             (<[conn := mkProcess e [worker_greeting w] 0 0 true]> (sy_procs sy)) (sy_commits sy)
  | AWork conn =>
      match sy_procs sy !! conn with
      | Some p => if pr_running p then worker_turn conn p sy else sy
      | None => sy
      end
  | ADeliver conn =>
      match sy_procs sy !! conn with
      | Some p =>
          match pr_sent p !! pr_delivered p with
          | Some s =>
              mkSystem (server_step (sy_server sy) (EvFrame conn (sent_frame s)))
                (<[conn := mkProcess (pr_executor p) (pr_sent p) (S (pr_delivered p)) (pr_read p) (pr_running p)]> (sy_procs sy))
                (sy_commits sy)
          | None => sy
          end
      | None => sy
      end
  | ACrash conn =>
      match sy_procs sy !! conn with
      | Some p =>
          mkSystem (sy_server sy)
            (<[conn := mkProcess (pr_executor p) (pr_sent p) (pr_delivered p) (pr_read p) false]> (sy_procs sy)) (sy_commits sy)
      | None => sy
      end
  | AClient conn => if accepted conn then sy else with_server (EvAccept conn) sy
  | AClientFrame conn f => if bool_decide (is_Some (sy_procs sy !! conn)) then sy else with_server (EvFrame conn f) sy
  | ALost conn => with_server (EvLost conn) sy
  | ATick => with_server EvTick sy
  end.

Definition run_system sy (acts : list (Action E)) : System E := foldl sys_step sy acts.
Definition new_system : System E := mkSystem new_server ∅ [].
Definition fabric_of_system sy : Impl := co_fabric (sv_coord (sy_server sy)).
End system.
