(* ===== verification/Persist.v ===== *)
(** * Persistence and recovery

    [DecodeFabric::serialize_state] and [recover_state] of src/fabric.cpp.  The image is a
    header, the sequences, the terminal records, the grant ledger and the receipt count,
    sealed by the checksum of Crc.v.  Recovery parses the image while it overwrites the
    fabric, so it is written in a small monad whose failures keep the state reached. *)

From S2P Require Import Prelude Enums Errors Token StateMachine Ids Compatibility Types Binary Frame Messages Crc Double FabricState FabricFrame FabricOps Transaction.

Definition kPersistenceVersion : Z := 3.
(** The characters D, F, S and T. *)
Definition magic : bytes := [68; 70; 83; 84].

(** ** The image *)

(** The accepted-generation record of a sequence. *)
Definition write_accepted (a : AcceptedGeneration) : bytes :=
  w_u64 (ac_idempotency_key a) ++ w_id (ac_epoch a) ++ w_id (ac_worker a) ++ w_id (ac_worker_boot a) ++
  w_id (ac_sequence a) ++ w_id (ac_state a) ++ w_id (ac_attempt a) ++ w_id (ac_generation a) ++
  w_id (ac_dispatch a) ++ w_u64 (ac_committed_position_before a) ++ w_u64 (ac_committed_position_after a) ++
  w_u64 (ac_pre_state_digest a) ++ w_u64 (ac_post_state_digest a) ++ w_u64 (ac_delta_digest a) ++
  w_bool (ac_terminal a) ++ w_bool (ac_promotion_observed a).

Definition write_seq (kv : SequenceId * Seq) : bytes :=
  let s := kv.2 in
  w_id kv.1 ++ w_id (rq_id (s_req s)) ++ w_id (s_current_attempt s) ++ w_id (rq_tenant (s_req s)) ++
  w_id (rq_model (s_req s)) ++ w_id (rq_revision (s_req s)) ++ w_u64 (rq_prompt_length (s_req s)) ++
  w_u64 (rq_max_generation_length (s_req s)) ++ w_u64 (tb_generated (s_budget s)) ++ w_u64 (s_generation s) ++
  w_u64 (s_generated s) ++ w_u64 (s_committed s) ++ w_u64 (s_current_length s) ++
  w_ns (rq_deadline (s_req s)) ++ w_u32 (rq_priority (s_req s)) ++ w_enum8 (rq_latency_class (s_req s)) ++
  w_enum8 (s_machine s) ++ w_id (sd_id (s_state s)) ++ w_u64 (sd_generation (s_state s)) ++
  w_u64 (sd_bytes_held (s_state s)) ++ w_u64 (sd_estimated_growth (s_state s)) ++
  w_u64 (sd_owner_tag (s_state s)) ++ w_u32 (s_attempt_count s) ++
  w_u64 (s_committed_state_digest s) ++ w_bool (s_state_digest_established s) ++ w_bool (s_has_accepted s) ++
  (if s_has_accepted s then write_accepted (s_accepted s) else []).

Definition write_terminal (kv : SequenceId * SequenceState) : bytes := w_id kv.1 ++ w_enum8 kv.2.

(** The grant and the receipt are laid out as on the wire. *)
Definition write_grant_record (gr : GrantRecord) : bytes :=
  encode_commit_grant (gr_grant gr) ++ w_u32 (gr_status gr) ++
  match gr_receipt gr with Some rp => w_bool true ++ write_receipt rp | None => w_bool false end.

(** ** Reading it back *)

(** A field of the image: any failure to read it is a truncation that names the field. *)
Definition field {A} (msg : string) (m : Read A) : Read A :=
  fun r => match m r with Ok x => Ok x | Err _ => failed ErrorCode.PersistenceTruncated msg end.

Definition read_accepted : Read AcceptedGeneration :=
  ik <- field "accepted key" r_u64 ;; ae <- field "accepted epoch" r_id ;; aw <- field "accepted worker" r_id ;;
  ab <- field "accepted boot" r_id ;; sq <- field "accepted seq" r_id ;; st <- field "accepted state" r_id ;;
  att <- field "accepted attempt" r_id ;; gn <- field "accepted gen" r_id ;; di <- field "accepted dispatch" r_id ;;
  cb <- field "accepted cb" r_u64 ;; ca <- field "accepted ca" r_u64 ;; pre <- field "accepted pre" r_u64 ;;
  post <- field "accepted post" r_u64 ;; dd <- field "accepted delta" r_u64 ;;
  term <- field "accepted terminal" r_bool ;; po <- field "accepted promotion" r_bool ;;
  r_ret (mkAccepted ik ae aw ab sq st att gn di cb ca pre post dd term po).

(** The state machine of a restored sequence: work that was running is re-queued where the
    transition table allows it. *)
Definition restore_machine (restored : SequenceState) : SequenceState :=
  if is_running restored || bool_decide (restored = SequenceState.Reserved)
     || bool_decide (restored = SequenceState.Grouped) || bool_decide (restored = SequenceState.StepCompleted)
     || bool_decide (restored = SequenceState.Cancelled) || bool_decide (restored = SequenceState.DeadlineExpired)
  then transition_to_state SequenceState.Waiting restored else restored.

(** A sequence: what is not in the image is as in a fresh [Seq], [DecodeRequest] or [StateDescriptor]. *)
Definition read_seq : Read (SequenceId * Seq) :=
  seq <- field "seq id" r_id ;; rq <- field "req id" r_id ;; att <- field "attempt" r_id ;;
  t <- field "tenant" r_id ;; md <- field "model" r_id ;; rv <- field "revision" r_id ;;
  pl <- field "prompt" r_u64 ;; ml <- field "maxlen" r_u64 ;; bg <- field "generated" r_u64 ;;
  gen <- field "generation" r_u64 ;; gent <- field "g" r_u64 ;; comm <- field "c" r_u64 ;;
  clen <- field "clen" r_u64 ;; dl <- field "deadline" r_ns ;; pr <- field "priority" r_u32 ;;
  lc <- field "latency" r_enum8 ;; st <- field "state" r_enum8 ;; sid <- field "state id" r_id ;;
  sg <- field "state gen" r_u64 ;; bh <- field "bytes held" r_u64 ;; eg <- field "est growth" r_u64 ;;
  ot <- field "owner tag" r_u64 ;; ac <- field "attempt count" r_u32 ;;
  csd <- field "committed digest" r_u64 ;; sde <- field "digest established" r_bool ;;
  hac <- field "accepted flag" r_bool ;;
  acc <- (if hac then read_accepted else r_ret default_accepted) ;;
  let req := mkRequest rq null_id t md rv null_id null_id pl ml 0 pr double_one lc dl 0 0 0 null_id ""
    default_state_descriptor in
  let state := mkStateDescriptor sid sg null_id bh eg ot 0 in
  r_ret (seq, mkSeq req (restore_machine st) att (tb_advance_times (Z.to_nat bg) (new_budget ml)) clen gent comm gen
    null_id null_id null_id null_id 0 false csd sde null_id false null_id 0 acc hac null_id state ac 0 0 0 0 0 false).

Definition read_terminal : Read (SequenceId * SequenceState) :=
  a <- field "t seq" r_id ;; b <- field "t state" r_enum8 ;; r_ret (a, b).

Definition read_ledger_grant : Read CommitGrant :=
  gid <- field "grant id" r_id ;; pro <- field "grant proposal" r_id ;; ep <- field "grant epoch" r_id ;;
  wk <- field "grant worker" r_id ;; wb <- field "grant boot" r_id ;; sq <- field "grant seq" r_id ;;
  st <- field "grant state" r_id ;; att <- field "grant attempt" r_id ;; gn <- field "grant generation" r_id ;;
  di <- field "grant dispatch" r_id ;; cp <- field "grant position" r_u64 ;; pre <- field "grant pre" r_u64 ;;
  post <- field "grant post" r_u64 ;; dd <- field "grant delta" r_u64 ;; ok <- field "grant ok" r_enum8 ;;
  term <- field "grant term" r_bool ;; tok <- field "grant token" r_u32 ;; an <- field "grant active" r_ns ;;
  r_ret (mkGrant gid pro ep wk wb sq st att gn di cp pre post dd ok term tok an).

Definition read_ledger_receipt : Read MemberReceipt :=
  a <- field "receipt id" r_id ;; b <- field "receipt grant" r_id ;; c <- field "receipt proposal" r_id ;;
  d <- field "receipt epoch" r_id ;; e <- field "receipt worker" r_id ;; f <- field "receipt boot" r_id ;;
  g <- field "receipt seq" r_id ;; h <- field "receipt state" r_id ;; i <- field "receipt attempt" r_id ;;
  j <- field "receipt gen" r_id ;; k <- field "receipt dispatch" r_id ;; la <- field "receipt cb" r_u64 ;;
  lb <- field "receipt ca" r_u64 ;; lc <- field "receipt pre" r_u64 ;; ld <- field "receipt post" r_u64 ;;
  le <- field "receipt delta" r_u64 ;; lf <- field "receipt kind" r_enum8 ;; lg <- field "receipt terminal" r_bool ;;
  lh <- field "receipt token" r_u32 ;; li <- field "receipt active" r_ns ;; lj <- field "receipt time" r_ns ;;
  r_ret (mkReceipt a b c d e f g h i j k la lb lc ld le lf lg lh li lj).

(** [static_cast<int>] of a 32-bit word. *)
Definition to_s32 (z : Z) : Z := if z <? 2 ^ 31 then z else z - 2 ^ 32.

(** A grant record; a pending grant is not revived. *)
Definition read_grant_record : Read GrantRecord :=
  g <- read_ledger_grant ;; status <- field "grant status" r_u32 ;; has <- field "grant has receipt" r_bool ;;
  rc <- (if has then rp <- read_ledger_receipt ;; r_ret (Some rp) else r_ret None) ;;
  r_ret (mkGrantRecord g (if status =? 0 then 2 else to_s32 status) rc).

(** The header: magic, version, epoch and the two counters. *)
Definition check_magic : Read unit :=
  a <- field "missing magic" r_u8 ;; b <- field "missing magic" r_u8 ;; c <- field "missing magic" r_u8 ;;
  d <- field "missing magic" r_u8 ;;
  if bool_decide ([a; b; c; d] = magic) then r_ret tt else r_fail ErrorCode.PersistenceCorrupt "bad magic".
Definition check_version : Read unit := fun r =>
  match r_u32 r with
  | Ok (v, r') => if v =? kPersistenceVersion then Ok (tt, r')
                  else failed ErrorCode.PersistenceUnknownVersion "bad persistence version"
  | Err _ => failed ErrorCode.PersistenceUnknownVersion "bad persistence version"
  end.
Definition read_header : Read (CoordinatorEpoch * Z * Z) :=
  _ <- check_magic ;; _ <- check_version ;; ep <- field "epoch" r_id ;; ns <- field "next_seq" r_u64 ;;
  nd <- field "next_dispatch" r_u64 ;; r_ret (ep, ns, nd).

(** ** Recovery: a reader and a fabric state; a failure keeps the state reached *)

Definition Recover (A : Type) : Type := Reader -> Impl -> Result (A * Reader) * Impl.
Definition lift {A} (x : Read A) : Recover A := fun r m => (x r, m).
Definition modify (f : Impl -> Impl) : Recover unit := fun r m => (Ok (tt, r), f m).
Definition rc_bind {A B} (x : Recover A) (k : A -> Recover B) : Recover B := fun r m =>
  match x r m with (Ok (a, r'), m') => k a r' m' | (Err e, m') => (Err e, m') end.

Declare Scope recover_scope.
Delimit Scope recover_scope with recover.
Notation "x <-- m ;; k" := (rc_bind m (fun x => k%recover)) (at level 100, m at next level, right associativity) : recover_scope.

(** The loop over [n] records, each stored as soon as it is read. *)
Fixpoint recover_loop {A} (n : nat) (x : Read A) (store : A -> Impl -> Impl) : Recover unit :=
  match n with
  | O => modify id_impl
  | S n => (a <-- lift x ;; _ <-- modify (store a) ;; recover_loop n x store)%recover
  end.

Definition store_seq (kv : SequenceId * Seq) (m : Impl) : Impl :=
  m >>> upd im_seqs (fun seqs => if bool_decide (is_Some (seqs !! kv.1)) then seqs else <[kv.1 := kv.2]> seqs)
    >>> upd im_req_to_seq <[rq_id (s_req kv.2) := kv.1]>
    >>> upd im_tenant_active (fun ta =>
          <[rq_tenant (s_req kv.2) := wrap 32 (default 0 (ta !! rq_tenant (s_req kv.2)) + 1)]> ta).
Definition store_terminal (kv : SequenceId * SequenceState) (m : Impl) : Impl :=
  m <| im_terminal_records ::= <[kv.1 := kv.2]> |>.
Definition store_grant (gr : GrantRecord) (m : Impl) : Impl :=
  m <| im_grant_ledger ::= <[g_grant_id (gr_grant gr) := gr]> |>.

(** What is overwritten once the header is read. *)
Definition restart (h : CoordinatorEpoch * Z * Z) (m : Impl) : Impl :=
  m <| im_epoch := h.1.1 |> <| im_next_seq := h.1.2 |> <| im_next_dispatch := h.2 |> <| im_seqs := ∅ |>
    <| im_req_to_seq := ∅ |> <| im_terminal_records := ∅ |> <| im_tenant_active := ∅ |>.

Definition kMaxGrants : Z := Z.shiftl 1 22.

Section persistence.
Context {CLK : Clock} {ORD : MapOrder}.

(** The body of the image. *)
Definition serialize_body (m : Impl) : bytes :=
  magic ++ w_u32 kPersistenceVersion ++ w_id (im_epoch m) ++ w_u64 (im_next_seq m) ++ w_u64 (im_next_dispatch m) ++
  w_counted write_seq (iter (im_ticks m) (im_seqs m)) ++
  w_counted write_terminal (iter (im_ticks m) (im_terminal_records m)) ++
  w_counted write_grant_record (iter (im_ticks m) (im_grant_ledger m)).*2 ++
  w_u64 (im_receipt_count m).

(** [DecodeFabric::serialize_state]. *)
Definition serialize_state (m : Impl) : Result bytes := Ok (seal (serialize_body m)).

(** The counters are recomputed from the restored sequences. *)
Definition recount (m : Impl) : Impl :=
  let seqs := (iter (im_ticks m) (im_seqs m)).*2 in
  m <| im_stats ::= (fun st =>
         st <| st_generated_tokens := foldl (fun n s => n +64 s_generated s) 0 seqs |>
            <| st_decode_steps := foldl (fun n s => if s_generation s >=? 1 then n +64 (s_generation s - 1) else n) 0 seqs |>
            <| st_sequences_started := Z.of_nat (size (im_seqs m)) |>
            <| st_requests_admitted := Z.of_nat (size (im_req_to_seq m)) |>) |>
    >>> record_event EventKind.MemoryReconciled null_id null_id "recovered".

(** The records after the header, into the emptied fabric. *)
Definition recover_records : Recover unit :=
  (cnt <-- lift (field "seq count" r_u64) ;;
   _ <-- recover_loop (Z.to_nat cnt) read_seq store_seq ;;
   tcnt <-- lift (field "terminal count" r_u64) ;;
   _ <-- recover_loop (Z.to_nat tcnt) read_terminal store_terminal ;;
   _ <-- modify (fun m => m <| im_grant_ledger := ∅ |> <| im_receipt_count := 0 |>) ;;
   gcnt <-- lift (field "grant count" r_u64) ;;
   _ <-- lift (if gcnt >? kMaxGrants then r_fail ErrorCode.PersistenceInvalidField "grant count too large"
               else r_ret tt) ;;
   _ <-- recover_loop (Z.to_nat gcnt) read_grant_record store_grant ;;
   rcnt <-- lift (field "receipt count" r_u64) ;;
   modify (fun m => m <| im_receipt_count := rcnt |> >>> recount))%recover.

(** Everything after the checksum. *)
Definition recover_body : Recover unit :=
  (h <-- lift read_header ;; _ <-- modify (restart h) ;; recover_records)%recover.

(** [DecodeFabric::recover_state]. *)
Definition recover_state (bs : bytes) (m : Impl) : Result unit * Impl :=
  if Z.of_nat (List.length bs) <? 5 then (failed ErrorCode.PersistenceTruncated "state too short", m)
  else if negb (seal_ok bs) then (failed ErrorCode.PersistenceChecksumMismatch "state checksum mismatch", m)
  else match recover_body (mkReader bs 0) m with
       | (Ok _, m') => (Ok tt, m')
       | (Err e, m') => (Err e, m')
       end.

End persistence.
