(* ===== verification/FilePersist.v ===== *)
(** * File persistence

    src/persistence.cpp: one record file per scope in a directory, written to a temporary file that is
    renamed over the record.

    A directory is a finite map from file names to contents.  The calls of [std::filesystem] and of the
    stream classes can fail; an [FsOutcome] says which calls of one [write] fail and how much of the data
    reaches the file.  [write_trace] lists the directories a [write] passes through, so what a crash can
    leave behind is a directory of the list. *)

From S2P Require Import Prelude Enums Errors Ids Compatibility FabricState.
From Stdlib Require Import Ascii String.
From stdpp Require Import strings.
Open Scope Z_scope.

Abbreviation Dir := (gmap string bytes).

(** ** File names *)

(** The characters [sanitize] keeps. *)
Definition safe_char (c : ascii) : bool :=
  let n := nat_of_ascii c in
  ((97 <=? n)%nat && (n <=? 122)%nat) || ((65 <=? n)%nat && (n <=? 90)%nat) || ((48 <=? n)%nat && (n <=? 57)%nat) ||
  Ascii.eqb c "_" || Ascii.eqb c "-" || Ascii.eqb c ".".
Fixpoint sanitize (s : string) : string :=
  match s with
  | EmptyString => EmptyString
  | String c s => String (if safe_char c then c else "_"%char) (sanitize s)
  end.

(** [record_path] and the temporary file of [write], as names in the directory. *)
Definition record_path (scope : string) : string := sanitize scope +:+ ".rec".
Definition temp_path (scope : string) : string := record_path scope +:+ ".tmp".

(** [fs::path::stem] and [fs::path::extension] of a file name: it is split at its last dot, unless that is its first character. *)
Fixpoint last_dot (l : list ascii) : option (list ascii * list ascii) :=
  match l with
  | [] => None
  | c :: l =>
      match last_dot l with
      | Some (a, b) => Some (c :: a, b)
      | None => if Ascii.eqb c "." then Some ([], c :: l) else None
      end
  end.
Definition split_name (name : string) : string * string :=
  match last_dot (list_ascii_of_string name) with
  | Some (c :: a, b) => (string_of_list_ascii (c :: a), string_of_list_ascii b)
  | _ => (name, EmptyString)
  end.
Definition path_stem (name : string) : string := (split_name name).1.
Definition path_extension (name : string) : string := (split_name name).2.

(** ** Operations *)

(** How the calls of one [write] end.  [fo_flushed]: how many bytes of the record reach the temporary file by the
    time its stream is closed; the closing is not checked. *)
Record FsOutcome := mkOutcomeFs {
  fo_open : bool;
  fo_write : bool;
  fo_flushed : nat;
  fo_rename : bool;
  fo_remove : bool;
  fo_rename_again : bool;
}.
(** Nothing fails. *)
Definition all_well (bs : bytes) : FsOutcome := mkOutcomeFs true true (length bs) true true true.

(** [fs::rename]: the target is replaced. *)
Definition rename (src dst : string) (d : Dir) : Dir :=
  match d !! src with Some bs => <[dst := bs]> (delete src d) | None => d end.

Definition io_error {A} (msg : string) : Result A := failed ErrorCode.PersistenceIoError msg.

(** [write]: its result, and the directories it goes through after the one it starts from. *)
Definition write_trace (o : FsOutcome) (scope : string) (bs : bytes) (d : Dir) : Result unit * list Dir :=
  let path := record_path scope in
  let tmp := temp_path scope in
  if negb (fo_open o) then (io_error "cannot open write temp", [])
  else
    let partial := (fun k => <[tmp := take k bs]> d) <$> seq 0 (S (fo_flushed o)) in
    let d1 := <[tmp := take (fo_flushed o) bs]> d in
    if negb (fo_write o) then (io_error "cannot write record", partial)
    else if fo_rename o then (Ok tt, partial ++ [rename tmp path d1])
    else
      let d2 := if fo_remove o then delete path d1 else d1 in
      if fo_rename_again o then (Ok tt, partial ++ [d2; rename tmp path d2])
      else (io_error "cannot commit record", partial ++ [d2]).

Definition fs_write (o : FsOutcome) (scope : string) (bs : bytes) (d : Dir) : Result unit * Dir :=
  let '(r, ds) := write_trace o scope bs d in (r, default d (last ds)).
Definition fs_read (scope : string) (d : Dir) : Result bytes :=
  match d !! record_path scope with Some bs => Ok bs | None => io_error "record not found" end.
Definition fs_exists (scope : string) (d : Dir) : Result bool := Ok (bool_decide (is_Some (d !! record_path scope))).
Definition fs_remove (scope : string) (d : Dir) : Result unit * Dir := (Ok tt, delete (record_path scope) d).
(** [list], in the order the directory is iterated in. *)
Definition fs_list `{MapOrder} (n : nat) (d : Dir) : Result (list string) :=
  Ok (path_stem <$> filter (fun name => path_extension name = ".rec"%string) ((FabricState.iter n d).*1)).

(** ** Names *)

(** Two names with different four-letter endings differ. *)
Lemma suffix_differs s t (x y : string) :
  List.length (list_ascii_of_string x) = List.length (list_ascii_of_string y) -> s +:+ x = t +:+ y -> x = y.
Proof.
  intros Hl H%(f_equal list_ascii_of_string). rewrite !chars_app in H. apply app_inj_2 in H as [_ H]; [|done].
  by apply chars_inj.
Qed.

Lemma temp_not_record s t : temp_path s <> record_path t.
Proof. intros H. by apply suffix_differs in H. Qed.

Lemma record_path_inj s t : record_path s = record_path t <-> sanitize s = sanitize t.
Proof.
  unfold record_path. split; [|by intros ->]. intros H%(f_equal list_ascii_of_string). rewrite !chars_app in H.
  apply app_inj_2 in H as [H _]; [|done]. by apply chars_inj.
Qed.

(** Sanitizing twice is sanitizing once: the names of [list] can be used as scopes. *)
Lemma sanitize_idem s : sanitize (sanitize s) = sanitize s.
Proof. induction s as [|c s IH]; cbn; [done|]. rewrite IH. destruct (safe_char c) eqn:E; [by rewrite E|done]. Qed.

Lemma last_dot_app a b x y : last_dot b = Some (x, y) -> last_dot (a ++ b) = Some (a ++ x, y).
Proof. intros H. induction a as [|c a IH]; cbn [app last_dot]; [done|]. by rewrite IH. Qed.

Lemma split_record s : s <> EmptyString -> split_name (s +:+ ".rec") = (s, ".rec"%string).
Proof.
  intros Hs. unfold split_name. rewrite chars_app. rewrite (last_dot_app _ _ [] (list_ascii_of_string ".rec")) by done.
  rewrite app_nil_r. destruct s as [|c s]; [done|]. cbn [list_ascii_of_string]. f_equal.
  exact (string_of_list_ascii_of_string (String c s)).
Qed.

Lemma split_temp s : path_extension (temp_path s) = ".tmp"%string.
Proof.
  unfold path_extension, temp_path, record_path, split_name. rewrite chars_app.
  rewrite (last_dot_app _ _ [] (list_ascii_of_string ".tmp")) by done. rewrite app_nil_r, chars_app.
  by destruct (list_ascii_of_string (sanitize s)).
Qed.

(** ** Atomicity *)

Lemma rename_tmp scope bs d :
  rename (temp_path scope) (record_path scope) (<[temp_path scope := bs]> d) = <[record_path scope := bs]> (delete (temp_path scope) d).
Proof. unfold rename. by rewrite lookup_insert_eq, delete_insert_eq. Qed.

Lemma rename_removed scope bs d (removed : bool) :
  rename (temp_path scope) (record_path scope)
    (if removed then delete (record_path scope) (<[temp_path scope := bs]> d) else <[temp_path scope := bs]> d) =
  <[record_path scope := bs]> (delete (temp_path scope) d).
Proof.
  destruct removed; [|apply rename_tmp]. unfold rename.
  rewrite lookup_delete_ne by (intros E; by apply (temp_not_record scope scope)).
  by rewrite lookup_insert_eq, delete_delete, delete_insert_eq, insert_delete_eq.
Qed.

(** Where a [write] ends. *)
Lemma fs_write_end o scope bs d :
  let d1 := <[temp_path scope := take (fo_flushed o) bs]> d in
  let d2 := if fo_remove o then delete (record_path scope) d1 else d1 in
  let committed := <[record_path scope := take (fo_flushed o) bs]> (delete (temp_path scope) d) in
  fs_write o scope bs d =
    if negb (fo_open o) then (io_error "cannot open write temp", d)
    else if negb (fo_write o) then (io_error "cannot write record", d1)
    else if fo_rename o || fo_rename_again o then (Ok tt, committed)
    else (io_error "cannot commit record", d2).
Proof.
  cbv zeta. unfold fs_write, write_trace. destruct (fo_open o); [|done]. cbn [negb].
  rewrite seq_S, fmap_app, list_fmap_singleton. destruct (fo_write o); cbn [negb]; [|by rewrite last_snoc].
  destruct (fo_rename o); cbn [orb]; [by rewrite last_snoc, rename_tmp|].
  destruct (fo_rename_again o); [|by rewrite last_snoc].
  by rewrite last_app_cons, last_cons_cons, rename_removed.
Qed.

(** Only the record and the temporary file of the scope change. *)
Lemma write_trace_frame o scope bs d r ds d' name :
  write_trace o scope bs d = (r, ds) -> d' ∈ ds -> name <> record_path scope -> name <> temp_path scope -> d' !! name = d !! name.
Proof.
  intros E Hd Hr Ht. unfold write_trace in E.
  assert (Hp : forall ds', d' ∈ ((fun k => <[temp_path scope := take k bs]> d) <$> seq 0 (S (fo_flushed o))) ++ ds' ->
    (d' ∈ ds' -> d' !! name = d !! name) -> d' !! name = d !! name).
  { intros ds' [(k & -> & _)%list_elem_of_fmap|H]%elem_of_app Hk; [by rewrite lookup_insert_ne|auto]. }
  destruct (negb (fo_open o)); [injection E as <- <-; by apply not_elem_of_nil in Hd|].
  destruct (negb (fo_write o)); [injection E as <- <-; apply (Hp []); [by rewrite app_nil_r|by intros ?%not_elem_of_nil]|].
  assert (H1 : forall x, x !! name = d !! name -> rename (temp_path scope) (record_path scope) x !! name = d !! name).
  { intros x Hx. unfold rename. destruct (x !! temp_path scope); [|done].
    by rewrite lookup_insert_ne, lookup_delete_ne. }
  destruct (fo_rename o); [|destruct (fo_rename_again o)]; injection E as <- <-; apply Hp in Hd; auto; clear Hd Hp;
    intros Hd; set_unfold in Hd; destruct_or?; subst; try apply H1; destruct (fo_remove o);
    rewrite ?lookup_delete_ne, ?lookup_insert_ne by done; done.
Qed.

(** The directories of a [write] up to its commit point, and those of its commit. *)
Lemma write_trace_partial o scope bs d r ds d' :
  write_trace o scope bs d = (r, ds) -> d' ∈ ds ->
  (exists k, d' = <[temp_path scope := take k bs]> d) \/
  fo_open o = true /\ fo_write o = true /\
  (let d1 := <[temp_path scope := take (fo_flushed o) bs]> d in
   let done x := x = <[record_path scope := take (fo_flushed o) bs]> (delete (temp_path scope) d) in
   if fo_rename o then r = Ok tt /\ done d'
   else (d' = (if fo_remove o then delete (record_path scope) d1 else d1)) \/ fo_rename_again o = true /\ r = Ok tt /\ done d').
Proof.
  unfold write_trace. destruct (fo_open o) eqn:Eo; cbn [negb]; [|intros [= <- <-] []%not_elem_of_nil].
  set (partial := _ <$> seq 0 _). assert (Hp : d' ∈ partial -> exists k, d' = <[temp_path scope := take k bs]> d).
  { intros (k & -> & _)%list_elem_of_fmap. by exists k. }
  clearbody partial. destruct (fo_write o) eqn:Ew; cbn [negb]; [|intros [= <- <-] H; left; auto].
  destruct (fo_rename o); [|destruct (fo_rename_again o)]; intros [= <- <-] [H|H]%elem_of_app; try (left; by auto);
    right; split_and!; try done; set_unfold in H; destruct_or?; subst; auto.
  - apply rename_tmp.
  - right. split_and!; [done|done|]. apply rename_removed.
Qed.

Lemma temp_keeps_record scope t x (d : Dir) : <[temp_path scope := x]> d !! record_path t = d !! record_path t.
Proof. rewrite lookup_insert_ne; [done|]. apply temp_not_record. Qed.

(** C13: a record is replaced in one step.  Whatever calls of a [write] fail and wherever it is interrupted, the
    records of all other scopes are untouched, and the record of the scope is either what it was; or exactly the
    bytes that had reached the temporary file when that was closed, which is a proper prefix of the data when the
    flush at the close fell short, an error the code does not look for; or it is missing, which
    needs a failed rename followed by a successful removal, and then those bytes are in the temporary file.
    Success means that those bytes are the record and the temporary file is gone; a write that fails leaves the
    record as it was, unless it got as far as removing it. *)
Theorem write_atomic (o : FsOutcome) (scope : string) (bs : bytes) (d : Dir) (r : Result unit) (ds : list Dir) :
  write_trace o scope bs d = (r, ds) ->
  (forall d', d' ∈ ds ->
     (forall t, sanitize t <> sanitize scope -> fs_read t d' = fs_read t d) /\
     (fs_read scope d' = fs_read scope d \/
      fs_read scope d' = Ok (take (fo_flushed o) bs) \/
      fo_rename o = false /\ fo_remove o = true /\ d' !! record_path scope = None /\
        d' !! temp_path scope = Some (take (fo_flushed o) bs))) /\
  (r = Ok tt -> let d' := (fs_write o scope bs d).2 in
     fs_read scope d' = Ok (take (fo_flushed o) bs) /\ d' !! temp_path scope = None) /\
  (r <> Ok tt -> fo_remove o = false \/ fo_rename o = true \/ fo_write o = false ->
     fs_read scope (fs_write o scope bs d).2 = fs_read scope d).
Proof.
  intros E. split_and!.
  - intros d' Hd. split.
    + intros t Ht. unfold fs_read. rewrite (write_trace_frame o scope bs d r ds d'); [done..| |].
      * intros H%record_path_inj. done.
      * intros H. by apply (temp_not_record scope t).
    + unfold fs_read. destruct (write_trace_partial _ _ _ _ _ _ _ E Hd) as [[k ->]|(_ & _ & H)]; [left; by rewrite temp_keeps_record|].
      destruct (fo_rename o); cbv zeta in H.
      * destruct H as [_ ->]. right; left. by rewrite lookup_insert_eq.
      * destruct H as [->|(_ & _ & ->)]; [|right; left; by rewrite lookup_insert_eq].
        destruct (fo_remove o); [right; right|left; by rewrite temp_keeps_record].
        split_and!; [done|done|apply lookup_delete_eq|]. rewrite lookup_delete_ne; [apply lookup_insert_eq|].
        intros H. by apply (temp_not_record scope scope).
  - intros ->. assert (Er : (fs_write o scope bs d).1 = Ok tt) by (unfold fs_write; by rewrite E). revert Er.
    rewrite fs_write_end. cbv zeta. unfold fs_read.
    destruct (fo_open o), (fo_write o), (fo_rename o || fo_rename_again o); try done. intros _. cbn [snd negb].
    rewrite lookup_insert_eq, lookup_insert_ne, lookup_delete_eq; [done|]. intros H'. by apply (temp_not_record scope scope).
  - intros Hn Hc. assert (Er : (fs_write o scope bs d).1 <> Ok tt) by (unfold fs_write; by rewrite E). revert Er.
    rewrite fs_write_end. cbv zeta. unfold fs_read.
    destruct (fo_open o); [|done]. destruct (fo_write o); [|intros _; cbn [snd negb]; by rewrite temp_keeps_record].
    destruct (fo_rename o); [done|]. destruct (fo_rename_again o); [done|]. cbn [negb orb snd]. intros _.
    destruct Hc as [->|[|]]; [|done..]. by rewrite temp_keeps_record.
Qed.

(** ** The store a directory represents *)

(** Records by sanitized scope; the directory holds nothing but records and temporary files. *)
Record represents (store : gmap string bytes) (d : Dir) : Prop := {
  rep_keys : forall k, is_Some (store !! k) -> sanitize k = k;
  rep_lookup : forall scope, d !! record_path scope = store !! sanitize scope;
  rep_names : forall name, is_Some (d !! name) -> exists scope, name = record_path scope \/ name = temp_path scope;
}.

Lemma represents_empty : represents ∅ ∅.
Proof. split; intros x; rewrite ?lookup_empty; try done; by intros [? ?]. Qed.

Lemma represents_insert store d scope bs :
  represents store d -> represents (<[sanitize scope := bs]> store) (<[record_path scope := bs]> (delete (temp_path scope) d)).
Proof.
  intros [Hk Hl Hn]. split.
  - intros k. destruct (decide (k = sanitize scope)) as [->|]; [intros _; apply sanitize_idem|].
    rewrite lookup_insert_ne by done. apply Hk.
  - intros t. destruct (decide (sanitize t = sanitize scope)) as [E|E].
    + rewrite E, (proj2 (record_path_inj t scope) E). by rewrite !lookup_insert_eq.
    + rewrite !lookup_insert_ne; [|done|by intros H%record_path_inj].
      rewrite lookup_delete_ne; [apply Hl|]. apply temp_not_record.
  - intros name. destruct (decide (name = record_path scope)) as [->|]; [intros _; exists scope; by left|].
    rewrite lookup_insert_ne by done. intros [x [_ Hx]%lookup_delete_Some]. apply Hn. by exists x.
Qed.

Lemma represents_delete store d scope :
  represents store d -> represents (delete (sanitize scope) store) (delete (record_path scope) d).
Proof.
  intros [Hk Hl Hn]. split.
  - intros k [x [_ Hx]%lookup_delete_Some]. apply Hk. by exists x.
  - intros t. destruct (decide (sanitize t = sanitize scope)) as [E|E].
    + rewrite E, (proj2 (record_path_inj t scope) E). by rewrite !lookup_delete_eq.
    + rewrite !lookup_delete_ne; [apply Hl|done|by intros H%record_path_inj].
  - intros name [x [_ Hx]%lookup_delete_Some]. apply Hn. by exists x.
Qed.

Lemma elem_of_list_names `{MapOrder} n (d : Dir) name :
  name ∈ (FabricState.iter n d).*1 <-> is_Some (d !! name).
Proof.
  rewrite (iter_perm string bytes n d). rewrite list_elem_of_fmap. split.
  - intros ([k x] & -> & Hx%elem_of_map_to_list). by exists x.
  - intros [x Hx%elem_of_map_to_list]. by exists (name, x).
Qed.

Lemma NoDup_list_names `{MapOrder} n (d : Dir) : NoDup (FabricState.iter n d).*1.
Proof. rewrite (iter_perm string bytes n d). apply NoDup_fst_map_to_list. Qed.

(** A listed file is the record of a scope whose name is not empty. *)
Lemma listed_record store d name :
  represents store d -> is_Some (d !! name) -> path_extension name = ".rec"%string ->
  exists scope, name = record_path scope /\ path_stem name = sanitize scope /\ sanitize scope <> EmptyString.
Proof.
  intros Hr Hd He. destruct (rep_names _ _ Hr name Hd) as [scope [-> | ->]]; [|by rewrite split_temp in He].
  exists scope. unfold path_stem, path_extension, record_path in *.
  destruct (decide (sanitize scope = EmptyString)) as [E|E]; [by rewrite E in He|]. by rewrite split_record.
Qed.

Lemma fs_list_names `{MapOrder} n store d :
  represents store d ->
  exists names, fs_list n d = Ok names /\ NoDup names /\
    forall k, k ∈ names <-> is_Some (store !! k) /\ k <> EmptyString.
Proof.
  intros Hr. eexists. split; [done|]. split.
  - apply NoDup_fmap_2_strong; [|apply NoDup_filter, NoDup_list_names].
    intros x y [Ex Hx%elem_of_list_names]%list_elem_of_filter [Ey Hy%elem_of_list_names]%list_elem_of_filter E.
    destruct (listed_record _ _ _ Hr Hx Ex) as (s & -> & Es & _), (listed_record _ _ _ Hr Hy Ey) as (t & -> & Et & _).
    apply record_path_inj. congruence.
  - intros k. rewrite list_elem_of_fmap. split.
    + intros (name & -> & [He Hn%elem_of_list_names]%list_elem_of_filter).
      destruct (listed_record _ _ _ Hr Hn He) as (s & -> & -> & Hs). by rewrite <- (rep_lookup _ _ Hr).
    + intros [Hk Hne]. pose proof (rep_keys _ _ Hr k Hk) as Ek. exists (record_path k).
      unfold path_stem, record_path. rewrite Ek, split_record by done. split; [done|].
      apply list_elem_of_filter. unfold path_extension. rewrite split_record by done. split; [done|].
      apply elem_of_list_names. pose proof (rep_lookup _ _ Hr k) as Hl. unfold record_path in Hl. by rewrite Ek in Hl; rewrite Hl.
Qed.

(** C14: the directory is a store.  On a directory that represents a map from sanitized scopes to byte
    vectors, and when no call of the file system fails, [write] inserts, [read] and [exists] look up,
    [remove] deletes, each for the sanitized scope, and [list] names every stored scope but the empty
    one once; the directory goes on representing the map.  Two scopes share a record exactly when they
    are sanitized to the same name. *)
Theorem file_store_refines `{MapOrder} (store : gmap string bytes) (d : Dir) (scope : string) (bs : bytes) (n : nat) :
  represents store d ->
  (exists d', fs_write (all_well bs) scope bs d = (Ok tt, d') /\ represents (<[sanitize scope := bs]> store) d' /\
     forall t, fs_read t d' = if decide (sanitize t = sanitize scope) then Ok bs else fs_read t d) /\
  fs_read scope d = match store !! sanitize scope with Some x => Ok x | None => io_error "record not found" end /\
  fs_exists scope d = Ok (bool_decide (is_Some (store !! sanitize scope))) /\
  represents (delete (sanitize scope) store) (fs_remove scope d).2 /\
  exists names, fs_list n d = Ok names /\ NoDup names /\ forall k, k ∈ names <-> is_Some (store !! k) /\ k <> EmptyString.
Proof.
  intros Hr. pose proof (represents_insert store d scope bs Hr) as Hi. split_and!.
  - rewrite fs_write_end. cbn [all_well fo_open fo_write fo_rename fo_flushed negb orb]. rewrite take_ge by done.
    eexists. split_and!; [done|done|]. intros t. unfold fs_read. rewrite (rep_lookup _ _ Hi), (rep_lookup _ _ Hr).
    case_decide as E; [by rewrite E, lookup_insert_eq|by rewrite lookup_insert_ne].
  - unfold fs_read. by rewrite (rep_lookup _ _ Hr).
  - unfold fs_exists. by rewrite (rep_lookup _ _ Hr).
  - by apply represents_delete.
  - by apply fs_list_names.
Qed.

(** The same record is written for "a/b" and for "a_b". *)
Lemma file_store_refines_witness :
  exists d', fs_write (all_well [1; 2]) "a/b" [1; 2] ∅ = (Ok tt, d') /\ represents {["a_b"%string := [1; 2]]} d' /\
    fs_read "a_b" d' = Ok [1; 2].
Proof.
  destruct (file_store_refines (H := canonical_order) ∅ ∅ "a/b" [1; 2] 0 represents_empty) as [(d' & H1 & H2 & H3) _].
  exists d'. split; [exact H1|]. split; [exact H2|]. exact (H3 "a_b"%string).
Defined.

(** The rename fails, the removal succeeds, the second rename fails: the record is gone, its data is in the temporary file. *)
Lemma write_atomic_witness :
  let d := <[record_path "state" := [1; 2; 3]]> (∅ : Dir) in
  let o := mkOutcomeFs true true 2 false true false in
  Forall (fun d' =>
    (forall t, sanitize t <> sanitize "state" -> fs_read t d' = fs_read t d) /\
    (fs_read "state" d' = fs_read "state" d \/ fs_read "state" d' = Ok [7; 8] \/
     false = false /\ true = true /\ d' !! record_path "state" = None /\ d' !! temp_path "state" = Some [7; 8]))
    (write_trace o "state" [7; 8; 9] d).2.
Proof.
  intros d o. destruct (write_atomic o "state" [7; 8; 9] d _ _ (surjective_pairing _)) as [H _].
  apply Forall_forall. exact H.
Defined.
