(* ===== verification/Cli.v ===== *)
(** * The command line

    src/cli/main.cpp: the commands over a connection, the two that run a fabric in the process, and the
    dispatch of [main].

    A command connects once, sends once and receives once.  The other side is a [Peer]: whether the
    connection comes about, whether a message can be sent, and what is received in answer. *)

From S2P Require Import Prelude Enums Errors Token StateMachine Ids Compatibility Types Binary Frame Messages Transport Double FabricState CLib FabricFrame FabricOps Schedule Transaction Executor CpuExecutor Pump Observability Distributed Persist FilePersist Programs.
From Stdlib Require Import Ascii String.
Open Scope Z_scope.

Record Peer := mkPeer {
  pe_connect : string -> Z -> Result unit;
  pe_send : Sent -> Result unit;
  pe_recv : Sent -> Result Frame;
}.

(** [send_frame] and [recv_frame] of a connection that may have no socket. *)
Definition peer_send (p : Peer) (connected : bool) (s : Sent) : Result unit := if connected then pe_send p s else net_error "not connected".

(** The rendering of a double with [%.nf]. *)
Class PrintFixed := print_fixed : nat -> double -> string.

Definition usage : string :=
  "DecodeFabric commands:" +:+ nl +:+ "  serve <port> [loops]" +:+ nl +:+
  "  worker <host> <port> <worker_id> <boot_id> <device_id>" +:+ nl +:+
  "  submit <host> <port> <seq> <tenant> <budget> [--model N] [--rev N]" +:+ nl +:+
  "  status <host> <port>" +:+ nl +:+ "  stats <host> <port>" +:+ nl +:+ "  snapshot <host> <port>" +:+ nl +:+
  "  cancel <host> <port> <request_id>" +:+ nl +:+ "  explain <host> <port> <seq> <question>" +:+ nl +:+
  "  inspect <host> <port> <seq>" +:+ nl +:+ "  bench [sequences] [budget]" +:+ nl +:+ "  recover <dir>" +:+ nl.

Definition llu (v : Z) : string := u64_string v.
Definition as_int (b : bool) : string := if b then "1" else "0".

(** The request of a sequence, as [submit], [bench] and [recover] fill it in. *)
Definition cli_request (seq tenant model rev budget : Z) : DecodeRequest :=
  default_request <| rq_id := mkId seq |> <| rq_initial_attempt := mkId seq |> <| rq_tenant := mkId tenant |>
    <| rq_model := mkId model |> <| rq_revision := mkId rev |> <| rq_sequence := mkId seq |> <| rq_prompt_length := 4 |>
    <| rq_max_generation_length := budget |> <| rq_tenant_weight := double_one |>
    <| rq_state := default_state_descriptor <| sd_id := mkId seq |> <| sd_estimated_growth := 64 |> |>.

Section commands.
Context {AO : AtoiOverflow}.

(** ** Commands of a client *)

(** The options: [for (i = 7; i + 1 < argc; ++i)], the value being the next argument. *)
Fixpoint submit_options (args : list string) (model rev : Z) : Z * Z :=
  match args with
  | a :: ((v :: _) as rest) =>
      submit_options rest (if String.eqb a "--model" then strtoull v else model) (if String.eqb a "--rev" then strtoull v else rev)
  | _ => (model, rev)
  end.
Definition submit_request_of (argv : list string) : DecodeRequest :=
  let '(model, rev) := submit_options (drop 7 argv) 1 1 in
  cli_request (strtoull (arg argv 4)) (strtoull (arg argv 5)) model rev (strtoull (arg argv 6)).

(** [cmd_submit]: exit code and output. *)
Definition cmd_submit (argv : list string) (p : Peer) : Z * list Output :=
  let host := arg argv 2 in
  let port := atoi (arg argv 3) in
  let msg := (FrameType.SubmitRequest, encode_submit_request (submit_request_of argv)) in
  if negb (is_ok (pe_connect p host port)) then (1, [Stderr ("submit: connect failed" +:+ nl)])
  else if negb (is_ok (peer_send p true msg)) then (1, [Stderr ("submit: send failed" +:+ nl)])
  else
    match pe_recv p msg with
    | Err _ => (1, [Stderr ("submit: no ack" +:+ nl)])
    | Ok f =>
        if negb (bool_decide (fr_type f = FrameType.SubmitAck)) then (1, [Stderr ("submit: no ack" +:+ nl)])
        else match decode_submit_ack (fr_payload f) with
        | Ok a =>
            (if sa_admitted a then 0 else 1,
             [Stdout ("submitted seq=" +:+ llu (id_value (sa_sequence a)) +:+ " admitted=" +:+ as_int (sa_admitted a) +:+
                " reason=" +:+ c_str (sa_reason a) +:+ nl)])
        | Err _ => (1, [])
        end
    end.

Definition status_line (s : StatusReply) : string :=
  "active=" +:+ llu (sr_active s) +:+ " ready=" +:+ llu (sr_ready s) +:+ " generated=" +:+ llu (sr_generated_tokens s) +:+
  " steps=" +:+ llu (sr_decode_steps s) +:+ " admitted=" +:+ llu (sr_requests_admitted s) +:+
  " stale=" +:+ llu (sr_stale_rejections s) +:+ " epoch=" +:+ llu (sr_epoch s) +:+ nl.

(** [cmd_status]. *)
Definition cmd_status (argv : list string) (is_snapshot : bool) (p : Peer) : Z * list Output :=
  let msg := (if is_snapshot then FrameType.SnapshotRequest else FrameType.StatusQuery, []) in
  if negb (is_ok (pe_connect p (arg argv 2) (atoi (arg argv 3)))) then (1, [Stderr ("connect failed" +:+ nl)])
  else if negb (is_ok (peer_send p true msg)) then (1, [Stderr ("send failed" +:+ nl)])
  else
    match pe_recv p msg with
    | Err _ => (1, [Stderr ("recv failed" +:+ nl)])
    | Ok f =>
        (0, if is_snapshot && bool_decide (fr_type f = FrameType.SnapshotReply) then
              match decode_snapshot_reply (fr_payload f) with Ok j => [Stdout (c_str j +:+ nl)] | Err _ => [] end
            else if bool_decide (fr_type f = FrameType.StatusReply) then
              match decode_status_reply (fr_payload f) with Ok s => [Stdout (status_line s)] | Err _ => [] end
            else [])
    end.

(** The three commands that do not look whether they are connected. *)
Definition cmd_cancel (argv : list string) (p : Peer) : Z * list Output :=
  let req := strtoull (arg argv 4) in
  let connected := is_ok (pe_connect p (arg argv 2) (atoi (arg argv 3))) in
  let msg := (FrameType.CancelRequest, encode_query (mkQuery (mkId req) null_id false)) in
  if negb (is_ok (peer_send p connected msg)) then (1, [Stderr ("cancel send failed" +:+ nl)])
  else (0, [Stdout ("cancel request=" +:+ llu req +:+ nl)]).

Definition cmd_explain (argv : list string) (p : Peer) : Z * list Output :=
  let question := if (5 <? argc argv)%nat then arg argv 5 else "why_waiting"%string in
  let connected := is_ok (pe_connect p (arg argv 2) (atoi (arg argv 3))) in
  let msg := (FrameType.ExplainRequest, encode_explain_request (mkExplainRequest (mkId (strtoull (arg argv 4))) question)) in
  if negb (is_ok (peer_send p connected msg)) then (1, [Stderr ("explain send failed" +:+ nl)])
  else
    (0, match pe_recv p msg with
        | Ok f =>
            if bool_decide (fr_type f = FrameType.ExplainReply) then
              match decode_explain_reply (fr_payload f) with
              | Ok e => [Stdout (c_str (xr_text e) +:+ nl +:+ "--json--" +:+ nl +:+ c_str (xr_json e) +:+ nl)]
              | Err _ => []
              end
            else []
        | Err _ => []
        end).

Definition authority_line (a : AuthorityReply) : string :=
  "seq=" +:+ llu (id_value (ar_sequence a)) +:+ " exists=" +:+ as_int (ar_exists a) +:+
  " in_flight_epoch=" +:+ llu (id_value (ar_epoch a)) +:+ " worker=" +:+ llu (id_value (ar_worker a)) +:+
  " boot=" +:+ llu (id_value (ar_worker_boot a)) +:+ " attempt=" +:+ llu (id_value (ar_attempt a)) +:+
  " gen=" +:+ llu (id_value (ar_generation a)) +:+ " generated=" +:+ llu (ar_generated a) +:+ nl.
Definition cmd_inspect (argv : list string) (p : Peer) : Z * list Output :=
  let connected := is_ok (pe_connect p (arg argv 2) (atoi (arg argv 3))) in
  let msg := (FrameType.GetAuthority, encode_get_authority (mkGetAuthority (mkId (strtoull (arg argv 4))))) in
  if negb (is_ok (peer_send p connected msg)) then (1, [Stderr ("inspect send failed" +:+ nl)])
  else
    (0, match pe_recv p msg with
        | Ok f =>
            if bool_decide (fr_type f = FrameType.AuthorityReply) then
              match decode_authority_reply (fr_payload f) with Ok a => [Stdout (authority_line a)] | Err _ => [] end
            else []
        | Err _ => []
        end).

(** ** Commands that run a fabric *)

Context `{LM : Libm} {SC : SteadyClock} {ORD : MapOrder} {PF : PrintFixed}.
#[local] Instance cli_clock : Clock := FixedClock 0.

Definition cli_key : CompatibilityKey := mkKey (mkId 1) (mkId 1) null_id BackendKind.CPU (mkId 1) DType.F32 0 0 0 0.
Definition cli_worker (capacity : Z) : WorkerDescriptor :=
  mkWorker (mkId 1) (mkId 1) (cpu_device (mkId 1)) WorkerHealth.Healthy capacity 0 [cli_key] 0.

(** A fabric with one worker and [n] requests. *)
Definition cli_fabric (cfg : Config) (capacity : Z) (request : Z -> DecodeRequest) (n : nat) : Impl :=
  foldl (fun m i => (submit (request (Z.of_nat i)) m).2) (register_worker (cli_worker capacity) (new_fabric cfg)).2 (seq 0 n).

Definition bench_config : Config :=
  mkConfig (mkGroupLimits 256 0 0 0 0 LatencyClass.Bulk 0) (cf_limits default_config) (cf_retry_policy default_config)
    (cf_event_capacity default_config) (cf_require_known_model default_config).
Definition bench_request (budget i : Z) : DecodeRequest := cli_request (i +64 1) ((i mod 5) +64 1) 1 1 budget.

(** [cmd_bench]: [elapsed] is the difference of two readings of the steady clock, in nanoseconds; [None] while it runs. *)
Definition cmd_bench (fuel : nat) (elapsed : Z) (argv : list string) : option (Z * list Output) :=
  let n := if (2 <? argc argv)%nat then strtoull (arg argv 2) else 10000 in
  let budget := if (3 <? argc argv)%nat then strtoull (arg argv 3) else 8 in
  let m := cli_fabric bench_config 4096 (bench_request budget) (Z.to_nat n) in
  match pump_until_idle fuel (-1) (new_cpu (mkId 1)) m with
  | None => None
  | Some (_, (_, m)) =>
      let st := stats m in
      let secs := d_div (d_of_Z elapsed) d_1e9 in
      let rate := if d_ltb d_zero secs then d_div (d_of_Z (st_decode_steps st)) secs else d_zero in
      Some (0, [Stdout ("bench: sequences=" +:+ llu n +:+ " budget=" +:+ llu budget +:+ " decode_steps=" +:+
        llu (st_decode_steps st) +:+ " generated=" +:+ llu (st_generated_tokens st) +:+ " elapsed=" +:+ print_fixed 3 secs +:+
        "s scheduler_ops_per_s=" +:+ print_fixed 0 rate +:+ nl)])
  end.

(** [cmd_recover]: the fabric it persists after one step, what it prints, and the directory it leaves. *)
Definition recover_request (i : Z) : DecodeRequest := cli_request (i +64 1) 1 1 1 10.
Definition recover_fabric : Impl :=
  (pump_once 0 (new_cpu (mkId 1)) (cli_fabric default_config 100 recover_request 3)).2.2.
Definition cmd_recover (o : FsOutcome) (d : Dir) : Z * list Output * Dir :=
  let image := serialize_state recover_fabric in
  let d := match image with Ok bs => (fs_write o "state" bs d).2 | Err _ => d end in
  let size := match image with Ok bs => Z.of_nat (List.length bs) | Err _ => 0 end in
  let out := [Stdout ("persisted state (" +:+ llu size +:+ " bytes) after partial generation" +:+ nl)] in
  match fs_read "state" d with
  | Ok bs =>
      let '(rec, m) := recover_state bs (new_fabric default_config) in
      (0, out ++ [Stdout ("recovered: " +:+ match rec with Ok _ => "ok" | Err e => c_str (err_message e) end +:+
         " active=" +:+ llu (active_sequences m) +:+ " ready=" +:+ llu (ready_sequences m) +:+ nl)], d)
  | Err e => (0, out ++ [Stdout ("recover: no persisted state (" +:+ c_str (err_message e) +:+ ")" +:+ nl)], d)
  end.

(** ** [main] *)

(** What a command line asks for. *)
Inductive Command :=
  | CUsage
  | CServe (argv : list string)
  | CWorker (argv : list string)
  | CSubmit
  | CStatus (is_snapshot : bool)
  | CCancel
  | CExplain
  | CInspect
  | CBench
  | CRecover.

Definition command_of (argv : list string) : Command :=
  let n := argc argv in
  let cmd := arg argv 1 in
  if (n <? 2)%nat then CUsage
  else if String.eqb cmd "serve" then CServe ("df-coordinator"%string :: drop 2 argv)
  else if String.eqb cmd "worker" then CWorker (drop 1 argv)
  else if String.eqb cmd "submit" && (7 <=? n)%nat then CSubmit
  else if (String.eqb cmd "status" || String.eqb cmd "stats") && (4 <=? n)%nat then CStatus false
  else if String.eqb cmd "snapshot" && (4 <=? n)%nat then CStatus true
  else if String.eqb cmd "cancel" && (5 <=? n)%nat then CCancel
  else if String.eqb cmd "explain" && (5 <=? n)%nat then CExplain
  else if String.eqb cmd "inspect" && (5 <=? n)%nat then CInspect
  else if String.eqb cmd "bench" then CBench
  else if String.eqb cmd "recover" && (3 <=? n)%nat then CRecover
  else CUsage.

(** [main] for the commands that end by themselves; [None] for one that is still running or is a server. *)
Definition cli_main (fuel : nat) (elapsed : Z) (p : Peer) (o : FsOutcome) (d : Dir) (argv : list string) : option (Z * list Output) :=
  match command_of argv with
  | CUsage => Some (2, [Stderr usage])
  | CServe _ | CWorker _ => None
  | CSubmit => Some (cmd_submit argv p)
  | CStatus s => Some (cmd_status argv s p)
  | CCancel => Some (cmd_cancel argv p)
  | CExplain => Some (cmd_explain argv p)
  | CInspect => Some (cmd_inspect argv p)
  | CBench => cmd_bench fuel elapsed argv
  | CRecover => Some (cmd_recover o d).1
  end.
End commands.
