(* ===== verification/Bench.v ===== *)
(** * The benchmark

    src/benchmarks/bench.cpp: for each size, a fabric with that many requests is pumped until it is idle, serialized and
    recovered, and the rates are printed.  [now_secs] is a sequence of readings; seven are taken for each size. *)

From S2P Require Import Prelude Enums Errors Token StateMachine Ids Compatibility Types Binary Frame Messages Transport Double FabricState CLib FabricFrame FabricOps Schedule Transaction Executor CpuExecutor Pump Observability Distributed Persist FilePersist Programs Cli.
From Stdlib Require Import Ascii String.
Open Scope Z_scope.

(** [now_secs()]: the n-th reading. *)
Class SecondsClock := now_secs : nat -> double.

(** [req]. *)
Definition bench_main_request (budget i : Z) : DecodeRequest := cli_request (i +64 1) ((i mod 4) +64 1) 1 1 budget.
Definition bench_main_config : Config :=
  mkConfig (mkGroupLimits 4096 0 0 0 0 LatencyClass.Bulk 0) (cf_limits default_config) (cf_retry_policy default_config)
    (cf_event_capacity default_config) (cf_require_known_model default_config).

(** The sizes: the arguments, or the default ones. *)
Definition bench_sizes (argv : list string) : list Z :=
  if (1 <? argc argv)%nat then strtoull <$> tail argv else [1000; 10000; 100000].

(** Events per second; 0 when no time passed. *)
Definition per_second (count : Z) (secs : double) : double := if d_ltb d_zero secs then d_div (d_of_Z count) secs else d_zero.
Definition d_1e6 : double := d_of_Z (10 ^ 6).

Section bench.
Context `{LM : Libm} {SC : SteadyClock} {CLK : Clock} {ORD : MapOrder} {PF : PrintFixed} {NS : SecondsClock}.

(** One size, its readings starting at [t]; [None] while the pump runs. *)
Definition bench_size (fuel : nat) (budget : Z) (t : nat) (n : Z) : option (list Output) :=
  let m := cli_fabric bench_main_config n (bench_main_request budget) (Z.to_nat n) in
  let since a b := d_sub (now_secs (t + b)) (now_secs (t + a)) in
  let submit_rate := per_second n (since 0%nat 1%nat) in
  match pump_until_idle fuel (-1) (new_cpu (mkId 1)) m with
  | None => None
  | Some (_, (_, m)) =>
      let st := stats m in
      let sched_rate := per_second (st_decode_steps st) (since 2%nat 3%nat) in
      let bytes := serialize_state m in
      let r2 := match bytes with Ok bs => (recover_state bs (new_fabric default_config)).1 | Err e => Err e end in
      let serialize_us := match bytes with Ok _ => d_mul (since 4%nat 5%nat) d_1e6 | Err _ => d_zero end in
      let recover_us := match r2 with Ok _ => d_mul (since 5%nat 6%nat) d_1e6 | Err _ => d_zero end in
      Some [Stdout ("bench n=" +:+ llu n +:+ " budget=" +:+ llu budget +:+ " submit=" +:+ print_fixed 0 submit_rate +:+
        "/s schedule+complete=" +:+ print_fixed 0 sched_rate +:+ " steps/s (gen=" +:+ llu (st_generated_tokens st) +:+
        ") serialize=" +:+ print_fixed 1 serialize_us +:+ "us recover=" +:+ print_fixed 1 recover_us +:+ "us" +:+ nl)]
  end.

(** [main]. *)
Fixpoint bench_loop (fuel : nat) (t : nat) (sizes : list Z) : option (list Output) :=
  match sizes with
  | [] => Some []
  | n :: sizes =>
      match bench_size fuel 8 t n with
      | None => None
      | Some out => match bench_loop fuel (t + 7) sizes with None => None | Some outs => Some (out ++ outs)%list end
      end
  end.
Definition bench_main (fuel : nat) (argv : list string) : option (Z * list Output) :=
  match bench_loop fuel 0 (bench_sizes argv) with None => None | Some out => Some (0, out) end.

(** A run that ends prints one line for each size. *)
Lemma bench_size_line fuel budget t n out : bench_size fuel budget t n = Some out -> List.length out = 1%nat.
Proof.
  unfold bench_size. cbv zeta. destruct (pump_until_idle _ _ _ _) as [[r [c m]]|]; [|done]. intros E. by apply (inj Some) in E as <-.
Qed.

Lemma bench_main_lines fuel argv code out :
  bench_main fuel argv = Some (code, out) -> code = 0 /\ List.length out = List.length (bench_sizes argv).
Proof.
  unfold bench_main. destruct (bench_loop fuel 0 (bench_sizes argv)) as [outs|] eqn:E; [|done]. intros [= <- <-]. split; [done|].
  revert outs E. generalize 0%nat as t. induction (bench_sizes argv) as [|n l IH]; intros t outs; cbn [bench_loop]; [by intros [= <-]|].
  destruct (bench_size fuel 8 t n) as [o|] eqn:Eo; [|done]. apply bench_size_line in Eo.
  destruct (bench_loop fuel (t + 7) l) as [outs'|] eqn:El; [|done]. intros H. apply (inj Some) in H as <-.
  rewrite List.length_app, Eo. cbn [List.length Nat.add]. f_equal. by apply (IH (t + 7)%nat).
Qed.
End bench.
