(* ===== verification/CliTheorems.v ===== *)
(** * The command line against a coordinator

    [cmd_submit], [cmd_cancel] and [cmd_status] with a coordinator's client thread at the other end of the
    connection: what is printed is what the fabric decided, and what is typed is what the fabric was asked. *)

From S2P Require Import Prelude Enums Errors Token StateMachine Ids Compatibility Types Binary Frame Messages Transport Double FabricState CLib FabricFrame FabricOps Schedule Transaction Executor CpuExecutor Pump Observability Distributed Persist FilePersist Programs System Cli.
From Stdlib Require Import Ascii String.
Open Scope Z_scope.

(** ** Arguments *)

Lemma u64_string_digit v c s : in_range 64 v = true -> u64_string v = String c s -> is_digit c = true.
Proof.
  intros Hv%in_range_iff E. pose proof (append_u64_digits v ltac:(lia)) as Hd. unfold u64_string in E. rewrite E in Hd.
  by apply Forall_inv in Hd.
Qed.

Definition submit_argv (host port : string) (seq tenant budget model rev : Z) : list string :=
  ["decodefabric"; "submit"; host; port; u64_string seq; u64_string tenant; u64_string budget; "--model"; u64_string model;
   "--rev"; u64_string rev]%string.

Lemma submit_request_of_argv host port seq tenant budget model rev :
  Forall (fun v => in_range 64 v = true) [seq; tenant; budget; model; rev] ->
  submit_request_of (submit_argv host port seq tenant budget model rev) = cli_request seq tenant model rev budget.
Proof.
  rewrite !Forall_cons. intros (Hs & Ht & Hb & Hm & Hr & _). unfold submit_request_of, submit_argv.
  assert (Hno : forall opt, String.eqb (u64_string model) (String "-" opt) = false).
  { intros opt. apply String.eqb_neq. intros E. by apply u64_string_digit in E. }
  unfold arg. cbn [drop lookup list_lookup default from_option]. cbn [submit_options]. rewrite !Hno.
  cbn [String.eqb Ascii.eqb Bool.eqb]. cbn. by rewrite !strtoull_printed.
Qed.

(** ** What a coordinator answers *)

Section against_coordinator.
Context {AO : AtoiOverflow} `{CLK : Clock} {ORD : MapOrder} {OS : Ostream}.

(** A client thread of a coordinator with fabric [m], reached without loss. *)
Definition coordinator_peer (m : Impl) : Peer :=
  mkPeer (fun _ _ => Ok tt) (fun _ => Ok tt)
    (fun s => match (client_request (sent_frame s) m).1 with r :: _ => Ok (sent_frame r) | [] => net_error "peer closed" end).
(** The fabric once the message was served. *)
Definition served (m : Impl) (s : Sent) : Impl := (client_request (sent_frame s) m).2.

(** The reasons for which a request is refused. *)
Definition refusals : list string :=
  ["request/sequence/tenant/model/revision id invalid"; "maximum generation length must be > 0";
   "pregenerated exceeds maximum generation length"; "tenant weight must be positive"; "unknown_model";
   "active_sequence_limit_reached"; "tenant_limit_exceeded"; "duplicate_sequence_id"]%string.

Lemma validate_refusal req e : validate req = Err e -> err_message e ∈ refusals.
Proof.
  unfold validate, failed. repeat (destruct (_ : bool); [intros [= <-]; cbn; set_solver|]). done.
Qed.

Lemma backpressure_refusal req m r : backpressure req m = Some r -> r ∈ refusals.
Proof. unfold backpressure. repeat case_match; intros [= <-]; set_solver. Qed.

Lemma build_key_seqs req m :
  im_seqs (build_key req m).2 = im_seqs m /\ rq_sequence (build_key req m).1 = rq_sequence req /\
  rq_max_generation_length (build_key req m).1 = rq_max_generation_length req /\ rq_tenant (build_key req m).1 = rq_tenant req /\
  rq_pregenerated (build_key req m).1 = rq_pregenerated req.
Proof. unfold build_key, now. by destruct (rq_arrival req =? 0). Qed.

(** The outcomes of [submit]: refused for a known reason without touching a sequence, or admitted under the
    identifier that was asked for, which was free. *)
Lemma submit_outcomes req m :
  (ad_admitted (submit req m).1 = false /\ ad_sequence (submit req m).1 = null_id /\ ad_reason (submit req m).1 ∈ refusals /\
     im_seqs (submit req m).2 = im_seqs m)
  \/ (ad_admitted (submit req m).1 = true /\ ad_sequence (submit req m).1 = rq_sequence req /\ ad_reason (submit req m).1 = "admitted"%string /\
     validate req = Ok tt /\ im_seqs m !! rq_sequence req = None /\
     im_seqs (submit req m).2 = <[rq_sequence req := admitted_seq (build_key req m).1]> (im_seqs m)).
Proof.
  unfold submit. cbv zeta. destruct (validate req) as [u|e] eqn:Ev.
  2:{ left. cbn [fst snd ad_admitted ad_sequence ad_reason]. rewrite seqs_record_event. eauto using validate_refusal. }
  pose proof (build_key_seqs req m) as (Hs & Hq & _). destruct (build_key req m) as [req' m1]. cbn [fst snd] in *.
  assert (Hv : is_valid (rq_sequence req') = true).
  { rewrite Hq. unfold validate in Ev. destruct (valid_request_id req) eqn:E; [|done]. unfold valid_request_id in E. by destruct (is_valid (rq_sequence req)); rewrite ?andb_false_r in E. }
  destruct (negb (is_valid (rq_model req'))).
  { left. cbn [fst snd ad_admitted ad_sequence ad_reason]. rewrite seqs_record_event. set_solver. }
  destruct (backpressure req' m1) eqn:Eb.
  { left. cbn [fst snd ad_admitted ad_sequence ad_reason]. rewrite seqs_record_event. eauto using backpressure_refusal. }
  rewrite Hv. cbn [andb]. case_bool_decide as Hd.
  { left. cbn [fst snd ad_admitted ad_sequence ad_reason]. rewrite seqs_record_event. set_solver. }
  right. cbn [fst snd ad_admitted ad_sequence ad_reason]. rewrite seqs_record_event. unfold bump. rsimpl.
  rewrite bool_decide_eq_false_2 by done. rewrite Hs, Hq in *. destruct u. rewrite eq_None_not_Some. done.
Qed.

Lemma admitted_fresh req :
  rq_pregenerated req = 0 ->
  s_machine (admitted_seq req) = SequenceState.Ready /\ s_generated (admitted_seq req) = 0 /\
  tb_max (s_budget (admitted_seq req)) = rq_max_generation_length req /\ s_req (admitted_seq req) = req.
Proof. intros Hp. unfold admitted_seq. by rewrite Hp. Qed.

Lemma submit_ack_fits req m :
  id_ok (rq_sequence req) = true ->
  submit_ack_ok (mkSubmitAck (ad_admitted (submit req m).1) (ad_sequence (submit req m).1) (ad_reason (submit req m).1)) = true /\
  c_str (ad_reason (submit req m).1) = ad_reason (submit req m).1.
Proof.
  intros Hi. unfold submit_ack_ok. cbn [sa_sequence sa_reason].
  assert (Hr : Forall (fun r => str_ok r = true /\ c_str r = r) ("admitted"%string :: refusals)).
  { unfold refusals. repeat constructor. }
  rewrite Forall_forall in Hr.
  destruct (submit_outcomes req m) as [(_ & -> & Hm & _)|(_ & -> & -> & _)].
  - destruct (Hr (ad_reason (submit req m).1)) as [-> ->]; [by right|done].
  - rewrite Hi. destruct (Hr "admitted"%string) as [-> ->]; [by left|done].
Qed.

Lemma served_submit req m :
  request_ok req = true ->
  client_request (sent_frame (FrameType.SubmitRequest, encode_submit_request req)) m =
  ([(FrameType.SubmitAck, encode_submit_ack (mkSubmitAck (ad_admitted (submit req m).1) (ad_sequence (submit req m).1) (ad_reason (submit req m).1)))],
   (submit req m).2).
Proof.
  intros Hr. unfold client_request, sent_frame. cbn [Frame.frame_of fr_type fr_payload fst snd].
  pose proof (run_read_decodes _ _ _ [] (decodes_submit_request req Hr)) as Hd. rewrite app_nil_r in Hd.
  unfold decode_submit_request. rewrite Hd. by destruct (submit req m).
Qed.

Lemma cli_request_ok seq tenant model rev budget :
  Forall (fun v => in_range 64 v = true) [seq; tenant; budget; model; rev] -> request_ok (cli_request seq tenant model rev budget) = true.
Proof.
  rewrite !Forall_cons. intros (Hs & Ht & Hb & Hm & Hr & _). unfold request_ok, cli_request, id_ok.
  cbn. rewrite Hs, Ht, Hb, Hm, Hr. unfold state_ok, id_ok. cbn. by rewrite Hs.
Qed.

(** What a decision says of the sequences. *)
Lemma submit_effect req m :
  rq_pregenerated req = 0 ->
  if ad_admitted (submit req m).1 then
    ad_sequence (submit req m).1 = rq_sequence req /\ im_seqs m !! rq_sequence req = None /\
    exists s, im_seqs (submit req m).2 = <[rq_sequence req := s]> (im_seqs m) /\ s_machine s = SequenceState.Ready /\ s_generated s = 0 /\
      tb_max (s_budget s) = rq_max_generation_length req /\ rq_tenant (s_req s) = rq_tenant req
  else ad_reason (submit req m).1 ∈ refusals /\ im_seqs (submit req m).2 = im_seqs m.
Proof.
  intros Hz. destruct (submit_outcomes req m) as [(-> & _ & Hr & Hs)|(-> & Hq & _ & _ & Hn & Hs)]; [done|].
  destruct (build_key_seqs req m) as (_ & _ & Hb & Ht & Hp). split; [done|]. split; [done|].
  exists (admitted_seq (build_key req m).1). split; [done|].
  destruct (admitted_fresh _ (eq_trans Hp Hz)) as (-> & -> & -> & ->). by rewrite Hb, Ht.
Qed.

(** The line [submit] prints for a decision. *)
Definition submitted_line (d : AdmissionDecision) : string :=
  "submitted seq=" +:+ llu (id_value (ad_sequence d)) +:+ " admitted=" +:+ as_int (ad_admitted d) +:+ " reason=" +:+ ad_reason d +:+ nl.

(** C35: [submit] typed with any numbers and run against a coordinator asks its fabric for exactly the request of
    those numbers, prints the fabric's decision and exits with 0 exactly when the request was admitted; an admitted
    sequence is in the fabric, ready, under the number that was typed and with the budget that was typed, and a
    refused request leaves every sequence as it was. *)
Theorem cli_submit_exact (host port : string) (seq tenant budget model rev : Z) (m : Impl) :
  Forall (fun v => in_range 64 v = true) [seq; tenant; budget; model; rev] ->
  let argv := submit_argv host port seq tenant budget model rev in
  let req := cli_request seq tenant model rev budget in
  let m' := served m (FrameType.SubmitRequest, encode_submit_request (submit_request_of argv)) in
  let d := (submit req m).1 in
  command_of argv = CSubmit /\
  m' = (submit req m).2 /\
  cmd_submit argv (coordinator_peer m) = (if ad_admitted d then 0 else 1, [Stdout (submitted_line d)]) /\
  (if ad_admitted d then
     ad_sequence d = mkId seq /\ im_seqs m !! mkId seq = None /\
  exists s, im_seqs m' = <[mkId seq := s]> (im_seqs m) /\ s_machine s = SequenceState.Ready /\ s_generated s = 0 /\
  tb_max (s_budget s) = budget /\ rq_tenant (s_req s) = mkId tenant
   else ad_reason d ∈ refusals /\ im_seqs m' = im_seqs m).
Proof.
  intros Hv argv req m' d. pose proof (submit_request_of_argv host port _ _ _ _ _ Hv) as Hreq. fold argv req in Hreq.
  pose proof (cli_request_ok _ _ _ _ _ Hv) as Hok. fold req in Hok.
  assert (Hid : id_ok (rq_sequence req) = true) by (apply Forall_inv in Hv; done).
  assert (Hm' : m' = (submit req m).2) by (unfold m', served; by rewrite Hreq, served_submit).
  destruct (submit_ack_fits req m Hid) as [Hack Hstr].
  split; [done|]. split; [done|]. split.
  - unfold cmd_submit. rewrite Hreq. unfold coordinator_peer. cbn [pe_connect pe_send pe_recv peer_send is_ok negb].
    rewrite served_submit by done. cbn [fst sent_frame Frame.frame_of fr_type fr_payload snd].
    rewrite bool_decide_eq_true_2 by done. cbn [negb].
    pose proof (run_read_decodes _ _ _ [] (decodes_submit_ack _ Hack)) as Hd. rewrite app_nil_r in Hd.
    unfold decode_submit_ack. rewrite Hd. cbn [sa_admitted sa_sequence sa_reason]. by rewrite Hstr.
  - rewrite Hm'. exact (submit_effect req m eq_refl).
Qed.

(** [cancel] asks the fabric to cancel the typed request, and says the same whatever the fabric answers. *)
Lemma cli_cancel_exact host port req m :
  in_range 64 req = true ->
  let argv := ["decodefabric"; "cancel"; host; port; u64_string req]%string in
  let msg := (FrameType.CancelRequest, encode_query (mkQuery (mkId req) null_id false)) in
  served m msg = (cancel_request (mkId req) m).2 /\
  cmd_cancel argv (coordinator_peer m) = (0, [Stdout ("cancel request=" +:+ llu req +:+ nl)]).
Proof.
  intros Hr argv msg. split.
  - unfold served, msg, client_request, sent_frame. cbn [Frame.frame_of fr_type fr_payload fst snd].
    assert (Hok : query_ok (mkQuery (mkId req) null_id false) = true) by (unfold query_ok, id_ok; cbn; by rewrite Hr).
    pose proof (run_read_decodes _ _ _ [] (decodes_query _ Hok)) as Hd. rewrite app_nil_r in Hd.
    unfold decode_query. rewrite Hd. cbn [q_request]. by destruct (cancel_request _ m).
  - unfold cmd_cancel, argv. change (arg _ 4) with (u64_string req). by rewrite strtoull_printed.
Qed.
End against_coordinator.
