(* ===== verification/Examples.v ===== *)
(** * The example programs

    src/examples: drivers over the library, each of which checks what it set out to show and returns 0 when
    it holds.  A program is a function of the interfaces its fabric and its executor read; what it prints
    and returns is a pair, or [None] while it runs. *)

From S2P Require Import Prelude Enums Errors Token StateMachine Ids Compatibility Types Binary Frame Messages Transport Double FabricState CLib FabricFrame FabricOps Schedule Transaction Executor CpuExecutor CpuTheorems Pump Kernel CudaExecutor Observability Distributed Persist FilePersist Programs Cli.
From Stdlib Require Import Ascii String.
Open Scope Z_scope.

(** ** examples/shared.hpp *)

Definition ex_key : CompatibilityKey := mkKey (mkId 1) (mkId 1) null_id BackendKind.CPU (mkId 1) DType.F32 0 0 0 0.
Definition ex_req (id seq tenant budget weight : Z) : DecodeRequest :=
  default_request <| rq_id := mkId id |> <| rq_initial_attempt := mkId id |> <| rq_tenant := mkId tenant |>
    <| rq_model := mkId 1 |> <| rq_revision := mkId 1 |> <| rq_sequence := mkId seq |> <| rq_prompt_length := 4 |>
    <| rq_max_generation_length := budget |> <| rq_tenant_weight := weight |> <| rq_latency_class := LatencyClass.Standard |>
    <| rq_state := default_state_descriptor <| sd_id := mkId seq |> <| sd_estimated_growth := 64 |> |>.
(** The worker that every example registers. *)
Definition ex_worker (device : DeviceDescriptor) (capacity : Z) : WorkerDescriptor :=
  mkWorker (mkId 1) (mkId 1) device WorkerHealth.Healthy capacity 0 [ex_key] 0.
(** The bit pattern of 6.0. *)
Definition double_six : Z := 0x4018000000000000.
Definition config_of (max_sequences : Z) : Config :=
  mkConfig (mkGroupLimits max_sequences 0 0 0 0 LatencyClass.Bulk 0) (cf_limits default_config) (cf_retry_policy default_config)
    (cf_event_capacity default_config) (cf_require_known_model default_config).

Section drive.
Context {CLK : Clock} {ORD : MapOrder} {E : Type} {EX : DecodeExecutor E}.

Definition drive_member (acc : list MemberReceipt * E) (ga : GrantOrAbort) : list MemberReceipt * E :=
  let '(rs, e) := acc in
  match ga_grant ga with
  | Some g => match ex_commit g e with (Ok mr, e) => (rs ++ [mr], e) | (Err _, e) => (rs, e) end
  | None => if ga_has_abort ga then (rs, (ex_abort (ga_abort_spec ga) e).2) else (rs, e)
  end.
(** [ex::drive]. *)
Definition drive (em : E * Impl) (d : Dispatch) : E * Impl :=
  let '(e, m) := em in
  match ex_prepare (exec_request d) e with
  | (Err _, e) => (e, m)
  | (Ok pd, e) =>
      match authorize_prepared pd m with
      | (Err _, m) => (e, m)
      | (Ok ar, m) =>
          let '(rs, e) := foldl drive_member ([], e) (au_members ar) in
          (e, (apply_commit_receipt
                 (mkReceiptDecode (dp_id d) (dp_epoch d) (dp_worker d) (dp_worker_boot d) rs ErrorCode.Ok "") m).2)
      end
  end.

(** The loops of examples 03 and 04: schedule, drive every dispatch, until no sequence is active. *)
Fixpoint batch_loop (turns : nat) (cyc : Z) (sizes : list nat) (em : E * Impl) : list nat * (E * Impl) :=
  match turns with
  | O => (sizes, em)
  | S turns =>
      let '(ds, m) := schedule (cyc * 1000) em.2 in
      let em := foldl drive (em.1, m) ds in
      let sizes := sizes ++ ((fun d => List.length (dp_members d)) <$> ds) in
      if active_sequences em.2 =? 0 then (sizes, em) else batch_loop turns (cyc + 1) sizes em
  end.
Fixpoint pump_loop_04 (turns : nat) (em : E * Impl) : E * Impl :=
  match turns with
  | O => em
  | S turns =>
      if active_sequences em.2 >? 0 then let '(ds, m) := schedule 1000 em.2 in pump_loop_04 turns (foldl drive (em.1, m) ds) else em
  end.

(** Submit a list of requests to a fabric with the worker registered. *)
Definition ex_fabric (cfg : Config) (w : WorkerDescriptor) (reqs : list DecodeRequest) : list AdmissionDecision * Impl :=
  foldl (fun acc r => let '(d, m) := submit r acc.2 in (acc.1 ++ [d], m)) ([], (register_worker w (new_fabric cfg)).2) reqs.
End drive.

(** ** Example 09: an executor that fails a sequence once *)

Record FailOnceExecutor := mkFailOnce { fo_target : Z; fo_failed : bool; fo_inner : CpuDecodeExecutor }.

#[local] Instance MemberOutcome_eta : Settable MemberOutcome := fun o =>
  mkOutcome (mo_sequence o) (mo_kind o) (mo_attempt o) (mo_generation o) (mo_generated o) (mo_token_identifier o) (mo_terminal o)
    (mo_error_code o) (mo_error_message o) (mo_retryable o) (mo_started_at o) (mo_finished_at o) (mo_active_ns o) (mo_kv_bytes_delta o)
    (mo_kv_bytes_after o).
(** The target's first prepared member is turned into a retryable failure. *)
Definition fail_member (target : Z) (pm : PreparedMember) : PreparedMember :=
  if id_value (pm_sequence pm) =? target then
    pm <| pm_outcome ::= (fun o => o <| mo_kind := MemberOutcomeKind.RetryableFailure |> <| mo_error_code := ErrorCode.RetryableFailure |>
                                     <| mo_retryable := true |> <| mo_terminal := false |>) |>
  else pm.

Definition with_members (l : list PreparedMember) (pd : PreparedDecode) : PreparedDecode :=
  mkPreparedDecode (pd_dispatch_id pd) (pd_epoch pd) (pd_worker pd) (pd_worker_boot pd) l (pd_group_active_ns pd) (pd_group_error pd)
    (pd_group_error_message pd).

Section programs.
Context {CLK : Clock} {ORD : MapOrder} {LM : Libm} {SC : SteadyClock}.

#[export] Instance fail_once : DecodeExecutor FailOnceExecutor := {|
  ex_prepare req e :=
    let '(r, inner) := cpu_prepare req (fo_inner e) in
    match r with
    | Ok pd =>
        if negb (fo_failed e) then
          (Ok (with_members (fail_member (fo_target e) <$> pd_members pd) pd),
           mkFailOnce (fo_target e) (existsb (fun pm => id_value (pm_sequence pm) =? fo_target e) (pd_members pd)) inner)
        else (Ok pd, mkFailOnce (fo_target e) true inner)
    | Err err => (Err err, mkFailOnce (fo_target e) (fo_failed e) inner)
    end;
  ex_commit g e := let '(r, inner) := cpu_commit g (fo_inner e) in (r, mkFailOnce (fo_target e) (fo_failed e) inner);
  ex_abort a e := let '(r, inner) := cpu_abort a (fo_inner e) in (r, mkFailOnce (fo_target e) (fo_failed e) inner);
|}.

(** The laws of the interface survive the failure it injects. *)
#[export] Instance fail_once_laws : ExecutorLaws FailOnceExecutor.
Proof.
  split.
  - intros req e pd e'. cbn. pose proof (law_prepare (E := CpuDecodeExecutor) req (fo_inner e)) as Hl.
    change (ex_prepare req (fo_inner e)) with (cpu_prepare req (fo_inner e)) in Hl.
    destruct (cpu_prepare req (fo_inner e)) as [[pd0|err] inner]; [|done]. specialize (Hl pd0 inner eq_refl).
    destruct (fo_failed e); cbn [negb]; intros [= <- _]; [done|]. destruct Hl as [L1 L2 L3 L4 L5]. split; try done. cbn [with_members pd_members].
    apply Forall2_fmap_r. eapply Forall2_impl; [exact L5|]. intros spec pm [H1 H2 H3 H4 H5 H6 H7 H8].
    unfold compose, fail_member. destruct (id_value (pm_sequence pm) =? fo_target e); [|by split]. destruct pm. by split.
  - intros g e rec e'. cbn. pose proof (law_receipt (E := CpuDecodeExecutor) g (fo_inner e)) as Hl.
    change (ex_commit g (fo_inner e)) with (cpu_commit g (fo_inner e)) in Hl.
    destruct (cpu_commit g (fo_inner e)) as [r inner]. intros [= -> _]. by apply (Hl rec inner).
Qed.

(** ** The programs *)

Definition one : Z := double_one.
Definition cpu1 : CpuDecodeExecutor := new_cpu (mkId 1).
Definition exit_code (ok : bool) : Z := if ok then 0 else 1.
Definition generated (m : Impl) : Z := st_generated_tokens (stats m).
Definition flag (l : list AdmissionDecision) : string := as_int (existsb ad_admitted l).

Definition ex01 (fuel : nat) : option (Z * list Output) :=
  let '(d, m) := ex_fabric default_config (ex_worker (cpu_device (mkId 1)) 100) [ex_req 1 1 7 5 one] in
  match pump_until_idle fuel 50 cpu1 m with
  | None => None
  | Some (_, (_, m)) =>
      Some (exit_code (generated m =? 5), [Stdout ("01 basic_cpu_decode: admitted=" +:+ flag d +:+ " generated=" +:+ llu (generated m) +:+
        " active=" +:+ llu (active_sequences m) +:+ nl)])
  end.

Definition ex02 (fuel : nat) : option (Z * list Output) :=
  let '(_, m) := ex_fabric default_config (ex_worker (cpu_device (mkId 1)) 100) [ex_req 2 2 7 20 one] in
  match pump_until_idle fuel 200 cpu1 m with
  | None => None
  | Some (_, (_, m)) =>
      Some (exit_code ((generated m =? 20) && (st_decode_steps (stats m) =? 20)),
        [Stdout ("02 repeated_iterative_generation: generated=" +:+ llu (generated m) +:+ " steps=" +:+
          llu (st_decode_steps (stats m)) +:+ " (monotonic per step)" +:+ nl)])
  end.

Definition ex03 : Z * list Output :=
  let '(_, m) := ex_fabric (config_of 32) (ex_worker (cpu_device (mkId 1)) 256) [ex_req 10 10 7 3 one; ex_req 11 11 7 5 one; ex_req 12 12 7 7 one] in
  let '(sizes, (_, m)) := batch_loop 100 0 [] (cpu1, m) in
  (exit_code (generated m =? 3 + 5 + 7),
   [Stdout ("03 continuous_batching: dispatches=" +:+ llu (Z.of_nat (List.length sizes)) +:+ " group-member-sum=" +:+
      llu (foldl (fun a s => a +64 Z.of_nat s) 0 sizes) +:+ " done active=" +:+ llu (active_sequences m) +:+ nl)]).

Definition ex04 : Z * list Output :=
  let '(_, m) := ex_fabric (config_of 32) (ex_worker (cpu_device (mkId 1)) 256) [ex_req 20 20 7 10 one; ex_req 21 21 7 3 one] in
  let '(_, m) := pump_loop_04 100 (cpu1, m) in
  (exit_code (generated m =? 13),
   [Stdout ("04 group_growth_shrink: active=" +:+ llu (active_sequences m) +:+ " gen=" +:+ llu (generated m) +:+
      " (continuous membership change)" +:+ nl)]).

Definition ex05 (fuel : nat) : option (Z * list Output) :=
  let budgets := (fun i => 2 + 2 * Z.of_nat i) <$> seq 0 5 in
  let total := foldl Z.add 0 budgets in
  let '(_, m) := ex_fabric default_config (ex_worker (cpu_device (mkId 1)) 256)
    (imap (fun i b => ex_req (30 + Z.of_nat i) (300 + Z.of_nat i) 7 b one) budgets) in
  match pump_until_idle fuel 500 cpu1 m with
  | None => None
  | Some (_, (_, m)) =>
      Some (exit_code (generated m =? total), [Stdout ("05 mixed_generation_lengths: expected=" +:+ llu total +:+ " generated=" +:+
        llu (generated m) +:+ " active=" +:+ llu (active_sequences m) +:+ nl)])
  end.

(** [s.find(what) != npos]. *)
Definition contains (what s : string) : bool := match String.index 0 what s with Some _ => true | None => false end.

Definition ex06 (fuel : nat) : option (Z * list Output) :=
  let '(_, m) := ex_fabric (config_of 32) (ex_worker (cpu_device (mkId 1)) 256)
    [ex_req 40 400 7 12 double_six; ex_req 41 401 7 12 double_six; ex_req 42 402 9 12 one; ex_req 43 403 9 12 one] in
  match pump_until_idle fuel 1000 cpu1 m with
  | None => None
  | Some (_, (_, m)) =>
      let sn := snapshot m in
      let seen t := existsb (contains t) (sn_per_tenant_tokens sn) in
      Some (exit_code (seen "tenant=7"%string && seen "tenant=9"%string && (st_generated_tokens (sn_stats sn) =? 48)),
        [Stdout ("06 tenant_fairness: generated=" +:+ llu (st_generated_tokens (sn_stats sn)) +:+ " completed=" +:+
          llu (sn_completed sn) +:+ " tenants_seen=" +:+ llu (Z.of_nat (List.length (sn_per_tenant_tokens sn))) +:+ nl)])
  end.

Definition ex07 (fuel : nat) : option (Z * list Output) :=
  let a := ex_req 50 500 7 10 one <| rq_latency_class := LatencyClass.Interactive |> <| rq_per_token_target_ns := 1000000 |> in
  let '(_, m) := ex_fabric default_config (ex_worker (cpu_device (mkId 1)) 256) [a; ex_req 51 501 9 10 one] in
  match pump_until_idle fuel 500 cpu1 m with
  | None => None
  | Some (_, (_, m)) =>
      let e := explain (mkId 500) "why_waiting" m in
      Some (exit_code (generated m =? 20), [Stdout ("07 latency_sensitive: generated=" +:+ llu (generated m) +:+ " explain=" +:+
        c_str (xp_answer e) +:+ nl)])
  end.

Definition ex08 : Z * list Output :=
  let '(_, m) := ex_fabric default_config (ex_worker (cpu_device (mkId 1)) 100) [ex_req 60 600 7 50 one] in
  let '(e, m) := (pump_once 1000 cpu1 m).2 in
  let '(c, m) := cancel (mkId 600) m in
  let '(_, m) := (pump_once 2000 e m).2 in
  let stopped := bool_decide (sequence_state (mkId 600) m = SequenceState.Cancelled) in
  (exit_code (cn_cancelled c && stopped),
   [Stdout ("08 cancellation_between_steps: cancel=" +:+ as_int (cn_cancelled c) +:+ " stopped=" +:+ as_int stopped +:+
      " generated=" +:+ llu (generated m) +:+ nl)]).

Definition ex09 (fuel : nat) : option (Z * list Output) :=
  let '(_, m) := ex_fabric default_config (ex_worker (cpu_device (mkId 1)) 100) [ex_req 70 70 7 6 one] in
  match pump_until_idle fuel 200 (mkFailOnce 70 false cpu1) m with
  | None => None
  | Some (_, (_, m)) =>
      let retries := st_retries (stats m) in
      Some (exit_code ((retries >=? 1) && (generated m =? 6)), [Stdout ("09 retry_after_member_failure: retries=" +:+ llu retries +:+
        " generated=" +:+ llu (generated m) +:+ " (new AttemptId, no rollback)" +:+ nl)])
  end.

Definition ex10 (o : FsOutcome) (d : Dir) : Z * list Output * Dir :=
  let '(_, m) := ex_fabric default_config (ex_worker (cpu_device (mkId 1)) 100) [ex_req 80 80 7 10 one] in
  let '(_, m) := (pump_once 1000 cpu1 m).2 in
  let image := serialize_state m in
  let d := match image with Ok bs => (fs_write o "state" bs d).2 | Err _ => d end in
  let size := match image with Ok bs => Z.of_nat (List.length bs) | Err _ => 0 end in
  let out := [Stdout ("10 persistence_recovery: persisted " +:+ llu size +:+ " bytes, generated=" +:+ llu (generated m) +:+ nl)] in
  match fs_read "state" d with
  | Err _ => (1, out ++ [Stdout ("10 persistence_recovery: no state" +:+ nl)], d)
  | Ok bs =>
      match recover_state bs (new_fabric default_config) with
      | (Err e, _) => (1, out ++ [Stdout ("10 persistence_recovery: recover failed: " +:+ c_str (err_message e) +:+ nl)], d)
      | (Ok _, m) => (0, out ++ [Stdout ("10 persistence_recovery: recovered active=" +:+ llu (active_sequences m) +:+ " generated=" +:+
          llu (generated m) +:+ nl)], d)
      end
  end.

(** Example 12: a submission and a status query over two connections; [None] when [value()] of an acknowledgement
    that could not be decoded throws, which nothing catches. *)
Definition ex12 {AO : AtoiOverflow} (p p2 : Peer) (argv : list string) : option (Z * list Output) :=
  if (argc argv <? 3)%nat then Some (2, [Stdout ("usage: " +:+ c_str (arg argv 0) +:+ " <coordinator_host> <port>" +:+ nl)])
  else
    let host := arg argv 1 in
    let port := atoi (arg argv 2) in
    let msg := (FrameType.SubmitRequest, encode_submit_request (ex_req 100 1000 7 5 one)) in
    if negb (is_ok (pe_connect p host port)) then Some (1, [Stdout ("12 distributed: connect failed" +:+ nl)])
    else if negb (is_ok (peer_send p true msg)) then Some (1, [Stdout ("12 distributed: send failed" +:+ nl)])
    else match pe_recv p msg with
    | Err _ => Some (1, [Stdout ("12 distributed: no ack" +:+ nl)])
    | Ok f =>
        if negb (bool_decide (fr_type f = FrameType.SubmitAck)) then Some (1, [Stdout ("12 distributed: no ack" +:+ nl)])
        else
          match decode_submit_ack (fr_payload f) with
          | Err _ => None
          | Ok a =>
          let ack := [Stdout ("12 distributed: submitted seq=" +:+ llu (id_value (sa_sequence a)) +:+ " admitted=" +:+
                        as_int (sa_admitted a) +:+ nl)] in
          let query := (FrameType.StatusQuery, []) in
          let status :=
            if is_ok (pe_connect p2 host port) then
              match pe_recv p2 query with
              | Ok f =>
                  if bool_decide (fr_type f = FrameType.StatusReply) then
                    match decode_status_reply (fr_payload f) with
                    | Ok s => [Stdout ("12 distributed: active=" +:+ llu (sr_active s) +:+ " generated=" +:+ llu (sr_generated_tokens s) +:+ nl)]
                    | Err _ => []
                    end
                  else []
              | Err _ => []
              end
            else [] in
          Some (0, ack ++ status)
          end
    end.
End programs.

(** examples/external_consumer: the clock is a [FixedClock]. *)
Definition external_consumer {ORD : MapOrder} {LM : Libm} {SC : SteadyClock} (fuel : nat) : option (Z * list Output) :=
  let CLK := FixedClock 0 in
  let '(d, m) := submit (CLK := CLK) (ex_req 1 1 7 5 double_one)
    (register_worker (CLK := CLK) (ex_worker (cpu_device (mkId 1)) 256) (new_fabric (config_of 32))).2 in
  if negb (ad_admitted d) then Some (1, [Stdout ("admission rejected: " +:+ c_str (ad_reason d) +:+ nl)])
  else match pump_until_idle (CLK := CLK) fuel (-1) (new_cpu (mkId 1)) m with
  | None => None
  | Some (_, (_, m)) =>
      let gen := st_generated_tokens (stats m) in
      Some (if (gen =? 5) && (active_sequences m =? 0) then 0 else 2,
        [Stdout ("external consumer: admitted=" +:+ as_int (ad_admitted d) +:+ " generated=" +:+ llu gen +:+ " active=" +:+
          llu (active_sequences m) +:+ nl)])
  end.

(** Example 11; [prop] is what the CUDA runtime reports of the device. *)
Definition ex11_key : CompatibilityKey := mkKey (mkId 1) (mkId 1) null_id BackendKind.CUDA (mkId 2) DType.F32 0 0 0 0.
Definition ex11 {CLK : Clock} {ORD : MapOrder} `{LM : Libm} `{CM : CudaMath} `{CR : CudaRuntime} {SC : SteadyClock}
    (prop : option DeviceProp) (fuel : nat) : option (Z * list Output) :=
  let ex := new_cuda (mkId 2) prop in
  let dev := cu_device ex in
  if d_compute_capability_major dev <? 12 then Some (2, [Stdout ("11 cuda_decode: no sm_120 device" +:+ nl)])
  else
    let w := mkWorker (mkId 2) (mkId 1) dev WorkerHealth.Healthy 4096 0 [ex11_key] 0 in
    let '(_, m) := ex_fabric (config_of 16) w [ex_req 90 90 7 8 double_one] in
    match pump_until_idle fuel 100 ex m with
    | None => None
    | Some (_, (ex, m)) =>
        let dev := cu_device ex in
        Some (exit_code (generated m =? 8),
          [Stdout ("11 cuda_decode: device=" +:+ c_str (d_name dev) +:+ " cc=" +:+ llu (d_compute_capability_major dev) +:+ "." +:+
            llu (d_compute_capability_minor dev) +:+ " generated=" +:+ llu (generated m) +:+ " active=" +:+ llu (active_sequences m) +:+ nl)])
    end.
