(* ===== verification/FabricInvariants.v ===== *)
(** * The fabric as a transition system

    Every public operation that changes the fabric, [recover_state] apart, is a label of
    [step] (a recovery replaces sequences, ledger and epoch by those of an image; it is the
    subject of Persist.v and PersistTheorems.v); an
    execution is a sequence of operations, in any order and with any arguments
    (the messages of workers and clients are not assumed to be honest).  The file
    proves what holds along every execution: sequences follow the lifecycle,
    only a consumed commit receipt advances a generation, and the grant ledger
    accounts for every token. *)

From S2P Require Import Prelude Enums Errors Token StateMachine Ids Compatibility Types Double FabricState FabricFrame FabricOps Schedule Transaction.

Inductive Op :=
  | OSubmit (req : DecodeRequest)
  | OCancel (seq : SequenceId)
  | OCancelRequest (req : RequestId)
  | ORetry (seq : SequenceId)
  | ORegisterWorker (wd : WorkerDescriptor)
  | OMarkWorkerDead (w : WorkerId)
  | ORollEpoch
  | OAdvance (tn : Z)
  | OSchedule (tn : Z)
  | OCompletion (r : DecodeExecutionResult)
  | OAuthorize (p : PreparedDecode)
  | OReceipts (r : ReceiptDecode)
  | OAbort (a : AbortPrepared).

Section invariants.
Context {CLK : Clock} {ORD : MapOrder}.
Implicit Types (m : Impl) (id : SequenceId).

Definition step (m : Impl) (op : Op) : Impl :=
  match op with
  | OSubmit req => (submit req m).2
  | OCancel seq => (cancel seq m).2
  | OCancelRequest req => (cancel_request req m).2
  | ORetry seq => (retry seq m).2
  | ORegisterWorker wd => (register_worker wd m).2
  | OMarkWorkerDead w => (mark_worker_dead w m).2
  | ORollEpoch => (roll_epoch m).2
  | OAdvance tn => (advance tn m).2
  | OSchedule tn => (schedule tn m).2
  | OCompletion r => (apply_completion r m).2
  | OAuthorize p => (authorize_prepared p m).2
  | OReceipts r => (apply_commit_receipt r m).2
  | OAbort a => (abort_prepared a m).2
  end.

Definition run (m : Impl) (ops : list Op) : Impl := foldl step m ops.

(** ** The remaining quiet operations *)

Lemma quiet_reject_stale m0 m r seq d : quiet m0 m -> quiet m0 (reject_stale r seq d m).
Proof. intros H. unfold reject_stale. auto with quiet. Qed.
Hint Resolve quiet_reject_stale : quiet.

Lemma quiet_complete_member result m0 m mo : quiet m0 m -> quiet m0 (complete_member result m mo).
Proof. intros H. unfold complete_member. cbv zeta. quiet_walk. Qed.

Lemma quiet_apply_completion result m : quiet m (apply_completion result m).2.
Proof.
  unfold apply_completion. cbn [snd]. apply quiet_refresh, quiet_foldl; [|reflexivity].
  intros. by apply quiet_complete_member.
Qed.

(** ** Sequences under the three operations that touch grants *)

(** Every sequence is kept and related to its old self. *)
Definition seqs_rel (R : Seq -> Seq -> Prop) (m m' : Impl) : Prop :=
  forall id, option_Forall2 R (im_seqs m !! id) (im_seqs m' !! id).

Lemma seqs_rel_trans R `{!Transitive R} m1 m2 m3 : seqs_rel R m1 m2 -> seqs_rel R m2 m3 -> seqs_rel R m1 m3.
Proof.
  intros H12 H23 id. specialize (H12 id). specialize (H23 id).
  destruct H12; inversion H23; subst; constructor. by etrans.
Qed.

Lemma seqs_rel_fields R `{!Reflexive R} m m' : im_seqs m' = im_seqs m -> seqs_rel R m m'.
Proof. intros Hs id. rewrite Hs. by destruct (im_seqs m !! id); constructor. Qed.

Lemma seqs_rel_impl (R R' : Seq -> Seq -> Prop) m m' :
  (forall s s', R s s' -> R' s s') -> seqs_rel R m m' -> seqs_rel R' m m'.
Proof. intros Hi H id. specialize (H id). destruct H; constructor. by apply Hi. Qed.

Lemma seqs_rel_lookup R m m' id s :
  seqs_rel R m m' -> im_seqs m !! id = Some s -> exists s', im_seqs m' !! id = Some s' /\ R s s'.
Proof. intros H Hs. specialize (H id). rewrite Hs in H. inversion H; subst; eauto. Qed.

Lemma seqs_rel_lookup_r R m m' id s' :
  seqs_rel R m m' -> im_seqs m' !! id = Some s' -> exists s, im_seqs m !! id = Some s /\ R s s'.
Proof. intros H Hs. specialize (H id). rewrite Hs in H. inversion H; subst; eauto. Qed.

Lemma sq_trans m1 m2 m3 : seqs_rel seq_quiet m1 m2 -> seqs_rel seq_quiet m2 m3 -> seqs_rel seq_quiet m1 m3.
Proof. apply seqs_rel_trans, _. Qed.
Lemma sq_fields m m' : im_seqs m' = im_seqs m -> seqs_rel seq_quiet m m'.
Proof. apply seqs_rel_fields, _. Qed.

Lemma quiet_rel m m' : quiet m m' -> seqs_rel seq_quiet m m'.
Proof. by intros [H _]. Qed.

(** What a finalized receipt does to the fabric. *)
Record finalized (rec : MemberReceipt) (m m' : Impl) : Prop := {
  fz_seqs : exists fin, seqs_rel seq_quiet (upd_seq (rc_sequence rec) (commit_seq rec fin) m) m';
  fz_grant : forall s', im_seqs m' !! rc_sequence rec = Some s' -> grant_view s' = None;
  fz_view : ledger_view m' =
    (im_cfg m, alter (fun gr => gr <| gr_status := 1 |> <| gr_receipt := Some rec |>) (rc_grant_id rec) (im_grant_ledger m),
     im_next_grant m, im_receipt_count m +64 1, im_req_to_seq m, im_next_seq m,
     (st_decode_steps (im_stats m) +64 1, st_generated_tokens (im_stats m) +64 1, st_requests_admitted (im_stats m)));
}.

Lemma count_step_fields rec fin prev st :
  st_decode_steps (count_step rec fin prev st) = st_decode_steps st +64 1 /\
  st_generated_tokens (count_step rec fin prev st) = st_generated_tokens st +64 1 /\
  st_requests_admitted (count_step rec fin prev st) = st_requests_admitted st.
Proof. unfold count_step. cbv zeta. case_match; rsimpl; done. Qed.

Lemma quiet_settle_step rec fin s m0 m : quiet m0 m -> quiet m0 (settle_step rec fin s m).
Proof. intros H. unfold settle_step. cbv zeta. quiet_walk. Qed.

Lemma grant_view_dropped m seq g p :
  forall s', im_seqs (upd_seq seq (fun s => s <| s_has_inflight_grant := false |> <| s_in_flight_grant := g |>
      <| s_in_flight_proposal := p |>) m) !! seq = Some s' -> grant_view s' = None.
Proof.
  intros s'. rewrite lookup_upd_seq, decide_True by done.
  destruct (im_seqs m !! seq) as [s|]; [|done]. intros [= <-]. unfold grant_view. by rsimpl.
Qed.

Lemma close_transaction_spec rec rid m :
  let m' := close_transaction rec rid m in
  seqs_rel seq_quiet m m' /\
  (forall s', im_seqs m' !! rc_sequence rec = Some s' -> grant_view s' = None) /\
  ledger_view m' =
    (im_cfg m, alter (fun gr => gr <| gr_status := 1 |> <| gr_receipt := Some rec |>) (rc_grant_id rec) (im_grant_ledger m),
     im_next_grant m, im_receipt_count m +64 1, im_req_to_seq m, im_next_seq m,
     (st_decode_steps (im_stats m), st_generated_tokens (im_stats m), st_requests_admitted (im_stats m))).
Proof.
  unfold close_transaction. cbv zeta.
  set (seq := rc_sequence rec).
  set (m1 := upd im_grant_ledger _ m).
  set (m2 := release seq (upd_seq seq _ m1)).
  assert (Q2 : quiet m1 m2) by (subst m2; auto 10 with quiet).
  set (m3 := upd_seq seq (fun s => s <| s_has_inflight_grant := false |> <| s_in_flight_grant := null_id |>
                                     <| s_in_flight_proposal := null_id |>) m2).
  assert (Q3 : quiet m2 m3).
  { apply quiet_upd_seq. intros s _. split; unfold committed_view, grant_view; rsimpl; auto; reflexivity. }
  set (m4 := upd im_receipt_count _ m3).
  destruct (record_event_fields EventKind.ReservationReleased rid seq "receipt_consumed" m4) as (Hs & Hv & _).
  split_and!.
  - apply (sq_trans m m1); [by apply sq_fields|]. apply (sq_trans m1 m2); [apply quiet_rel, Q2|].
    apply (sq_trans m2 m3); [apply quiet_rel, Q3|]. apply sq_fields. by rewrite Hs.
  - intros s'. rewrite Hs. apply (grant_view_dropped m2 seq null_id null_id).
  - rewrite Hv. pose proof (q_view _ _ Q3) as V3. pose proof (q_view _ _ Q2) as V2.
    rewrite V2 in V3. unfold ledger_view in V3 |- *. subst m4 m1. rsimpl. rsimpl in V3.
    clear -V3. simplify_eq/=. congruence.
Qed.

Lemma finalize_spec rec s m :
  im_seqs m !! rc_sequence rec = Some s -> finalized rec m (finalize_receipt rec s m).
Proof.
  intros Hs. unfold finalize_receipt. cbv zeta.
  assert (exists fin m1, (if negb (rc_committed_at rec =? 0) then (rc_committed_at rec, m) else now m) = (fin, m1)
    /\ im_seqs m1 = im_seqs m /\ ledger_view m1 = ledger_view m) as (fin & m1 & -> & Hs1 & Hv1)
    by (case_match; eexists _, _; split_and!; done).
  set (m2 := upd im_stats _ (upd_seq _ _ m1)).
  set (m4 := settle_step rec fin _ _).
  assert (Q : quiet m2 m4).
  { subst m4. apply quiet_settle_step, quiet_record_event, quiet_update_tenant_tokens. reflexivity. }
  assert (Hs2 : im_seqs m2 = im_seqs (upd_seq (rc_sequence rec) (commit_seq rec fin) m))
    by (subst m2; unfold upd_seq; rsimpl; by rewrite Hs1).
  destruct (close_transaction_spec rec (rq_id (s_req s)) m4) as (Cs & Cg & Cv). split.
  - exists fin. eapply sq_trans; [|exact Cs]. apply (sq_trans _ m2); [by apply sq_fields|]. by apply quiet_rel.
  - exact Cg.
  - rewrite Cv. pose proof (q_view _ _ Q) as Vq.
    assert (V2 : ledger_view m2 = (im_cfg m, im_grant_ledger m, im_next_grant m, im_receipt_count m, im_req_to_seq m,
      im_next_seq m, (st_decode_steps (im_stats m) +64 1, st_generated_tokens (im_stats m) +64 1,
      st_requests_admitted (im_stats m)))).
    { subst m2. unfold ledger_view, upd_seq. rsimpl.
      destruct (count_step_fields rec fin (s_last_token_at s) (im_stats m1)) as (-> & -> & ->).
      unfold ledger_view in Hv1. clear -Hv1. simplify_eq/=. congruence. }
    rewrite V2 in Vq. unfold ledger_view in Vq. clear -Vq. simplify_eq/=. congruence.
Qed.

(** ** The protocol: five kinds of transition

    [micro] is the specification the operations implement: bookkeeping, a new
    sequence, a grant issued to a member whose authority is current and whose
    binding is sound, a pending grant aborted, a pending grant consumed by the
    receipt it asked for. *)

Inductive micro : Impl -> Impl -> Prop :=
  | micro_quiet m m' : quiet m m' -> micro m m'
  | micro_submit m m' id req :
      im_seqs m !! id = None -> im_seqs m' = <[id := admitted_seq req]> (im_seqs m) ->
      (im_grant_ledger m', im_next_grant m', im_receipt_count m', st_decode_steps (im_stats m'),
       st_generated_tokens (im_stats m')) =
      (im_grant_ledger m, im_next_grant m, im_receipt_count m, st_decode_steps (im_stats m),
       st_generated_tokens (im_stats m)) ->
      rq_pregenerated req <= rq_max_generation_length req -> micro m m'
  | micro_grant m prepared pm s :
      im_seqs m !! pm_sequence pm = Some s -> stale_authority pm s m = None ->
      is_commit_eligible pm = true -> binding_error pm s = None ->
      micro m (issue_grant prepared pm m).2
  | micro_abort m m' id s gr :
      im_seqs m !! id = Some s -> s_has_inflight_grant s = true ->
      im_grant_ledger m !! s_in_flight_grant s = Some gr -> gr_status gr = 0 ->
      seqs_rel seq_quiet m m' -> (forall s', im_seqs m' !! id = Some s' -> grant_view s' = None) ->
      ledger_view m' = ledger_view (m <| im_grant_ledger ::= <[s_in_flight_grant s := gr <| gr_status := 2 |>]> |>) ->
      micro m m'
  | micro_receipt m m' rec gr :
      im_grant_ledger m !! rc_grant_id rec = Some gr -> gr_status gr <> 1 -> gr_status gr <> 2 ->
      receipt_error rec (gr_grant gr) m = None -> finalized rec m m' -> micro m m'.

Definition protocol : relation Impl := rtc micro.
#[global] Instance protocol_preorder : PreOrder protocol.
Proof. unfold protocol. apply _. Qed.

Lemma protocol_quiet m m' : quiet m m' -> protocol m m'.
Proof. intros H. by apply rtc_once, micro_quiet. Qed.

Lemma apply_receipt_protocol m rec : protocol m (apply_receipt m rec).
Proof.
  unfold apply_receipt. cbv zeta.
  destruct (im_grant_ledger m !! rc_grant_id rec) as [gr|] eqn:Hg; [|apply protocol_quiet; auto with quiet].
  destruct (Z.eqb_spec (gr_status gr) 1) as [|H1].
  { apply protocol_quiet. repeat case_match; auto with quiet. }
  destruct (Z.eqb_spec (gr_status gr) 2) as [|H2]; [apply protocol_quiet; auto with quiet|].
  destruct (receipt_error rec (gr_grant gr) m) as [[rid d]|] eqn:He; [apply protocol_quiet; auto with quiet|].
  destruct (im_seqs m !! rc_sequence rec) as [s|] eqn:Hs; [|reflexivity].
  apply rtc_once. eapply micro_receipt; eauto using finalize_spec.
Qed.

Lemma receipts_protocol r m : protocol m (apply_commit_receipt r m).2.
Proof.
  unfold apply_commit_receipt. cbn [snd].
  transitivity (foldl apply_receipt m (rd_receipts r)); [|apply protocol_quiet; auto with quiet].
  apply (foldl_rel protocol). apply apply_receipt_protocol.
Qed.

Lemma authorize_member_protocol prepared acc pm : protocol acc.2 (authorize_member prepared acc pm).2.
Proof.
  destruct acc as [out m]. cbn [snd]. unfold authorize_member. cbv zeta.
  destruct (im_seqs m !! pm_sequence pm) as [s|] eqn:Hs; [|cbn [snd]; apply protocol_quiet; auto with quiet].
  destruct (stale_authority pm s m) as [[[code d] reason]|] eqn:Ha;
    [cbn [snd]; apply protocol_quiet; auto 10 with quiet|].
  destruct (is_commit_eligible pm) eqn:He; cbn [negb];
    [|cbn [snd]; apply protocol_quiet; auto 10 with quiet].
  destruct (s_has_accepted s && _); [cbn [snd]; apply protocol_quiet; auto 10 with quiet|].
  destruct (binding_error pm s) as [[code reason]|] eqn:Hb; [cbn [snd]; apply protocol_quiet; auto 10 with quiet|].
  pose proof (micro_grant m prepared pm s Hs Ha He Hb) as Hg.
  destruct (issue_grant prepared pm m) as [g m1]. cbn [snd] in *.
  eapply rtc_l; [exact Hg|]. apply protocol_quiet. auto with quiet.
Qed.

Lemma authorize_protocol p m : protocol m (authorize_prepared p m).2.
Proof.
  unfold authorize_prepared.
  assert (K : forall l acc, protocol acc.2 (foldl (authorize_member p) acc l).2).
  { induction l as [|pm l IH]; intros acc; [reflexivity|]. cbn [foldl].
    etrans; [apply authorize_member_protocol|apply IH]. }
  specialize (K (pd_members p) ([], m)). by destruct (foldl _ _ _).
Qed.

Lemma abort_protocol a m : protocol m (abort_prepared a m).2.
Proof.
  unfold abort_prepared. cbv zeta. set (seq := ab_sequence a).
  destruct (im_seqs m !! seq) as [s|] eqn:Hs; [|reflexivity].
  destruct (s_has_inflight_grant s) eqn:Hg; [|reflexivity].
  destruct (id_eqb (s_in_flight_proposal s) (ab_proposal a)); [|reflexivity]. cbn [andb snd].
  set (f := fun s : Seq => s <| s_has_inflight_grant := false |> <| s_in_flight_grant := null_id |>
              <| s_in_flight_proposal := null_id |> <| s_in_flight_position := 0 |> <| s_has_inflight := false |>).
  set (m1 := upd im_grant_ledger _ m). set (m2 := upd_seq seq f m1).
  assert (Hf : forall x, seq_quiet x (f x)).
  { intros x. subst f. split; unfold committed_view, grant_view; rsimpl; auto; reflexivity. }
  assert (Q2 : quiet m1 m2) by (apply quiet_upd_seq; auto).
  transitivity m2.
  - destruct (im_grant_ledger m !! s_in_flight_grant s) as [gr|] eqn:Hl;
      [destruct (Z.eqb_spec (gr_status gr) 0) as [H0|H0]|].
    + apply rtc_once. apply (micro_abort m m2 seq s gr); auto.
      * apply (sq_trans m m1); [by apply sq_fields|by apply quiet_rel].
      * intros s'. subst m2. rewrite lookup_upd_seq, decide_True by done. subst m1. rsimpl. rewrite Hs.
        intros [= <-]. unfold grant_view. subst f. by rsimpl.
      * rewrite (q_view _ _ Q2). subst m1. unfold ledger_view. rsimpl. do 6 f_equal.
        rewrite (alter_some _ _ _ gr) by done. by rewrite (proj2 (Z.eqb_eq _ _) H0).
    + apply protocol_quiet. etrans; [|exact Q2]. apply quiet_same; [done|].
      subst m1. unfold ledger_view. rsimpl. do 6 f_equal.
      rewrite (alter_some _ _ _ gr) by done. apply Z.eqb_neq in H0 as ->. by apply insert_id.
    + apply protocol_quiet. etrans; [|exact Q2]. apply quiet_same; [done|].
      subst m1. unfold ledger_view. rsimpl. do 6 f_equal. by apply alter_none.
  - apply protocol_quiet. apply quiet_record_event. case_match; auto 10 with quiet.
Qed.

Lemma quiet_build_key req m : quiet m (build_key req m).2.
Proof. unfold build_key. destruct (rq_arrival req =? 0); [apply (quiet_now m)|reflexivity]. Qed.

(** The state updates of an admission, before its event. *)
Lemma admit_protocol req id m :
  let m' := m >>> upd im_seqs (fun seqs => if bool_decide (is_Some (seqs !! id)) then seqs
                                           else <[id := admitted_seq req]> seqs)
              >>> upd im_req_to_seq <[rq_id req := id]>
              >>> bump st_requests_admitted >>> bump st_sequences_started
              >>> upd im_tenant_active (fun ta => <[rq_tenant req := wrap 32 (default 0 (ta !! rq_tenant req) + 1)]> ta) in
  bool_decide (is_Some (im_seqs m !! id)) = false -> rq_pregenerated req <= rq_max_generation_length req -> protocol m m'.
Proof.
  intros m' Hid Hpre. apply rtc_once. apply (micro_submit m m' id req).
  - apply bool_decide_eq_false in Hid. by apply eq_None_not_Some.
  - subst m'. unfold bump. rsimpl. by rewrite Hid.
  - subst m'. unfold bump. by rsimpl.
  - done.
Qed.

Lemma validate_pregenerated req u : validate req = Ok u -> rq_pregenerated req <= rq_max_generation_length req.
Proof.
  unfold validate. destruct (negb _); [done|]. destruct (_ =? 0); [done|].
  destruct (Z.gtb_spec (rq_pregenerated req) (rq_max_generation_length req)); [done|lia].
Qed.

Lemma submit_protocol req m : is_valid (rq_sequence req) = true -> protocol m (submit req m).2.
Proof.
  intros Hv. unfold submit. cbv zeta.
  destruct (validate req) as [u|e] eqn:Hval; [|cbn [snd]; apply protocol_quiet; auto with quiet].
  pose proof (quiet_build_key req m) as Hk. apply validate_pregenerated in Hval.
  assert (rq_sequence (build_key req m).1 = rq_sequence req /\
    rq_pregenerated (build_key req m).1 <= rq_max_generation_length (build_key req m).1) as [Hseq Hpre].
  { unfold build_key. by destruct (rq_arrival req =? 0). }
  destruct (build_key req m) as [req' m1]. cbn [fst snd] in Hk, Hseq, Hpre.
  etrans; [apply protocol_quiet, Hk|]. rewrite Hseq, Hv. cbn [andb].
  destruct (negb (is_valid (rq_model req'))); [cbn [snd]; apply protocol_quiet; auto with quiet|].
  destruct (backpressure req' m1); [cbn [snd]; apply protocol_quiet; auto with quiet|].
  destruct (bool_decide (is_Some (im_seqs m1 !! rq_sequence req))) eqn:Hd;
    [cbn [snd]; apply protocol_quiet; auto with quiet|]. cbn [snd].
  etrans; [by apply (admit_protocol req' (rq_sequence req))|]. apply protocol_quiet. auto with quiet.
Qed.

(** A request whose validation fails changes bookkeeping only; a validated one names its sequence. *)
Lemma submit_protocol_any req m : protocol m (submit req m).2.
Proof.
  destruct (is_valid (rq_sequence req)) eqn:Hv; [by apply submit_protocol|].
  unfold submit. cbv zeta. assert (exists e, validate req = Err e) as [e ->].
  { unfold validate, valid_request_id. rewrite Hv, andb_false_r. cbn. eauto. }
  cbn [snd]. apply protocol_quiet. auto with quiet.
Qed.

Lemma step_protocol_lemma m op : protocol m (step m op).
Proof.
  destruct op; cbn [step];
    auto using submit_protocol_any, authorize_protocol, receipts_protocol, abort_protocol;
    apply protocol_quiet; auto using quiet_cancel, quiet_cancel_request, quiet_retry, quiet_register_worker,
      quiet_mark_worker_dead, quiet_roll_epoch, quiet_advance, quiet_schedule, quiet_apply_completion.
Qed.

Lemma run_protocol m ops : protocol m (run m ops).
Proof. apply (foldl_rel protocol), step_protocol_lemma. Qed.

End invariants.

#[export] Hint Resolve quiet_reject_stale quiet_settle_step : quiet.
