(* ===== verification/ProtocolInvariants.v ===== *)
(** * Invariants of the commit protocol

    Proved by rule induction on [micro], so they hold along every execution of
    the fabric's operations.  The only side condition is that fewer than 2^64 - 1
    grants have been issued, so that the 64-bit grant counter has not wrapped. *)

From S2P Require Import Prelude Enums Errors Token StateMachine Ids Compatibility Types Double FabricState FabricFrame FabricOps Schedule Transaction FabricInvariants.

(** [n] increments of a 64-bit counter. *)
Definition incr (n : nat) (x : Z) : Z := Nat.iter n (fun c => c +64 1) x.

Lemma incr_S n x : incr (S n) x = incr n x +64 1.
Proof. done. Qed.

Lemma incr_exact n x : 0 <= x -> x + Z.of_nat n < 2 ^ 64 -> incr n x = x + Z.of_nat n.
Proof.
  intros Hx. induction n as [|n IH]; intros Hn; [cbn; lia|].
  rewrite incr_S, IH by lia. rewrite wrap_id_small by lia. lia.
Qed.

(** Grants consumed by receipts: those of one sequence, and all of them. *)
Definition consumed_of (id : SequenceId) (gr : GrantRecord) : bool :=
  (gr_status gr =? 1) && id_eqb (g_sequence (gr_grant gr)) id.
Definition consumed (id : SequenceId) (m : Impl) : nat := count_entries (consumed_of id) (im_grant_ledger m).
Definition consumed_all (m : Impl) : nat := count_entries (fun gr => gr_status gr =? 1) (im_grant_ledger m).

(** Fewer grants than the counter can number. *)
Definition bounded (m : Impl) : Prop := Z.of_nat (size (im_grant_ledger m)) < 2 ^ 64 - 1.

(** The grant a sequence has in flight is pending, its own, and continues its committed state. *)
Definition grant_sound (m : Impl) (id : SequenceId) (s : Seq) : Prop :=
  s_has_inflight_grant s = true ->
  exists gr, im_grant_ledger m !! s_in_flight_grant s = Some gr /\ gr_status gr = 0 /\
    g_sequence (gr_grant gr) = id /\ g_proposal (gr_grant gr) = s_in_flight_proposal s /\
    g_committed_position (gr_grant gr) = s_generated s /\
    (s_state_digest_established s = true -> g_pre_state_digest (gr_grant gr) = s_committed_state_digest s).

(** The request's token counts are 64-bit numbers and leave room for the tokens generated. *)
Definition lengths_in_range (m : Impl) (id : SequenceId) (s : Seq) : Prop :=
  0 <= rq_pregenerated (s_req s) /\ in_range 64 (rq_max_generation_length (s_req s)) = true /\
  rq_pregenerated (s_req s) + Z.of_nat (consumed id m) < 2 ^ 64.

Record seq_inv (m : Impl) (id : SequenceId) (s : Seq) : Prop := {
  si_generated : s_generated s = s_committed s;
  si_generation : s_generation s = incr (consumed id m) 1;
  si_committed : s_committed s = incr (consumed id m) (Z.max 0 (rq_pregenerated (s_req s)));
  si_length : s_current_length s =
    incr (consumed id m) (rq_prompt_length (s_req s) +64 Z.max 0 (rq_pregenerated (s_req s)));
  si_accepted : s_has_accepted s = s_state_digest_established s;
  si_digest : s_has_accepted s = true -> ac_post_state_digest (s_accepted s) = s_committed_state_digest s;
  si_grant : grant_sound m id s;
  si_request : rq_pregenerated (s_req s) <= rq_max_generation_length (s_req s);
  si_budget : lengths_in_range m id s -> budget_matches s;
}.

Record grant_inv (m : Impl) (gid : GrantId) (gr : GrantRecord) : Prop := {
  gi_id : g_grant_id (gr_grant gr) = gid;
  gi_range : 1 <= id_value gid <= Z.of_nat (size (im_grant_ledger m));
  gi_status : gr_status gr = 0 \/ gr_status gr = 1 \/ gr_status gr = 2;
  gi_receipt : gr_status gr = 1 -> exists rec, gr_receipt gr = Some rec /\ receipt_fits rec (gr_grant gr) = true;
  gi_seq : is_Some (im_seqs m !! g_sequence (gr_grant gr));
}.

Record Inv (m : Impl) : Prop := {
  inv_seqs : map_Forall (seq_inv m) (im_seqs m);
  inv_ledger : map_Forall (grant_inv m) (im_grant_ledger m);
  inv_next : im_next_grant m = Z.of_nat (size (im_grant_ledger m)) + 1;
  inv_receipts : im_receipt_count m = incr (consumed_all m) 0;
  inv_steps : st_decode_steps (im_stats m) = incr (consumed_all m) 0;
  inv_tokens : st_generated_tokens (im_stats m) = incr (consumed_all m) 0;
}.

Section preservation.
Context {CLK : Clock} {ORD : MapOrder}.
Implicit Types (m : Impl) (id : SequenceId).

Lemma ledger_view_fields m m' :
  ledger_view m' = ledger_view m ->
  im_grant_ledger m' = im_grant_ledger m /\ im_next_grant m' = im_next_grant m /\
  im_receipt_count m' = im_receipt_count m /\ st_decode_steps (im_stats m') = st_decode_steps (im_stats m) /\
  st_generated_tokens (im_stats m') = st_generated_tokens (im_stats m).
Proof. unfold ledger_view. intros H. simplify_eq/=. split_and!; congruence. Qed.

Lemma committed_view_fields s s' :
  committed_view s' = committed_view s ->
  s_req s' = s_req s /\ s_committed s' = s_committed s /\ s_generation s' = s_generation s /\
  s_current_length s' = s_current_length s /\ s_committed_state_digest s' = s_committed_state_digest s /\
  s_state_digest_established s' = s_state_digest_established s /\ s_accepted s' = s_accepted s /\
  s_has_accepted s' = s_has_accepted s.
Proof. unfold committed_view. intros H. simplify_eq/=. split_and!; congruence. Qed.

Lemma grant_view_some s g p pos :
  grant_view s = Some (g, p, pos) <->
  s_has_inflight_grant s = true /\ s_in_flight_grant s = g /\ s_in_flight_proposal s = p /\ s_in_flight_position s = pos.
Proof. unfold grant_view. destruct (s_has_inflight_grant s); split; [by intros [= -> -> ->]|by intros (_ & -> & -> & ->)|done|by intros [? _]]. Qed.

Lemma grant_view_none s : grant_view s = None <-> s_has_inflight_grant s = false.
Proof. unfold grant_view. by destruct (s_has_inflight_grant s). Qed.

(** A quiet change of a sequence keeps its invariant, if the ledger entries it relies on are kept. *)
Lemma seq_inv_quiet m m' id s s' :
  seq_quiet s s' -> consumed id m' = consumed id m ->
  (s_has_inflight_grant s' = true ->
     im_grant_ledger m' !! s_in_flight_grant s = im_grant_ledger m !! s_in_flight_grant s) ->
  seq_inv m id s -> seq_inv m' id s'.
Proof.
  intros Hq Hc Hl [Hg Hn Hcm Hln Ha Hd Hgr Hrq Hbd].
  destruct (committed_view_fields s s' (sq_view _ _ Hq)) as (R1 & R2 & R3 & R4 & R5 & R6 & R7 & R8).
  pose proof (sq_generated _ _ Hq Hg) as R9. split; try congruence.
  - intros H. rewrite R7, R5. apply Hd. by rewrite <- R8.
  - intros Hi. destruct (sq_grant _ _ Hq) as [He|He]; [|apply grant_view_none in He; congruence].
    assert (grant_view s' = Some (s_in_flight_grant s', s_in_flight_proposal s', s_in_flight_position s')) as Hv
      by (unfold grant_view; by rewrite Hi).
    rewrite Hv in He. symmetry in He. apply grant_view_some in He as (Hi0 & Hg0 & Hp0 & _).
    destruct (Hgr Hi0) as (gr & G1 & G2 & G3 & G4 & G5 & G6). exists gr.
    rewrite <- Hg0, Hl by done. split_and!; try congruence. intros He. rewrite R5. apply G6. by rewrite <- R6.
  - intros Hr. unfold lengths_in_range in *. rewrite R1, Hc in Hr. specialize (Hbd Hr).
    unfold budget_matches in *. by rewrite (sq_budget _ _ Hq Hbd), R1, R2.
Qed.

Lemma grant_inv_seqs m m' gid gr :
  size (im_grant_ledger m') = size (im_grant_ledger m) ->
  (forall id, is_Some (im_seqs m !! id) -> is_Some (im_seqs m' !! id)) ->
  grant_inv m gid gr -> grant_inv m' gid gr.
Proof. intros Hs Hk [H1 H2 H3 H4 H5]. split; auto. by rewrite Hs. Qed.

Lemma seqs_rel_is_Some R m m' id : seqs_rel R m m' -> is_Some (im_seqs m !! id) -> is_Some (im_seqs m' !! id).
Proof. intros H [s Hs]. destruct (seqs_rel_lookup R m m' id s H Hs) as (s' & -> & _). done. Qed.

Lemma Inv_quiet m m' : quiet m m' -> Inv m -> Inv m'.
Proof.
  intros Hq [I1 I2 I3 I4 I5 I6].
  destruct (ledger_view_fields m m' (q_view _ _ Hq)) as (L1 & L2 & L3 & L4 & L5).
  assert (Hc : consumed_all m' = consumed_all m) by (unfold consumed_all; congruence).
  split; try congruence.
  - intros id s' Hs'. destruct (seqs_rel_lookup_r _ _ _ _ _ (quiet_rel _ _ Hq) Hs') as (s & Hs & Hqs).
    apply (seq_inv_quiet m m' id s s' Hqs); [unfold consumed; congruence|congruence|by apply I1].
  - rewrite L1. intros gid gr Hg. apply (grant_inv_seqs m); [congruence| |by apply I2].
    intros id. apply (seqs_rel_is_Some seq_quiet), quiet_rel, Hq.
Qed.

(** A fresh sequence has no grants, consumed or otherwise. *)
Lemma consumed_fresh m id : Inv m -> im_seqs m !! id = None -> consumed id m = 0%nat.
Proof.
  intros HI Hn. unfold consumed, count_entries. apply map_size_empty_iff.
  apply map_empty_filter_2. intros gid gr Hg. unfold consumed_of. cbn.
  destruct (gi_seq _ _ _ (inv_ledger m HI gid gr Hg)) as [s Hs].
  destruct (id_eqb (g_sequence (gr_grant gr)) id) eqn:E; [|by rewrite andb_false_r].
  apply id_eqb_eq in E. congruence.
Qed.

Lemma admitted_seq_inv m id req :
  consumed id m = 0%nat -> rq_pregenerated req <= rq_max_generation_length req -> seq_inv m id (admitted_seq req).
Proof.
  intros Hc Hpre. unfold admitted_seq. cbv zeta.
  destruct (Z.gtb_spec (rq_pregenerated req) 0); split; rewrite ?Hc; unfold grant_sound, lengths_in_range, budget_matches; rsimpl; try done.
  - cbn. lia.
  - cbn. by rewrite Z.max_r by lia.
  - intros (H0 & Hm & _). by apply tb_advance_new.
  - cbn. lia.
  - cbn. by rewrite Z.max_l by lia.
Qed.

Lemma Inv_submit m m' id req :
  rq_pregenerated req <= rq_max_generation_length req ->
  im_seqs m !! id = None -> im_seqs m' = <[id := admitted_seq req]> (im_seqs m) ->
  (im_grant_ledger m', im_next_grant m', im_receipt_count m', st_decode_steps (im_stats m'),
   st_generated_tokens (im_stats m')) =
  (im_grant_ledger m, im_next_grant m, im_receipt_count m, st_decode_steps (im_stats m),
   st_generated_tokens (im_stats m)) -> Inv m -> Inv m'.
Proof.
  intros Hpre Hn Hs [= L1 L2 L3 L4 L5] HI. pose proof HI as [I1 I2 I3 I4 I5 I6].
  assert (Hc : forall i, consumed i m' = consumed i m) by (intros; unfold consumed; congruence).
  assert (Hca : consumed_all m' = consumed_all m) by (unfold consumed_all; congruence).
  split; try congruence.
  - rewrite Hs. apply map_Forall_insert_2.
    + apply admitted_seq_inv; [|done]. rewrite Hc. by apply consumed_fresh.
    + intros i s Hi. apply (seq_inv_quiet m m' i s s); [reflexivity|apply Hc|congruence|by apply I1].
  - rewrite L1. intros gid gr Hg. apply (grant_inv_seqs m); [congruence| |by apply I2].
    intros i Hi. rewrite Hs. destruct (decide (i = id)) as [->|Hd]; [by rewrite lookup_insert_eq|by rewrite lookup_insert_ne].
Qed.

(** ** Issuing a grant *)

Lemma fresh_grant m : Inv m -> im_grant_ledger m !! (mkId (im_next_grant m)) = None.
Proof.
  intros HI. destruct (im_grant_ledger m !! mkId (im_next_grant m)) as [gr|] eqn:E; [|done].
  pose proof (gi_range _ _ _ (inv_ledger m HI _ _ E)) as Hr. cbn in Hr. rewrite (inv_next m HI) in Hr. lia.
Qed.

Lemma binding_error_none pm s :
  binding_error pm s = None ->
  s_has_inflight_grant s = false /\ pm_committed_position_before pm = s_generated s /\
  (s_state_digest_established s = true -> pm_pre_state_digest pm = s_committed_state_digest s).
Proof.
  unfold binding_error. destruct (s_has_inflight_grant s); [done|].
  destruct (Z.eqb_spec (pm_committed_position_before pm) (s_generated s)); [|done].
  destruct (s_state_digest_established s); cbn; [|done].
  destruct (Z.eqb_spec (pm_pre_state_digest pm) (s_committed_state_digest s)); done.
Qed.

Lemma issue_grant_fields prepared pm m :
  let gid := mkId (im_next_grant m) in
  let m' := (issue_grant prepared pm m).2 in
  im_grant_ledger m' = <[gid := mkGrantRecord (grant_for prepared pm gid) 0 None]> (im_grant_ledger m) /\
  im_next_grant m' = im_next_grant m +64 1 /\ im_receipt_count m' = im_receipt_count m /\
  im_stats m' = im_stats m /\ im_epoch m' = im_epoch m /\
  im_seqs m' = alter (fun s => s <| s_in_flight_grant := gid |> <| s_has_inflight_grant := true |>
              <| s_in_flight_proposal := pm_proposal pm |>
              <| s_in_flight_position := pm_committed_position_before pm |>) (pm_sequence pm) (im_seqs m).
Proof. cbn [issue_grant snd]. unfold issue_grant, upd_seq. cbn [snd]. by rsimpl. Qed.

Lemma Inv_grant m prepared pm s :
  im_seqs m !! pm_sequence pm = Some s -> binding_error pm s = None ->
  bounded (issue_grant prepared pm m).2 -> Inv m -> Inv (issue_grant prepared pm m).2.
Proof.
  intros Hs Hb Hbd HI. pose proof HI as [I1 I2 I3 I4 I5 I6].
  destruct (issue_grant_fields prepared pm m) as (L & N & R & St & _ & Sq). unfold bounded in Hbd.
  set (m' := (issue_grant prepared pm m).2) in *. clearbody m'.
  set (gid := mkId (im_next_grant m) : GrantId) in *.
  pose proof (fresh_grant m HI) as Hf. fold gid in Hf.
  assert (Hsz : size (im_grant_ledger m') = S (size (im_grant_ledger m))) by (rewrite L; by apply map_size_insert_None).
  assert (Hc : forall i, consumed i m' = consumed i m)
    by (intros; unfold consumed; rewrite L; by rewrite count_entries_insert_new).
  assert (Hca : consumed_all m' = consumed_all m) by (unfold consumed_all; rewrite L; by rewrite count_entries_insert_new).
  apply binding_error_none in Hb as (B1 & B2 & B3). split; try congruence.
  - rewrite Sq, (alter_some _ _ _ s) by done. apply map_Forall_insert_2.
    + destruct (I1 _ _ Hs) as [H1 H2 H3 H4 H5 H6 H7 H8 H9]. split; unfold lengths_in_range; rewrite ?Hc; rsimpl; try done.
      intros _. rsimpl. rewrite L, lookup_insert_eq. eexists. split; [done|]. by cbn.
    + intros i x Hi. apply (seq_inv_quiet m m' i x x); [reflexivity|apply Hc| |by apply I1].
      intros Hx. rewrite L. destruct (si_grant _ _ _ (I1 _ _ Hi) Hx) as (gr & Hgr & _).
      rewrite lookup_insert_ne; [done|congruence].
  - rewrite L. apply map_Forall_insert_2.
    + split; cbn; [done|rewrite Hsz, I3; lia|by left|done|].
      rewrite Sq, lookup_alter_eq, Hs. by eexists.
    + intros g gr Hg. destruct (I2 g gr Hg) as [H1 H2 H3 H4 H5]. split; [done|rewrite Hsz; lia|done|done|].
      rewrite Sq. destruct (decide (g_sequence (gr_grant gr) = pm_sequence pm)) as [->|Hd];
        [rewrite lookup_alter_eq, Hs; by eexists|by rewrite lookup_alter_ne].
  - rewrite N, I3, Hsz. rewrite wrap_id_small by lia. lia.
Qed.

(** ** Closing a grant *)

(** Two sequences never have the same grant in flight. *)
Lemma grant_not_shared m id id' s s' :
  Inv m -> im_seqs m !! id = Some s -> im_seqs m !! id' = Some s' -> id <> id' ->
  s_has_inflight_grant s = true -> s_has_inflight_grant s' = true -> s_in_flight_grant s <> s_in_flight_grant s'.
Proof.
  intros HI Hs Hs' Hn Hg Hg' He.
  destruct (si_grant _ _ _ (inv_seqs m HI _ _ Hs) Hg) as (gr & L & _ & Q & _).
  destruct (si_grant _ _ _ (inv_seqs m HI _ _ Hs') Hg') as (gr' & L' & _ & Q' & _).
  rewrite He in L. congruence.
Qed.

Lemma Inv_abort m m' id s gr :
  im_seqs m !! id = Some s -> s_has_inflight_grant s = true ->
  im_grant_ledger m !! s_in_flight_grant s = Some gr -> gr_status gr = 0 ->
  seqs_rel seq_quiet m m' -> (forall s', im_seqs m' !! id = Some s' -> grant_view s' = None) ->
  ledger_view m' = ledger_view (m <| im_grant_ledger ::= <[s_in_flight_grant s := gr <| gr_status := 2 |>]> |>) ->
  Inv m -> Inv m'.
Proof.
  intros Hs Hg Hl H0 Hr Hd Hv HI. pose proof HI as [I1 I2 I3 I4 I5 I6].
  apply ledger_view_fields in Hv as (L1 & L2 & L3 & L4 & L5).
  rsimpl in L1. rsimpl in L2. rsimpl in L3. rsimpl in L4. rsimpl in L5.
  assert (Hsz : size (im_grant_ledger m') = size (im_grant_ledger m)) by (rewrite L1; eapply map_size_insert_Some; eauto).
  assert (Hc : forall i, consumed i m' = consumed i m).
  { intros i. unfold consumed. rewrite L1, (count_entries_update _ _ _ gr) by done.
    unfold consumed_of at 2 3. rsimpl. rewrite H0. cbn. lia. }
  assert (Hca : consumed_all m' = consumed_all m).
  { unfold consumed_all. rewrite L1, (count_entries_update _ _ _ gr) by done. rsimpl. rewrite H0. cbn. lia. }
  split; try congruence.
  - intros i s' Hs'. destruct (seqs_rel_lookup_r _ _ _ _ _ Hr Hs') as (s0 & Hs0 & Hq).
    apply (seq_inv_quiet m m' i s0 s' Hq (Hc i)); [|by apply I1]. intros Hi.
    rewrite L1. destruct (decide (i = id)) as [->|Hn].
    + specialize (Hd s' Hs'). apply grant_view_none in Hd. congruence.
    + apply lookup_insert_ne. apply (grant_not_shared m id i s s0); auto.
      destruct (sq_grant _ _ Hq) as [He|He]; [|apply grant_view_none in He; congruence].
      unfold grant_view in He. rewrite Hi in He. by destruct (s_has_inflight_grant s0).
  - rewrite L1. apply map_Forall_insert_2.
    + destruct (I2 _ _ Hl) as [H1 H2 H3 H4 H5]. split; rsimpl; [done|by rewrite Hsz|by right; right|done|].
      by apply (seqs_rel_is_Some seq_quiet m).
    + intros g gr' Hg'. apply (grant_inv_seqs m); [done| |by apply I2].
      intros j. by apply (seqs_rel_is_Some seq_quiet).
Qed.

(** What an accepted receipt establishes. *)
Record receipt_accepted (m : Impl) (rec : MemberReceipt) (gr : GrantRecord) (s : Seq) : Prop := {
  ra_fits : receipt_fits rec (gr_grant gr) = true;
  ra_seq : im_seqs m !! rc_sequence rec = Some s;
  ra_inflight : s_has_inflight_grant s = true;
  ra_grant : s_in_flight_grant s = rc_grant_id rec;
  ra_live : is_terminal (s_machine s) = false;
}.

Lemma receipt_error_none rec gr m :
  receipt_error rec (gr_grant gr) m = None -> exists s, receipt_accepted m rec gr s.
Proof.
  unfold receipt_error. destruct (receipt_fits rec (gr_grant gr)) eqn:Hf; [|done]. cbn [negb].
  destruct (im_seqs m !! rc_sequence rec) as [s|] eqn:Hs; [|done]. cbv zeta.
  destruct (s_has_inflight_grant s) eqn:Hg; [|done]. cbn [negb orb].
  destruct (id_eqb (s_in_flight_grant s) (rc_grant_id rec)) eqn:He; [|done]. cbn [negb orb].
  destruct (id_eqb (s_in_flight_proposal s) (rc_proposal rec)); [|done]. cbn [negb orb].
  destruct (is_terminal (s_machine s)) eqn:Ht; [done|]. intros _.
  exists s. split; auto. by apply id_eqb_eq.
Qed.

Lemma receipt_fits_fields rec g :
  receipt_fits rec g = true ->
  rc_grant_id rec = g_grant_id g /\ rc_sequence rec = g_sequence g /\ rc_attempt rec = g_attempt g /\
  rc_generation rec = g_generation g /\ rc_epoch rec = g_epoch g /\ rc_worker_boot rec = g_worker_boot g /\
  rc_dispatch rec = g_dispatch g /\
  rc_committed_position_before rec = g_committed_position g /\
  rc_pre_state_digest rec = g_pre_state_digest g /\ rc_post_state_digest rec = g_post_state_digest g.
Proof. unfold receipt_fits. rewrite !andb_true_iff, !id_eqb_eq, !Z.eqb_eq. tauto. Qed.

Lemma commit_seq_fields rec fin s :
  s_generated (commit_seq rec fin s) = s_generated s +64 1 /\ s_committed (commit_seq rec fin s) = s_committed s +64 1 /\
  s_generation (commit_seq rec fin s) = s_generation s +64 1 /\
  s_current_length (commit_seq rec fin s) = s_current_length s +64 1 /\
  s_req (commit_seq rec fin s) = s_req s /\ s_machine (commit_seq rec fin s) = s_machine s /\
  s_committed_state_digest (commit_seq rec fin s) = rc_post_state_digest rec /\
  s_state_digest_established (commit_seq rec fin s) = true /\
  s_accepted (commit_seq rec fin s) = make_accepted rec true /\ s_has_accepted (commit_seq rec fin s) = true /\
  grant_view (commit_seq rec fin s) = grant_view s.
Proof. unfold commit_seq, grant_view. rsimpl. split_and!; done. Qed.

Lemma budget_matches_commit rec fin s :
  0 <= s_committed s -> s_committed s + 1 < 2 ^ 64 -> budget_matches s -> budget_matches (commit_seq rec fin s).
Proof.
  intros H0 H1 Hb. unfold budget_matches, commit_seq in *. rsimpl. rewrite wrap_id_small by lia.
  by rewrite Hb, Z2Nat.inj_add, Nat.add_1_r by lia.
Qed.

Lemma Inv_receipt m m' rec gr :
  im_grant_ledger m !! rc_grant_id rec = Some gr -> gr_status gr <> 1 ->
  receipt_error rec (gr_grant gr) m = None -> finalized rec m m' -> Inv m -> Inv m'.
Proof.
  intros Hl Hn1 He [[fin Fs] Fg Fv] HI. pose proof HI as [I1 I2 I3 I4 I5 I6].
  apply receipt_error_none in He as [s [Hf Hs Hi Hgi Hlive]].
  destruct (receipt_fits_fields _ _ Hf) as (E1 & E2 & _).
  set (seq := rc_sequence rec) in *. set (gid := rc_grant_id rec) in *.
  rewrite (alter_some _ _ _ gr) in Fv by done.
  set (gr' := gr <| gr_status := 1 |> <| gr_receipt := Some rec |>) in *.
  unfold ledger_view in Fv. injection Fv as _ L1 L2 L3 _ _ L4 L5 _.
  assert (H0 : gr_status gr = 0).
  { destruct (si_grant _ _ _ (I1 _ _ Hs) Hi) as (g0 & Hg0 & Hst & _). rewrite Hgi in Hg0. congruence. }
  assert (Hsz : size (im_grant_ledger m') = size (im_grant_ledger m)) by (rewrite L1; eapply map_size_insert_Some; eauto).
  assert (Hseq : consumed seq m' = S (consumed seq m)).
  { unfold consumed. rewrite L1, (count_entries_update _ _ _ gr) by done. unfold consumed_of at 2 3. subst gr'. rsimpl.
    rewrite H0, <- E2, id_eqb_refl. cbn. lia. }
  assert (Hoth : forall i, i <> seq -> consumed i m' = consumed i m).
  { intros i Hni. unfold consumed. rewrite L1, (count_entries_update _ _ _ gr) by done. unfold consumed_of at 2 3.
    subst gr'. rsimpl. rewrite H0, <- E2. assert (id_eqb seq i = false) as -> by (apply id_eqb_neq; congruence). cbn. lia. }
  assert (Hca : consumed_all m' = S (consumed_all m)).
  { unfold consumed_all. rewrite L1, (count_entries_update _ _ _ gr) by done. subst gr'. rsimpl. rewrite H0. cbn. lia. }
  split; rewrite ?Hca, ?incr_S; try congruence.
  - intros i s' Hs'. destruct (seqs_rel_lookup_r _ _ _ _ _ Fs Hs') as (s0 & Hs0 & Hq).
    rewrite lookup_upd_seq in Hs0. destruct (decide (i = seq)) as [->|Hni].
    + rewrite Hs in Hs0. injection Hs0 as <-.
      assert (Hgv : grant_view s' = None) by by apply Fg. apply grant_view_none in Hgv.
      destruct (commit_seq_fields rec fin s) as (C1 & C2 & C3 & C4 & C5 & _ & C6 & C7 & C8 & C9 & _).
      destruct (committed_view_fields _ _ (sq_view _ _ Hq)) as (R1 & R2 & R3 & R4 & R5 & R6 & R7 & R8).
      destruct (I1 _ _ Hs) as [H1 H2 H3 H4 H5 H6 H7 H8 H9].
      assert (R9 : s_generated s' = s_generated (commit_seq rec fin s))
        by (apply (sq_generated _ _ Hq); congruence).
      split; rewrite ?Hseq, ?incr_S, ?R1, ?C5; try congruence.
      2:{ intros Hx. assert (Hm : budget_matches (commit_seq rec fin s)).
          { unfold lengths_in_range in *. rewrite Hseq, R1, C5, Nat2Z.inj_succ in Hx. destruct Hx as (X1 & X2 & X3).
            apply budget_matches_commit; [rewrite H3, incr_exact by lia; lia..|]. apply H9. split_and!; [done|done|lia]. }
          unfold budget_matches in *. by rewrite (sq_budget _ _ Hq Hm), R1, R2. }
      all: intros Hx; first [congruence | by rewrite R7, R5, C8, C6].
    + apply (seq_inv_quiet m m' i s0 s' Hq (Hoth i Hni)); [|by apply I1]. intros Hx.
      rewrite L1. apply lookup_insert_ne. subst gid. rewrite <- Hgi. apply (grant_not_shared m seq i s s0); auto.
      destruct (sq_grant _ _ Hq) as [Hv|Hv]; [|apply grant_view_none in Hv; congruence].
      unfold grant_view in Hv. rewrite Hx in Hv. by destruct (s_has_inflight_grant s0).
  - rewrite L1. assert (Hk : forall j, is_Some (im_seqs m !! j) -> is_Some (im_seqs m' !! j)).
    { intros j Hj. apply (seqs_rel_is_Some seq_quiet _ _ _ Fs). rewrite lookup_upd_seq.
      case_decide; [by apply fmap_is_Some|done]. }
    apply map_Forall_insert_2.
    + destruct (I2 _ _ Hl) as [H1 H2 H3 H4 H5]. subst gr'. split; rsimpl; [done|by rewrite Hsz|by right; left| |by apply Hk].
      intros _. by exists rec.
    + intros g x Hg'. apply (grant_inv_seqs m); [done|exact Hk|by apply I2].
Qed.

(** ** Every execution *)

Lemma Inv_micro m m' : micro m m' -> bounded m' -> Inv m -> Inv m'.
Proof.
  intros Hm Hb HI. destruct Hm.
  - by apply (Inv_quiet m).
  - by apply (Inv_submit m m' id req).
  - by apply (Inv_grant m prepared pm s).
  - by apply (Inv_abort m m' id s gr).
  - by apply (Inv_receipt m m' rec gr).
Qed.

(** The ledger never loses an entry, so it is bounded before if it is bounded after. *)
Lemma micro_ledger_size m m' : micro m m' -> (size (im_grant_ledger m) <= size (im_grant_ledger m'))%nat.
Proof.
  assert (K : forall (l : gmap GrantId GrantRecord) k x, (size l <= size (<[k := x]> l))%nat).
  { intros l k x. destruct (l !! k) eqn:E.
    - rewrite map_size_insert_Some; [done|by eexists].
    - rewrite map_size_insert_None by done. lia. }
  intros Hm. destruct Hm as [m m' Hq|m m' id req _ _ [= -> _]|m prepared pm s _ _ _ _|m m' id s gr _ _ _ _ _ _ Hv|m m' rec gr Hl _ _ _ [_ _ Fv]].
  - by rewrite (proj1 (ledger_view_fields _ _ (q_view _ _ Hq))).
  - done.
  - destruct (issue_grant_fields prepared pm m) as (-> & _). apply K.
  - apply ledger_view_fields in Hv as (-> & _). rsimpl. apply K.
  - unfold ledger_view in Fv. injection Fv as _ -> _ _ _ _ _ _ _. rewrite (alter_some _ _ _ gr) by done. apply K.
Qed.

Lemma protocol_ledger_size m m' : protocol m m' -> (size (im_grant_ledger m) <= size (im_grant_ledger m'))%nat.
Proof. induction 1 as [|m1 m2 m3 H12 _ IH]; [done|]. etrans; [by apply micro_ledger_size|done]. Qed.

Lemma Inv_protocol m m' : protocol m m' -> bounded m' -> Inv m -> Inv m'.
Proof.
  induction 1 as [|m1 m2 m3 H12 H23 IH]; [done|]. intros Hb HI. apply IH; [done|].
  apply (Inv_micro m1); [done| |done]. unfold bounded in *. pose proof (protocol_ledger_size _ _ H23). lia.
Qed.

Lemma Inv_new cfg : Inv (new_fabric cfg).
Proof. split; try done; apply map_Forall_empty. Qed.

Lemma Inv_run cfg ops : bounded (run (new_fabric cfg) ops) -> Inv (run (new_fabric cfg) ops).
Proof. intros Hb. apply (Inv_protocol (new_fabric cfg)); [apply run_protocol|done|apply Inv_new]. Qed.
End preservation.
