(* ===== verification/FabricTheorems.v ===== *)
(** * What every execution of the fabric guarantees

    The properties of the transition system of FabricInvariants.v, for arbitrary
    sequences of operations: terminal sequences stay terminal, every generation
    is paid for by exactly one consumed grant, closed grants stay closed, a
    generation advances only along the receipt chain, and repeated receipts
    change nothing. *)

From S2P Require Import Prelude Enums Errors Token StateMachine Ids Compatibility Types Double FabricState FabricFrame FabricOps Schedule Transaction FabricInvariants ProtocolInvariants.

Section theorems.
Context {CLK : Clock} {ORD : MapOrder}.
Implicit Types (m : Impl) (id : SequenceId).

(** ** Sequences are kept and follow the lifecycle *)

Definition seq_life (s s' : Seq) : Prop := lifecycle (s_machine s) (s_machine s') /\ s_req s' = s_req s.

Lemma seq_quiet_life s s' : seq_quiet s s' -> seq_life s s'.
Proof. intros H. split; [apply H|]. by apply seq_quiet_req. Qed.

Lemma micro_life m m' id s :
  micro m m' -> im_seqs m !! id = Some s -> exists s', im_seqs m' !! id = Some s' /\ seq_life s s'.
Proof.
  intros Hm Hs.
  assert (Hrefl : seq_life s s) by (split; [reflexivity|done]).
  destruct Hm as [m m' Hq|m m' id' req Hn Hs' _|m prepared pm s0 _ _ _ _|m m' id' s0 gr _ _ _ _ Hr _ _|m m' rec gr _ _ _ _ [[fin Hr] _ _]].
  - destruct (seqs_rel_lookup _ _ _ _ _ (quiet_rel _ _ Hq) Hs) as (s' & ? & ?). eauto using seq_quiet_life.
  - exists s. rewrite Hs', lookup_insert_ne by congruence. done.
  - destruct (issue_grant_fields prepared pm m) as (_ & _ & _ & _ & _ & ->).
    destruct (decide (id = pm_sequence pm)) as [->|Hn].
    + rewrite lookup_alter_eq, Hs. eexists. split; [done|]. split; by rsimpl.
    + rewrite lookup_alter_ne by done. eauto.
  - destruct (seqs_rel_lookup _ _ _ _ _ Hr Hs) as (s' & ? & ?). eauto using seq_quiet_life.
  - assert (Hs1 : exists s1, im_seqs (upd_seq (rc_sequence rec) (commit_seq rec fin) m) !! id = Some s1 /\ seq_life s s1).
    { rewrite lookup_upd_seq, Hs. case_decide; [|eauto]. eexists. split; [done|].
      destruct (commit_seq_fields rec fin s) as (_ & _ & _ & _ & R & M & _). split; [by rewrite M|done]. }
    destruct Hs1 as (s1 & Hs1 & [L1 R1]).
    destruct (seqs_rel_lookup _ _ _ _ _ Hr Hs1) as (s' & ? & [L2 R2]%seq_quiet_life).
    exists s'. split; [done|]. split; [by etrans|congruence].
Qed.

Lemma protocol_life m m' id s :
  protocol m m' -> im_seqs m !! id = Some s -> exists s', im_seqs m' !! id = Some s' /\ seq_life s s'.
Proof.
  intros H. revert s. induction H as [|m1 m2 m3 H12 _ IH]; intros s Hs.
  { exists s. split; [done|]. split; [reflexivity|done]. }
  destruct (micro_life _ _ _ _ H12 Hs) as (s2 & Hs2 & [L2 R2]). destruct (IH _ Hs2) as (s3 & Hs3 & [L3 R3]).
  exists s3. split; [done|]. split; [by etrans|congruence].
Qed.

(** C26: the lifecycle is respected by the whole system.  Through any sequence of operations a
    sequence is never lost, keeps its request, and its state moves only along the transition table;
    once it is terminal it stays in that state for ever, whatever is submitted, scheduled, retried,
    completed, granted or receipted. *)
Theorem lifecycle_forever (m : Impl) (ops : list Op) (id : SequenceId) (s : Seq) :
  im_seqs m !! id = Some s ->
  exists s', im_seqs (run m ops) !! id = Some s' /\ s_req s' = s_req s /\
    lifecycle (s_machine s) (s_machine s') /\
    (is_terminal (s_machine s) = true -> s_machine s' = s_machine s).
Proof.
  intros Hs. destruct (protocol_life _ _ _ _ (run_protocol m ops) Hs) as (s' & Hs' & [L R]).
  exists s'. split_and!; [done|done|done|]. by apply lifecycle_terminal.
Qed.

(** ** Exactly once *)

(** The accounts of a sequence and of the fabric, from the invariant. *)
Record accounts (m : Impl) (id : SequenceId) (s : Seq) : Prop := {
  at_generation : s_generation s = 1 + Z.of_nat (consumed id m);
  at_committed : s_committed s = rq_pregenerated (s_req s) + Z.of_nat (consumed id m);
  at_generated : s_generated s = rq_pregenerated (s_req s) + Z.of_nat (consumed id m);
  at_length : s_current_length s = rq_prompt_length (s_req s) + rq_pregenerated (s_req s) + Z.of_nat (consumed id m);
  at_budget : in_range 64 (rq_max_generation_length (s_req s)) = true ->
    s_budget s = mkTokenBudget (rq_max_generation_length (s_req s))
      (Z.min (rq_max_generation_length (s_req s)) (rq_pregenerated (s_req s) + Z.of_nat (consumed id m)));
  at_receipts : im_receipt_count m = Z.of_nat (consumed_all m);
  at_steps : st_decode_steps (im_stats m) = Z.of_nat (consumed_all m);
  at_tokens : st_generated_tokens (im_stats m) = Z.of_nat (consumed_all m);
}.

(** The request's lengths leave room for the tokens. *)
Definition lengths_ok (m : Impl) (id : SequenceId) (s : Seq) : Prop :=
  0 <= rq_pregenerated (s_req s) /\ 0 <= rq_prompt_length (s_req s) /\
  rq_prompt_length (s_req s) + rq_pregenerated (s_req s) + Z.of_nat (consumed id m) < 2 ^ 64.

Lemma Inv_accounts m id s : Inv m -> bounded m -> im_seqs m !! id = Some s -> lengths_ok m id s -> accounts m id s.
Proof.
  intros HI Hb Hs (Hpre & Hpl & Hov). destruct (inv_seqs m HI id s Hs) as [H1 H2 H3 H4 _ _ _ _ H9].
  pose proof (count_entries_le (consumed_of id) (im_grant_ledger m)) as Hle. fold (consumed id m) in Hle.
  pose proof (count_entries_le (fun gr => gr_status gr =? 1) (im_grant_ledger m)) as Hla. fold (consumed_all m) in Hla.
  unfold bounded in Hb. rewrite (incr_exact (consumed id m)) in H2, H3, H4 by (rewrite ?wrap_id_small; lia).
  rewrite wrap_id_small in H4 by lia.
  rewrite Z.max_r in H3 by lia. split; rewrite ?H1, ?H2, ?H3, ?H4, ?(inv_receipts m HI), ?(inv_steps m HI), ?(inv_tokens m HI),
    ?(incr_exact (consumed_all m)) by lia; try lia.
  intros Hm. rewrite (H9 ltac:(split_and!; [done|done|lia])), H3.
  pose proof (tb_advance_times_max (Z.to_nat (rq_pregenerated (s_req s) + Z.of_nat (consumed id m))) (new_budget (rq_max_generation_length (s_req s)))) as Hx.
  pose proof (tb_advance_times_min (Z.to_nat (rq_pregenerated (s_req s) + Z.of_nat (consumed id m))) _ Hm) as Hy.
  destruct (tb_advance_times _ _) as [mx gen]. cbn [tb_max tb_generated new_budget] in *. subst. f_equal. lia.
Qed.

(** C1: every generation is paid for by exactly one consumed grant.  After any sequence of
    operations (recoveries apart) from a fresh fabric, a sequence has advanced exactly as many generations as the
    ledger has consumed grants for it: its generation number, its committed and its generated
    tokens and its length are their initial values plus that number, its budget is charged with the
    tokens it started from and that number, up to its maximum, and the fabric's counters of
    receipts, steps and tokens equal the number of consumed grants of all sequences. *)
Theorem exactly_once (cfg : Config) (ops : list Op) (id : SequenceId) (s : Seq) :
  let m := run (new_fabric cfg) ops in
  let n := Z.of_nat (consumed id m) in
  let pre := rq_pregenerated (s_req s) in
  let max := rq_max_generation_length (s_req s) in
  bounded m -> im_seqs m !! id = Some s ->
  0 <= pre -> 0 <= rq_prompt_length (s_req s) -> rq_prompt_length (s_req s) + pre + n < 2 ^ 64 -> in_range 64 max = true ->
  s_generation s = 1 + n /\ s_committed s = pre + n /\ s_generated s = pre + n /\
  s_current_length s = rq_prompt_length (s_req s) + pre + n /\
  tb_max (s_budget s) = max /\ tb_generated (s_budget s) = Z.min max (pre + n) /\
  im_receipt_count m = Z.of_nat (consumed_all m) /\ st_decode_steps (im_stats m) = Z.of_nat (consumed_all m) /\
  st_generated_tokens (im_stats m) = Z.of_nat (consumed_all m).
Proof.
  intros m n pre max Hb Hs Hpre Hpl Hov Hmax.
  destruct (Inv_accounts m id s (Inv_run cfg ops Hb) Hb Hs (conj Hpre (conj Hpl Hov))) as [A1 A2 A3 A4 A5 A6 A7 A8].
  rewrite (A5 Hmax). split_and!; done.
Qed.

(** ** Closed grants stay closed *)

(** How the record of a grant may change. *)
Definition grant_evolves (gr gr' : GrantRecord) : Prop :=
  gr_grant gr' = gr_grant gr /\ (gr_status gr <> 0 -> gr' = gr).

Lemma grant_evolves_refl gr : grant_evolves gr gr.
Proof. by split. Qed.

Lemma micro_grants m m' gid gr :
  Inv m -> micro m m' -> im_grant_ledger m !! gid = Some gr ->
  exists gr', im_grant_ledger m' !! gid = Some gr' /\ grant_evolves gr gr'.
Proof.
  intros HI Hm Hg.
  destruct Hm as [m m' Hq|m m' id' req _ _ [= -> _]|m prepared pm s0 _ _ _ _|m m' id' s0 gr0 _ _ Hl H0 _ _ Hv|m m' rec gr0 Hl N1 N2 He [_ _ Fv]].
  - rewrite (proj1 (ledger_view_fields _ _ (q_view _ _ Hq))). eauto using grant_evolves_refl.
  - eauto using grant_evolves_refl.
  - destruct (issue_grant_fields prepared pm m) as (-> & _). exists gr.
    rewrite lookup_insert_ne; [eauto using grant_evolves_refl|]. pose proof (fresh_grant m HI). congruence.
  - apply ledger_view_fields in Hv as (-> & _). rsimpl.
    destruct (decide (s_in_flight_grant s0 = gid)) as [<-|Hn]; [|rewrite lookup_insert_ne by done; eauto using grant_evolves_refl].
    rewrite lookup_insert_eq. eexists. split; [done|]. rewrite Hl in Hg. injection Hg as ->. split; [by rsimpl|done].
  - unfold ledger_view in Fv. injection Fv as _ -> _ _ _ _ _ _ _. rewrite (alter_some _ _ _ gr0) by done.
    destruct (decide (rc_grant_id rec = gid)) as [<-|Hn]; [|rewrite lookup_insert_ne by done; eauto using grant_evolves_refl].
    rewrite lookup_insert_eq. eexists. split; [done|]. rewrite Hl in Hg. injection Hg as ->. split; [by rsimpl|].
    intros H. destruct (gi_status _ _ _ (inv_ledger m HI _ _ Hl)) as [?|[?|?]]; done.
Qed.

Lemma protocol_grants m m' gid gr :
  protocol m m' -> bounded m' -> Inv m -> im_grant_ledger m !! gid = Some gr ->
  exists gr', im_grant_ledger m' !! gid = Some gr' /\ grant_evolves gr gr'.
Proof.
  intros H Hb. revert gr. induction H as [|m1 m2 m3 H12 H23 IH]; intros gr HI Hg; [eauto using grant_evolves_refl|].
  assert (bounded m2) by (unfold bounded in *; pose proof (protocol_ledger_size _ _ H23); lia).
  destruct (micro_grants _ _ _ _ HI H12 Hg) as (gr2 & Hg2 & [E2 C2]).
  destruct (IH Hb gr2 (Inv_micro _ _ H12 ltac:(done) HI) Hg2) as (gr3 & Hg3 & [E3 C3]).
  exists gr3. split; [done|]. split; [congruence|]. intros Hc. specialize (C2 Hc) as ->. by apply C3.
Qed.

(** C24: a grant is one-use.  In a fabric that is not recovered from an image, once a grant has been
    consumed or aborted, its ledger entry (status, grant and receipt) is the same after every further
    sequence of operations; and the terms of a pending grant never change.  ([recover_state] replaces the
    ledger as a whole and does not restore the grant counter, so it is not among the operations here.) *)
Theorem grants_one_use (cfg : Config) (ops ops' : list Op) (gid : GrantId) (gr : GrantRecord) :
  let m := run (new_fabric cfg) ops in
  bounded (run m ops') -> im_grant_ledger m !! gid = Some gr ->
  exists gr', im_grant_ledger (run m ops') !! gid = Some gr' /\ gr_grant gr' = gr_grant gr /\
    (gr_status gr = 1 \/ gr_status gr = 2 -> gr' = gr).
Proof.
  intros m Hb Hg.
  assert (Hbm : bounded m) by (unfold bounded in *; pose proof (protocol_ledger_size _ _ (run_protocol m ops')); lia).
  destruct (protocol_grants m _ gid gr (run_protocol m ops') Hb (Inv_run cfg ops Hbm) Hg) as (gr' & Hg' & [E C]).
  exists gr'. split_and!; [done|done|]. intros Hs. apply C. lia.
Qed.

(** ** The receipt chain *)

(** A pending grant of [m] is consumed by [rec] for the sequence [s]. *)
Record advances (m : Impl) (rec : MemberReceipt) (gr : GrantRecord) (s : Seq) : Prop := {
  av_ledger : im_grant_ledger m !! rc_grant_id rec = Some gr;
  av_open : gr_status gr <> 1 /\ gr_status gr <> 2;
  av_fits : receipt_fits rec (gr_grant gr) = true;
  av_inflight : s_has_inflight_grant s = true;
  av_grant : s_in_flight_grant s = rc_grant_id rec;
}.

(** What a sequence's committed state becomes is determined by its committed state. *)
Lemma commit_view_congr rec fin fin' s s' :
  committed_view s' = committed_view s -> committed_view (commit_seq rec fin' s') = committed_view (commit_seq rec fin s).
Proof. unfold committed_view, commit_seq. rsimpl. intros H. simplify_eq/=. congruence. Qed.

Lemma seq_quiet_inflight s s' :
  seq_quiet s s' -> s_has_inflight_grant s' = true ->
  s_has_inflight_grant s = true /\ s_in_flight_grant s' = s_in_flight_grant s /\
  s_in_flight_proposal s' = s_in_flight_proposal s.
Proof.
  intros Hq Hi. destruct (sq_grant _ _ Hq) as [He|He]; [|apply grant_view_none in He; congruence].
  unfold grant_view in He. rewrite Hi in He. destruct (s_has_inflight_grant s); [|done]. by simplify_eq.
Qed.

(** One receipt: it leaves a sequence's committed state alone, or advances it by consuming its grant. *)
Lemma apply_receipt_cases m rec :
  quiet m (apply_receipt m rec) \/
  exists gr s, im_seqs m !! rc_sequence rec = Some s /\ advances m rec gr s /\
    is_terminal (s_machine s) = false /\ finalized rec m (apply_receipt m rec).
Proof.
  unfold apply_receipt. cbv zeta.
  destruct (im_grant_ledger m !! rc_grant_id rec) as [gr|] eqn:Hg;
    [|left; apply quiet_reject_stale; reflexivity].
  destruct (Z.eqb_spec (gr_status gr) 1) as [|H1].
  { left. repeat case_match; try reflexivity; apply quiet_reject_stale; reflexivity. }
  destruct (Z.eqb_spec (gr_status gr) 2) as [|H2]; [left; apply quiet_reject_stale; reflexivity|].
  destruct (receipt_error rec (gr_grant gr) m) as [[rid d]|] eqn:He; [left; apply quiet_reject_stale; reflexivity|].
  destruct (receipt_error_none _ _ _ He) as (s & [Hf Hs Hi Hgi Hl]). rewrite Hs. right.
  exists gr, s. split_and!; [done|by split|done|by apply finalize_spec].
Qed.

(** The ledger after one receipt: other open grants are as they were. *)
Lemma apply_receipt_ledger m rec gid gr :
  im_grant_ledger (apply_receipt m rec) !! gid = Some gr -> gr_status gr <> 1 ->
  im_grant_ledger m !! gid = Some gr.
Proof.
  destruct (apply_receipt_cases m rec) as [Hq|(gr0 & s & _ & A & _ & [_ _ Fv])]; intros Hg Hs.
  - by rewrite (proj1 (ledger_view_fields _ _ (q_view _ _ Hq))) in Hg.
  - unfold ledger_view in Fv. injection Fv as _ L _ _ _ _ _ _ _. rewrite L, (alter_some _ _ _ gr0) in Hg by apply A.
    destruct (decide (rc_grant_id rec = gid)) as [<-|Hn]; [|by rewrite lookup_insert_ne in Hg].
    rewrite lookup_insert_eq in Hg. injection Hg as <-. by rsimpl in Hs.
Qed.

Lemma receipts_chain l m id s s' :
  im_seqs m !! id = Some s -> im_seqs (foldl apply_receipt m l) !! id = Some s' ->
  committed_view s' = committed_view s \/
  exists rec gr fin, rec ∈ l /\ rc_sequence rec = id /\ advances m rec gr s /\
    committed_view s' = committed_view (commit_seq rec fin s).
Proof.
  revert m s. induction l as [|r l IH]; intros m s Hs Hs'; cbn [foldl] in Hs'.
  { left. congruence. }
  assert (Hopen : forall rec gr s1, s_has_inflight_grant s1 = true -> seq_quiet s s1 ->
    advances (apply_receipt m r) rec gr s1 -> advances m rec gr s).
  { intros rec gr s1 Hi Hq [A1 A2 A3 A4 A5]. destruct (seq_quiet_inflight _ _ Hq Hi) as (B1 & B2 & _).
    split; auto; [|congruence]. apply (apply_receipt_ledger m r); tauto. }
  assert (Hquiet : forall s1, im_seqs (apply_receipt m r) !! id = Some s1 -> seq_quiet s s1 ->
    committed_view s' = committed_view s \/
    exists rec gr fin, rec ∈ r :: l /\ rc_sequence rec = id /\ advances m rec gr s /\
      committed_view s' = committed_view (commit_seq rec fin s)).
  { intros s1 Hs1 Hq. destruct (IH _ _ Hs1 Hs') as [Hv|(rec & gr & fin & Hin & Hid & A & Hv)].
    - left. rewrite Hv. apply Hq.
    - right. exists rec, gr, fin. split_and!; [by right|done|by apply (Hopen rec gr s1 (av_inflight _ _ _ _ A))|].
      rewrite Hv. apply commit_view_congr, Hq. }
  destruct (apply_receipt_cases m r) as [Hq|(gr & s0 & Hs0 & A & _ & [[fin Fs] Fg _])].
  - destruct (seqs_rel_lookup _ _ _ _ _ (quiet_rel _ _ Hq) Hs) as (s1 & Hs1 & Hq1). by apply (Hquiet s1).
  - destruct (decide (rc_sequence r = id)) as [Hid|Hid].
    + subst id. rewrite Hs in Hs0. injection Hs0 as <-.
      assert (Hc : im_seqs (upd_seq (rc_sequence r) (commit_seq r fin) m) !! rc_sequence r = Some (commit_seq r fin s))
        by (rewrite lookup_upd_seq, decide_True, Hs by done; done).
      destruct (seqs_rel_lookup _ _ _ _ _ Fs Hc) as (s1 & Hs1 & Hq1).
      destruct (IH _ _ Hs1 Hs') as [Hv|(rec & gr' & fin' & _ & _ & A' & _)].
      * right. exists r, gr, fin. split_and!; [by left|done|done|]. rewrite Hv. apply Hq1.
      * specialize (Fg _ Hs1). apply grant_view_none in Fg. pose proof (av_inflight _ _ _ _ A'). congruence.
    + assert (Hc : im_seqs (upd_seq (rc_sequence r) (commit_seq r fin) m) !! id = Some s)
        by (rewrite lookup_upd_seq, decide_False by done; done).
      destruct (seqs_rel_lookup _ _ _ _ _ Fs Hc) as (s1 & Hs1 & Hq1). by apply (Hquiet s1).
Qed.

(** Every operation but the two below leaves the committed state of existing sequences alone. *)
Lemma quiet_view m m' id s s' :
  quiet m m' -> im_seqs m !! id = Some s -> im_seqs m' !! id = Some s' -> committed_view s' = committed_view s.
Proof.
  intros Hq Hs Hs'. destruct (seqs_rel_lookup _ _ _ _ _ (quiet_rel _ _ Hq) Hs) as (s1 & Hs1 & Hq1).
  rewrite Hs' in Hs1. injection Hs1 as <-. apply Hq1.
Qed.

(** Bookkeeping, new sequences, grants and aborts: the transitions without a receipt. *)
Definition no_receipt (m m' : Impl) : Prop :=
  forall id s, im_seqs m !! id = Some s -> exists s', im_seqs m' !! id = Some s' /\ committed_view s' = committed_view s.

Lemma no_receipt_refl m : no_receipt m m.
Proof. intros id s Hs. eauto. Qed.

Lemma no_receipt_trans m1 m2 m3 : no_receipt m1 m2 -> no_receipt m2 m3 -> no_receipt m1 m3.
Proof.
  intros H12 H23 id s Hs. destruct (H12 _ _ Hs) as (s2 & Hs2 & E2). destruct (H23 _ _ Hs2) as (s3 & Hs3 & E3).
  exists s3. split; [done|congruence].
Qed.

Lemma no_receipt_quiet m m' : quiet m m' -> no_receipt m m'.
Proof.
  intros Hq id s Hs. destruct (seqs_rel_lookup _ _ _ _ _ (quiet_rel _ _ Hq) Hs) as (s' & Hs' & H). eauto using sq_view.
Qed.

Lemma no_receipt_grant prepared pm m : no_receipt m (issue_grant prepared pm m).2.
Proof.
  intros id s Hs. destruct (issue_grant_fields prepared pm m) as (_ & _ & _ & _ & _ & ->).
  destruct (decide (id = pm_sequence pm)) as [->|Hn].
  - rewrite lookup_alter_eq, Hs. eexists. split; [done|]. unfold committed_view. by rsimpl.
  - rewrite lookup_alter_ne by done. eauto.
Qed.

Lemma no_receipt_same m m' : im_seqs m' = im_seqs m -> no_receipt m m'.
Proof. intros Hs id s Hi. rewrite Hs. eauto. Qed.

Lemma no_receipt_authorize_member prepared acc pm : no_receipt acc.2 (authorize_member prepared acc pm).2.
Proof.
  destruct acc as [out m]. cbn [snd]. unfold authorize_member. cbv zeta.
  destruct (im_seqs m !! pm_sequence pm) as [s|] eqn:Hs; [|cbn [snd]; apply no_receipt_quiet; auto with quiet].
  destruct (stale_authority pm s m) as [[[code d] reason]|];
    [cbn [snd]; apply no_receipt_quiet; auto 10 with quiet|].
  destruct (negb (is_commit_eligible pm)); [cbn [snd]; apply no_receipt_quiet; auto 10 with quiet|].
  destruct (s_has_accepted s && _); [cbn [snd]; apply no_receipt_quiet; auto 10 with quiet|].
  destruct (binding_error pm s) as [[code reason]|]; [cbn [snd]; apply no_receipt_quiet; auto 10 with quiet|].
  pose proof (no_receipt_grant prepared pm m) as Hg. destruct (issue_grant prepared pm m) as [g m1]. cbn [snd] in *.
  apply (no_receipt_trans _ m1); [done|]. apply no_receipt_quiet. auto with quiet.
Qed.

Lemma no_receipt_authorize p m : no_receipt m (authorize_prepared p m).2.
Proof.
  unfold authorize_prepared.
  assert (K : forall l acc, no_receipt acc.2 (foldl (authorize_member p) acc l).2).
  { induction l as [|pm l IH]; intros acc; [apply no_receipt_refl|]. cbn [foldl].
    eapply no_receipt_trans; [apply no_receipt_authorize_member|apply IH]. }
  specialize (K (pd_members p) ([], m)). by destruct (foldl _ _ _).
Qed.

(** An abort closes at most the pending grant and is otherwise quiet. *)
Definition close_grant (gid : GrantId) (m : Impl) : Impl :=
  upd im_grant_ledger (alter (fun gr => if gr_status gr =? 0 then gr <| gr_status := 2 |> else gr) gid) m.

Lemma abort_closes a m :
  (abort_prepared a m).2 = m \/ exists gid, quiet (close_grant gid m) (abort_prepared a m).2.
Proof.
  unfold abort_prepared. cbv zeta. destruct (im_seqs m !! ab_sequence a) as [s|]; [|by left].
  destruct (s_has_inflight_grant s && _); [|by left]. right. exists (s_in_flight_grant s). cbn [snd].
  fold (close_grant (s_in_flight_grant s) m). set (m1 := close_grant _ m). apply quiet_record_event.
  assert (Hq : forall f, (forall x, seq_quiet x (f x)) -> quiet m1 (release (ab_sequence a) (upd_seq (ab_sequence a) f m1))).
  { intros f Hf. apply quiet_release, quiet_upd_seq. auto. }
  assert (Hd : forall x : Seq, seq_quiet x (x <| s_has_inflight_grant := false |> <| s_in_flight_grant := null_id |>
      <| s_in_flight_proposal := null_id |> <| s_in_flight_position := 0 |> <| s_has_inflight := false |>)).
  { intros x. split; unfold committed_view, grant_view; rsimpl; auto; reflexivity. }
  specialize (Hq _ Hd). case_match; auto 10 with quiet.
Qed.

Lemma no_receipt_abort a m : no_receipt m (abort_prepared a m).2.
Proof.
  destruct (abort_closes a m) as [->|(gid & Hq)]; [apply no_receipt_refl|].
  apply (no_receipt_trans _ (close_grant gid m)); [by apply no_receipt_same|by apply no_receipt_quiet].
Qed.

Lemma no_receipt_submit req m : no_receipt m (submit req m).2.
Proof.
  unfold submit. cbv zeta.
  destruct (validate req) as [u|e]; [|cbn [snd]; apply no_receipt_quiet; auto with quiet].
  pose proof (quiet_build_key req m) as Hk. destruct (build_key req m) as [req' m1]. cbn [snd] in Hk.
  apply (no_receipt_trans _ m1); [by apply no_receipt_quiet|].
  destruct (negb (is_valid (rq_model req'))); [cbn [snd]; apply no_receipt_quiet; auto with quiet|].
  destruct (backpressure req' m1); [cbn [snd]; apply no_receipt_quiet; auto with quiet|].
  destruct (is_valid (rq_sequence req') && _); [cbn [snd]; apply no_receipt_quiet; auto with quiet|].
  destruct (if is_valid (rq_sequence req') then _ else _) as [id m2] eqn:E. cbn [snd].
  assert (Hs2 : im_seqs m2 = im_seqs m1) by (destruct (is_valid (rq_sequence req')); by injection E as _ <-).
  eapply no_receipt_trans; [|apply no_receipt_quiet, quiet_record_event; reflexivity].
  intros i s Hi. exists s. split; [|done]. unfold bump. rsimpl. rewrite Hs2.
  case_bool_decide as Hd; [done|]. rewrite lookup_insert_ne; [done|]. intros ->. apply Hd. rewrite Hi. by eexists.
Qed.

Lemma no_receipt_step m op : (forall r, op <> OReceipts r) -> no_receipt m (step m op).
Proof.
  intros Hop. destruct op; cbn [step]; [apply no_receipt_submit|..| |apply no_receipt_authorize|by destruct (Hop r)|apply no_receipt_abort];
    apply no_receipt_quiet; auto using quiet_cancel, quiet_cancel_request, quiet_retry, quiet_register_worker,
      quiet_mark_worker_dead, quiet_roll_epoch, quiet_advance, quiet_schedule, quiet_apply_completion.
Qed.

(** C3: a generation advances only along the receipt chain.  In any reachable state, if an operation
    changes a sequence's committed state at all, it is [apply_commit_receipt], and one of its
    receipts consumed the pending grant the sequence had in flight: that grant continues the
    committed state (its position is the number of tokens generated, its pre-state digest is the
    committed digest when there is one), exactly one generation is added, and the receipt's
    post-state digest becomes the committed digest. *)
Theorem receipt_chain (cfg : Config) (ops : list Op) (op : Op) (id : SequenceId) (s s' : Seq) :
  let m := run (new_fabric cfg) ops in
  bounded m -> im_seqs m !! id = Some s -> im_seqs (step m op) !! id = Some s' ->
  committed_view s' <> committed_view s ->
  exists r rec gr, op = OReceipts r /\ rec ∈ rd_receipts r /\ rc_sequence rec = id /\
    im_grant_ledger m !! rc_grant_id rec = Some gr /\ gr_status gr = 0 /\ s_in_flight_grant s = rc_grant_id rec /\
    rc_committed_position_before rec = s_generated s /\
    (s_state_digest_established s = true -> rc_pre_state_digest rec = s_committed_state_digest s) /\
    s_generation s' = s_generation s +64 1 /\ s_committed s' = s_committed s +64 1 /\
    s_committed_state_digest s' = rc_post_state_digest rec /\ s_state_digest_established s' = true /\
    s_accepted s' = make_accepted rec true.
Proof.
  intros m Hb Hs Hs' Hv.
  assert (Hop : exists r, op = OReceipts r).
  { destruct op; eauto; exfalso; match type of Hs' with context [step m ?o] =>
      destruct (no_receipt_step m o ltac:(discriminate) id s Hs) as (s1 & Hs1 & E) end; congruence. }
  destruct Hop as [r ->]. cbn [step apply_commit_receipt snd] in Hs'.
  assert (Hq : quiet (foldl apply_receipt m (rd_receipts r)) (refresh_derived_stats (foldl apply_receipt m (rd_receipts r)))).
  { auto with quiet. }
  destruct (seqs_rel_lookup_r _ _ _ _ _ (quiet_rel _ _ Hq) Hs') as (s1 & Hs1 & Hq1).
  destruct (receipts_chain _ m id s s1 Hs Hs1) as [E|(rec & gr & fin & Hin & Hid & [A1 A2 A3 A4 A5] & E)].
  { destruct Hv. rewrite (sq_view _ _ Hq1). done. }
  pose proof (Inv_run cfg ops Hb) as HI. fold m in HI.
  destruct (si_grant _ _ _ (inv_seqs m HI id s Hs) A4) as (g0 & G1 & G2 & G3 & G4 & G5 & G6).
  rewrite A5, A1 in G1. injection G1 as <-.
  destruct (receipt_fits_fields _ _ A3) as (F1 & F2 & _ & _ & _ & _ & _ & F3 & F4 & _).
  rewrite <- (sq_view _ _ Hq1) in E. destruct (committed_view_fields _ _ E) as (_ & R2 & R3 & _ & R5 & R6 & R7 & _).
  destruct (commit_seq_fields rec fin s) as (_ & C2 & C3 & _ & _ & _ & C6 & C7 & C8 & _).
  exists r, rec, gr. split_and!; try done; try congruence. intros He. rewrite F4. by apply G6.
Qed.

(** ** Repeated receipts *)

(** The receipt would be finalized. *)
Definition accepts (m : Impl) (rec : MemberReceipt) : Prop :=
  exists gr, im_grant_ledger m !! rc_grant_id rec = Some gr /\ gr_status gr <> 1 /\ gr_status gr <> 2 /\
    receipt_error rec (gr_grant gr) m = None.

Lemma receipt_error_iff rec g m :
  receipt_error rec g m = None <->
  receipt_fits rec g = true /\ exists s, im_seqs m !! rc_sequence rec = Some s /\ s_has_inflight_grant s = true /\
    s_in_flight_grant s = rc_grant_id rec /\ s_in_flight_proposal s = rc_proposal rec /\ is_stopped (s_machine s) = false.
Proof.
  assert (Hst : forall st, is_terminal st || is_cancelling st || bool_decide (st = SequenceState.DeadlineExpired) = is_stopped st).
  { intros st. destruct st; vm_compute; reflexivity. }
  unfold receipt_error. destruct (receipt_fits rec g); cbn [negb]; [|split; [done|by intros [? _]]].
  destruct (im_seqs m !! rc_sequence rec) as [s|]; [|split; [done|by intros (_ & s & ? & _)]]. cbv zeta.
  rewrite Hst. split.
  - destruct (s_has_inflight_grant s) eqn:E0; [|done]. destruct (id_eqb (s_in_flight_grant s) _) eqn:E1; [|done].
    destruct (id_eqb (s_in_flight_proposal s) _) eqn:E2; [|done]. apply id_eqb_eq in E1, E2.
    destruct (is_stopped (s_machine s)) eqn:E3; [done|]. intros _. split; [done|]. exists s. done.
  - intros (_ & s0 & [= <-] & -> & -> & -> & ->). by rewrite !id_eqb_refl.
Qed.

Lemma apply_receipt_rejected m rec : ~ accepts m rec -> quiet m (apply_receipt m rec).
Proof.
  intros Ha. unfold apply_receipt. cbv zeta.
  destruct (im_grant_ledger m !! rc_grant_id rec) as [gr|] eqn:Hg; [|auto with quiet].
  destruct (Z.eqb_spec (gr_status gr) 1); [repeat case_match; auto with quiet|].
  destruct (Z.eqb_spec (gr_status gr) 2); [auto with quiet|].
  destruct (receipt_error rec (gr_grant gr) m) as [[rid d]|] eqn:He; [auto with quiet|].
  destruct Ha. by exists gr.
Qed.

(** A receipt that would be finalized after another one would have been finalized before it. *)
Lemma accepts_before m r rec : accepts (apply_receipt m r) rec -> accepts m rec.
Proof.
  intros (gr & Hg & H1 & H2 & (Hf & s' & Hs' & Hi & Hgi & Hp & Hst)%receipt_error_iff).
  exists gr. split_and!; [by apply (apply_receipt_ledger m r)|done|done|]. apply receipt_error_iff. split; [done|].
  assert (Hback : forall s, seq_quiet s s' -> s_has_inflight_grant s = true /\ s_in_flight_grant s = rc_grant_id rec /\
    s_in_flight_proposal s = rc_proposal rec /\ is_stopped (s_machine s) = false).
  { intros s Hq. destruct (seq_quiet_inflight _ _ Hq Hi) as (Q1 & Q2 & Q3). split_and!; try congruence.
    destruct (is_stopped (s_machine s)) eqn:E; [|done]. by rewrite (lifecycle_stopped _ _ (sq_life _ _ Hq) E) in Hst. }
  destruct (apply_receipt_cases m r) as [Hq|(gr0 & s0 & Hs0 & A & _ & [[fin Fs] Fg _])].
  - destruct (seqs_rel_lookup_r _ _ _ _ _ (quiet_rel _ _ Hq) Hs') as (s & Hs & Hq1). exists s. split; [done|by apply Hback].
  - destruct (decide (rc_sequence r = rc_sequence rec)) as [E|Hn].
    + rewrite <- E in Hs'. specialize (Fg _ Hs'). apply grant_view_none in Fg. congruence.
    + destruct (seqs_rel_lookup_r _ _ _ _ _ Fs Hs') as (s & Hs & Hq1).
      rewrite lookup_upd_seq, decide_False in Hs by done. exists s. split; [done|by apply Hback].
Qed.

Lemma accepts_not_after m rec : ~ accepts (apply_receipt m rec) rec.
Proof.
  intros Ha. pose proof (accepts_before _ _ _ Ha) as Hb.
  destruct Ha as (gr & Hg & H1 & _ & (_ & s' & Hs' & Hi & _)%receipt_error_iff).
  destruct (apply_receipt_cases m rec) as [Hq|(gr0 & s0 & _ & A & _ & [_ Fg _])].
  - destruct Hb as (gr1 & Hg1 & H3 & H4 & He1).
    assert (Hfin : finalized rec m (apply_receipt m rec)).
    { unfold apply_receipt. rewrite Hg1, He1. destruct (Z.eqb_spec (gr_status gr1) 1); [done|].
      destruct (Z.eqb_spec (gr_status gr1) 2); [done|].
      apply receipt_error_iff in He1 as (_ & s1 & Hs1 & _). rewrite Hs1. by apply finalize_spec. }
    specialize (fz_grant _ _ _ Hfin _ Hs'). rewrite grant_view_none. congruence.
  - specialize (Fg _ Hs'). apply grant_view_none in Fg. congruence.
Qed.

Lemma accepts_fold_before l m rec : accepts (foldl apply_receipt m l) rec -> accepts m rec.
Proof. revert m. induction l as [|r l IH]; intros m; [done|]. cbn [foldl]. intros H. by apply (accepts_before m r), IH. Qed.

Lemma accepts_not_after_fold l m rec : rec ∈ l -> ~ accepts (foldl apply_receipt m l) rec.
Proof.
  intros Hin. revert m. induction Hin as [r l|r r' l _ IH]; intros m; cbn [foldl]; [|apply IH].
  intros Ha%accepts_fold_before. by apply accepts_not_after in Ha.
Qed.

(** Everything but the event log, the clock and the count of stale rejections. *)
Definition unlogged (m : Impl) : Impl :=
  m <| im_events := [] |> <| im_event_head := 0%nat |> <| im_ticks := 0%nat |>
    <| im_stats ::= (fun st => st <| st_stale_rejections := 0 |>) |>.

Lemma unlogged_reject m r seq d : unlogged (reject_stale r seq d m) = unlogged m.
Proof. unfold reject_stale, record_event, now, bump. cbv zeta. case_match; done. Qed.

Lemma derive_stats_stale st n : derive_stats (st <| st_stale_rejections := n |>) = derive_stats st <| st_stale_rejections := n |>.
Proof.
  unfold derive_stats. cbv zeta. rsimpl. destruct (st_decode_steps st >? 0) eqn:E1; cbn [andb]; [|rsimpl; by rewrite E1].
  destruct (st_total_active_ns st >? 0) eqn:E2; rsimpl; by rewrite E1.
Qed.

Lemma derive_stats_again st : derive_stats (derive_stats st) = derive_stats st.
Proof.
  unfold derive_stats. cbv zeta. destruct (st_decode_steps st >? 0) eqn:E1, (st_total_active_ns st >? 0) eqn:E2; cbn [andb];
    repeat (progress (rsimpl; rewrite ?E1, ?E2; cbn [andb])); done.
Qed.

Lemma unlogged_refresh m : unlogged (refresh_derived_stats m) = refresh_derived_stats (unlogged m).
Proof.
  set (X st := m <| im_events := [] |> <| im_event_head := 0%nat |> <| im_ticks := 0%nat |> <| im_stats := st |>).
  change (X (derive_stats (im_stats m) <| st_stale_rejections := 0 |>) = X (derive_stats (im_stats m <| st_stale_rejections := 0 |>))).
  by rewrite derive_stats_stale.
Qed.

Lemma refresh_again m : refresh_derived_stats (refresh_derived_stats m) = refresh_derived_stats m.
Proof.
  change (m <| im_stats := derive_stats (derive_stats (im_stats m)) |> = m <| im_stats := derive_stats (im_stats m) |>).
  by rewrite derive_stats_again.
Qed.

(** A receipt that is not acceptable is logged at most. *)
Lemma unlogged_receipt m rec : ~ accepts m rec -> unlogged (apply_receipt m rec) = unlogged m.
Proof.
  intros Ha. unfold apply_receipt. cbv zeta.
  destruct (im_grant_ledger m !! rc_grant_id rec) as [gr|] eqn:Hg; [|apply unlogged_reject].
  destruct (Z.eqb_spec (gr_status gr) 1); [repeat case_match; done || apply unlogged_reject|].
  destruct (Z.eqb_spec (gr_status gr) 2); [apply unlogged_reject|].
  destruct (receipt_error rec (gr_grant gr) m) as [[rid d]|] eqn:He; [apply unlogged_reject|].
  destruct Ha. by exists gr.
Qed.

Lemma unlogged_receipts l m : (forall rec, rec ∈ l -> ~ accepts m rec) -> unlogged (foldl apply_receipt m l) = unlogged m.
Proof.
  revert m. induction l as [|r l IH]; intros m Hl; [done|]. cbn [foldl].
  rewrite IH; [apply unlogged_receipt, Hl; by left|]. intros rec Hin Ha.
  by apply (Hl rec); [right|apply (accepts_before m r)].
Qed.

(** C25: receipts are idempotent.  Applying the same receipts again, right after they were applied (the duplicate of a
    retransmission), changes nothing of the fabric: every sequence with its budget, state and in-flight fields, every grant,
    reservation, worker, tenant and counter is as after the first application; only events of rejected receipts, the
    count of stale rejections and the clock differ. *)
Theorem receipts_idempotent (m : Impl) (r : ReceiptDecode) :
  let m1 := (apply_commit_receipt r m).2 in
  let m2 := (apply_commit_receipt r m1).2 in
  unlogged m2 = unlogged m1.
Proof.
  cbv zeta. unfold apply_commit_receipt. cbn [snd]. set (l := rd_receipts r). set (m1 := foldl apply_receipt m l).
  rewrite unlogged_refresh, unlogged_receipts, unlogged_refresh; [apply refresh_again|].
  intros rec Hin (gr & Hg & Hx). apply (accepts_not_after_fold l m rec Hin). exists gr. fold m1. exact (conj Hg Hx).
Qed.
End theorems.
