(* ===== verification/Authorization.v ===== *)
(** * Authorization and finalization, branch by branch

    When exactly [authorize_prepared] issues a grant, what it returns otherwise,
    and that a grant followed by its receipt advances the sequence. *)

From S2P Require Import Prelude Enums Errors Token StateMachine Ids Compatibility Types Double FabricState FabricFrame FabricOps Schedule Transaction FabricInvariants ProtocolInvariants FabricTheorems.

Section authorization.
Context {CLK : Clock} {ORD : MapOrder}.
Implicit Types (m : Impl) (id : SequenceId).

(** The authority of a prepared member is current and its binding is sound. *)
Record grantable (m : Impl) (pm : PreparedMember) (s : Seq) : Prop := {
  gt_seq : im_seqs m !! pm_sequence pm = Some s;
  gt_epoch : pm_epoch pm = im_epoch m;
  gt_boot : im_worker_current_boot m !! pm_worker pm = None \/
            im_worker_current_boot m !! pm_worker pm = Some (pm_worker_boot pm);
  gt_attempt : pm_attempt pm = s_current_attempt s;
  gt_generation : id_value (pm_generation pm) = s_in_flight_generation s;
  gt_dispatch : pm_dispatch pm = s_in_flight_dispatch s;
  gt_live : is_stopped (s_machine s) = false;
  gt_eligible : is_commit_eligible pm = true;
  gt_fresh : ~ (s_has_accepted s = true /\ ac_idempotency_key (s_accepted s) = acceptance_key_prepared pm);
  gt_free : s_has_inflight_grant s = false;
  gt_position : pm_committed_position_before pm = s_generated s;
  gt_digest : s_state_digest_established s = true -> pm_pre_state_digest pm = s_committed_state_digest s;
}.

Lemma boot_stale_false w b m :
  boot_stale w b m = false <->
  im_worker_current_boot m !! w = None \/ im_worker_current_boot m !! w = Some b.
Proof.
  unfold boot_stale. destruct (im_worker_current_boot m !! w) as [b'|].
  - destruct (id_eqb b' b) eqn:E; cbn.
    + apply id_eqb_eq in E as ->. split; [by right|done].
    + apply id_eqb_neq in E. split; [done|]. intros [?|[= ?]]; done.
  - split; [by left|done].
Qed.

Lemma stale_authority_none pm s m :
  stale_authority pm s m = None <->
  pm_epoch pm = im_epoch m /\ boot_stale (pm_worker pm) (pm_worker_boot pm) m = false /\
  pm_attempt pm = s_current_attempt s /\ id_value (pm_generation pm) = s_in_flight_generation s /\
  pm_dispatch pm = s_in_flight_dispatch s /\ is_stopped (s_machine s) = false.
Proof.
  assert (Hst : is_stopped (s_machine s) = is_terminal (s_machine s) || is_cancelling (s_machine s)
                 || bool_decide (s_machine s = SequenceState.DeadlineExpired))
    by (destruct (s_machine s); vm_compute; reflexivity).
  unfold stale_authority. rewrite Hst. split.
  - destruct (id_eqb (pm_epoch pm) _) eqn:E1; [|done]. destruct (boot_stale _ _ m); [done|].
    destruct (id_eqb (pm_attempt pm) _) eqn:E2; [|done].
    destruct (Z.eqb_spec (id_value (pm_generation pm)) (s_in_flight_generation s)); [|done].
    destruct (id_eqb (pm_dispatch pm) _) eqn:E3; [|done]. apply id_eqb_eq in E1, E2, E3.
    destruct (is_terminal _), (is_cancelling _), (bool_decide _); done.
  - intros (-> & -> & -> & -> & -> & Hs). rewrite !id_eqb_refl, Z.eqb_refl.
    destruct (is_terminal _), (is_cancelling _), (bool_decide _); done.
Qed.

Lemma binding_error_iff pm s :
  binding_error pm s = None <->
  s_has_inflight_grant s = false /\ pm_committed_position_before pm = s_generated s /\
  (s_state_digest_established s = true -> pm_pre_state_digest pm = s_committed_state_digest s).
Proof.
  split; [apply binding_error_none|]. intros (H1 & H2 & H3). unfold binding_error. rewrite H1, H2, Z.eqb_refl. cbn.
  destruct (s_state_digest_established s); [|done]. by rewrite H3, Z.eqb_refl.
Qed.

(** The terms of the grant that answers the member [pm] of the message [prepared].  Proposal, sequence, state, attempt,
    generation, dispatch, position, digests and outcome are those of the member; the epoch, the worker and its boot are those
    the message names for the whole group, which are not compared with the member's. *)
Record grant_terms (prepared : PreparedDecode) (pm : PreparedMember) (gid : GrantId) (g : CommitGrant) : Prop := {
  gm_id : g_grant_id g = gid;
  gm_proposal : g_proposal g = pm_proposal pm;
  gm_sequence : g_sequence g = pm_sequence pm;
  gm_state : g_state g = pm_state pm;
  gm_attempt : g_attempt g = pm_attempt pm;
  gm_generation : g_generation g = pm_generation pm;
  gm_dispatch : g_dispatch g = pm_dispatch pm;
  gm_position : g_committed_position g = pm_committed_position_before pm;
  gm_digests : g_pre_state_digest g = pm_pre_state_digest pm /\ g_post_state_digest g = pm_post_state_digest pm /\
    g_delta_digest g = pm_delta_digest pm;
  gm_outcome : g_outcome_kind g = mo_kind (pm_outcome pm) /\ g_terminal g = mo_terminal (pm_outcome pm) /\
    g_token_identifier g = mo_token_identifier (pm_outcome pm) mod 2 ^ 32 /\ g_active_ns g = pm_active_ns pm;
  gm_envelope : g_epoch g = pd_epoch prepared /\ g_worker g = pd_worker prepared /\ g_worker_boot g = pd_worker_boot prepared;
}.

Lemma grant_entered prepared pm m s rid :
  im_seqs m !! pm_sequence pm = Some s ->
  let '(g, m1) := issue_grant prepared pm m in
  let m' := record_event EventKind.ReservationGranted rid (pm_sequence pm) "commit_grant_issued" m1 in
  grant_terms prepared pm (mkId (im_next_grant m)) g /\
  im_grant_ledger m' = <[g_grant_id g := mkGrantRecord g 0 None]> (im_grant_ledger m) /\
  pending_grant (pm_sequence pm) m' = g_grant_id g /\ has_pending_grant (pm_sequence pm) m' = true.
Proof.
  intros Hs. destruct (issue_grant_fields prepared pm m) as (L & _ & _ & _ & _ & Sq).
  destruct (record_event_fields EventKind.ReservationGranted rid (pm_sequence pm) "commit_grant_issued"
    (issue_grant prepared pm m).2) as (Es & Ev & _). apply ledger_view_fields in Ev as (El & _).
  change (issue_grant prepared pm m) with (grant_for prepared pm (mkId (im_next_grant m)), (issue_grant prepared pm m).2).
  cbv zeta. unfold pending_grant, has_pending_grant. rewrite El, Es, L, Sq, lookup_alter_eq, Hs.
  cbn [fmap option_fmap option_map from_option]. split_and!; [by split|done|by rsimpl|by rsimpl].
Qed.

(** C4: a grant is issued exactly to current authority.  For one prepared member, [authorize_prepared]
    answers with a grant if and only if the sequence exists, the member's epoch is the current one, its worker has registered
    no other boot, its attempt, generation and dispatch are those in flight for the sequence, the sequence is not stopped, the
    outcome is a success that was not accepted before, no other grant is pending, and the proposal
    starts from the committed position and digest.  The grant then carries the terms above under
    the next grant number, is entered in the ledger as pending and is the one in flight for the sequence; in every other
    case the answer is an abort with the member's whole authority tuple, and the ledger is untouched. *)
Theorem grant_issued_iff (prepared : PreparedDecode) (pm : PreparedMember) (out : list GrantOrAbort) (m : Impl) :
  exists ga, (authorize_member prepared (out, m) pm).1 = out ++ [ga] /\
    let m' := (authorize_member prepared (out, m) pm).2 in
    (is_Some (ga_grant ga) <-> exists s, grantable m pm s) /\
    (forall g, ga_grant ga = Some g ->
       grant_terms prepared pm (mkId (im_next_grant m)) g /\
       im_grant_ledger m' = <[g_grant_id g := mkGrantRecord g 0 None]> (im_grant_ledger m) /\
       pending_grant (pm_sequence pm) m' = g_grant_id g /\ has_pending_grant (pm_sequence pm) m' = true /\
       ga_rejected ga = false /\ ga_has_abort ga = false) /\
    (ga_grant ga = None ->
       ga_has_abort ga = true /\ ga_abort_spec ga = abort_of pm /\ im_grant_ledger m' = im_grant_ledger m).
Proof.
  assert (Hno : forall m', quiet m m' -> im_grant_ledger m' = im_grant_ledger m)
    by (intros m' Hq; apply (ledger_view_fields _ _ (q_view _ _ Hq))).
  unfold authorize_member. cbv zeta.
  destruct (im_seqs m !! pm_sequence pm) as [s|] eqn:Hs.
  2:{ eexists. split; [done|]. cbn [snd]. rsimpl. split_and!; [|done|].
      - split; [by intros []|intros [s' [Hx]]; congruence].
      - intros _. split_and!; [done|done|]. apply Hno. auto with quiet. }
  destruct (stale_authority pm s m) as [[[code d] reason]|] eqn:Ha.
  { eexists. split; [done|]. cbn [snd]. rsimpl. split_and!; [|done|].
    - split; [by intros []|intros [s' [H1 H2 H3 H4 H5 H6 H7]]]. rewrite Hs in H1. injection H1 as <-.
      apply boot_stale_false in H3. assert (stale_authority pm s m = None) by by apply stale_authority_none. congruence.
    - intros _. split_and!; [done|done|]. apply Hno. auto 10 with quiet. }
  apply stale_authority_none in Ha as (A1 & A2 & A3 & A4 & A5 & A6).
  destruct (is_commit_eligible pm) eqn:He; cbn [negb].
  2:{ eexists. split; [done|]. cbn [snd]. rsimpl. split_and!; [|done|].
      - split; [by intros []|intros [s' [? ? ? ? ? ? ? Hx]]; congruence].
      - intros _. split_and!; [done|done|]. apply Hno. auto 10 with quiet. }
  destruct (s_has_accepted s && (ac_idempotency_key (s_accepted s) =? acceptance_key_prepared pm)) eqn:Hk.
  { apply andb_true_iff in Hk as [K1 K2%Z.eqb_eq]. eexists. split; [done|]. cbn [snd]. rsimpl. split_and!; [|done|].
    - split; [by intros []|intros [s' [H1 ? ? ? ? ? ? ? Hf]]]. rewrite Hs in H1. injection H1 as <-. by destruct Hf.
    - intros _. split_and!; [done|done|]. apply Hno. auto 10 with quiet. }
  destruct (binding_error pm s) as [[code reason]|] eqn:Hb.
  { eexists. split; [done|]. cbn [snd]. rsimpl. split_and!; [|done|].
    - split; [by intros []|intros [s' [H1 ? ? ? ? ? ? ? ? F1 F2 F3]]]. rewrite Hs in H1. injection H1 as <-.
      assert (binding_error pm s = None) by by apply binding_error_iff. congruence.
    - intros _. split_and!; [done|done|]. apply Hno. auto 10 with quiet. }
  apply binding_error_iff in Hb as (B1 & B2 & B3). pose proof (grant_entered prepared pm m s (rq_id (s_req s)) Hs) as Hg.
  destruct (issue_grant prepared pm m) as [g m1]. eexists. split; [done|]. cbn [snd]. rsimpl.
  split_and!; [|by intros g' [= <-]; destruct Hg as (G1 & G2 & G3 & G4)|done].
  split; [|by eexists]. intros _. exists s. apply boot_stale_false in A2. split; auto.
  intros [K1 K2]. rewrite K1, K2, Z.eqb_refl in Hk. done.
Qed.

(** ** From a grant to the next token *)

Lemma finalize_lookup rec s m :
  im_seqs m !! rc_sequence rec = Some s ->
  exists s', im_seqs (finalize_receipt rec s m) !! rc_sequence rec = Some s' /\
    s_machine s' = transition_to_state
      (if rc_terminal rec || tb_exhausted (fst (tb_advance 1 (s_budget s))) then SequenceState.Completed
       else SequenceState.ReadyForNextToken)
      (transition_to_state SequenceState.StepCompleted (s_machine s)) /\
    s_budget s' = fst (tb_advance 1 (s_budget s)) /\ s_generated s' = s_generated s +64 1 /\
    s_generation s' = s_generation s +64 1 /\ s_committed_state_digest s' = rc_post_state_digest rec /\
    s_has_inflight_grant s' = false /\ s_has_inflight s' = false /\ s_reservation s' = null_id /\
    s_accepted s' = make_accepted rec true.
Proof.
  intros Hs. unfold finalize_receipt. cbv zeta.
  assert (exists fin m1, (if negb (rc_committed_at rec =? 0) then (rc_committed_at rec, m) else now m) = (fin, m1)
    /\ im_seqs m1 = im_seqs m) as (fin & m1 & -> & Hs1) by (case_match; eexists _, _; done).
  unfold close_transaction, settle_step. cbv zeta. autorewrite with seqs. rsimpl. autorewrite with seqs.
  rewrite !decide_True by done.
  replace (s_budget (commit_seq rec fin s)) with (fst (tb_advance 1 (s_budget s))) by (unfold commit_seq; by rsimpl).
  destruct (rc_terminal rec || _); repeat (autorewrite with seqs; rsimpl); rewrite !decide_True, Hs1, Hs by done; cbn [fmap option_fmap option_map];
    eexists; (split; [done|]); unfold commit_seq; rsimpl; split_and!; done.
Qed.

(** The protocol makes progress.  A dispatched sequence whose prepared member is grantable gets its
    grant; and the receipt bound to that grant, applied next, finalizes the step: the grant is
    consumed, generation and tokens advance by one, the receipt's post-state is the committed state,
    nothing stays in flight, and the sequence is ready for its next token, or completed if the
    receipt is terminal or the budget is used up. *)
Theorem commit_cycle (prepared : PreparedDecode) (pm : PreparedMember) (m : Impl) (s : Seq) (rec : MemberReceipt) :
  let m1 := (authorize_prepared prepared m).2 in
  let m2 := (apply_commit_receipt (mkReceiptDecode (pd_dispatch_id prepared) (pd_epoch prepared) (pd_worker prepared)
               (pd_worker_boot prepared) [rec] ErrorCode.Ok "") m1).2 in
  pd_members prepared = [pm] -> grantable m pm s -> s_machine s = SequenceState.Dispatched ->
  receipt_fits rec (grant_for prepared pm (mkId (im_next_grant m))) = true ->
  exists s', im_seqs m2 !! pm_sequence pm = Some s' /\ grant_status (rc_grant_id rec) m2 = 1 /\
    s_generation s' = s_generation s +64 1 /\ s_generated s' = s_generated s +64 1 /\
    s_committed_state_digest s' = rc_post_state_digest rec /\
    s_has_inflight_grant s' = false /\ s_has_inflight s' = false /\ s_reservation s' = null_id /\
    s_machine s' = if rc_terminal rec || tb_exhausted (fst (tb_advance 1 (s_budget s)))
                   then SequenceState.Completed else SequenceState.ReadyForNextToken.
Proof.
  intros m1 m2 Hpm Hg Hd Hf. pose proof (receipt_fits_fields _ _ Hf) as (F1 & F2 & _). cbn in F1, F2.
  set (gid := mkId (im_next_grant m) : GrantId) in *.
  assert (Hm1 : m1 = record_event EventKind.ReservationGranted (rq_id (s_req s)) (pm_sequence pm) "commit_grant_issued"
                       (issue_grant prepared pm m).2).
  { subst m1. unfold authorize_prepared. rewrite Hpm. cbn [foldl authorize_member]. destruct Hg as [G1 G2 G3 G4 G5 G6 G7 G8 G9 G10 G11 G12].
    rewrite G1. apply boot_stale_false in G3. rewrite (proj2 (stale_authority_none pm s m)) by done. rewrite G8. cbn [negb].
    destruct (s_has_accepted s && _) eqn:K; [apply andb_true_iff in K as [? ?%Z.eqb_eq]; by destruct G9|].
    rewrite (proj2 (binding_error_iff pm s)) by done. done. }
  destruct (issue_grant_fields prepared pm m) as (L & _ & _ & _ & _ & Sq).
  destruct (record_event_fields EventKind.ReservationGranted (rq_id (s_req s)) (pm_sequence pm) "commit_grant_issued"
    (issue_grant prepared pm m).2) as (Es & Ev & _). rewrite <- Hm1 in Es, Ev. apply ledger_view_fields in Ev as (El & _).
  rewrite L in El. rewrite Sq in Es. fold gid in El, Es.
  assert (Hs1 : exists s1, im_seqs m1 !! pm_sequence pm = Some s1 /\ s_machine s1 = s_machine s /\ s_budget s1 = s_budget s /\
    s_generated s1 = s_generated s /\ s_generation s1 = s_generation s /\ s_has_inflight_grant s1 = true /\
    s_in_flight_grant s1 = gid /\ s_in_flight_proposal s1 = pm_proposal pm).
  { rewrite Es, lookup_alter_eq, (gt_seq _ _ _ Hg). eexists. split; [done|]. rsimpl. done. }
  destruct Hs1 as (s1 & Hs1 & E1 & E2 & E3 & E4 & E5 & E6 & E7).
  assert (Hrec : apply_receipt m1 rec = finalize_receipt rec s1 m1).
  { unfold apply_receipt. rewrite El, F1, lookup_insert_eq. cbn [gr_status Z.eqb].
    rewrite (proj2 (receipt_error_iff rec _ m1)).
    - by rewrite F2, Hs1.
    - split; [done|]. exists s1. rewrite F2, F1. split_and!; try done.
      + rewrite E7. symmetry. unfold receipt_fits in Hf. rewrite !andb_true_iff, !id_eqb_eq in Hf. tauto.
      + by rewrite E1, (gt_live _ _ _ Hg). }
  rewrite <- F2 in Hs1. destruct (finalize_lookup rec s1 m1 Hs1) as (s' & Hs' & R1 & _ & R3 & R4 & R5 & R6 & R7 & R8 & _).
  exists s'. subst m2. unfold apply_commit_receipt. cbn [snd rd_receipts foldl]. rewrite Hrec, <- F2. split_and!; try congruence.
  - exact Hs'.
  - unfold grant_status. pose proof (fz_view _ _ _ (finalize_spec rec s1 m1 Hs1)) as Fv. unfold ledger_view in Fv.
    injection Fv as _ L' _ _ _ _ _ _ _. change (im_grant_ledger (refresh_derived_stats ?x)) with (im_grant_ledger x).
    rewrite L', lookup_alter_eq, El, F1, lookup_insert_eq. cbn. by rsimpl.
  - rewrite R1, E1, E2, Hd. generalize (rc_terminal rec || tb_exhausted (fst (tb_advance 1 (s_budget s)))). intros []; reflexivity.
Qed.
End authorization.
