(* ===== verification/MemoryBooks.v ===== *)
(** * Device memory is not overcommitted

    The memory books of the fabric: what the devices have, what is reserved on them, and the reservations that are
    live.  No operation lets the live reservations of a device exceed its memory. *)

From S2P Require Import Prelude Enums Errors Token StateMachine Ids Compatibility Types Double FabricState FabricFrame FabricOps Schedule ScheduleTheorems Transaction FabricInvariants.

(** The bytes of a reservation on a device, and of all live reservations. *)
Definition bytes_on (dev : DeviceId) (rv : Reservation) : Z := if id_eqb (rv_device rv) dev then rv_bytes rv else 0.
Definition live_bytes (rs : gmap ReservationId Reservation) (dev : DeviceId) : Z := map_fold (fun _ rv n => bytes_on dev rv + n) 0 rs.

Lemma live_bytes_insert rs dev rid rv :
  rs !! rid = None -> live_bytes (<[rid := rv]> rs) dev = bytes_on dev rv + live_bytes rs dev.
Proof. intros H. unfold live_bytes. apply (map_fold_insert_L (fun _ rv n => bytes_on dev rv + n)); [intros; lia|done]. Qed.

Lemma live_bytes_delete rs dev rid rv :
  rs !! rid = Some rv -> live_bytes rs dev = bytes_on dev rv + live_bytes (delete rid rs) dev.
Proof. intros H. rewrite <- (insert_delete_id rs rid rv H) at 1. apply live_bytes_insert, lookup_delete_eq. Qed.

Lemma live_bytes_nonneg rs dev : (forall rid rv, rs !! rid = Some rv -> 0 <= rv_bytes rv) -> 0 <= live_bytes rs dev.
Proof.
  induction rs as [|rid rv rs Hf IH] using map_ind; intros Hb; [done|]. rewrite live_bytes_insert by done.
  assert (0 <= bytes_on dev rv) by (unfold bytes_on; case_match; [apply (Hb rid); apply lookup_insert_eq|lia]).
  assert (0 <= live_bytes rs dev); [|lia]. apply IH. intros rid' rv' H'. apply (Hb rid'). rewrite lookup_insert_ne; [done|congruence].
Qed.

Lemma live_bytes_none rs dev : (forall rid rv, rs !! rid = Some rv -> rv_device rv <> dev) -> live_bytes rs dev = 0.
Proof.
  induction rs as [|rid rv rs Hf IH] using map_ind; intros Hb; [done|]. rewrite live_bytes_insert by done. unfold bytes_on.
  destruct (id_eqb_spec (rv_device rv) dev) as [E|_]; [by destruct (Hb rid rv); [apply lookup_insert_eq|]|]. rewrite IH; [done|].
  intros rid' rv' H'. apply (Hb rid'). rewrite lookup_insert_ne; [done|congruence].
Qed.

(** The books are in order. *)
Record books (m : Impl) : Prop := {
  bk_devices : forall dev dm, im_dev_mem m !! dev = Some dm ->
    0 < dm_capacity dm < 2 ^ 64 /\ live_bytes (im_reservations m) dev <= dm_reserved dm <= dm_capacity dm;
  bk_live : forall rid rv, im_reservations m !! rid = Some rv -> 0 <= rv_bytes rv /\ is_Some (im_dev_mem m !! rv_device rv);
  bk_workers : forall wid w, im_workers m !! wid = Some w -> is_Some (im_dev_mem m !! d_id (wk_device w));
}.

Section frames.
Context {CLK : Clock} {ORD : MapOrder}.
Implicit Types (m : Impl).

Lemma books_same m m' :
  im_dev_mem m' = im_dev_mem m -> im_reservations m' = im_reservations m -> im_workers m' = im_workers m -> books m -> books m'.
Proof. intros E1 E2 E3 [H1 H2 H3]. split; by rewrite ?E1, ?E2, ?E3. Qed.

Lemma books_upd_seq x f m : books m -> books (upd_seq x f m).
Proof. by apply books_same. Qed.
Lemma books_transition x st m : books m -> books (transition x st m).
Proof. by apply books_same. Qed.
Lemma books_stamp x m : books m -> books (stamp_ready x m).
Proof. by apply books_same. Qed.
Lemma books_event k r s d m : books m -> books (record_event k r s d m).
Proof. unfold record_event. cbn [now]. case_match; by apply books_same. Qed.
Lemma books_bump (f : Stats -> Z) `{!Setter f} m : books m -> books (bump f m).
Proof. by apply books_same. Qed.
Lemma books_id m : books m -> books (id_impl m).
Proof. done. Qed.
Lemma books_tenant t m : books m -> books (tenant_done t m).
Proof. by apply books_same. Qed.
Lemma books_tokens t n m : books m -> books (update_tenant_tokens t n m).
Proof. by apply books_same. Qed.
Lemma books_terminal x st m : books m -> books (record_terminal x st m).
Proof. by apply books_same. Qed.
Lemma books_refresh m : books m -> books (refresh_derived_stats m).
Proof. by apply books_same. Qed.

(** Releasing takes a reservation and its bytes off the books. *)
Lemma books_release x m : books m -> books (release x m).
Proof.
  intros Hb. unfold release, release_reservation. destruct (im_seqs m !! x) as [s|]; [|done]. destruct (is_null _); [done|].
  cbv zeta. cbn [fst]. apply books_upd_seq. destruct (im_reservations m !! s_reservation s) as [rv|] eqn:Hr; [|done].
  destruct (negb (rv_released rv)); [|done]. apply books_event. destruct Hb as [H1 H2 H3].
  destruct (H2 _ _ Hr) as [Hn _]. split; rsimpl.
  - intros dev dm. destruct (decide (dev = rv_device rv)) as [->|Hd].
    + rewrite lookup_alter_eq. intros (dm0 & Hd0 & ->)%fmap_Some. destruct (H1 _ _ Hd0) as [Hc Hs]. rsimpl. split; [done|].
      rewrite (live_bytes_delete _ _ _ _ Hr) in Hs. unfold bytes_on in Hs at 1. rewrite id_eqb_refl in Hs.
      assert (0 <= live_bytes (delete (s_reservation s) (im_reservations m)) (rv_device rv)).
      { apply live_bytes_nonneg. intros rid' rv' [_ H']%lookup_delete_Some. by apply (H2 rid'). }
      destruct (Z.geb_spec (dm_reserved dm0) (rv_bytes rv)); lia.
    + rewrite lookup_alter_ne by done. intros Hd0. destruct (H1 _ _ Hd0) as [Hc Hs]. split; [done|].
      rewrite (live_bytes_delete _ _ _ _ Hr) in Hs. unfold bytes_on in Hs at 1. destruct (id_eqb_spec (rv_device rv) dev); [congruence|]. lia.
  - intros rid' rv' [_ H']%lookup_delete_Some. rewrite lookup_alter_is_Some. by apply (H2 rid').
  - intros wid w Hw. rewrite lookup_alter_is_Some. by apply (H3 wid).
Qed.
End frames.

Create HintDb books.
#[export] Hint Resolve books_upd_seq books_transition books_stamp books_event books_bump books_id books_tenant books_tokens books_terminal
  books_refresh books_release : books.
Ltac books_walk := repeat case_match; cbn [fst snd]; auto 40 with books nocore.

(** ** The operations *)

Section operations.
Context {CLK : Clock} {ORD : MapOrder}.
Implicit Types (m : Impl).

Lemma books_expire x t m : books m -> books (expire_seq x t m).
Proof. intros H. unfold expire_seq. books_walk. Qed.
Lemma books_cancel_seq x t m : books m -> books (cancel_seq x t m).
Proof. intros H. unfold cancel_seq. books_walk. Qed.
Lemma books_stale x m : books m -> books (stale_reconcile x m).
Proof. intros H. unfold stale_reconcile. cbv zeta. books_walk. Qed.
Lemma books_attempt x m : books m -> books (start_attempt x m).
Proof. intros H. unfold start_attempt. books_walk. Qed.
Lemma books_reject r x d m : books m -> books (reject_stale r x d m).
Proof. intros H. unfold reject_stale. books_walk. Qed.
#[local] Hint Resolve books_expire books_cancel_seq books_stale books_attempt books_reject : books.

Lemma books_noncommit x mo m : books m -> books (apply_noncommit_outcome x mo m).
Proof. intros H. unfold apply_noncommit_outcome. cbv zeta. books_walk. Qed.
#[local] Hint Resolve books_noncommit : books.

Lemma books_foldl {B} (f : Impl -> B -> Impl) l m : (forall m b, books m -> books (f m b)) -> books m -> books (foldl f m l).
Proof. intros Hf Hm. apply foldl_inv; [done|]. intros m' b _. apply Hf. Qed.

Lemma books_submit req m : books m -> books (submit req m).2.
Proof.
  intros H. unfold submit. destruct (validate req); [|books_walk].
  assert (Hk : books (build_key req m).2) by (unfold build_key; destruct (rq_arrival req =? 0); [by apply (books_same m)|exact H]).
  destruct (build_key req m) as [req' m']. cbn [snd] in Hk. destruct (negb _); [books_walk|]. destruct (backpressure req' m'); [books_walk|].
  cbv zeta. destruct (is_valid (rq_sequence req') && _); [books_walk|]. destruct (is_valid (rq_sequence req')); cbn [snd].
  all: apply books_event; by apply (books_same m').
Qed.

Lemma books_cancel x m : books m -> books (cancel x m).2.
Proof. intros H. unfold cancel. cbv zeta. books_walk. Qed.

Lemma books_retry x m : books m -> books (retry x m).2.
Proof. intros H. unfold retry. cbv zeta. books_walk. Qed.

Lemma books_advance tn m : books m -> books (advance tn m).2.
Proof. unfold advance. cbn [snd]. apply books_foldl. intros m' x H. unfold advance_seq. books_walk. Qed.

Lemma books_dead w m : books m -> books (mark_worker_dead w m).2.
Proof.
  intros H. unfold mark_worker_dead. cbv zeta. cbn [snd]. apply books_foldl; [intros m' x H'; unfold reconcile_dead; cbv zeta; books_walk|].
  apply books_event. destruct H as [H1 H2 H3]. split; rsimpl; [done|done|]. intros wid d. destruct (decide (wid = w)) as [->|Hn].
  - rewrite lookup_alter_eq. intros (d0 & Hd & ->)%fmap_Some. rsimpl. by apply (H3 w).
  - rewrite lookup_alter_ne by done. apply H3.
Qed.

(** A worker whose device has memory opens or extends the books of the device. *)
Lemma books_register wd m :
  0 < d_memory_bytes (wk_device wd) < 2 ^ 64 -> books m -> books (register_worker wd m).2.
Proof.
  intros Hmem H. unfold register_worker. destruct (negb _); [done|]. cbn [snd]. apply books_event. destruct H as [H1 H2 H3].
  set (dev := d_id (wk_device wd)). split; rsimpl.
  - intros dev' dm. destruct (decide (dev' = dev)) as [->|Hn]; [|rewrite lookup_insert_ne by congruence; apply H1].
    rewrite lookup_insert_eq. intros [= <-]. rsimpl. destruct (im_dev_mem m !! dev) as [dm|] eqn:Hd; cbn [default from_option id].
    + destruct (H1 _ _ Hd) as [Hc Hs]. unfold id. lia.
    + rewrite live_bytes_none; [cbn; lia|]. intros rid rv Hr E. destruct (H2 rid rv Hr) as [_ [dm Hdm]]. congruence.
  - intros rid rv Hr. destruct (H2 _ _ Hr) as [? ?]. split; [done|]. rewrite lookup_insert_is_Some'. by right.
  - intros wid w Hw. rewrite lookup_insert_is_Some'. apply lookup_insert_Some in Hw as [[_ <-]|[_ Hw]]; [by left|right; by apply (H3 wid)].
Qed.

Lemma books_completion r m : books m -> books (apply_completion r m).2.
Proof.
  intros H. unfold apply_completion. cbn [snd]. apply books_refresh, books_foldl; [|done]. intros m' mo H'. unfold complete_member. cbv zeta. books_walk.
Qed.

Lemma books_authorize p m : books m -> books (authorize_prepared p m).2.
Proof.
  intros H. unfold authorize_prepared. assert (K : books (foldl (authorize_member p) ([], m) (pd_members p)).2).
  { apply (foldl_inv (fun acc => books acc.2)); [done|]. intros [out m'] pm _ H'. cbn [snd] in H'. unfold authorize_member. cbv zeta.
    assert (Hi : books (issue_grant p pm m').2) by (by apply (books_same m')). destruct (issue_grant p pm m') as [g m1]. cbn [snd] in Hi. books_walk. }
  by destruct (foldl (authorize_member p) ([], m) (pd_members p)) as [out m'].
Qed.

Lemma books_settle rec fin s m : books m -> books (settle_step rec fin s m).
Proof. intros H. unfold settle_step. cbv zeta. books_walk. Qed.

Lemma books_finalize rec s m : books m -> books (finalize_receipt rec s m).
Proof.
  intros H. unfold finalize_receipt. cbv zeta. assert (exists fin m1, (if negb (rc_committed_at rec =? 0) then (rc_committed_at rec, m) else now m) = (fin, m1)
    /\ books m1) as (fin & m1 & -> & H1) by (case_match; eexists _, _; (split; [done|]); by apply (books_same m)).
  unfold close_transaction. cbv zeta. apply books_event. set (m2 := release _ _). assert (H2 : books m2); [|by apply (books_same m2)].
  apply books_release, books_upd_seq. set (m3 := settle_step _ _ _ _). assert (H3 : books m3); [|by apply (books_same m3)].
  by apply books_settle, books_event, books_tokens, (books_same m1).
Qed.
#[local] Hint Resolve books_finalize : books.

Lemma books_receipts r m : books m -> books (apply_commit_receipt r m).2.
Proof.
  intros H. unfold apply_commit_receipt. cbn [snd]. apply books_refresh, books_foldl; [|done]. intros m' rec H'. unfold apply_receipt. cbv zeta. books_walk.
Qed.

Lemma books_abort a m : books m -> books (abort_prepared a m).2.
Proof.
  intros H. unfold abort_prepared. cbv zeta. destruct (im_seqs m !! ab_sequence a) as [s|]; [|done]. destruct (_ && _); [|done]. cbn [snd].
  set (m1 := upd im_grant_ledger _ m). assert (H1 : books m1) by (by apply (books_same m)). clearbody m1. books_walk.
Qed.

(** *** Scheduling *)

Lemma group_growth_nonneg m l : 0 <= group_growth m l.
Proof.
  unfold group_growth. apply (foldl_inv (fun n => 0 <= n)); [done|]. intros n x _ _. apply Z.mod_pos_bound. done.
Qed.

(** A group that fits the headroom can be entered. *)
Lemma books_reserve tn d growth m dm :
  books m -> im_dev_mem m !! d_id (dp_device d) = Some dm -> 0 <= growth -> has_headroom dm growth = true -> books (reserve_group tn d growth m).
Proof.
  intros [H1 H2 H3] Hdm Hg Hh. destruct (H1 _ _ Hdm) as [Hc Hs]. unfold has_headroom in Hh. destruct (Z.gtb_spec (dm_capacity dm) 0); [|lia].
  apply negb_true_iff, orb_false_iff in Hh as [Hh _].
  assert (Hfit : dm_reserved dm + growth <= dm_capacity dm).
  { rewrite Z.gtb_ltb, Z.ltb_ge in Hh. destruct (Z.gtb_spec (dm_capacity dm) (dm_reserved dm)); lia. }
  assert (Hnn : 0 <= live_bytes (im_reservations m) (d_id (dp_device d))) by (apply live_bytes_nonneg; intros rid rv Hr; apply (H2 rid rv Hr)).
  unfold reserve_group. cbv zeta. set (rv := mkReservation _ _ _ _ _ _ _ _ _). set (m1 := upd im_dev_mem _ _).
  assert (Hb : books m1); [|set (m2 := record_event _ _ _ _ _); apply (books_same m2); [done..|by apply books_event]]. unfold m1. clear m1. split; rsimpl.
  - assert (Hlive : forall dev, live_bytes (if bool_decide (is_Some (im_reservations m !! dp_reservation d)) then im_reservations m
        else <[dp_reservation d := rv]> (im_reservations m)) dev <= bytes_on dev rv + live_bytes (im_reservations m) dev).
    { intros dev. assert (0 <= bytes_on dev rv) by (unfold bytes_on; by destruct (id_eqb _ _)). case_bool_decide as Hi; [lia|].
      rewrite live_bytes_insert; [lia|]. by apply eq_None_not_Some. }
    intros dev dm'. specialize (Hlive dev). unfold bytes_on in Hlive. cbn [rv_device rv_bytes rv] in Hlive. destruct (decide (dev = d_id (dp_device d))) as [->|Hn].
    + rewrite lookup_alter_eq, Hdm. intros [= <-]. rsimpl. rewrite id_eqb_refl in Hlive. rewrite wrap_id_small by lia. lia.
    + rewrite lookup_alter_ne by congruence. intros Hd'. destruct (H1 _ _ Hd') as [Hc' Hs'].
      destruct (id_eqb_spec (d_id (dp_device d)) dev); [congruence|]. lia.
  - intros rid rv'. rewrite lookup_alter_is_Some. case_bool_decide; [apply H2|].
    intros [[_ <-]|[_ Hr]]%lookup_insert_Some; [|by apply (H2 rid)]. cbn [rv_bytes rv_device rv]. by rewrite Hdm.
  - intros wid w Hw. rewrite lookup_alter_is_Some. by apply (H3 wid).
Qed.

Lemma books_dispatch_member d acc x : books acc.2 -> books (dispatch_member d acc x).2.
Proof. destruct acc as [specs m]. cbn [snd]. intros H. unfold dispatch_member. books_walk. Qed.

Lemma books_place tn acc g : books acc.2 -> books (place_group tn acc g).2.
Proof.
  destruct acc as [out m]. cbn [snd]. intros H. unfold place_group. case_bool_decide; [done|].
  assert (Hrev : forall m', books m' -> books (revert_members (f_members g) m')) by (intros; apply books_foldl; [intros; by apply books_transition|done]).
  destruct (choose_worker (f_key g) m) as [[wid w]|] eqn:Hw; [|by apply Hrev]. cbv zeta. apply choose_worker_fits in Hw as [Hw _].
  destruct (bk_workers _ H _ _ Hw) as [dm Hdm]. set (m1 := upd im_dev_mem _ m).
  assert (E : im_dev_mem m1 = im_dev_mem m) by (unfold m1; rsimpl; rewrite Hdm; by apply insert_id).
  assert (H1 : books m1) by (by apply (books_same m)). rewrite E, Hdm. cbn [default from_option id]. clearbody m1.
  destruct (negb _) eqn:Hh; [by apply books_event, Hrev|]. apply negb_false_iff in Hh. unfold issue_dispatch. cbv zeta.
  set (d := new_dispatch tn g w m1). set (growth := group_growth m (f_members g)).
  assert (H2 : books (foldl (dispatch_member d) ([], reserve_group tn d growth m1) (f_members g)).2).
  { apply (foldl_inv (fun acc => books acc.2)); [|intros acc x _; apply books_dispatch_member]. apply (books_reserve tn d growth m1 dm); [done| |apply group_growth_nonneg|done].
    by rewrite E. }
  destruct (foldl (dispatch_member d) _ _) as [specs m2]. cbn [snd] in *. apply books_event, books_bump. destruct H2 as [B1 B2 B3]. split; rsimpl; [done|done|].
  intros wid' w'. destruct (decide (wid' = wid)) as [->|Hn]; [|rewrite lookup_alter_ne by done; apply B3].
  rewrite lookup_alter_eq. intros (w0 & Hw0 & ->)%fmap_Some. rsimpl. by apply (B3 wid).
Qed.

Lemma books_schedule tn m : books m -> books (schedule tn m).2.
Proof.
  intros H. unfold schedule. cbv zeta.
  assert (H1 : books (sched_boundary tn m)) by (apply books_foldl; [intros m' x H'; unfold boundary_seq; cbv zeta; books_walk|done]).
  set (m1 := sched_boundary tn m) in *. clearbody m1.
  assert (H2 : books (sched_collect tn m1).2).
  { unfold sched_collect. apply (foldl_inv (fun acc => books acc.2)); [done|]. intros [cands m'] x _ H'. cbn [snd] in H'. unfold collect_seq. cbv zeta. books_walk. }
  destruct (sched_collect tn m1) as [cands m2]. cbn [snd] in H2.
  assert (H3 : books (foldl (form_cand tn) (∅, [], m2) (stable_sort cands)).2).
  { apply (foldl_inv (fun acc => books acc.2)); [done|]. intros [[index formed] m'] c _ H'. cbn [snd] in H'. unfold form_cand. cbv zeta.
    fold (group_for c index formed). destruct (group_for c index formed) as [[gi index1] formed1]. books_walk. }
  unfold sched_form. destruct (foldl (form_cand tn) _ _) as [[index formed] m3]. cbn [snd] in H3.
  assert (H4 : books (sched_place tn formed m3).2) by (unfold sched_place; apply (foldl_inv (fun acc => books acc.2)); [done|intros acc g _; apply books_place]).
  destruct (sched_place tn formed m3) as [out m4]. by apply books_refresh.
Qed.

(** ** Every run *)

Lemma books_new cfg : books (new_fabric cfg).
Proof. split; intros k v H; [change (im_dev_mem _) with (∅ : gmap DeviceId DevMem) in H|change (im_reservations _) with (∅ : gmap ReservationId Reservation) in H|
  change (im_workers _) with (∅ : gmap WorkerId WorkerDescriptor) in H]; by apply lookup_empty_Some in H. Qed.

(** The workers that register have devices with memory. *)
Definition registers_memory (op : Op) : Prop :=
  match op with ORegisterWorker wd => 0 < d_memory_bytes (wk_device wd) < 2 ^ 64 | _ => True end.

Lemma books_step m op : registers_memory op -> books m -> books (step m op).
Proof.
  intros Hr H. destruct op; cbn [step]; auto using books_submit, books_cancel, books_retry, books_register, books_dead, books_advance,
    books_schedule, books_completion, books_authorize, books_receipts, books_abort.
  - unfold cancel_request. case_match; [by apply books_cancel|done].
  - unfold roll_epoch. cbn [snd]. apply books_event. by apply (books_same m).
Qed.

(** C23: device memory is not overcommitted.  In every fabric that any operations lead to from a new one, the workers that
    register having devices that advertise memory, the live reservations on a device add up to no more than what is booked
    as reserved on it, and that is no more than the largest memory any worker advertised for it; every live reservation is on
    a device of the books, and so is the device of every worker. *)
Theorem memory_not_overcommitted (cfg : Config) (ops : list Op) (dev : DeviceId) (dm : DevMem) :
  Forall registers_memory ops ->
  let m := run (new_fabric cfg) ops in
  im_dev_mem m !! dev = Some dm ->
  live_bytes (im_reservations m) dev <= dm_reserved dm <= dm_capacity dm /\
  (forall rid rv, im_reservations m !! rid = Some rv -> is_Some (im_dev_mem m !! rv_device rv)) /\
  (forall wid w, im_workers m !! wid = Some w -> is_Some (im_dev_mem m !! d_id (wk_device w))).
Proof.
  intros Hr m Hd. assert (H : books m).
  { unfold m, run. apply foldl_inv; [apply books_new|]. intros m' op Hop. apply books_step. rewrite Forall_forall in Hr. by apply Hr. }
  destruct H as [H1 H2 H3]. split; [by apply H1|]. split; [|done]. intros rid rv Hrv. by apply (H2 rid).
Qed.
End operations.
