(* ===== verification/PumpTheorems.v ===== *)
(** * The pump keeps the fabric and the executor together

    A pump is a run of the fabric's own operations; every commit the executor accepts is
    finalized by the fabric in the same cycle; and the loop ends. *)

From S2P Require Import Prelude Enums Errors Token StateMachine Ids Compatibility Types Double FabricState FabricFrame FabricOps Schedule ScheduleTheorems Transaction Executor Pump FabricInvariants ProtocolInvariants FabricTheorems Authorization.

(** ** What a pending grant depends on *)

(** The part of a sequence that decides whether a receipt is accepted. *)
Definition tx_view (s : Seq) := (s_machine s, s_has_inflight_grant s, s_in_flight_grant s, s_in_flight_proposal s).

Section frames.
Context {CLK : Clock} {ORD : MapOrder}.
Implicit Types (m : Impl) (x y : SequenceId).

Definition tx_same x m m' : Prop := tx_view <$> (im_seqs m' !! x) = tx_view <$> (im_seqs m !! x).

Lemma tx_refl x m : tx_same x m m.
Proof. done. Qed.
Lemma tx_then x m0 m m' : tx_same x m m' -> tx_same x m0 m -> tx_same x m0 m'.
Proof. unfold tx_same. congruence. Qed.
Lemma tx_seqs x m0 m m' : im_seqs m' = im_seqs m -> tx_same x m0 m -> tx_same x m0 m'.
Proof. unfold tx_same. by intros ->. Qed.
Lemma tx_upd_seq x y f m0 m : x <> y -> tx_same x m0 m -> tx_same x m0 (upd_seq y f m).
Proof. intros Hn. unfold tx_same. by rewrite lookup_upd_seq, decide_False. Qed.
Lemma tx_release x y m0 m : tx_same x m0 m -> tx_same x m0 (release y m).
Proof. unfold tx_same. rewrite lookup_release. case_decide; [|done]. intros <-. by destruct (im_seqs m !! x). Qed.
Lemma tx_transition x y st m0 m : x <> y -> tx_same x m0 m -> tx_same x m0 (transition y st m).
Proof. apply tx_upd_seq. Qed.
Lemma tx_stamp x y m0 m : x <> y -> tx_same x m0 m -> tx_same x m0 (stamp_ready y m).
Proof. intros Hn. unfold tx_same. by rewrite lookup_stamp_ready, decide_False. Qed.
Lemma tx_event x k r s d m0 m : tx_same x m0 m -> tx_same x m0 (record_event k r s d m).
Proof. apply tx_seqs, seqs_record_event. Qed.
Lemma tx_bump x (f : Stats -> Z) `{!Setter f} m0 m : tx_same x m0 m -> tx_same x m0 (bump f m).
Proof. by apply tx_seqs, seqs_bump. Qed.
Lemma tx_id x m0 m : tx_same x m0 m -> tx_same x m0 (id_impl m).
Proof. done. Qed.
Lemma tx_tenant x t m0 m : tx_same x m0 m -> tx_same x m0 (tenant_done t m).
Proof. by apply tx_seqs. Qed.
Lemma tx_terminal x y st m0 m : tx_same x m0 m -> tx_same x m0 (record_terminal y st m).
Proof. by apply tx_seqs. Qed.
End frames.

Create HintDb txf.
#[export] Hint Resolve tx_refl tx_upd_seq tx_release tx_transition tx_stamp tx_event tx_bump tx_id tx_tenant tx_terminal : txf.
Ltac tx_walk := repeat case_match; cbn [fst snd]; auto 40 with txf nocore.

Section authorize.
Context {CLK : Clock} {ORD : MapOrder}.
Implicit Types (m : Impl) (x y : SequenceId).

Lemma tx_stale_reconcile x y m0 m : x <> y -> tx_same x m0 m -> tx_same x m0 (stale_reconcile y m).
Proof. intros Hn H. unfold stale_reconcile. cbv zeta. tx_walk. Qed.
Lemma tx_start_attempt x y m0 m : x <> y -> tx_same x m0 m -> tx_same x m0 (start_attempt y m).
Proof. intros Hn H. unfold start_attempt. tx_walk. Qed.
Lemma tx_reject x r y d m0 m : tx_same x m0 m -> tx_same x m0 (reject_stale r y d m).
Proof. intros H. unfold reject_stale. tx_walk. Qed.
#[local] Hint Resolve tx_stale_reconcile tx_start_attempt tx_reject : txf.
Lemma tx_noncommit x y mo m0 m : x <> y -> tx_same x m0 m -> tx_same x m0 (apply_noncommit_outcome y mo m).
Proof. intros Hn H. unfold apply_noncommit_outcome. cbv zeta. tx_walk. Qed.
#[local] Hint Resolve tx_noncommit : txf.

(** Authorizing one member leaves the other sequences' transactions alone. *)
Lemma tx_authorize_member prepared out m pm x :
  x <> pm_sequence pm -> tx_same x m (authorize_member prepared (out, m) pm).2.
Proof.
  intros Hn. unfold authorize_member. cbv zeta. destruct (im_seqs m !! pm_sequence pm) as [s|]; [|tx_walk].
  destruct (stale_authority pm s m) as [[[code d] r]|]; [tx_walk|]. destruct (is_commit_eligible pm); cbn [negb]; [|tx_walk].
  destruct (s_has_accepted s && _); [tx_walk|]. destruct (binding_error pm s) as [[code r]|]; [tx_walk|].
  cbn [issue_grant snd]. apply tx_event, tx_upd_seq; [done|]. by apply (tx_seqs _ m m).
Qed.

(** ** The grants of one authorization *)

(** The grant is pending in the ledger and in flight for its sequence. *)
Definition open_grant m (g : CommitGrant) : Prop :=
  im_grant_ledger m !! g_grant_id g = Some (mkGrantRecord g 0 None) /\
  exists st, tx_view <$> (im_seqs m !! g_sequence g) = Some (st, true, g_grant_id g, g_proposal g) /\ is_stopped st = false.

(** What authorizing one member does to the ledger, and its answer. *)
Lemma authorize_member_answer prepared out m pm :
  exists ga, authorize_member prepared (out, m) pm = (out ++ [ga], (authorize_member prepared (out, m) pm).2) /\
    let m' := (authorize_member prepared (out, m) pm).2 in
    match ga_grant ga with
    | Some g => g = grant_for prepared pm (mkId (im_next_grant m)) /\ ga_rejected ga = false /\ ga_aborted ga = false /\
        im_grant_ledger m' = <[g_grant_id g := mkGrantRecord g 0 None]> (im_grant_ledger m) /\
        im_next_grant m' = im_next_grant m +64 1 /\ open_grant m' g
    | None => im_grant_ledger m' = im_grant_ledger m /\ im_next_grant m' = im_next_grant m
    end.
Proof.
  assert (Hno : forall m', quiet m m' -> im_grant_ledger m' = im_grant_ledger m /\ im_next_grant m' = im_next_grant m)
    by (intros m' Hq; pose proof (ledger_view_fields _ _ (q_view _ _ Hq)); tauto).
  unfold authorize_member. cbv zeta. destruct (im_seqs m !! pm_sequence pm) as [s|] eqn:Hs.
  2:{ eexists. split; [done|]. rsimpl. apply Hno. cbn [snd]. auto with quiet. }
  destruct (stale_authority pm s m) as [[[code d] reason]|] eqn:Ha.
  { eexists. split; [done|]. rsimpl. apply Hno. cbn [snd]. auto 10 with quiet. }
  destruct (is_commit_eligible pm); cbn [negb].
  2:{ eexists. split; [done|]. rsimpl. apply Hno. cbn [snd]. auto 10 with quiet. }
  destruct (s_has_accepted s && _). { eexists. split; [done|]. rsimpl. apply Hno. cbn [snd]. auto 10 with quiet. }
  destruct (binding_error pm s) as [[code reason]|]. { eexists. split; [done|]. rsimpl. apply Hno. cbn [snd]. auto 10 with quiet. }
  apply stale_authority_none in Ha as (_ & _ & _ & _ & _ & Hl).
  destruct (issue_grant_fields prepared pm m) as (L & N & _ & _ & _ & Sq).
  destruct (record_event_fields EventKind.ReservationGranted (rq_id (s_req s)) (pm_sequence pm) "commit_grant_issued"
    (issue_grant prepared pm m).2) as (Es & Ev & _). cbn [issue_grant]. unfold issue_grant in *. cbn [snd] in *.
  eexists. split; [done|]. rsimpl. apply ledger_view_fields in Ev as (El & En & _). cbn [snd].
  set (m' := record_event _ _ _ _ _) in *. clearbody m'. set (g := grant_for prepared pm _) in *.
  assert (Hled : im_grant_ledger m' = <[g_grant_id g := mkGrantRecord g 0 None]> (im_grant_ledger m)) by (rewrite El; exact L).
  split_and!; [done|done|done|done|congruence|]. split; [by rewrite Hled, lookup_insert_eq|].
  exists (s_machine s). change (g_sequence g) with (pm_sequence pm). rewrite Es, Sq, lookup_alter_eq, Hs.
  split; [|done]. cbn. unfold tx_view. by rsimpl.
Qed.
End authorize.

(** ** A batch of grants *)

Definition granted (gas : list GrantOrAbort) : list CommitGrant := omap ga_grant gas.

(** Grants for distinct sequences under distinct numbers, all open, none for a sequence of [rest]. *)
Record batch_ok (m : Impl) (gs : list CommitGrant) (rest : list SequenceId) : Prop := {
  bo_open : forall g, g ∈ gs -> open_grant m g;
  bo_seqs : NoDup (g_sequence <$> gs);
  bo_gids : NoDup (g_grant_id <$> gs);
  bo_rest : forall g, g ∈ gs -> g_sequence g ∉ rest;
  bo_below : forall g, g ∈ gs -> id_value (g_grant_id g) < im_next_grant m;
}.

Section batch.
Context {CLK : Clock} {ORD : MapOrder}.
Implicit Types (m : Impl).

Lemma open_grant_frame m m' g :
  tx_same (g_sequence g) m m' -> im_grant_ledger m' !! g_grant_id g = im_grant_ledger m !! g_grant_id g ->
  open_grant m g -> open_grant m' g.
Proof. unfold open_grant, tx_same. intros -> ->. done. Qed.

Lemma batch_step prepared out m pm rest :
  batch_ok m (granted out) (pm_sequence pm :: rest) -> pm_sequence pm ∉ rest ->
  0 <= im_next_grant m -> im_next_grant m + 1 < 2 ^ 64 ->
  let '(out', m') := authorize_member prepared (out, m) pm in
  batch_ok m' (granted out') rest /\ im_next_grant m <= im_next_grant m' <= im_next_grant m + 1.
Proof.
  intros [B1 B2 B3 B4 B5] Hr H0 Hb.
  destruct (authorize_member_answer prepared out m pm) as (ga & Ea & H).
  pose proof (fun x => tx_authorize_member prepared out m pm x) as Htx.
  set (m' := (authorize_member prepared (out, m) pm).2) in *. rewrite Ea. clearbody m'. clear Ea.
  assert (Hne : forall g, g ∈ granted out -> g_sequence g <> pm_sequence pm) by (intros g Hg E; apply (B4 g Hg); rewrite E; by left).
  unfold granted in *. rewrite omap_app. cbn [omap list_omap]. destruct (ga_grant ga) as [g|] eqn:Hga.
  - destruct H as (Eg & _ & _ & L & N & Ho). rewrite wrap_id_small in N by lia.
    assert (Hgid : id_value (g_grant_id g) = im_next_grant m) by (by rewrite Eg).
    assert (Hsq : g_sequence g = pm_sequence pm) by (by rewrite Eg). split; [|lia]. split.
    + intros x [Hx|Hx]%elem_of_app; [|apply list_elem_of_singleton in Hx as ->; done].
      apply (open_grant_frame m); [by apply Htx, Hne| |by apply B1]. rewrite L, lookup_insert_ne; [done|].
      intros E. specialize (B5 x Hx). rewrite <- E in B5. lia.
    + rewrite fmap_app. apply NoDup_app. split_and!; [done| |apply NoDup_singleton].
      intros x (g0 & -> & Hg0)%list_elem_of_fmap Hx. apply list_elem_of_singleton in Hx. by apply (Hne g0 Hg0); rewrite Hx.
    + rewrite fmap_app. apply NoDup_app. split_and!; [done| |apply NoDup_singleton].
      intros x (g0 & -> & Hg0)%list_elem_of_fmap Hx. apply list_elem_of_singleton in Hx. specialize (B5 g0 Hg0).
      rewrite Hx in B5. lia.
    + intros x [Hx|Hx]%elem_of_app; [|apply list_elem_of_singleton in Hx as ->; congruence].
      intros Hin. apply (B4 x Hx). by right.
    + intros x [Hx|Hx]%elem_of_app; [specialize (B5 x Hx)|apply list_elem_of_singleton in Hx as ->]; lia.
  - destruct H as [L N]. rewrite app_nil_r. split; [|lia]. split; try done.
    + intros x Hx. apply (open_grant_frame m); [by apply Htx, Hne|by rewrite L|by apply B1].
    + intros x Hx Hin. apply (B4 x Hx). by right.
    + rewrite N. apply B5.
Qed.

Lemma batch_fold prepared pms out m :
  batch_ok m (granted out) (pm_sequence <$> pms) -> NoDup (pm_sequence <$> pms) ->
  0 <= im_next_grant m -> im_next_grant m + Z.of_nat (length pms) < 2 ^ 64 ->
  let '(out', m') := foldl (authorize_member prepared) (out, m) pms in batch_ok m' (granted out') [].
Proof.
  revert out m. induction pms as [|pm pms IH]; intros out m HB Hnd H0 Hb; [done|]. cbn [foldl length fmap list_fmap] in *.
  apply NoDup_cons in Hnd as [Hn Hnd]. pose proof (batch_step prepared out m pm _ HB Hn H0 ltac:(lia)) as Hs.
  destruct (authorize_member prepared (out, m) pm) as [out1 m1]. destruct Hs as [HB1 Hb1]. apply IH; [done|done|lia|lia].
Qed.
End batch.

(** ** Receipts *)

Section receipts.
Context {CLK : Clock} {ORD : MapOrder}.
Implicit Types (m : Impl).

(** The receipt is applied: its grant is consumed by it and its post-state is the committed state. *)
Definition recorded m (rec : MemberReceipt) : Prop :=
  (exists gr, im_grant_ledger m !! rc_grant_id rec = Some gr /\ gr_status gr = 1 /\ gr_receipt gr = Some rec) /\
  exists s, im_seqs m !! rc_sequence rec = Some s /\ s_committed_state_digest s = rc_post_state_digest rec /\
    s_has_inflight_grant s = false /\ s_accepted s = make_accepted rec true.

Lemma finalize_frame rec s m x : x <> rc_sequence rec -> im_seqs (finalize_receipt rec s m) !! x = im_seqs m !! x.
Proof.
  intros Hn. unfold finalize_receipt. cbv zeta.
  assert (exists fin m1, (if negb (rc_committed_at rec =? 0) then (rc_committed_at rec, m) else now m) = (fin, m1)
    /\ im_seqs m1 = im_seqs m) as (fin & m1 & -> & Hs1) by (case_match; eexists _, _; done).
  unfold close_transaction, settle_step. cbv zeta.
  destruct (rc_terminal rec || _); repeat (autorewrite with seqs; rsimpl); rewrite !decide_False by done; by rewrite Hs1.
Qed.

Lemma finalize_ledger rec s m :
  im_seqs m !! rc_sequence rec = Some s ->
  im_grant_ledger (finalize_receipt rec s m) =
    alter (fun gr => gr <| gr_status := 1 |> <| gr_receipt := Some rec |>) (rc_grant_id rec) (im_grant_ledger m).
Proof.
  intros Hs. pose proof (fz_view _ _ _ (finalize_spec rec s m Hs)) as Fv. unfold ledger_view in Fv. by injection Fv as _ -> _ _ _ _ _ _ _.
Qed.

(** A receipt for an open grant is recorded, and disturbs no other open grant and no other record. *)
Lemma apply_open_receipt m g rec :
  open_grant m g -> receipt_fits rec g = true ->
  recorded (apply_receipt m rec) rec /\
  (forall g', open_grant m g' -> g_sequence g' <> g_sequence g -> g_grant_id g' <> g_grant_id g -> open_grant (apply_receipt m rec) g') /\
  (forall r, recorded m r -> rc_sequence r <> g_sequence g -> rc_grant_id r <> g_grant_id g -> recorded (apply_receipt m rec) r).
Proof.
  intros [Hl (st & Hs & Hst)] Hf. pose proof (receipt_fits_fields _ _ Hf) as (F1 & F2 & _).
  assert (Fp : rc_proposal rec = g_proposal g) by (unfold receipt_fits in Hf; rewrite !andb_true_iff, !id_eqb_eq in Hf; tauto).
  apply fmap_Some in Hs as (s & Hs & Hv). unfold tx_view in Hv. injection Hv as V1 V2 V3 V4.
  assert (Hrec : apply_receipt m rec = finalize_receipt rec s m).
  { unfold apply_receipt. rewrite F1, Hl. cbn [gr_status Z.eqb gr_grant]. rewrite (proj2 (receipt_error_iff rec _ m)).
    - by rewrite F2, Hs.
    - split; [done|]. exists s. rewrite F2, F1, Fp, <- V1. split_and!; done. }
  rewrite Hrec. rewrite <- F2 in Hs. pose proof (finalize_ledger rec s m Hs) as L.
  pose proof (fun x => finalize_frame rec s m x) as Hfr. split_and!.
  - split.
    + rewrite L, lookup_alter_eq, F1, Hl. eexists. split; [done|]. by rsimpl.
    + destruct (finalize_lookup rec s m Hs) as (s' & Hs' & _ & _ & _ & _ & R5 & R6 & _ & _ & R9). by exists s'.
  - intros g' Ho Hsq Hg. apply (open_grant_frame m); [|by rewrite L, lookup_alter_ne by congruence|done].
    unfold tx_same. by rewrite Hfr by congruence.
  - intros r [Hr1 Hr2] Hsq Hg. split; [by rewrite L, lookup_alter_ne by congruence|by rewrite Hfr by congruence].
Qed.

Lemma apply_open_receipts rs gs m :
  Forall2 (fun rec g => receipt_fits rec g = true) rs gs -> (forall g, g ∈ gs -> open_grant m g) ->
  NoDup (g_sequence <$> gs) -> NoDup (g_grant_id <$> gs) ->
  (forall rec, rec ∈ rs -> recorded (foldl apply_receipt m rs) rec) /\
  (forall r, recorded m r -> rc_sequence r ∉ g_sequence <$> gs -> rc_grant_id r ∉ g_grant_id <$> gs -> recorded (foldl apply_receipt m rs) r).
Proof.
  intros HF. revert m. induction HF as [|rec g rs gs Hf _ IH]; intros m Ho Hs Hg; cbn [foldl fmap list_fmap] in *.
  { split; [by intros ? ?%not_elem_of_nil|done]. }
  apply NoDup_cons in Hs as [Hs1 Hs2]. apply NoDup_cons in Hg as [Hg1 Hg2].
  destruct (apply_open_receipt m g rec (Ho g ltac:(by left)) Hf) as (R1 & R2 & R3).
  pose proof (receipt_fits_fields _ _ Hf) as (F1 & F2 & _).
  destruct (IH (apply_receipt m rec)) as [I1 I2]; [|done|done|].
  { intros g' Hg'. apply R2; [apply Ho; by right| |]; intros E; [apply Hs1|apply Hg1]; rewrite <- E; by apply list_elem_of_fmap_2. }
  split.
  - intros r [->|Hr]%elem_of_cons; [|by apply I1]. apply I2; [done|by rewrite F2|by rewrite F1].
  - intros r Hr Hns Hng. apply not_elem_of_cons in Hns as [? ?], Hng as [? ?]. apply I2; [by apply R3|done|done].
Qed.
End receipts.

(** ** The pump *)

Section pump.
Context {CLK : Clock} {ORD : MapOrder} {E : Type} {EX : DecodeExecutor E}.
Implicit Types (m : Impl) (e : E).

(** *** It runs the fabric's own operations *)

Lemma pump_dispatch_protocol tn e m d : protocol m (pump_dispatch tn (e, m) d).2.
Proof.
  unfold pump_dispatch. destruct (ex_prepare (exec_request d) e) as [[pd|err] e1].
  - pose proof (authorize_protocol pd m) as Ha. destruct (authorize_prepared pd m) as [[ar|err] m1]; [|done].
    destruct (commit_members tn (au_members ar) e1) as [rs e2]. etrans; [exact Ha|apply receipts_protocol].
  - apply protocol_quiet, quiet_apply_completion.
Qed.

Lemma pump_once_protocol tn e m : protocol m (pump_once tn e m).2.2.
Proof.
  unfold pump_once. cbv zeta. transitivity (advance tn m).2; [apply protocol_quiet, quiet_advance|]. set (m1 := (advance tn m).2).
  transitivity (schedule tn m1).2; [apply protocol_quiet, quiet_schedule|]. destruct (schedule tn m1) as [ds m2]. cbn [snd].
  assert (Hf : forall ds (em : E * Impl), protocol em.2 (foldl (pump_dispatch tn) em ds).2).
  { intros ds'. induction ds' as [|d ds' IH]; intros [e' m']; [reflexivity|]. cbn [foldl].
    etrans; [apply (pump_dispatch_protocol tn e' m' d)|apply IH]. }
  apply (Hf ds (e, m2)).
Qed.

(** *** Cycles *)

(** One turn of the loop, and its n-th iterate with the dispatches of the last turn. *)
Definition cycle (x : list Dispatch * (E * Impl)) : list Dispatch * (E * Impl) :=
  let '(tn, m) := now x.2.2 in pump_once tn x.2.1 m.
Definition cycles (k : nat) e m : list Dispatch * (E * Impl) := Nat.iter k cycle ([], (e, m)).

Lemma cycles_protocol k e m : protocol m (cycles k e m).2.2.
Proof.
  induction k as [|k IH]; [reflexivity|]. etrans; [exact IH|]. change (cycles (S k) e m) with (cycle (cycles k e m)).
  destruct (cycles k e m) as [ds [e1 m1]]. unfold cycle. cbn [fst snd now].
  etrans; [apply (protocol_quiet _ _ (quiet_now m1))|]. apply pump_once_protocol.
Qed.

Lemma pump_loop_unfold fuel mc c e m :
  pump_loop (S fuel) mc c e m =
  let '(ds, (e', m')) := cycle ([], (e, m)) in
  if (mc >? 0) && (c + 1 >=? mc) || bool_decide (ds = []) then Some (Ok tt, (e', m')) else pump_loop fuel mc (c + 1) e' m'.
Proof.
  cbn [pump_loop]. unfold cycle. cbn [fst snd now]. destruct (pump_once _ e _) as [ds [e' m']].
  destruct ((mc >? 0) && _); [done|]. cbn [orb]. case_bool_decide; destruct (any_candidate m'); done.
Qed.

Lemma cycles_shift k ds e m e' m' :
  cycle ([], (e, m)) = (ds, (e', m')) -> cycles (S (S k)) e m = cycles (S k) e' m'.
Proof.
  intros Hc. unfold cycles. induction k as [|k IH]; cbn [Nat.iter nat_rect] in *; [|by rewrite IH].
  rewrite Hc. done.
Qed.

(** The loop, from any turn, runs the cycles and stops at the first idle or the last allowed one. *)
Lemma pump_loop_cycles n mc c e m :
  0 <= c -> c + Z.of_nat (S n) = mc ->
  exists k, (1 <= k <= S n)%nat /\ pump_loop (S n) mc c e m = Some (Ok tt, (cycles k e m).2) /\
    (forall j, (1 <= j < k)%nat -> (cycles j e m).1 <> []) /\ (k = S n \/ (cycles k e m).1 = []).
Proof.
  revert c e m. induction n as [|n IH]; intros c e m H0 Hc; rewrite pump_loop_unfold.
  all: destruct (cycle ([], (e, m))) as [ds [e' m']] eqn:Ec.
  - exists 1%nat. destruct (Z.gtb_spec mc 0); [|lia]. destruct (Z.geb_spec (c + 1) mc); [|lia]. cbn [andb orb].
    change (cycles 1 e m) with (cycle ([], (e, m))). rewrite Ec. split_and!; [lia|lia|done|intros; lia|by left].
  - destruct (Z.gtb_spec mc 0); [|lia]. destruct (Z.geb_spec (c + 1) mc); [lia|]. cbn [andb orb]. case_bool_decide as Hd.
    { exists 1%nat. change (cycles 1 e m) with (cycle ([], (e, m))). rewrite Ec. split_and!; [lia|lia|done|intros; lia|by right]. }
    destruct (IH (c + 1) e' m') as (k & Hk & Hr & Hj & Hl); [lia|lia|]. exists (S k). destruct k as [|k]; [lia|].
    rewrite (cycles_shift _ _ _ _ _ _ Ec). split_and!; [lia|lia|done| |destruct Hl; [left; lia|by right]].
    intros [|[|j]] Hjk; [lia| |rewrite (cycles_shift _ _ _ _ _ _ Ec); apply Hj; lia].
    change (cycles 1 e m) with (cycle ([], (e, m))). by rewrite Ec.
Qed.

(** Pumping preserves the accounts.  A fabric that is driven by client operations and by any number
    of pump cycles with any executor, in any order, still has exactly one consumed grant for every
    token, generation and step it counts. *)
Theorem pump_exactly_once (cfg : Config) (drive : list (list Op * (nat * E))) (id : SequenceId) (s : Seq) :
  let m := foldl (fun m x => (cycles x.2.1 x.2.2 (run m x.1)).2.2) (new_fabric cfg) drive in
  bounded m -> im_seqs m !! id = Some s -> lengths_ok m id s -> accounts m id s.
Proof.
  intros m Hb Hs Hl. apply Inv_accounts; try done. apply (Inv_protocol (new_fabric cfg)); [|done|apply Inv_new].
  apply (foldl_rel protocol). intros m1 [ops [k e]]. etrans; [apply (run_protocol m1 ops)|apply cycles_protocol].
Qed.

(** C30: the pump ends.  With a positive bound, [pump_until_idle] returns success after at least one and
    at most [max_cycles] cycles, for every executor: every cycle before the last dispatched work, and
    the last one either dispatched nothing or is the one the bound allows. *)
Theorem pump_until_idle_ends (max_cycles : Z) e m :
  0 < max_cycles ->
  exists k, (1 <= k)%nat /\ Z.of_nat k <= max_cycles /\
    pump_until_idle (Z.to_nat max_cycles) max_cycles e m = Some (Ok tt, (cycles k e m).2) /\
    (forall j, (1 <= j < k)%nat -> (cycles j e m).1 <> []) /\
    (Z.of_nat k = max_cycles \/ (cycles k e m).1 = []).
Proof.
  intros Hm. unfold pump_until_idle. destruct (Z.to_nat max_cycles) as [|n] eqn:En; [lia|].
  destruct (pump_loop_cycles n max_cycles 0 e m) as (k & Hk & Hr & Hj & Hl); [lia|lia|].
  exists k. split_and!; [lia|lia|done|done|]. destruct Hl; [left; lia|by right].
Qed.

(** *** No commit is lost *)

Context {EL : ExecutorLaws E}.

Lemma commit_members_receipts tn gas rs e :
  exists rs1 gs, (foldl (commit_member tn) (rs, e) gas).1 = rs ++ rs1 /\ sublist gs (granted gas) /\
    Forall2 (fun rec g => receipt_fits rec g = true) rs1 gs.
Proof.
  revert rs e. induction gas as [|ga gas IH]; intros rs e; [exists [], []; by rewrite app_nil_r|]. cbn [foldl].
  assert (Hskip : forall e', exists rs1 gs, (foldl (commit_member tn) (rs, e') gas).1 = rs ++ rs1 /\
    sublist gs (granted (ga :: gas)) /\ Forall2 (fun rec g => receipt_fits rec g = true) rs1 gs).
  { intros e'. destruct (IH rs e') as (rs1 & gs & H1 & H2 & H3). exists rs1, gs. split_and!; [done| |done].
    unfold granted. cbn [omap list_omap]. case_match; [by apply sublist_cons|done]. }
  unfold commit_member at 2. destruct (ga_grant ga) as [g|] eqn:Hg; [|apply Hskip].
  destruct (ga_rejected ga || ga_aborted ga); [apply Hskip|].
  destruct (ex_commit g e) as [[mr|err] e1] eqn:Ec; [|apply Hskip].
  destruct (IH (rs ++ [mr <| rc_committed_at := tn |>]) e1) as (rs1 & gs & H1 & H2 & H3).
  exists ((mr <| rc_committed_at := tn |>) :: rs1), (g :: gs). split_and!.
  - by rewrite H1, <- app_assoc.
  - unfold granted. cbn [omap list_omap]. rewrite Hg. by apply sublist_skip.
  - constructor; [|done]. apply law_receipt in Ec. unfold receipt_fits in *. by rsimpl.
Qed.

Lemma prepared_sequences req pd : answers req pd -> pm_sequence <$> pd_members pd = ms_sequence <$> er_members req.
Proof. intros [_ _ _ _ HF]. induction HF as [|spec pm specs pms [H] _ IH]; [done|]. cbn. by rewrite H, IH. Qed.

(** C16: no commit is lost.  When the pump serves a dispatch of distinct sequences with an executor that
    keeps the contract, every receipt the executor returned is finalized in the same call: its grant
    is consumed in the ledger by that receipt, the sequence's committed digest is the receipt's
    post-state digest, its accepted generation is the receipt's, and no grant is left pending for it. *)
Theorem pump_commits_recorded (tn : Z) e m (d : Dispatch) pd e1 ar m1 rs e2 :
  ex_prepare (exec_request d) e = (Ok pd, e1) -> authorize_prepared pd m = (Ok ar, m1) ->
  commit_members tn (au_members ar) e1 = (rs, e2) ->
  NoDup (dispatched d) -> 0 <= im_next_grant m -> im_next_grant m + Z.of_nat (length (dp_members d)) < 2 ^ 64 ->
  let '(e', m') := pump_dispatch tn (e, m) d in
  e' = e2 /\ forall rec, rec ∈ rs -> recorded m' rec.
Proof.
  intros Hp Ha Hc Hnd H0 Hb. unfold pump_dispatch. rewrite Hp, Ha, Hc. split; [done|].
  pose proof (prepared_sequences _ _ (law_prepare _ _ _ _ Hp)) as Hseq. change (er_members (exec_request d)) with (dp_members d) in Hseq.
  assert (Hlen : length (pd_members pd) = length (dp_members d)) by (rewrite <- (length_fmap pm_sequence), Hseq; apply length_fmap).
  unfold authorize_prepared in Ha.
  pose proof (batch_fold pd (pd_members pd) [] m) as HB. rewrite Hseq, Hlen in HB.
  destruct (foldl (authorize_member pd) ([], m) (pd_members pd)) as [out m2]. injection Ha as <- <-. cbn [au_members] in Hc.
  destruct HB as [B1 B2 B3 _ _]; [|done|done|done|].
  { split; cbn; try apply NoDup_nil_2; by intros ? ?%not_elem_of_nil. }
  destruct (commit_members_receipts tn out [] e1) as (rs1 & gs & E1 & Hsub & HF). fold (commit_members tn out e1) in E1.
  rewrite Hc in E1. cbn [fst app] in E1. subst rs1.
  destruct (apply_open_receipts rs gs m2 HF) as [R _].
  - intros g Hg. apply B1. by eapply elem_of_sublist.
  - eapply sublist_NoDup; [done|]. by apply fmap_sublist.
  - eapply sublist_NoDup; [done|]. by apply fmap_sublist.
  - intros rec Hrec. specialize (R rec Hrec). cbn [apply_commit_receipt snd rd_receipts]. exact R.
Qed.
End pump.
