(* ===== verification/GroupProgress.v ===== *)
(** * A group served by the CPU executor

    One dispatch of the pump from beginning to end: when the fabric and the executor agree on where each member
    stands, every member is prepared, granted, committed and finalized, advances by exactly one token, and the two
    agree again. *)

From S2P Require Import Prelude Enums Errors Token StateMachine Ids Compatibility Types Double FabricState FabricFrame FabricOps Schedule ScheduleTheorems Transaction Executor CpuExecutor CpuTheorems Pump FabricInvariants ProtocolInvariants FabricTheorems Authorization PumpTheorems.

(** The state identifier of a member. *)
Definition spec_state (spec : DecodeMemberSpec) : StateId := sd_id (ms_state spec).
(** [states_[id]]. *)
Definition entry (c : CpuDecodeExecutor) (sid : StateId) : SeqState := default default_seq_state (ce_states c !! sid).

(** ** Preparing *)

Section prepare.
Context `{LM : Libm} {SC : SteadyClock}.
Implicit Types (c : CpuDecodeExecutor) (st : SeqState) (spec : DecodeMemberSpec).

(** The executor holds the state a specification starts from, or has never seen it and nothing was generated. *)
Record spec_ready c spec : Prop := {
  rdy_free : ss_has_tentative (entry c (spec_state spec)) = false;
  rdy_tokens : ss_state (entry c (spec_state spec)) = [] /\ ms_generated_tokens spec = 0 \/
               ss_state (entry c (spec_state spec)) <> [] /\ ss_tokens (entry c (spec_state spec)) = ms_generated_tokens spec;
}.

(** The state a step starts from. *)
Record start_of c spec st : Prop := {
  so_tokens : ss_tokens st = ms_generated_tokens spec;
  so_some : ss_state st <> [];
  so_free : ss_has_tentative st = false;
  so_same : ss_state (entry c (spec_state spec)) <> [] -> st = entry c (spec_state spec);
}.

Lemma ensure_ready c spec : spec_ready c spec -> start_of c spec (ensure_initialized spec (entry c (spec_state spec))).
Proof.
  intros [Hf Ht]. set (st := entry c (spec_state spec)) in *.
  assert (Hfree : ss_has_tentative (ensure_initialized spec st) = false).
  { pose proof (ensure_tentative spec st) as H. unfold tentative_view in H. injection H as H _. congruence. }
  destruct Ht as [[He H0]|[Hn Ht]].
  - pose proof (init_position spec st He) as [P1 P2 _]. unfold ensure_initialized in *. rewrite H0, P2.
    replace (Z.to_nat _) with 0%nat by done. cbn [catch_up]. split; [by rewrite P2| | |done].
    + rewrite P1. apply state_after_nonempty.
    + pose proof (init_tentative spec st) as H. unfold tentative_view in H. injection H as H _. congruence.
  - rewrite (ensure_ahead spec st Hn) by lia. by split.
Qed.

(** A member staged in [c'], prepared from [c]. *)
Definition staged c c' (req : DecodeExecutionRequest) spec (pm : PreparedMember) : Prop :=
  exists st ns, start_of c spec st /\ ce_states c' !! spec_state spec = Some (stage spec req (pm_proposal pm) st) /\
    pm = authorized req (member_of spec st (pm_proposal pm) ns).

Lemma prepare_member_ready spec req c :
  spec_ready c spec ->
  exists pm c', prepare_member spec req c = (Ok pm, c') /\ staged c c' req spec (authorized req pm) /\
    ce_receipts_by_grant c' = ce_receipts_by_grant c /\ (forall sid, sid <> spec_state spec -> ce_states c' !! sid = ce_states c !! sid).
Proof.
  intros Hr. pose proof (ensure_ready c spec Hr) as Hs. unfold prepare_member. cbv zeta. fold (spec_state spec) (entry c (spec_state spec)).
  set (st := ensure_initialized spec (entry c (spec_state spec))) in *. unfold settle_tentative. rewrite (so_free _ _ _ Hs).
  eexists _, _. split; [done|]. split_and!.
  - eexists st, _. split; [done|]. rsimpl. split; [by rewrite lookup_insert_eq|done].
  - by rsimpl.
  - intros sid Hn. rsimpl. by rewrite !lookup_insert_ne.
Qed.

Lemma entry_frame c c' sid : ce_states c' !! sid = ce_states c !! sid -> entry c' sid = entry c sid.
Proof. unfold entry. by intros ->. Qed.

Lemma spec_ready_frame c c' spec : ce_states c' !! spec_state spec = ce_states c !! spec_state spec -> spec_ready c spec -> spec_ready c' spec.
Proof. intros H [H1 H2]. split; by rewrite (entry_frame c c'). Qed.

Lemma staged_frame c1 c1' c2 c2' req spec pm :
  ce_states c1' !! spec_state spec = ce_states c1 !! spec_state spec -> ce_states c2' !! spec_state spec = ce_states c2 !! spec_state spec ->
  staged c1 c2 req spec pm -> staged c1' c2' req spec pm.
Proof.
  intros H1 H2 (st & ns & [S1 S2 S3 S4] & Hst & Hpm). exists st, ns. split; [|by rewrite H2].
  split; [done|done|done|]. by rewrite (entry_frame c1 c1').
Qed.

Lemma prepare_group specs req c :
  NoDup (spec_state <$> specs) -> Forall (spec_ready c) specs ->
  exists pms c', prepare_members specs req c = (Ok pms, c') /\ Forall2 (staged c c' req) specs pms /\
    ce_receipts_by_grant c' = ce_receipts_by_grant c /\
    (forall sid, sid ∉ spec_state <$> specs -> ce_states c' !! sid = ce_states c !! sid).
Proof.
  revert c. induction specs as [|spec specs IH]; intros c Hnd Hr; cbn [prepare_members].
  { exists [], c. split_and!; [done|constructor|done|done]. }
  apply Forall_cons in Hr as [Hr Hrs]. cbn [fmap list_fmap] in Hnd. apply NoDup_cons in Hnd as [Hn Hnd].
  destruct (prepare_member_ready spec req c Hr) as (pm & c1 & -> & Hst & Hrec & Hfr).
  destruct (IH c1 Hnd) as (pms & c2 & -> & Hall & Hrec2 & Hfr2).
  { apply Forall_forall. intros spec' Hin. rewrite Forall_forall in Hrs. apply (spec_ready_frame c); [|by apply Hrs].
    apply Hfr. intros E. apply Hn. rewrite <- E. by apply list_elem_of_fmap_2. }
  exists (authorized req pm :: pms), c2. split_and!; [done| |congruence|].
  - constructor.
    + apply (staged_frame c c c1); [done|by apply Hfr2|done].
    + apply Forall2_same_length_lookup in Hall as [Hlen Hall]. apply Forall2_same_length_lookup. split; [done|].
      intros i spec' pm' Hs' Hp'. apply (staged_frame c1 c c2); [|done|by apply (Hall i)]. symmetry. apply Hfr.
      intros E. apply Hn. rewrite <- E. apply list_elem_of_fmap_2. by eapply list_elem_of_lookup_2.
  - intros sid [H1 H2]%not_elem_of_cons. by rewrite Hfr2, Hfr.
Qed.
End prepare.

(** ** Granting *)

(** Consecutive grant numbers. *)
Fixpoint numbered (k : Z) (pms : list PreparedMember) : list (PreparedMember * GrantId) :=
  match pms with [] => [] | pm :: pms => (pm, mkId k) :: numbered (k + 1) pms end.

(** The answer that carries a grant. *)
Definition grant_answer (prepared : PreparedDecode) (x : PreparedMember * GrantId) : GrantOrAbort :=
  mkGrantOrAbort (Some (grant_for prepared x.1 x.2)) false (abort_of x.1) (pm_proposal x.1) false false ErrorCode.Ok "" default_outcome.

(** What authorizing leaves alone in a sequence. *)
Definition step_view (s : Seq) := (s_machine s, s_budget s, s_generated s, s_generation s, s_state s).

Section grant.
Context {CLK : Clock} {ORD : MapOrder}.
Implicit Types (m : Impl).

Lemma authorize_grantable prepared out m pm s :
  grantable m pm s ->
  authorize_member prepared (out, m) pm =
    (out ++ [grant_answer prepared (pm, mkId (im_next_grant m))],
     record_event EventKind.ReservationGranted (rq_id (s_req s)) (pm_sequence pm) "commit_grant_issued" (issue_grant prepared pm m).2).
Proof.
  intros [G1 G2 G3 G4 G5 G6 G7 G8 G9 G10 G11 G12]. cbn [authorize_member]. cbv zeta. rewrite G1. apply boot_stale_false in G3.
  rewrite (proj2 (stale_authority_none pm s m)) by done. rewrite G8. cbn [negb].
  destruct (s_has_accepted s && _) eqn:K; [apply andb_true_iff in K as [? ?%Z.eqb_eq]; by destruct G9|].
  rewrite (proj2 (binding_error_iff pm s)) by done. done.
Qed.

Lemma issue_grant_step prepared pm m s k r d :
  im_seqs m !! pm_sequence pm = Some s ->
  let m' := record_event k r (pm_sequence pm) d (issue_grant prepared pm m).2 in
  im_next_grant m' = im_next_grant m +64 1 /\ env_view m' = env_view m /\
  (forall x, x <> pm_sequence pm -> im_seqs m' !! x = im_seqs m !! x) /\
  exists s', im_seqs m' !! pm_sequence pm = Some s' /\ step_view s' = step_view s.
Proof.
  intros Hs m'. destruct (issue_grant_fields prepared pm m) as (_ & N & _ & _ & _ & Sq).
  destruct (record_event_fields k r (pm_sequence pm) d (issue_grant prepared pm m).2) as (Es & Ev & _).
  apply ledger_view_fields in Ev as (_ & En & _). fold m' in Es, En. split_and!.
  - by rewrite En, N.
  - unfold m'. by rewrite env_record_event.
  - intros x Hn. by rewrite Es, Sq, lookup_alter_ne.
  - rewrite Es, Sq, lookup_alter_eq, Hs. eexists. split; [done|]. unfold step_view. by rsimpl.
Qed.

Lemma grantable_frame m m' pm s :
  env_view m' = env_view m -> im_seqs m' !! pm_sequence pm = im_seqs m !! pm_sequence pm -> grantable m pm s -> grantable m' pm s.
Proof.
  unfold env_view. intros [= _ He Hb _] Hs [G1 G2 G3 G4 G5 G6 G7 G8 G9 G10 G11 G12]. split; try done; by rewrite ?Hs, ?He, ?Hb.
Qed.

Lemma authorize_group prepared pms out m :
  NoDup (pm_sequence <$> pms) -> (forall pm, pm ∈ pms -> exists s, grantable m pm s) ->
  0 <= im_next_grant m -> im_next_grant m + Z.of_nat (length pms) < 2 ^ 64 ->
  exists m', foldl (authorize_member prepared) (out, m) pms =
      (out ++ (grant_answer prepared <$> numbered (im_next_grant m) pms), m') /\
    env_view m' = env_view m /\ im_next_grant m' = im_next_grant m + Z.of_nat (length pms) /\
    (forall x, x ∉ pm_sequence <$> pms -> im_seqs m' !! x = im_seqs m !! x) /\
    forall pm s, pm ∈ pms -> im_seqs m !! pm_sequence pm = Some s ->
      exists s', im_seqs m' !! pm_sequence pm = Some s' /\ step_view s' = step_view s.
Proof.
  revert out m. induction pms as [|pm pms IH]; intros out m Hnd Hg H0 Hb; cbn [foldl numbered fmap list_fmap length] in *.
  { exists m. rewrite app_nil_r. split_and!; [done|done|lia|done|by intros pm s ?%not_elem_of_nil]. }
  apply NoDup_cons in Hnd as [Hn Hnd]. destruct (Hg pm) as [s Hpm]; [by left|].
  rewrite (authorize_grantable prepared out m pm s Hpm).
  pose proof (issue_grant_step prepared pm m s EventKind.ReservationGranted (rq_id (s_req s)) "commit_grant_issued" (gt_seq _ _ _ Hpm)) as H1.
  set (m1 := record_event _ _ _ _ _) in *. clearbody m1. destruct H1 as (N1 & E1 & F1 & V1). rewrite wrap_id_small in N1 by lia.
  destruct (IH (out ++ [grant_answer prepared (pm, mkId (im_next_grant m))]) m1) as (m' & -> & E2 & N2 & F2 & V2); [done| |lia|lia|].
  { intros pm' Hin. destruct (Hg pm') as [s' Hs']; [by right|]. exists s'. apply (grantable_frame m); [done| |done].
    apply F1. intros E. apply Hn. rewrite <- E. by apply list_elem_of_fmap_2. }
  exists m'. rewrite N1. split_and!; [by rewrite <- app_assoc|congruence|lia| |].
  - intros x [Hx1 Hx2]%not_elem_of_cons. by rewrite F2, F1.
  - intros pm' s' [->|Hin]%elem_of_cons Hs'.
    + rewrite F2 by done. rewrite (gt_seq _ _ _ Hpm) in Hs'. by injection Hs' as <-.
    + apply V2; [done|]. rewrite F1; [done|]. intros E. apply Hn. rewrite <- E. by apply list_elem_of_fmap_2.
Qed.
End grant.

(** ** Committing *)

Section commit.
Context `{LM : Libm} {SC : SteadyClock}.
Implicit Types (c : CpuDecodeExecutor) (spec : DecodeMemberSpec).

(** The prepared group carries the authority of the request. *)
Definition same_request (req : DecodeExecutionRequest) (pd : PreparedDecode) : Prop :=
  pd_epoch pd = er_epoch req /\ pd_worker pd = er_worker req /\ pd_worker_boot pd = er_worker_boot req.

(** The fields of a prepared member. *)
Record member_fields (req : DecodeExecutionRequest) spec (st : SeqState) (pm : PreparedMember) : Prop := {
  mf_for : prepared_for req spec pm;
  mf_pre : pm_pre_state_digest pm = digest_state (ss_state st) (ss_tokens st) (ss_kv_bytes st);
  mf_post : pm_post_state_digest pm = digest_state (step_state (ss_state st)) (ss_tokens st +64 1) (ss_kv_bytes st +64 kv_delta);
  mf_position : pm_committed_position_before pm = ss_tokens st;
  mf_eligible : is_commit_eligible pm = true;
}.

Lemma staged_fields c0 c req spec pm :
  staged c0 c req spec pm ->
  exists st, start_of c0 spec st /\ ce_states c !! spec_state spec = Some (stage spec req (pm_proposal pm) st) /\ member_fields req spec st pm.
Proof.
  intros (st & ns & Hst & He & Hpm). exists st. split; [done|]. split; [done|]. generalize dependent (pm_proposal pm). intros p _ ->.
  split; [split|..]; try done. unfold is_commit_eligible, authorized, member_of, step_outcome. rsimpl. cbn [pm_outcome]. unfold mo_succeeded.
  cbn [mo_kind]. by destruct (_ || _).
Qed.

Lemma staged_committable c0 c req pd spec pm gid :
  same_request req pd -> staged c0 c req spec pm -> ce_receipts_by_grant c !! gid = None ->
  exists st, start_of c0 spec st /\ committable (grant_for pd pm gid) c (stage spec req (pm_proposal pm) st).
Proof.
  intros (R1 & R2 & R3) H Hf. destruct (staged_fields _ _ _ _ _ H) as (st & Hst & He & [[P1 P2 P3 P4 P5 P6 P7 P8] M1 M2 M3 _]).
  exists st. split; [done|]. unfold grant_for.
  split; cbn [g_grant_id g_state g_pre_state_digest g_post_state_digest g_committed_position]; unfold stage; rsimpl; try done.
  - by rewrite P2.
  - unfold same_authority. rsimpl. cbn. by rewrite P1, P3, P4, P5, R1, R2, R3, !id_eqb_refl.
Qed.

(** A committed member: its receipt, and the executor's state after it. *)
Record committed c0 c (pd : PreparedDecode) spec (x : PreparedMember * GrantId) (rec : MemberReceipt) : Prop := {
  ct_fits : receipt_fits rec (grant_for pd x.1 x.2) = true;
  ct_state : exists req st, start_of c0 spec st /\ rc_post_state_digest rec = pm_post_state_digest x.1 /\
    member_fields req spec st x.1 /\ ce_states c !! spec_state spec = Some (promote (stage spec req (pm_proposal x.1) st));
}.

Lemma committed_frame c0 c c' pd spec x rec :
  ce_states c' !! spec_state spec = ce_states c !! spec_state spec -> committed c0 c pd spec x rec -> committed c0 c' pd spec x rec.
Proof. intros H [H1 (req & st & H2 & H3 & H4 & H5)]. split; [done|]. exists req, st. by rewrite H. Qed.

Lemma commit_one tn pd req c0 spec pm gid rs c :
  same_request req pd -> staged c0 c req spec pm -> ce_receipts_by_grant c !! gid = None ->
  exists rec c', commit_member tn (rs, c) (grant_answer pd (pm, gid)) = (rs ++ [rec], c') /\ committed c0 c' pd spec (pm, gid) rec /\
    (forall sid, sid <> spec_state spec -> ce_states c' !! sid = ce_states c !! sid) /\
    (forall g, g <> gid -> ce_receipts_by_grant c' !! g = ce_receipts_by_grant c !! g).
Proof.
  intros Hr Hst Hf. destruct (staged_committable c0 c req pd spec pm gid Hr Hst Hf) as (st & Hs & Hc).
  destruct (staged_fields _ _ _ _ _ Hst) as (st' & Hs' & He & Hm).
  set (g := grant_for pd pm gid) in *. set (st1 := stage spec req (pm_proposal pm) st) in *.
  assert (Hsid : g_state g = spec_state spec) by apply (pf_state _ _ _ (mf_for _ _ _ _ Hm)).
  assert (Est : stage spec req (pm_proposal pm) st' = st1) by (pose proof (cm_entry _ _ _ Hc) as H; rewrite Hsid, He in H; by apply (inj Some) in H).
  pose proof (cpu_commit_case g c) as Hcase. unfold commit_member, grant_answer. cbn [ga_grant ga_rejected ga_aborted orb fst snd].
  fold g. change (ex_commit g c) with (cpu_commit g c).
  inversion Hcase as [e Hno E|rec Hrec _ E|st2 Hc2 E].
  - by destruct (Hno st1).
  - pose proof (cm_fresh _ _ _ Hc) as H. congruence.
  - assert (st2 = st1) as -> by (pose proof (cm_entry _ _ _ Hc) as H; rewrite (cm_entry _ _ _ Hc2) in H; by apply (inj Some) in H).
    eexists _, _. split; [done|]. unfold promoted. rsimpl. split_and!.
    + split; [cbn [fst snd]; fold g; unfold receipt_fits; rsimpl; apply (receipt_of_fits g c st1 Hc)|].
      exists req, st'. cbn [fst]. rsimpl. split_and!; [done| |done|by rewrite Hsid, Est, lookup_insert_eq].
      cbn [receipt_of rc_post_state_digest]. apply (cm_post _ _ _ Hc).
    + intros sid Hn. rewrite Hsid. by rewrite lookup_insert_ne.
    + intros g' Hn. by rewrite lookup_insert_ne.
Qed.

Lemma commit_group tn pd req c0 specs pms k rs c :
  same_request req pd -> NoDup (spec_state <$> specs) -> Forall2 (staged c0 c req) specs pms ->
  (forall i, k <= i < k + Z.of_nat (length pms) -> ce_receipts_by_grant c !! (mkId i : GrantId) = None) ->
  exists recs c', foldl (commit_member tn) (rs, c) (grant_answer pd <$> numbered k pms) = (rs ++ recs, c') /\
    Forall2 (fun sx rec => committed c0 c' pd sx.1 sx.2 rec) (zip specs (numbered k pms)) recs /\
    (forall sid, sid ∉ spec_state <$> specs -> ce_states c' !! sid = ce_states c !! sid) /\
    (forall i, k + Z.of_nat (length pms) <= i -> ce_receipts_by_grant c' !! (mkId i : GrantId) = ce_receipts_by_grant c !! (mkId i : GrantId)).
Proof.
  intros Hr Hnd HF. revert pms k rs c Hnd HF. induction specs as [|spec specs IH]; intros pms k rs c Hnd HF Hf; inversion HF as [|? pm ? pms' Hst HF']; subst.
  { exists [], c. cbn. rewrite app_nil_r. split_and!; [done|constructor|done|done]. }
  cbn [fmap list_fmap numbered foldl zip zip_with length] in *. apply NoDup_cons in Hnd as [Hn Hnd].
  destruct (commit_one tn pd req c0 spec pm (mkId k) rs c Hr Hst) as (rec & c1 & -> & Hcm & F1 & F2); [apply Hf; lia|].
  destruct (IH pms' (k + 1) (rs ++ [rec]) c1 Hnd) as (recs & c2 & -> & HF2 & F3 & F4).
  { apply Forall2_same_length_lookup in HF' as [Hlen HF']. apply Forall2_same_length_lookup. split; [done|].
    intros i spec' pm' Hs' Hp'. apply (staged_frame c0 c0 c); [done| |by apply (HF' i)]. apply F1.
    intros E. apply Hn. rewrite <- E. apply list_elem_of_fmap_2. by eapply list_elem_of_lookup_2. }
  { intros i Hi. rewrite F2; [apply Hf; lia|]. intros [= ->]. lia. }
  exists (rec :: recs), c2. split_and!; [by rewrite <- app_assoc| | |].
  - constructor; [|done]. cbn [fst snd]. apply (committed_frame _ c1); [by apply F3|done].
  - intros sid [H1 H2]%not_elem_of_cons. by rewrite F3, F1.
  - intros i Hi. rewrite F4 by lia. apply F2. intros [= ->]. lia.
Qed.
End commit.

(** ** Finalizing *)

Section finalize.
Context {CLK : Clock} {ORD : MapOrder}.
Implicit Types (m : Impl).

(** What a finalized receipt makes of a sequence. *)
Record step_done (rec : MemberReceipt) (s s' : Seq) : Prop := {
  fl_machine : s_machine s' = transition_to_state
      (if rc_terminal rec || tb_exhausted (fst (tb_advance 1 (s_budget s))) then SequenceState.Completed else SequenceState.ReadyForNextToken)
      (transition_to_state SequenceState.StepCompleted (s_machine s));
  fl_budget : s_budget s' = fst (tb_advance 1 (s_budget s));
  fl_generated : s_generated s' = s_generated s +64 1;
  fl_generation : s_generation s' = s_generation s +64 1;
  fl_digest : s_committed_state_digest s' = rc_post_state_digest rec;
  fl_grant : s_has_inflight_grant s' = false;
  fl_inflight : s_has_inflight s' = false;
  fl_state : s_state s' = s_state s;
}.

Lemma finalize_state rec s m s' :
  im_seqs m !! rc_sequence rec = Some s -> im_seqs (finalize_receipt rec s m) !! rc_sequence rec = Some s' -> s_state s' = s_state s.
Proof.
  intros Hs. unfold finalize_receipt. cbv zeta.
  assert (exists fin m1, (if negb (rc_committed_at rec =? 0) then (rc_committed_at rec, m) else now m) = (fin, m1)
    /\ im_seqs m1 = im_seqs m) as (fin & m1 & -> & Hs1) by (case_match; eexists _, _; done).
  unfold close_transaction, settle_step. cbv zeta. autorewrite with seqs. rsimpl. autorewrite with seqs. rewrite !decide_True by done.
  destruct (rc_terminal rec || _); repeat (autorewrite with seqs; rsimpl); rewrite !decide_True, Hs1, Hs by done;
    cbn [fmap option_fmap option_map]; intros H; apply (inj Some) in H as <-; unfold commit_seq; by rsimpl.
Qed.

Lemma apply_open_finalizes m g rec s :
  open_grant m g -> receipt_fits rec g = true -> im_seqs m !! g_sequence g = Some s ->
  (exists s', im_seqs (apply_receipt m rec) !! g_sequence g = Some s' /\ step_done rec s s') /\
  (forall x, x <> g_sequence g -> im_seqs (apply_receipt m rec) !! x = im_seqs m !! x).
Proof.
  intros [Hl (st & Hs0 & Hst)] Hf Hs. pose proof (receipt_fits_fields _ _ Hf) as (F1 & F2 & _).
  assert (Fp : rc_proposal rec = g_proposal g) by (unfold receipt_fits in Hf; rewrite !andb_true_iff, !id_eqb_eq in Hf; tauto).
  rewrite Hs in Hs0. cbn [fmap option_fmap option_map] in Hs0. apply (inj Some) in Hs0. unfold tx_view in Hs0. injection Hs0 as V1 V2 V3 V4.
  assert (Hrec : apply_receipt m rec = finalize_receipt rec s m).
  { unfold apply_receipt. rewrite F1, Hl. cbn [gr_status Z.eqb gr_grant]. rewrite (proj2 (receipt_error_iff rec _ m)); [by rewrite F2, Hs|].
    split; [done|]. exists s. rewrite F2, F1, Fp, V1. split_and!; done. }
  rewrite Hrec. rewrite <- F2 in *. split; [|intros x; apply finalize_frame].
  destruct (finalize_lookup rec s m Hs) as (s' & Hs' & R1 & R2 & R3 & R4 & R5 & R6 & R7 & _). exists s'. split; [done|].
  split; try done. by apply (finalize_state rec s m).
Qed.

(** Receipts leave the authority alone, and issue no grant. *)
Lemma env_finalize rec s m : env_view (finalize_receipt rec s m) = env_view m.
Proof.
  unfold finalize_receipt. cbv zeta.
  assert (exists fin m1, (if negb (rc_committed_at rec =? 0) then (rc_committed_at rec, m) else now m) = (fin, m1)
    /\ env_view m1 = env_view m) as (fin & m1 & -> & <-) by (case_match; eexists _, _; done).
  assert (K1 : forall f x, env_view (upd im_receipt_count f x) = env_view x) by done.
  assert (K2 : forall f x, env_view (upd im_grant_ledger f x) = env_view x) by done.
  assert (K3 : forall f x, env_view (upd im_stats f x) = env_view x) by done.
  assert (K4 : forall t n x, env_view (update_tenant_tokens t n x) = env_view x) by done.
  unfold close_transaction, settle_step. cbv zeta.
  destruct (rc_terminal rec || _); repeat (autorewrite with env; rewrite ?K1, ?K2, ?K3, ?K4); done.
Qed.

Lemma env_apply_receipt m rec : env_view (apply_receipt m rec) = env_view m.
Proof.
  unfold apply_receipt, reject_stale. cbv zeta. repeat case_match; autorewrite with env; try done. apply env_finalize.
Qed.

Lemma next_grant_receipt m rec : im_next_grant (apply_receipt m rec) = im_next_grant m.
Proof.
  assert (Hq : forall m', quiet m m' -> im_next_grant m' = im_next_grant m) by (intros m' H; apply q_view, ledger_view_fields in H; tauto).
  unfold apply_receipt. cbv zeta. repeat case_match; try done; try (apply Hq; auto with quiet; reflexivity).
  match goal with H : im_seqs m !! _ = Some ?s |- _ => pose proof (fz_view _ _ _ (finalize_spec rec s m H)) as Hv end.
  by injection Hv.
Qed.

Lemma apply_group rs gs m :
  Forall2 (fun rec g => receipt_fits rec g = true) rs gs -> (forall g, g ∈ gs -> open_grant m g) ->
  NoDup (g_sequence <$> gs) -> NoDup (g_grant_id <$> gs) ->
  (forall i rec g s, rs !! i = Some rec -> gs !! i = Some g -> im_seqs m !! g_sequence g = Some s ->
     exists s', im_seqs (foldl apply_receipt m rs) !! g_sequence g = Some s' /\ step_done rec s s') /\
  (forall x, x ∉ g_sequence <$> gs -> im_seqs (foldl apply_receipt m rs) !! x = im_seqs m !! x).
Proof.
  intros HF. revert m. induction HF as [|rec g rs gs Hf _ IH]; intros m Ho Hs Hg; cbn [foldl fmap list_fmap] in *; [done|].
  apply NoDup_cons in Hs as [Hs1 Hs2]. apply NoDup_cons in Hg as [Hg1 Hg2].
  assert (Hopen : open_grant m g) by (apply Ho; by left). pose proof Hopen as [_ (st & Hst & _)]. apply fmap_Some in Hst as (s0 & Hs0 & _).
  destruct (apply_open_finalizes m g rec s0 Hopen Hf Hs0) as [(s0' & Hs0' & Hfin) Hfr].
  destruct (apply_open_receipt m g rec Hopen Hf) as (_ & R2 & _).
  destruct (IH (apply_receipt m rec)) as [I1 I2]; [|done|done|].
  { intros g' Hg'. apply R2; [apply Ho; by right| |]; intros E; [apply Hs1|apply Hg1]; rewrite <- E; by apply list_elem_of_fmap_2. }
  split.
  - intros [|i] rec' g' s Hr Hgi Hsi; cbn [lookup list_lookup] in Hr, Hgi.
    + injection Hr as <-. injection Hgi as <-. rewrite Hs0 in Hsi. apply (inj Some) in Hsi as <-. exists s0'. by rewrite I2.
    + apply (I1 i); [done|done|]. rewrite Hfr; [done|]. intros E. apply Hs1. rewrite <- E. apply list_elem_of_fmap_2.
      by eapply list_elem_of_lookup_2.
  - intros x [H1 H2]%not_elem_of_cons. by rewrite I2, Hfr.
Qed.
End finalize.

(** ** One dispatch, from preparation to receipt *)

Section group.
Context `{LM : Libm} {SC : SteadyClock} {CLK : Clock} {ORD : MapOrder}.
Implicit Types (c : CpuDecodeExecutor) (m : Impl) (spec : DecodeMemberSpec) (s : Seq).

(** Fabric and executor agree on where a sequence stands: nothing is staged, and the executor either never saw the
    state of a sequence without tokens, or holds as many tokens as the fabric counts, at the committed digest. *)
Record agrees c s : Prop := {
  ag_free : ss_has_tentative (entry c (sd_id (s_state s))) = false;
  ag_position : let st := entry c (sd_id (s_state s)) in
    ss_state st = [] /\ s_generated s = 0 /\ s_state_digest_established s = false \/
    ss_state st <> [] /\ ss_tokens st = s_generated s /\
      (s_state_digest_established s = true -> digest_state (ss_state st) (ss_tokens st) (ss_kv_bytes st) = s_committed_state_digest s);
}.

(** A member whose step of the dispatch has not begun. *)
Record poised c m (d : Dispatch) spec s : Prop := {
  po_seq : im_seqs m !! ms_sequence spec = Some s;
  po_holds : holds d spec s;
  po_machine : s_machine s = SequenceState.Dispatched;
  po_grant : s_has_inflight_grant s = false;
  po_agrees : agrees c s;
  po_fresh : ~ (s_has_accepted s = true /\ ac_idempotency_key (s_accepted s) =
      acceptance_key_fields (dp_epoch d) (dp_worker d) (dp_worker_boot d) (ms_sequence spec) (spec_state spec)
        (ms_attempt spec) (ms_generation spec) (dp_id d) (s_generated s));
}.

(** A sequence after exactly one more committed token. *)
Record advanced c s s' : Prop := {
  ad_generated : s_generated s' = s_generated s +64 1;
  ad_generation : s_generation s' = s_generation s +64 1;
  ad_budget : s_budget s' = fst (tb_advance 1 (s_budget s));
  ad_machine : s_machine s' = SequenceState.Completed \/
    s_machine s' = SequenceState.ReadyForNextToken /\ tb_exhausted (s_budget s') = false;
  ad_grant : s_has_inflight_grant s' = false;
  ad_inflight : s_has_inflight s' = false;
  ad_state : s_state s' = s_state s;
  ad_agrees : agrees c s';
}.

Lemma poised_spec c m d spec s : poised c m d spec s -> spec_state spec = sd_id (s_state s) /\ ms_generated_tokens spec = s_generated s.
Proof. intros [_ [_ _ _ _ _ _ _ H] _ _ _ _]. unfold spec_state. by rewrite H. Qed.

Lemma poised_ready c m d spec s : poised c m d spec s -> spec_ready c spec.
Proof.
  intros H. destruct (poised_spec _ _ _ _ _ H) as [E1 E2]. destruct (po_agrees _ _ _ _ _ H) as [A1 A2].
  split; rewrite E1; [done|]. rewrite E2. cbv zeta in A2. tauto.
Qed.

Lemma poised_grantable c m d spec s st pm :
  im_epoch m = dp_epoch d ->
  (im_worker_current_boot m !! dp_worker d = None \/ im_worker_current_boot m !! dp_worker d = Some (dp_worker_boot d)) ->
  poised c m d spec s -> start_of c spec st -> member_fields (exec_request d) spec st pm -> grantable m pm s.
Proof.
  intros He Hb H Hst [[P1 P2 P3 P4 P5 P6 P7 P8] M1 _ M3 M4]. destruct (poised_spec _ _ _ _ _ H) as [E1 E2].
  destruct H as [Hs [_ H2 _ _ _ H6 _ Hsp] Hm Hg [_ Ha] Hf]. destruct Hst as [S1 S2 _ S4].
  cbn [exec_request er_dispatch_id er_epoch er_worker er_worker_boot] in *.
  assert (Hat : ms_attempt spec = s_current_attempt s /\ id_value (ms_generation spec) = s_generation s) by (by rewrite Hsp).
  split; rewrite ?P1, ?P3, ?P4, ?P5, ?P6, ?P7, ?P8; try done; try congruence.
  - apply Hat.
  - destruct Hat. congruence.
  - by rewrite Hm.
  - unfold acceptance_key_prepared. by rewrite P1, P2, P3, P4, P5, P6, P7, P8, M3, S1, E2.
  - intros Hest. rewrite M1. cbv zeta in Ha. rewrite <- E1 in Ha. destruct Ha as [(_ & _ & Hno)|(Hne & _ & Hd)]; [congruence|].
    rewrite (S4 Hne). by apply Hd.
Qed.

(** A committed and finalized member has advanced. *)
Lemma finalized_advanced c0 c m d pd spec x rec s s1 s' :
  poised c0 m d spec s -> step_view s1 = step_view s -> committed c0 c pd spec x rec -> step_done rec s1 s' -> advanced c s s'.
Proof.
  intros Hp Hv [_ (req & st & Hst & Hpost & Hmf & He)] [F1 F2 F3 F4 F5 F6 F7 F8].
  destruct (poised_spec _ _ _ _ _ Hp) as [E1 E2]. unfold step_view in Hv. injection Hv as V1 V2 V3 V4 V5.
  rewrite V1, (po_machine _ _ _ _ _ Hp) in F1. rewrite V2 in F1, F2. rewrite V3 in F3. rewrite V4 in F4. rewrite V5 in F8.
  assert (Hent : entry c (sd_id (s_state s')) = promote (stage spec req (pm_proposal x.1) st)) by (unfold entry; by rewrite F8, <- E1, He).
  split; try done.
  - rewrite F1, F2. destruct (rc_terminal rec); [by left|]. destruct (tb_exhausted _) eqn:Ex; [by left|]. by right.
  - split; cbv zeta; rewrite Hent; unfold promote, stage, clear_tentative; rsimpl; [done|]. right. split_and!.
    + pose proof (length_step_state (ss_state st)) as Hl. pose proof (so_some _ _ _ Hst) as Hn. by destruct (step_state _), (ss_state st).
    + by rewrite (so_tokens _ _ _ Hst), E2, F3.
    + intros _. by rewrite F5, Hpost, (mf_post _ _ _ _ Hmf).
Qed.

(** *** Numbered grants *)

Lemma numbered_lookup k pms i pm : pms !! i = Some pm -> numbered k pms !! i = Some (pm, mkId (k + Z.of_nat i)).
Proof.
  revert k i. induction pms as [|pm0 pms IH]; intros k [|i] H; cbn [numbered] in *; try done.
  - injection H as ->. cbn. by rewrite Z.add_0_r.
  - change ((pm0, mkId k) :: numbered (k + 1) pms) with ([(pm0, mkId k : GrantId)] ++ numbered (k + 1) pms).
    rewrite lookup_app_r by (cbn; lia). cbn [length]. rewrite Nat.sub_succ, Nat.sub_0_r, (IH (k + 1) i H). do 3 f_equal. lia.
Qed.

Lemma length_numbered k pms : length (numbered k pms) = length pms.
Proof. revert k. induction pms as [|pm pms IH]; intros k; [done|]. cbn. by rewrite IH. Qed.

Lemma granted_answers pd l : granted (grant_answer pd <$> l) = (fun x => grant_for pd x.1 x.2) <$> l.
Proof. unfold granted. induction l as [|x l IH]; [done|]. cbn. by rewrite IH. Qed.

Lemma zip_lookup {A B} (l : list A) (k : list B) i a b : l !! i = Some a -> k !! i = Some b -> zip l k !! i = Some (a, b).
Proof. intros Ha Hb. by rewrite lookup_zip_with, Ha, Hb. Qed.

Lemma grants_sequences pd k pms : g_sequence <$> ((fun x => grant_for pd x.1 x.2) <$> numbered k pms) = pm_sequence <$> pms.
Proof. revert k. induction pms as [|pm pms IH]; intros k; [done|]. cbn. by rewrite IH. Qed.

Lemma staged_sequences c0 c req specs pms : Forall2 (staged c0 c req) specs pms -> pm_sequence <$> pms = ms_sequence <$> specs.
Proof.
  intros HF. induction HF as [|spec pm specs pms H _ IH]; [done|]. cbn. rewrite IH. f_equal.
  destruct (staged_fields _ _ _ _ _ H) as (st & _ & _ & [Hf _ _ _ _]). apply (pf_sequence _ _ _ Hf).
Qed.

(** The receipts of a committed group fit its grants, in order. *)
Lemma group_receipts_fit c0 c pd specs k pms recs :
  length specs = length pms -> Forall2 (fun sx rec => committed c0 c pd sx.1 sx.2 rec) (zip specs (numbered k pms)) recs ->
  Forall2 (fun rec g => receipt_fits rec g = true) recs ((fun x => grant_for pd x.1 x.2) <$> numbered k pms).
Proof.
  intros Hlen HF. apply Forall2_flip, Forall2_fmap_l. apply Forall2_same_length_lookup in HF as [Hl HF].
  rewrite length_zip_with, length_numbered in Hl.
  apply Forall2_same_length_lookup. split; [rewrite length_numbered; lia|]. intros i x rec Hx Hr.
  assert (exists spec, specs !! i = Some spec) as [spec Hs].
  { apply lookup_lt_is_Some. apply lookup_lt_Some in Hx. rewrite length_numbered in Hx. lia. }
  apply (ct_fits _ _ _ _ _ _ (HF i (spec, x) rec (zip_lookup _ _ _ _ _ Hs Hx) Hr)).
Qed.

(** *** The dispatch *)

(** The dispatch was issued under the current epoch, to the current boot of its worker. *)
Record authority m (d : Dispatch) : Prop := {
  au_epoch : im_epoch m = dp_epoch d;
  au_boot : im_worker_current_boot m !! dp_worker d = None \/ im_worker_current_boot m !! dp_worker d = Some (dp_worker_boot d);
}.

(** The grant numbers from the fabric's next one on, [n] of them, are unused and unknown to the executor. *)
Record numbers_free c m (n : Z) : Prop := {
  nf_low : 0 <= im_next_grant m;
  nf_high : im_next_grant m + n < 2 ^ 64;
  nf_fresh : forall i, im_next_grant m <= i < im_next_grant m + n -> ce_receipts_by_grant c !! (mkId i : GrantId) = None;
}.

(** The group is prepared and granted: what the pump commits. *)
Lemma group_granted c m d :
  NoDup (dispatched d) -> NoDup (spec_state <$> dp_members d) -> authority m d -> numbers_free c m (Z.of_nat (length (dp_members d))) ->
  (forall spec, spec ∈ dp_members d -> exists s, poised c m d spec s) ->
  exists pms pd c1 m1, cpu_prepare (exec_request d) c = (Ok pd, c1) /\ same_request (exec_request d) pd /\
    Forall2 (staged c c1 (exec_request d)) (dp_members d) pms /\ ce_receipts_by_grant c1 = ce_receipts_by_grant c /\
    (forall sid, sid ∉ spec_state <$> dp_members d -> ce_states c1 !! sid = ce_states c !! sid) /\
    (exists e w b, authorize_prepared pd m = (Ok (mkAuthorizeResult (pd_dispatch_id pd) e w b (grant_answer pd <$> numbered (im_next_grant m) pms)), m1)) /\
    batch_ok m1 ((fun x => grant_for pd x.1 x.2) <$> numbered (im_next_grant m) pms) [] /\
    env_view m1 = env_view m /\ im_next_grant m1 = im_next_grant m + Z.of_nat (length (dp_members d)) /\
    (forall x, x ∉ dispatched d -> im_seqs m1 !! x = im_seqs m !! x) /\
    forall spec s, spec ∈ dp_members d -> im_seqs m !! ms_sequence spec = Some s ->
      exists s', im_seqs m1 !! ms_sequence spec = Some s' /\ step_view s' = step_view s.
Proof.
  intros Hnd Hns [He Hb] [N0 N1 _] Hp.
  destruct (prepare_group (dp_members d) (exec_request d) c Hns) as (pms & c1 & Hprep & HF & Hrec & Hfr).
  { apply Forall_forall. intros spec Hin. destruct (Hp spec Hin) as [s Hs]. by eapply poised_ready. }
  pose proof (Forall2_length _ _ _ HF) as Hlen.
  pose proof (staged_sequences _ _ _ _ _ HF : _ = dispatched d) as Hseq.
  eassert (Hcp : cpu_prepare (exec_request d) c = (Ok _, c1)) by (unfold cpu_prepare; change (er_members (exec_request d)) with (dp_members d);
    rewrite Hprep; reflexivity).
  set (pd := mkPreparedDecode _ _ _ _ _ _ _ _) in Hcp.
  assert (Hg : forall pm, pm ∈ pms -> exists s, grantable m pm s).
  { intros pm (i & Hi)%list_elem_of_lookup_1. destruct (Forall2_lookup_r _ _ _ _ _ HF Hi) as (spec & Hsp & Hst).
    apply list_elem_of_lookup_2 in Hsp. destruct (Hp spec Hsp) as [s Hs]. destruct (staged_fields _ _ _ _ _ Hst) as (st & H1 & _ & H2).
    exists s. by eapply poised_grantable. }
  destruct (authorize_group pd pms [] m) as (m1 & Ha & E1 & Nx & F1 & V1); [by rewrite Hseq|done|done|by rewrite <- Hlen|].
  pose proof (batch_fold pd pms [] m) as HB. rewrite Ha in HB. cbn [app] in Ha, HB. rewrite granted_answers, Hseq in HB.
  exists pms, pd, c1, m1. rewrite <- Hseq, Hlen. split_and!; try done.
  - unfold authorize_prepared. change (pd_members pd) with pms. rewrite Ha. by eexists _, _, _.
  - apply HB; [|done|done|by rewrite <- Hlen]. split; cbn; try apply NoDup_nil_2; by intros ? ?%not_elem_of_nil.
  - intros spec s (i & Hi)%list_elem_of_lookup_1 Hs. destruct (Forall2_lookup_l _ _ _ _ _ HF Hi) as (pm & Hpm & Hst).
    destruct (staged_fields _ _ _ _ _ Hst) as (st & _ & _ & [Hf _ _ _ _]). rewrite <- (pf_sequence _ _ _ Hf) in Hs |- *.
    apply (V1 pm); [by eapply list_elem_of_lookup_2|done].
Qed.

(** What serving a dispatch leaves: every member advanced, everything else untouched. *)
Record served c m (d : Dispatch) c' m' : Prop := {
  sv_members : forall spec s, spec ∈ dp_members d -> im_seqs m !! ms_sequence spec = Some s ->
    exists s', im_seqs m' !! ms_sequence spec = Some s' /\ advanced c' s s';
  sv_seqs : forall x, x ∉ dispatched d -> im_seqs m' !! x = im_seqs m !! x;
  sv_states : forall sid, sid ∉ spec_state <$> dp_members d -> ce_states c' !! sid = ce_states c !! sid;
  sv_env : env_view m' = env_view m;
  sv_next : im_next_grant m' = im_next_grant m + Z.of_nat (length (dp_members d));
  sv_receipts : forall i, im_next_grant m' <= i -> ce_receipts_by_grant c' !! (mkId i : GrantId) = ce_receipts_by_grant c !! (mkId i : GrantId);
}.

Lemma receipts_frame rs m : env_view (refresh_derived_stats (foldl apply_receipt m rs)) = env_view m /\
  im_next_grant (refresh_derived_stats (foldl apply_receipt m rs)) = im_next_grant m.
Proof.
  assert (H : env_view (foldl apply_receipt m rs) = env_view m /\ im_next_grant (foldl apply_receipt m rs) = im_next_grant m).
  { apply (foldl_inv (fun m' => env_view m' = env_view m /\ im_next_grant m' = im_next_grant m)); [done|].
    intros m' rec _ [<- <-]. split; [apply env_apply_receipt|apply next_grant_receipt]. }
  destruct H as [<- <-]. set (m' := foldl _ _ _). clearbody m'. done.
Qed.

Lemma dispatch_served tn c m d :
  NoDup (dispatched d) -> NoDup (spec_state <$> dp_members d) -> authority m d -> numbers_free c m (Z.of_nat (length (dp_members d))) ->
  (forall spec, spec ∈ dp_members d -> exists s, poised c m d spec s) ->
  let '(c', m') := pump_dispatch tn (c, m) d in served c m d c' m'.
Proof.
  intros Hnd Hns Hau Hnf Hp.
  destruct (group_granted c m d Hnd Hns Hau Hnf Hp) as (pms & pd & c1 & m1 & P1 & P2 & P3 & P4 & P5 & (e & w & b & P6) & P7 & P8 & P9 & P10 & P11).
  pose proof (Forall2_length _ _ _ P3) as Hlen.
  destruct (commit_group tn pd (exec_request d) c (dp_members d) pms (im_next_grant m) [] c1 P2 Hns P3) as (recs & c2 & C1 & C2 & C3 & C4).
  { rewrite P4, <- Hlen. apply Hnf. }
  unfold pump_dispatch. change (ex_prepare (exec_request d) c) with (cpu_prepare (exec_request d) c). rewrite P1, P6. cbn [au_members].
  unfold commit_members. rewrite C1. cbn [app apply_commit_receipt snd rd_receipts].
  pose proof (group_receipts_fit c c2 pd _ _ _ _ Hlen C2) as Hfit.
  destruct P7 as [B1 B2 B3 _ _]. destruct (apply_group recs _ m1 Hfit B1 B2 B3) as [A1 A2].
  pose proof (receipts_frame recs m1) as [R1 R2]. split; rewrite ?seqs_refresh, ?R1, ?R2.
  - intros spec s Hin Hs. destruct (Hp spec Hin) as [s0 H0]. pose proof (po_seq _ _ _ _ _ H0) as Hs0. rewrite Hs in Hs0.
    apply (inj Some) in Hs0 as <-. destruct (P11 spec s Hin Hs) as (s1 & Hs1 & Hv). apply list_elem_of_lookup_1 in Hin as [i Hi].
    destruct (Forall2_lookup_l _ _ _ _ _ P3 Hi) as (pm & Hpm & Hst). pose proof (numbered_lookup (im_next_grant m) pms i pm Hpm) as Hx.
    destruct (Forall2_lookup_l _ _ _ _ _ C2 (zip_lookup _ _ _ _ _ Hi Hx)) as (rec & Hr & Hc). cbn [fst snd] in Hc.
    destruct (staged_fields _ _ _ _ _ Hst) as (st & _ & _ & [Hf _ _ _ _]).
    assert (Hsq : g_sequence (grant_for pd pm (mkId (im_next_grant m + Z.of_nat i))) = ms_sequence spec) by apply (pf_sequence _ _ _ Hf).
    destruct (A1 i rec (grant_for pd pm (mkId (im_next_grant m + Z.of_nat i))) s1) as (s' & Hs' & Hd); [done| |by rewrite Hsq|].
    { by rewrite list_lookup_fmap, Hx. }
    exists s'. rewrite <- Hsq. split; [done|]. by eapply finalized_advanced.
  - intros x Hx. rewrite A2; [by apply P10|]. by rewrite grants_sequences, (staged_sequences _ _ _ _ _ P3).
  - intros sid Hsid. by rewrite C3, P5.
  - done.
  - done.
  - intros i Hi. rewrite C4 by lia. by rewrite P4.
Qed.

(** *** A cycle *)

Lemma agrees_frame c c' s : ce_states c' !! sd_id (s_state s) = ce_states c !! sd_id (s_state s) -> agrees c s -> agrees c' s.
Proof. intros H [H1 H2]. split; by rewrite (entry_frame c c'). Qed.

Lemma poised_frame c m c' m' d spec s :
  im_seqs m' !! ms_sequence spec = im_seqs m !! ms_sequence spec -> ce_states c' !! spec_state spec = ce_states c !! spec_state spec ->
  poised c m d spec s -> poised c' m' d spec s.
Proof.
  intros H1 H2 Hp. destruct (poised_spec _ _ _ _ _ Hp) as [E _]. destruct Hp as [P1 P2 P3 P4 P5 P6].
  split; try done; [by rewrite H1|]. apply (agrees_frame c); [by rewrite <- E|done].
Qed.

Lemma advanced_frame c c' s s' :
  ce_states c' !! sd_id (s_state s') = ce_states c !! sd_id (s_state s') -> advanced c s s' -> advanced c' s s'.
Proof. intros H [A1 A2 A3 A4 A5 A6 A7 A8]. split; try done. by apply (agrees_frame c). Qed.

(** The members of the dispatches of a cycle. *)
Definition cycle_specs (ds : list Dispatch) : list DecodeMemberSpec := ds ≫= dp_members.

(** Serving the dispatches of a cycle advances every member by one token and touches nothing else. *)
Lemma cycle_advances (tn : Z) (ds : list Dispatch) c m :
  NoDup (ms_sequence <$> cycle_specs ds) -> NoDup (spec_state <$> cycle_specs ds) ->
  (forall d, d ∈ ds -> authority m d) -> numbers_free c m (Z.of_nat (length (cycle_specs ds))) ->
  (forall d spec, d ∈ ds -> spec ∈ dp_members d -> exists s, poised c m d spec s) ->
  let '(c', m') := foldl (pump_dispatch tn) (c, m) ds in
  (forall spec s, spec ∈ cycle_specs ds -> im_seqs m !! ms_sequence spec = Some s ->
     exists s', im_seqs m' !! ms_sequence spec = Some s' /\ advanced c' s s') /\
  (forall x, x ∉ ms_sequence <$> cycle_specs ds -> im_seqs m' !! x = im_seqs m !! x) /\
  (forall sid, sid ∉ spec_state <$> cycle_specs ds -> ce_states c' !! sid = ce_states c !! sid) /\
  im_next_grant m' = im_next_grant m + Z.of_nat (length (cycle_specs ds)) /\
  (forall i, im_next_grant m' <= i -> ce_receipts_by_grant c' !! (mkId i : GrantId) = ce_receipts_by_grant c !! (mkId i : GrantId)) /\
  env_view m' = env_view m.
Proof.
  revert c m. induction ds as [|d ds IH]; intros c m Hnd Hns Hau Hnf Hp; cbn [foldl].
  { split_and!; try done; [by intros spec s ?%not_elem_of_nil|cbn; lia]. }
  change (cycle_specs (d :: ds)) with (dp_members d ++ cycle_specs ds) in *. rewrite fmap_app in Hnd. rewrite fmap_app in Hns.
  rewrite length_app in Hnf.
  apply NoDup_app in Hnd as (Nd1 & Nd2 & Nd3), Hns as (Ns1 & Ns2 & Ns3). destruct Hnf as [N0 N1 N2].
  pose proof (dispatch_served tn c m d Nd1 Ns1 (Hau d ltac:(by left))) as Hsv.
  destruct (pump_dispatch tn (c, m) d) as [c1 m1]. destruct Hsv as [S1 S2 S3 S4 S5 S6]; [split; [done|lia|intros; apply N2; lia]|by intros; apply Hp; [left|]|].
  specialize (IH c1 m1 Nd3 Ns3). destruct (foldl (pump_dispatch tn) (c1, m1) ds) as [c' m'].
  assert (Hout : forall spec, spec ∈ cycle_specs ds -> (ms_sequence spec ∉ dispatched d) /\ (spec_state spec ∉ spec_state <$> dp_members d)).
  { intros spec Hin. split; intros H; [apply (Nd2 _ H)|apply (Ns2 _ H)]; by apply list_elem_of_fmap_2. }
  destruct IH as (I1 & I2 & I3 & I4 & I5 & I6).
  { intros d' Hd'. destruct (Hau d' ltac:(by right)) as [A1 A2]. pose proof S4 as Hv. unfold env_view in Hv. injection Hv as _ Ee Eb _. split; by rewrite ?Ee, ?Eb. }
  { split; [lia|lia|]. intros i Hi. rewrite S6 by lia. apply N2. lia. }
  { intros d' spec Hd' Hin. destruct (Hp d' spec ltac:(by right) Hin) as [s Hs]. exists s.
    destruct (Hout spec) as [O1 O2]; [apply list_elem_of_bind; by exists d'|]. apply (poised_frame c m); [by apply S2|by apply S3|done]. }
  split_and!.
  - intros spec s [Hin|Hin]%elem_of_app Hs.
    + destruct (S1 spec s Hin Hs) as (s' & Hs' & Ha). exists s'. destruct (Hp d spec ltac:(by left) Hin) as [s0 H0].
      pose proof (po_seq _ _ _ _ _ H0) as Hs0. rewrite Hs in Hs0. apply (inj Some) in Hs0 as <-. split.
      * rewrite I2; [done|]. apply Nd2. by apply list_elem_of_fmap_2.
      * apply (advanced_frame c1); [|done]. rewrite (ad_state _ _ _ Ha), <- (proj1 (poised_spec _ _ _ _ _ H0)).
        apply I3, Ns2. by apply list_elem_of_fmap_2.
    + apply I1; [done|]. by rewrite S2 by apply (Hout spec Hin).
  - intros x Hx. rewrite fmap_app, not_elem_of_app in Hx. destruct Hx. by rewrite I2, S2.
  - intros x Hx. rewrite fmap_app, not_elem_of_app in Hx. destruct Hx. by rewrite I3, S3.
  - rewrite length_app. lia.
  - intros i Hi. rewrite I5, S6 by lia. done.
  - congruence.
Qed.
End group.
