(* ===== verification/PumpProgress.v ===== *)
(** * The pump drains its work

    What a scheduling pass keeps of every sequence, what a whole pump cycle with the CPU executor makes of the fabric,
    and that a pump without a bound runs out of work. *)

From S2P Require Import Prelude Enums Errors Token StateMachine Ids Compatibility Types Double FabricState FabricFrame FabricOps Schedule ScheduleTheorems Transaction Executor CpuExecutor CpuTheorems Pump FabricInvariants ProtocolInvariants FabricTheorems Authorization PumpTheorems GroupProgress.

(** ** Scheduling keeps where a sequence stands *)

(** Where a sequence stands: everything a scheduling pass has no business with. *)
Definition standing (s : Seq) :=
  (s_budget s, s_generated s, s_has_inflight_grant s,
   (s_state s, s_committed_state_digest s, s_state_digest_established s, s_accepted s, s_has_accepted s), s_generation s).

Section standing.
Context {CLK : Clock} {ORD : MapOrder}.
Implicit Types (m : Impl) (x y : SequenceId).

(** The authority in force. *)
Definition auth_view m := (im_epoch m, im_worker_current_boot m).
Record stands m m' : Prop := {
  sd_standing : forall x, standing <$> (im_seqs m' !! x) = standing <$> (im_seqs m !! x);
  sd_auth : auth_view m' = auth_view m;
  sd_workers : same_workers m m';
}.

Lemma auth_env m m' : env_view m' = env_view m -> auth_view m' = auth_view m.
Proof. unfold env_view, auth_view. by intros [= _ -> -> _]. Qed.
Lemma workers_env m m' : env_view m' = env_view m -> same_workers m m'.
Proof. unfold env_view. intros [= H _ _ _]. by apply same_workers_eq. Qed.

Lemma stands_refl m : stands m m.
Proof. split; [done|done|apply same_workers_refl]. Qed.
Lemma stands_then m0 m m' : stands m m' -> stands m0 m -> stands m0 m'.
Proof. intros [H1 H2 H3] [H4 H5 H6]. split; [intros x; by rewrite H1|congruence|by eapply same_workers_trans]. Qed.
Lemma stands_seqs m0 m m' : im_seqs m' = im_seqs m -> env_view m' = env_view m -> stands m0 m -> stands m0 m'.
Proof. intros H1 H2. apply stands_then. split; [by rewrite H1|by apply auth_env|by apply workers_env]. Qed.
Lemma stands_upd_seq y f m0 m : (forall s, standing (f s) = standing s) -> stands m0 m -> stands m0 (upd_seq y f m).
Proof.
  intros Hf. apply stands_then. split; [|done|by apply workers_env]. intros x. rewrite lookup_upd_seq. case_decide; [|done].
  destruct (im_seqs m !! x); [|done]. cbn. by rewrite Hf.
Qed.
Lemma stands_release y m0 m : stands m0 m -> stands m0 (release y m).
Proof.
  apply stands_then. split; [|apply auth_env, env_release|apply workers_env, env_release]. intros x. rewrite lookup_release. case_decide; [|done].
  destruct (im_seqs m !! x); [|done]. cbn. unfold standing. by rsimpl.
Qed.
Lemma stands_transition y st m0 m : stands m0 m -> stands m0 (transition y st m).
Proof. apply stands_upd_seq. intros s. unfold standing. by rsimpl. Qed.
Lemma stands_event k r s d m0 m : stands m0 m -> stands m0 (record_event k r s d m).
Proof. apply stands_seqs; [apply seqs_record_event|apply env_record_event]. Qed.
Lemma stands_bump (f : Stats -> Z) `{!Setter f} m0 m : stands m0 m -> stands m0 (bump f m).
Proof. apply stands_seqs; [by apply seqs_bump|by apply env_bump]. Qed.
Lemma stands_tenant t m0 m : stands m0 m -> stands m0 (tenant_done t m).
Proof. by apply stands_seqs. Qed.
Lemma stands_terminal y st m0 m : stands m0 m -> stands m0 (record_terminal y st m).
Proof. by apply stands_seqs. Qed.
Lemma stands_worker wid f m0 m :
  stands m0 m -> stands m0 (upd im_workers (alter (fun w => w <| wk_active_reservations ::= f |>) wid) m).
Proof.
  apply stands_then. split; [done|done|]. intros i. rsimpl. destruct (decide (i = wid)) as [->|Hn].
  - rewrite lookup_alter_eq. destruct (im_workers m !! wid) as [w|]; cbn; constructor. unfold same_worker. by destruct w.
  - rewrite lookup_alter_ne by done. destruct (im_workers m !! i); constructor. reflexivity.
Qed.
End standing.

Create HintDb stands.
#[export] Hint Resolve stands_refl stands_release stands_transition stands_event stands_bump stands_tenant stands_terminal : stands.
Ltac stands_walk := repeat case_match; cbn [fst snd]; auto 40 with stands nocore.

Section scheduling.
Context {CLK : Clock} {ORD : MapOrder}.
Implicit Types (m : Impl) (x y : SequenceId).

Lemma stands_expire y t m0 m : stands m0 m -> stands m0 (expire_seq y t m).
Proof. intros H. unfold expire_seq. stands_walk. Qed.
Lemma stands_cancel y t m0 m : stands m0 m -> stands m0 (cancel_seq y t m).
Proof. intros H. unfold cancel_seq. stands_walk. Qed.
#[local] Hint Resolve stands_expire stands_cancel : stands.

Lemma stands_advance tn m : stands m (advance tn m).2.
Proof.
  unfold advance. cbn [snd]. apply (foldl_inv (stands m)); [apply stands_refl|]. intros m' x _ H. unfold advance_seq. stands_walk.
Qed.

Lemma stands_boundary tn m : stands m (sched_boundary tn m).
Proof.
  unfold sched_boundary. apply (foldl_inv (stands m)); [apply stands_refl|]. intros m' x _ H. unfold boundary_seq. cbv zeta. stands_walk.
Qed.

Lemma stands_collect tn m0 m : stands m0 m -> stands m0 (sched_collect tn m).2.
Proof.
  intros H. unfold sched_collect. apply (foldl_inv (fun acc => stands m0 acc.2)); [done|]. intros [cands m'] x _ H'. cbn [snd] in H'.
  unfold collect_seq. cbv zeta. stands_walk.
Qed.

Lemma stands_form tn cands m0 m : stands m0 m -> stands m0 (sched_form tn cands m).2.
Proof.
  intros H. unfold sched_form. assert (K : stands m0 (foldl (form_cand tn) (∅, [], m) cands).2).
  { apply (foldl_inv (fun acc => stands m0 acc.2)); [done|]. intros [[index formed] m'] c _ H'. cbn [snd] in H'. unfold form_cand. cbv zeta.
    fold (group_for c index formed). destruct (group_for c index formed) as [[gi index1] formed1]. repeat case_match; cbn [snd]; try done.
    apply stands_upd_seq; [intros s1; unfold standing; by rsimpl|]. by apply stands_transition. }
  by destruct (foldl _ _ cands) as [[index formed] m'].
Qed.

Lemma stands_revert members m0 m : stands m0 m -> stands m0 (revert_members members m).
Proof. intros H. unfold revert_members. apply (foldl_inv (stands m0)); [done|]. intros. by apply stands_transition. Qed.

Lemma stands_dispatch_member d m0 acc x : stands m0 acc.2 -> stands m0 (dispatch_member d acc x).2.
Proof.
  destruct acc as [specs m]. cbn [snd]. intros H. unfold dispatch_member. case_match; [|done]. cbn [snd].
  apply stands_event, stands_upd_seq; [intros s1; unfold standing; by rsimpl|]. do 2 apply stands_transition.
  apply stands_upd_seq; [|done]. intros s1. unfold dispatch_seq, standing. by rsimpl.
Qed.

Lemma stands_place tn formed m0 m : stands m0 m -> stands m0 (sched_place tn formed m).2.
Proof.
  intros H. unfold sched_place. apply (foldl_inv (fun acc => stands m0 acc.2)); [done|]. intros [out m'] g _ H'. cbn [snd] in H'.
  unfold place_group. case_bool_decide; [done|]. destruct (choose_worker (f_key g) m') as [[wid w]|]; [|by apply stands_revert].
  cbv zeta. set (m1 := upd im_dev_mem _ m'). assert (H1 : stands m0 m1) by (by apply (stands_seqs _ m')). clearbody m1.
  destruct (negb _); [by apply stands_event, stands_revert|]. unfold issue_dispatch. cbv zeta. set (d := new_dispatch tn g w m1).
  assert (H2 : stands m0 (foldl (dispatch_member d) ([], reserve_group tn d (group_growth m' (f_members g)) m1) (f_members g)).2).
  { apply (foldl_inv (fun acc => stands m0 acc.2)); [|intros; by apply stands_dispatch_member].
    apply (stands_seqs _ m1); [apply seqs_reserve_group|apply env_reserve_group|done]. }
  destruct (foldl (dispatch_member d) _ _) as [specs m2]. cbn [snd] in *. by apply stands_event, stands_bump, stands_worker.
Qed.

Lemma stands_schedule tn m : stands m (schedule tn m).2.
Proof.
  unfold schedule. cbv zeta. pose proof (stands_boundary tn m) as H. set (m1 := sched_boundary tn m) in *. clearbody m1.
  apply (stands_collect tn) in H. destruct (sched_collect tn m1) as [cands m2]. cbn [snd] in H.
  apply (stands_form tn (stable_sort cands)) in H. destruct (sched_form _ _ m2) as [formed m3]. cbn [snd] in H.
  apply (stands_place tn formed) in H. destruct (sched_place _ _ m3) as [out m4]. cbn [snd] in *.
  apply (stands_seqs _ m4); [apply seqs_refresh|done|done].
Qed.

(** Expiry and cancellation in [advance]. *)
Lemma closing_advance tn m : closing m (advance tn m).2.
Proof.
  unfold advance. cbn [snd]. apply (foldl_inv (closing m)); [apply closing_refl|]. intros m' x _ H. eapply closing_trans; [exact H|].
  assert (K : forall m2 k r d, closing m2 (record_event k r x d m2)).
  { intros m2 k r d y s'. rewrite seqs_record_event. intros Hs. by apply closing_refl. }
  unfold advance_seq. repeat case_match; try apply closing_refl.
  all: eapply closing_trans; [|apply K]; eapply closing_trans; [apply closing_release|].
  - apply closing_expire.
  - apply closing_cancel.
Qed.
End scheduling.

(** ** One cycle *)

Section cycle.
Context `{LM : Libm} {SC : SteadyClock} {CLK : Clock} {ORD : MapOrder}.
Implicit Types (c : CpuDecodeExecutor) (m : Impl) (x y : SequenceId) (s : Seq).

(** A sequence between two steps, on which fabric and executor agree. *)
Record rested c s : Prop := {
  re_between : s_machine s = SequenceState.Ready \/ s_machine s = SequenceState.ReadyForNextToken;
  re_grant : s_has_inflight_grant s = false;
  re_agrees : agrees c s;
}.

(** Every sequence is finished or between two steps. *)
Definition quiescent c m : Prop := forall x s, im_seqs m !! x = Some s -> is_terminal (s_machine s) = true \/ rested c s.

(** No two sequences share an executor state. *)
Definition own_states m : Prop :=
  forall x y s t, im_seqs m !! x = Some s -> im_seqs m !! y = Some t -> sd_id (s_state s) = sd_id (s_state t) -> x = y.

(** No step of the dispatches has the idempotency key of the step its sequence committed last. *)
Definition keys_fresh m (ds : list Dispatch) : Prop :=
  forall d spec s, d ∈ ds -> spec ∈ dp_members d -> im_seqs m !! ms_sequence spec = Some s ->
    ~ (s_has_accepted s = true /\ ac_idempotency_key (s_accepted s) =
        acceptance_key_fields (dp_epoch d) (dp_worker d) (dp_worker_boot d) (ms_sequence spec) (spec_state spec)
          (ms_attempt spec) (ms_generation spec) (dp_id d) (s_generated s)).

(** As a test. *)
Definition keys_freshb m (ds : list Dispatch) : bool :=
  forallb (fun d => forallb (fun spec => match im_seqs m !! ms_sequence spec with
    | Some s => negb (s_has_accepted s && (ac_idempotency_key (s_accepted s) =?
        acceptance_key_fields (dp_epoch d) (dp_worker d) (dp_worker_boot d) (ms_sequence spec) (spec_state spec)
          (ms_attempt spec) (ms_generation spec) (dp_id d) (s_generated s)))
    | None => true
    end) (dp_members d)) ds.

Lemma keys_freshb_ok m ds : keys_freshb m ds = true -> keys_fresh m ds.
Proof.
  unfold keys_freshb. rewrite forallb_forall. intros H d spec s Hd%list_elem_of_In Hsp%list_elem_of_In Hs [E1 E2].
  specialize (H d Hd). cbn beta in H. rewrite forallb_forall in H. specialize (H spec Hsp). cbn beta in H. rewrite Hs, E1, E2, Z.eqb_refl in H. done.
Qed.

(** The dispatches a cycle issues. *)
Definition issued_in tn m : list Dispatch := (schedule tn (advance tn m).2).1.

Lemma agrees_standing c s s' : standing s' = standing s -> agrees c s -> agrees c s'.
Proof. unfold standing. intros [= _ E1 _ E2 E3 E4 _ _ _] [H1 H2]. split; by rewrite ?E1, ?E2, ?E3, ?E4. Qed.

Lemma advanced_standing c s1 s s' : standing s1 = standing s -> advanced c s1 s' -> advanced c s s'.
Proof. unfold standing. intros [= E1 E2 _ E3 _ _ _ _ E4] [A1 A2 A3 A4 A5 A6 A7 A8]. split; congruence. Qed.

Lemma stands_lookup m m' x s' : stands m m' -> im_seqs m' !! x = Some s' -> exists s, im_seqs m !! x = Some s /\ standing s' = standing s.
Proof. intros [H _ _] Hs. specialize (H x). rewrite Hs in H. symmetry in H. apply fmap_Some in H as (s & H1 & H2). eauto. Qed.

(** A candidate after [advance] was the same sequence between two steps before. *)
Lemma advance_rested tn c m x s1 :
  quiescent c m -> im_seqs (advance tn m).2 !! x = Some s1 ->
  exists s, im_seqs m !! x = Some s /\ standing s1 = standing s /\
    (is_terminal (s_machine s1) = true \/ s_machine s1 = s_machine s /\ rested c s).
Proof.
  intros Hq Hs1. destruct (stands_lookup _ _ _ _ (stands_advance tn m) Hs1) as (s & Hs & Hst). exists s. split; [done|]. split; [done|].
  destruct (closing_advance tn m _ _ Hs1) as (s' & Hs' & _ & Hm). rewrite Hs in Hs'. apply (inj Some) in Hs' as <-.
  destruct (Hq x s Hs) as [Ht|Hr]; [|tauto]. left. destruct Hm as [->|]; done.
Qed.

Lemma rested_standing c s s' :
  standing s' = standing s -> s_machine s' = SequenceState.Ready \/ s_machine s' = SequenceState.ReadyForNextToken -> rested c s -> rested c s'.
Proof.
  intros Hst Hm [_ R2 R3]. split; [done| |by apply (agrees_standing c s)]. unfold standing in Hst. congruence.
Qed.

(** A sequence that is not dispatched stays finished or between two steps. *)
Lemma left_rested tn c m x s' :
  quiescent c m -> x ∉ issued_in tn m ≫= dispatched -> im_seqs (schedule tn (advance tn m).2).2 !! x = Some s' ->
  is_terminal (s_machine s') = true \/ rested c s'.
Proof.
  intros Hq Hx Hs'. destruct (schedule_left tn _ _ _ Hx Hs') as (s1 & Hs1 & Hl).
  destruct (advance_rested tn c m x s1 Hq Hs1) as (s & Hs & Hst & Hm).
  destruct (stands_lookup _ _ _ _ (stands_schedule tn (advance tn m).2) Hs') as (s1' & Hs1' & Hst').
  rewrite Hs1 in Hs1'. apply (inj Some) in Hs1' as <-. destruct Hl as [El|[Ht|El]]; [|by left|].
  - destruct Hm as [Ht|[E Hr]]; [left; by rewrite El|]. right. apply (rested_standing c s); [congruence| |done]. rewrite El, E. apply Hr.
  - destruct Hm as [Ht|[E Hr]]; [left; rewrite El; by destruct (s_machine s1)|]. right. apply (rested_standing c s); [congruence| |done].
    rewrite El, E. left. by destruct (re_between _ _ Hr) as [->| ->].
Qed.

(** A member of a dispatch is poised. *)
Lemma member_poised tn c m d spec :
  quiescent c m -> keys_fresh m (issued_in tn m) -> d ∈ issued_in tn m -> spec ∈ dp_members d ->
  exists s, poised c (schedule tn (advance tn m).2).2 d spec s /\ tb_exhausted (s_budget s) = false.
Proof.
  intros Hq Hf Hd Hsp. pose proof (Hf d spec) as Hf1. pose proof (stands_schedule tn (advance tn m).2) as Hstands. revert Hd Hstands.
  pose proof (schedule_facts tn (advance tn m).2) as H. unfold issued_in in *. destruct (schedule tn (advance tn m).2) as [ds m2].
  destruct H as [_ Hall]. cbn [fst snd] in *. intros Hd Hstands. destruct (Hall d Hd) as [_ _ _ (g & m1 & Hok & _) Hrun Hmach].
  assert (Hx : ms_sequence spec ∈ dispatched d) by by apply list_elem_of_fmap_2.
  destruct (do_holds _ _ _ _ Hok spec Hsp) as (s2 & Hs2 & Hh & _). destruct (Hmach _ Hx) as (s1 & s2' & Hs1 & Hs2' & Em).
  destruct (Hrun _ Hx) as (s1' & _ & Hs1' & _ & _ & Hc & Hb). rewrite Hs1 in Hs1'. apply (inj Some) in Hs1' as <-.
  rewrite Hs2 in Hs2'. apply (inj Some) in Hs2' as <-.
  destruct (advance_rested tn c m _ s1 Hq Hs1) as (s & Hs & Hst & [Ht|[E Hr]]); [by destruct (s_machine s1)|].
  destruct (stands_lookup _ _ _ _ Hstands Hs2) as (s1' & Hs1' & Hst2). rewrite Hs1 in Hs1'. apply (inj Some) in Hs1' as <-.
  specialize (Hf1 s Hd Hsp Hs). assert (Hst3 : standing s2 = standing s) by congruence. exists s2. split; [split|]; try done.
  - rewrite Em, E. by destruct (re_between _ _ Hr) as [->| ->].
  - destruct Hr as [_ R2 _]. unfold standing in Hst3. congruence.
  - by apply (agrees_standing c s); [|apply Hr].
  - unfold standing in Hst3. injection Hst3 as _ -> _ _ _ _ -> -> _. done.
  - unfold standing in Hst2. injection Hst2 as -> _ _ _ _ _ _ _ _. done.
Qed.

(** The dispatches carry the authority in force. *)
Lemma issued_authority tn m d : d ∈ (schedule tn m).1 -> authority (schedule tn m).2 d.
Proof.
  pose proof (stands_schedule tn m) as [_ Ha _]. pose proof (schedule_facts tn m) as H. destruct (schedule tn m) as [ds m2].
  destruct H as [_ Hall]. cbn [fst snd] in *. intros Hd. destruct (Hall d Hd) as [_ _ _ (g & m1 & Hok & He) _ _].
  unfold env_view in He. injection He as _ He Hb _. unfold auth_view in Ha. injection Ha as He2 Hb2.
  split; [rewrite (do_epoch _ _ _ _ Hok); congruence|]. destruct (do_worker _ _ _ _ Hok) as (wid & w & _ & <- & _ & _ & _ & ->).
  rewrite Hb2, Hb. destruct (im_worker_current_boot m !! wk_id w); [by right|by left].
Qed.

Lemma cycle_specs_dispatched ds : ms_sequence <$> cycle_specs ds = ds ≫= dispatched.
Proof. induction ds as [|d ds IH]; [done|]. cbn. rewrite fmap_app. by f_equal. Qed.

(** Distinct sequences with their own states have distinct states. *)
Lemma own_states_nodup m specs :
  own_states m -> NoDup (ms_sequence <$> specs) ->
  (forall spec, spec ∈ specs -> exists s, im_seqs m !! ms_sequence spec = Some s /\ spec_state spec = sd_id (s_state s)) ->
  NoDup (spec_state <$> specs).
Proof.
  intros Ho Hnd Hs. apply NoDup_alt. pose proof (proj1 (NoDup_alt _) Hnd) as Hinj. intros i j sid. rewrite !list_lookup_fmap.
  intros (a & Ha & Ea)%fmap_Some (b & Hb & Eb)%fmap_Some. apply (Hinj i j (ms_sequence a)); rewrite list_lookup_fmap; [by rewrite Ha|].
  rewrite Hb. cbn. f_equal. destruct (Hs a) as (s & Hsa & Esa); [by eapply list_elem_of_lookup_2|].
  destruct (Hs b) as (t & Htb & Etb); [by eapply list_elem_of_lookup_2|]. apply (Ho _ _ t s); congruence.
Qed.

Lemma numbers_free_le c m n n' : n' <= n -> numbers_free c m n -> numbers_free c m n'.
Proof. intros Hn [H1 H2 H3]. split; [done|lia|]. intros i Hi. apply H3. lia. Qed.

Lemma own_states_stands m m' : stands m m' -> own_states m -> own_states m'.
Proof.
  intros Hs Ho x y s t Hx Hy E. destruct (stands_lookup _ _ _ _ Hs Hx) as (s0 & H1 & E1), (stands_lookup _ _ _ _ Hs Hy) as (t0 & H2 & E2).
  apply (Ho x y s0 t0 H1 H2). unfold standing in E1, E2. congruence.
Qed.

(** What one cycle makes of a quiescent fabric. *)
Record cycle_done c m (ds : list Dispatch) c' m' : Prop := {
  cd_advanced : forall x, x ∈ ds ≫= dispatched -> exists s s', im_seqs m !! x = Some s /\ im_seqs m' !! x = Some s' /\
    tb_exhausted (s_budget s) = false /\ advanced c' s s';
  cd_left : forall x s', x ∉ ds ≫= dispatched -> im_seqs m' !! x = Some s' ->
    exists s, im_seqs m !! x = Some s /\ standing s' = standing s /\ (is_terminal (s_machine s) = true -> is_terminal (s_machine s') = true);
  cd_quiescent : quiescent c' m';
  cd_own : own_states m';
  cd_dom : forall x, is_Some (im_seqs m' !! x) <-> is_Some (im_seqs m !! x);
  cd_workers : same_workers m m';
  cd_numbers : forall n, numbers_free c m (Z.of_nat (length (ds ≫= dispatched)) + n) -> numbers_free c' m' n;
}.

(** What the scheduling pass of a cycle hands to the executor. *)
Record handed c m (ds : list Dispatch) m2 : Prop := {
  hd_stands : stands m m2;
  hd_quiet : quiet m m2;
  hd_nodup : NoDup (ms_sequence <$> cycle_specs ds);
  hd_states : NoDup (spec_state <$> cycle_specs ds);
  hd_authority : forall d, d ∈ ds -> authority m2 d;
  hd_poised : forall d spec, d ∈ ds -> spec ∈ dp_members d -> exists s, poised c m2 d spec s /\ tb_exhausted (s_budget s) = false;
  hd_left : forall x s', x ∉ ds ≫= dispatched -> im_seqs m2 !! x = Some s' -> is_terminal (s_machine s') = true \/ rested c s';
}.

Lemma cycle_specs_in ds spec : spec ∈ cycle_specs ds <-> exists d, d ∈ ds /\ spec ∈ dp_members d.
Proof. unfold cycle_specs. rewrite list_elem_of_bind. split; intros (d & H1 & H2); by exists d. Qed.

Lemma schedule_hands tn c m :
  quiescent c m -> own_states m -> keys_fresh m (issued_in tn m) ->
  handed c m (issued_in tn m) (schedule tn (advance tn m).2).2.
Proof.
  intros Hq Ho Hf. set (m1 := (advance tn m).2).
  assert (Hst : stands m (schedule tn m1).2) by (eapply stands_then; [apply stands_schedule|apply stands_advance]).
  assert (Hnd : NoDup (ms_sequence <$> cycle_specs (issued_in tn m))).
  { rewrite cycle_specs_dispatched. unfold issued_in. fold m1. pose proof (schedule_facts tn m1) as H. destruct (schedule tn m1). apply H. }
  split; [done| |done| |intros d; apply issued_authority|intros d spec; by apply member_poised|intros x s'; by apply left_rested].
  - etrans; [apply quiet_advance|apply quiet_schedule].
  - apply (own_states_nodup (schedule tn m1).2); [by apply (own_states_stands m)|done|]. intros spec (d & Hd & Hin)%cycle_specs_in.
    destruct (member_poised tn c m d spec Hq Hf Hd Hin) as (s & Hp & _). exists s. split; [apply Hp|apply (poised_spec _ _ _ _ _ Hp)].
Qed.

(** *** The executor's part of the cycle *)

Section served.
Context (c : CpuDecodeExecutor) (m : Impl) (ds : list Dispatch) (m2 : Impl) (c' : CpuDecodeExecutor) (m' : Impl).
Hypothesis Hown : own_states m.
Hypothesis Hhand : handed c m ds m2.
Hypothesis Hadv : forall spec s, spec ∈ cycle_specs ds -> im_seqs m2 !! ms_sequence spec = Some s ->
  exists s', im_seqs m' !! ms_sequence spec = Some s' /\ advanced c' s s'.
Hypothesis Hrest : forall x, x ∉ ds ≫= dispatched -> im_seqs m' !! x = im_seqs m2 !! x.
Hypothesis Hexec : forall sid, sid ∉ spec_state <$> cycle_specs ds -> ce_states c' !! sid = ce_states c !! sid.

Lemma served_member x :
  x ∈ ds ≫= dispatched ->
  exists s s', im_seqs m !! x = Some s /\ im_seqs m' !! x = Some s' /\ tb_exhausted (s_budget s) = false /\ advanced c' s s'.
Proof using Hhand Hadv.
  rewrite <- cycle_specs_dispatched. intros (spec & -> & Hin)%list_elem_of_fmap. pose proof Hin as (d & Hd & Hin2)%cycle_specs_in.
  destruct (hd_poised _ _ _ _ Hhand d spec Hd Hin2) as (s2 & Hp & Hb). pose proof (po_seq _ _ _ _ _ Hp) as Hs2.
  destruct (Hadv spec s2 Hin Hs2) as (s' & Hs' & Ha). destruct (stands_lookup _ _ _ _ (hd_stands _ _ _ _ Hhand) Hs2) as (s & Hs & E).
  exists s, s'. split_and!; [done|done| |by apply (advanced_standing c' s2)]. unfold standing in E. congruence.
Qed.

Lemma served_left x s' :
  x ∉ ds ≫= dispatched -> im_seqs m' !! x = Some s' ->
  exists s, im_seqs m !! x = Some s /\ standing s' = standing s /\ (is_terminal (s_machine s) = true -> is_terminal (s_machine s') = true).
Proof using Hhand Hrest.
  intros Hx Hs'. rewrite Hrest in Hs' by done. destruct (stands_lookup _ _ _ _ (hd_stands _ _ _ _ Hhand) Hs') as (s & Hs & E).
  exists s. split_and!; [done|done|]. intros Ht. pose proof (q_seqs _ _ (hd_quiet _ _ _ _ Hhand) x) as H. rewrite Hs, Hs' in H.
  inversion H as [? ? Hq|]; subst. by rewrite (lifecycle_terminal _ _ (sq_life _ _ Hq) Ht).
Qed.

Lemma served_state x s' : im_seqs m' !! x = Some s' -> exists s, im_seqs m !! x = Some s /\ s_state s' = s_state s.
Proof using Hhand Hadv Hrest.
  intros Hs'. destruct (decide (x ∈ ds ≫= dispatched)) as [Hx|Hx].
  - destruct (served_member x Hx) as (s & s1 & Hs & Hs1 & _ & Ha). rewrite Hs' in Hs1. apply (inj Some) in Hs1 as <-. exists s. split; [done|apply Ha].
  - destruct (served_left x s' Hx Hs') as (s & Hs & E & _). exists s. split; [done|]. unfold standing in E. congruence.
Qed.

Lemma served_own : own_states m'.
Proof using Hown Hhand Hadv Hrest.
  intros x y s t Hx Hy E. destruct (served_state x s Hx) as (s0 & Hs0 & E1), (served_state y t Hy) as (t0 & Ht0 & E2).
  apply (Hown x y s0 t0 Hs0 Ht0). congruence.
Qed.

Lemma served_dom x : is_Some (im_seqs m' !! x) <-> is_Some (im_seqs m !! x).
Proof using Hhand Hadv Hrest.
  destruct (decide (x ∈ ds ≫= dispatched)) as [Hx|Hx].
  - destruct (served_member x Hx) as (s & s' & Hs & Hs' & _). rewrite Hs, Hs'. by split; eexists.
  - rewrite Hrest by done. destruct (hd_stands _ _ _ _ Hhand) as [Hst _ _]. by rewrite <- (fmap_is_Some standing (im_seqs m2 !! x)), Hst, fmap_is_Some.
Qed.

(** A state of a sequence that was not dispatched belongs to no member. *)
Lemma served_apart x s : x ∉ ds ≫= dispatched -> im_seqs m2 !! x = Some s -> sd_id (s_state s) ∉ spec_state <$> cycle_specs ds.
Proof using Hown Hhand.
  intros Hx Hs (spec & E & Hin)%list_elem_of_fmap. pose proof Hin as (d & Hd & Hin2)%cycle_specs_in.
  destruct (hd_poised _ _ _ _ Hhand d spec Hd Hin2) as (s2 & Hp & _). destruct (poised_spec _ _ _ _ _ Hp) as [E2 _].
  apply Hx. rewrite <- cycle_specs_dispatched.
  rewrite (own_states_stands m m2 (hd_stands _ _ _ _ Hhand) Hown x (ms_sequence spec) s s2); [by apply list_elem_of_fmap_2|done|apply Hp|congruence].
Qed.

Lemma served_quiescent : quiescent c' m'.
Proof using Hown Hhand Hadv Hrest Hexec.
  intros x s' Hs'. destruct (decide (x ∈ ds ≫= dispatched)) as [Hx|Hx].
  - destruct (served_member x Hx) as (s & s1 & Hs & Hs1 & _ & Ha). rewrite Hs' in Hs1. apply (inj Some) in Hs1 as <-.
    destruct (ad_machine _ _ _ Ha) as [->|[Hm _]]; [by left|]. right. split; [by right|apply Ha|apply Ha].
  - rewrite Hrest in Hs' by done. destruct (hd_left _ _ _ _ Hhand x s' Hx Hs') as [Ht|[R1 R2 R3]]; [by left|]. right.
    split; [done|done|]. apply (agrees_frame c); [|done]. apply Hexec. by apply (served_apart x).
Qed.
End served.

Lemma handed_done tn c m ds m2 :
  own_states m -> numbers_free c m (Z.of_nat (length (ds ≫= dispatched))) -> handed c m ds m2 ->
  let '(c', m') := foldl (pump_dispatch tn) (c, m2) ds in cycle_done c m ds c' m'.
Proof.
  intros Ho Hn Hh. pose proof Hh as [Hst Hqu Hnd Hns Hau Hpo Hle].
  assert (Hnx : im_next_grant m2 = im_next_grant m) by (apply q_view, ledger_view_fields in Hqu; tauto).
  assert (Hlen : length (cycle_specs ds) = length (ds ≫= dispatched)) by (rewrite <- cycle_specs_dispatched; by rewrite length_fmap).
  pose proof (cycle_advances tn ds c m2 Hnd Hns Hau) as H. destruct (foldl (pump_dispatch tn) (c, m2) ds) as [c' m'].
  destruct H as (A1 & A2 & A3 & A4 & A5 & A6).
  { rewrite Hlen. destruct Hn as [N1 N2 N3]. split; rewrite Hnx; done. }
  { intros d spec Hd Hin. destruct (Hpo d spec Hd Hin) as (s & Hp & _). by exists s. }
  rewrite cycle_specs_dispatched in A2. split.
  - by apply (served_member c m ds m2).
  - by apply (served_left c m ds m2 m').
  - by apply (served_quiescent c m ds m2).
  - by apply (served_own c m ds m2 c').
  - by apply (served_dom c m ds m2 c').
  - eapply same_workers_trans; [apply Hst|by apply workers_env].
  - intros n [N1 N2 N3]. split; rewrite A4, Hnx, Hlen; [lia|lia|]. intros i Hi. rewrite A5 by lia. apply N3. lia.
Qed.

(** C7: a cycle makes progress.  Let every sequence of the fabric be finished or between two steps, with the CPU executor
    agreeing on its position and digest, each on an executor state of its own; let the grant numbers of the cycle be unused,
    and no step of it share its idempotency key with the step its sequence committed last.  Then one pump cycle prepares,
    grants, commits and finalizes every dispatched sequence: it had budget left, and its token count and generation grow by
    one, its budget is charged one token, nothing is left in flight, and it is completed or ready for its next token with
    budget left; every other sequence stands where it stood; and the fabric and the executor are again as the cycle
    found them. *)
Theorem pump_once_progress (tn : Z) c m :
  quiescent c m -> own_states m -> numbers_free c m (Z.of_nat (length (issued_in tn m ≫= dispatched))) ->
  keys_fresh m (issued_in tn m) ->
  let '(ds, (c', m')) := pump_once tn c m in cycle_done c m ds c' m'.
Proof.
  intros Hq Ho Hn Hf. pose proof (schedule_hands tn c m Hq Ho Hf) as Hh. unfold issued_in in *. unfold pump_once. cbv zeta.
  destruct (schedule tn (advance tn m).2) as [ds m2]. cbn [fst snd] in *.
  pose proof (handed_done tn c m ds m2 Ho Hn Hh) as H. by destruct (foldl (pump_dispatch tn) (c, m2) ds) as [c' m'].
Qed.
End cycle.

(** ** Until nothing is left *)

(** Taking one from [f] at the elements of [l] lowers its sum by the length of [l]. *)
Lemma sum_charge {A} `{EqDecision A} (f g : A -> nat) (L l : list A) :
  NoDup L -> NoDup l -> (forall x, x ∈ l -> x ∈ L) ->
  (forall x, x ∈ L -> x ∈ l -> f x = S (g x)) -> (forall x, x ∈ L -> x ∉ l -> f x = g x) ->
  sum_list_with f L = (length l + sum_list_with g L)%nat.
Proof.
  intros HL Hl Hsub H1 H2. assert (Hp : length l = length (filter (.∈ l) L)).
  { apply Permutation_length, NoDup_Permutation; [done|by apply NoDup_filter|]. intros x. rewrite list_elem_of_filter.
    split; [intros Hx; split; [done|by apply Hsub]|by intros [Hx _]]. }
  rewrite Hp. clear Hp Hsub HL Hl. induction L as [|x L IH]; [done|]. cbn [sum_list_with]. rewrite filter_cons.
  rewrite IH by (intros; (apply H1 || apply H2); [by right|done]).
  case_decide as Hx; cbn [length]; [rewrite (H1 x) by (done || by left)|rewrite (H2 x) by (done || by left)]; lia.
Qed.

Section drain.
Context `{LM : Libm} {SC : SteadyClock} {CLK : Clock} {ORD : MapOrder}.
Implicit Types (c : CpuDecodeExecutor) (m : Impl) (x y : SequenceId) (s : Seq).

Definition budgets_wf m : Prop := forall x s, im_seqs m !! x = Some s -> budget_wf (s_budget s).

(** The tokens a sequence may still generate, and all sequences together. *)
Definition allowance m x : nat := from_option (fun s => Z.to_nat (tb_remaining (s_budget s))) 0%nat (im_seqs m !! x).
Definition backlog m : nat := sum_list_with (allowance m) (elements (dom (im_seqs m))).

Lemma advance_remaining b :
  budget_wf b -> tb_exhausted b = false ->
  budget_wf (tb_advance 1 b).1 /\ Z.to_nat (tb_remaining b) = S (Z.to_nat (tb_remaining (tb_advance 1 b).1)).
Proof.
  intros Hw He. assert (H1 : in_range 64 1 = true) by done. pose proof (tb_advance_wf 1 b Hw H1) as Hw'. split; [done|].
  unfold tb_exhausted in He. rewrite !tb_remaining_wf by done. rewrite tb_advance_spec by done.
  destruct (Z.geb_spec (tb_generated b) (tb_max b)) as [|Hlt]; [done|]. destruct (Z.leb_spec (tb_generated b + 1) (tb_max b)); [|lia].
  cbn [fst tb_max tb_generated]. lia.
Qed.

(** The cycle takes one token from the allowance of every dispatched sequence. *)
Lemma cycle_backlog c m ds c' m' :
  budgets_wf m -> NoDup (ds ≫= dispatched) -> cycle_done c m ds c' m' ->
  budgets_wf m' /\ backlog m = (length (ds ≫= dispatched) + backlog m')%nat.
Proof.
  intros Hw Hnd [C1 C2 _ _ C5 _ _]. split.
  - intros x s' Hs'. destruct (decide (x ∈ ds ≫= dispatched)) as [Hx|Hx].
    + destruct (C1 x Hx) as (s & s1 & Hs & Hs1 & He & Ha). rewrite Hs' in Hs1. apply (inj Some) in Hs1 as <-.
      rewrite (ad_budget _ _ _ Ha). by apply advance_remaining; [apply (Hw x)|].
    + destruct (C2 x s' Hx Hs') as (s & Hs & E & _). unfold standing in E. injection E as -> _. by apply (Hw x).
  - unfold backlog. assert (dom (im_seqs m') = dom (im_seqs m)) as -> by (apply set_eq; intros x; by rewrite !elem_of_dom).
    apply sum_charge; [apply NoDup_elements|done| | |]; intros x; rewrite elem_of_elements, elem_of_dom.
    + intros Hx. destruct (C1 x Hx) as (s & _ & Hs & _). by exists s.
    + intros _ Hx. destruct (C1 x Hx) as (s & s' & Hs & Hs' & He & Ha). unfold allowance. rewrite Hs, Hs'. cbn [from_option].
      rewrite (ad_budget _ _ _ Ha). by apply advance_remaining; [apply (Hw x)|].
    + intros Hs Hx. apply C5 in Hs as [s' Hs']. destruct (C2 x s' Hx Hs') as (s & Hs & E & _). unfold allowance. rewrite Hs, Hs'. cbn [from_option].
      unfold standing in E. by injection E as -> _.
Qed.

(** A cycle dispatches no more sequences than there are tokens to generate. *)
Lemma handed_backlog c m ds m2 : budgets_wf m -> handed c m ds m2 -> (length (ds ≫= dispatched) <= backlog m)%nat.
Proof.
  intros Hw Hh. set (l := ds ≫= dispatched).
  assert (Hl : forall x, x ∈ l -> is_Some (im_seqs m !! x) /\ (0 < allowance m x)%nat).
  { intros x. unfold l. rewrite <- cycle_specs_dispatched. intros (spec & -> & (d & Hd & Hin)%cycle_specs_in)%list_elem_of_fmap.
    destruct (hd_poised _ _ _ _ Hh d spec Hd Hin) as (s2 & Hp & Hb).
    destruct (stands_lookup _ _ _ _ (hd_stands _ _ _ _ Hh) (po_seq _ _ _ _ _ Hp)) as (s & Hs & E). split; [by exists s|].
    unfold allowance. rewrite Hs. cbn [from_option]. unfold standing in E. injection E as E _ _ _ _ _ _ _ _. rewrite E in Hb.
    destruct (advance_remaining (s_budget s)) as [_ ->]; [by apply (Hw (ms_sequence spec))|done|lia]. }
  unfold backlog. rewrite (sum_charge _ (fun x => if decide (x ∈ l) then pred (allowance m x) else allowance m x) _ l); [lia|apply NoDup_elements| | | |].
  - unfold l. rewrite <- cycle_specs_dispatched. apply Hh.
  - intros x Hx. rewrite elem_of_elements, elem_of_dom. by apply Hl.
  - intros x _ Hx. rewrite decide_True by done. destruct (Hl x Hx) as [_ H]. lia.
  - intros x _ Hx. by rewrite decide_False.
Qed.

(** A fabric and an executor that the pump can drain. *)
Record drainable c m : Prop := {
  dr_quiescent : quiescent c m;
  dr_own : own_states m;
  dr_budgets : budgets_wf m;
  dr_numbers : numbers_free c m (Z.of_nat (backlog m));
}.

Lemma drainable_cycle tn c m :
  drainable c m -> keys_fresh m (issued_in tn m) ->
  let '(ds, (c', m')) := pump_once tn c m in
  drainable c' m' /\ cycle_done c m ds c' m' /\ backlog m = (length (ds ≫= dispatched) + backlog m')%nat /\ (ds = [] \/ (0 < length (ds ≫= dispatched))%nat).
Proof.
  intros [Hq Ho Hw Hn] Hf. pose proof (schedule_hands tn c m Hq Ho Hf) as Hh. pose proof (handed_backlog c m _ _ Hw Hh) as Hb.
  pose proof (schedule_facts tn (advance tn m).2) as Hsz. unfold issued_in in *. unfold pump_once. cbv zeta.
  destruct (schedule tn (advance tn m).2) as [ds m2]. cbn [fst snd] in *. destruct Hsz as [Hnd Hall].
  pose proof (handed_done tn c m ds m2 Ho ltac:(eapply numbers_free_le; [|done]; lia) Hh) as H.
  destruct (foldl (pump_dispatch tn) (c, m2) ds) as [c' m']. destruct (cycle_backlog c m ds c' m' Hw Hnd H) as [Hw' Eb].
  split; [|split; [done|split; [done|]]].
  - split; [apply H|apply H|done|]. apply (cd_numbers _ _ _ _ _ H). eapply numbers_free_le; [|done]. lia.
  - destruct ds as [|d ds]; [by left|right]. destruct (Hall d ltac:(by left)) as [[Hd _] _ _ _ _ _].
    rewrite bind_cons, length_app. unfold dispatched at 1. rewrite length_fmap. lia.
Qed.

Lemma drainable_now c m : drainable c m -> drainable c (now m).2.
Proof. intros [H1 H2 H3 [N1 N2 N3]]. split; [exact H1|exact H2|exact H3|]. split; [exact N1|exact N2|exact N3]. Qed.

(** The steps of the cycle after [k] cycles have new idempotency keys. *)
Definition cycle_fresh (k : nat) c m : Prop :=
  let '(tn, mk) := now (cycles k c m).2.2 in keys_fresh mk (issued_in tn mk).

Lemma cycles_after k ds c m c' m' : cycle ([], (c, m)) = (ds, (c', m')) -> (cycles (S k) c m).2 = (cycles k c' m').2.
Proof.
  intros Hc. destruct k as [|k]; [|by rewrite (cycles_shift _ _ _ _ _ _ Hc)]. change (cycles 1 c m) with (cycle ([], (c, m))). by rewrite Hc.
Qed.

(** Without a bound, the loop returns after at most one cycle more than there are tokens left to generate. *)
Lemma pump_loop_drains fuel mc cyc c m :
  mc <= 0 -> drainable c m -> (backlog m < fuel)%nat -> (forall k, (k <= backlog m)%nat -> cycle_fresh k c m) ->
  exists k c' m', (1 <= k <= S (backlog m))%nat /\ cycles k c m = ([], (c', m')) /\
    pump_loop fuel mc cyc c m = Some (Ok tt, (c', m')) /\ (forall j, (1 <= j < k)%nat -> (cycles j c m).1 <> []) /\ drainable c' m'.
Proof.
  intros Hmc. revert cyc c m. induction fuel as [|fuel IH]; intros cyc c m Hd Hb Hf; [lia|]. rewrite pump_loop_unfold.
  destruct (Z.gtb_spec mc 0) as [|_]; [lia|]. cbn [andb orb].
  pose proof (drainable_cycle (now m).1 c (now m).2 (drainable_now c m Hd) (Hf 0%nat ltac:(lia))) as H.
  change (pump_once (now m).1 c (now m).2) with (cycle ([], (c, m))) in H. destruct (cycle ([], (c, m))) as [ds [c1 m1]] eqn:Ec.
  change (backlog (now m).2) with (backlog m) in H. destruct H as (Hd1 & _ & Eb & Hds). case_bool_decide as E.
  - exists 1%nat, c1, m1. change (cycles 1 c m) with (cycle ([], (c, m))). rewrite Ec, E. split_and!; [lia|lia|done|done|lia|done].
  - destruct Hds as [|Hpos]; [done|]. destruct (IH (cyc + 1) c1 m1 Hd1 ltac:(lia)) as (k & c' & m' & Hk & Ek & Hl & Hj & Hd').
    { intros k Hk. specialize (Hf (S k) ltac:(lia)). unfold cycle_fresh in *. by rewrite (cycles_after k _ _ _ _ _ Ec) in Hf. }
    exists (S k), c', m'. destruct k as [|k]; [lia|]. rewrite (cycles_shift _ _ _ _ _ _ Ec). split_and!; [lia|lia|done|done| |done].
    intros [|[|j]] Hjk; [lia| |rewrite (cycles_shift _ _ _ _ _ _ Ec); apply Hj; lia].
    change (cycles 1 c m) with (cycle ([], (c, m))). by rewrite Ec.
Qed.

End drain.
