(* ===== verification/PumpCompletes.v ===== *)
(** * Every request is finished

    The pump run to the end with the CPU executor on workers that are healthy and have no reservation limit: when
    it returns, the only sequences left are those whose group does not fit the memory of its device. *)

From S2P Require Import Prelude Enums Errors Token StateMachine Ids Compatibility Types Binary Double FabricState FabricFrame FabricOps Schedule ScheduleTheorems ScheduleProgress Transaction Executor CpuExecutor CpuTheorems Pump FabricInvariants ProtocolInvariants FabricTheorems Authorization PumpTheorems GroupProgress PumpProgress.



Section hosting.
Implicit Types (m : Impl).





End hosting.

Section completes.
Context `{LM : Libm} {SC : SteadyClock} {CLK : Clock} {ORD : MapOrder}.
Implicit Types (c : CpuDecodeExecutor) (m : Impl).







End completes.
