(* ===== verification/AcceptanceKey.v ===== *)
(** * The idempotency key of a step

    [acceptance_key_fields] of src/fabric.cpp hashes nine 64-bit numbers into one.  The hash cannot be injective; what it
    does tell apart: steps that differ in one field only, and consecutive steps of a sequence under dispatches of
    different parity. *)

From S2P Require Import Prelude Enums Errors Token StateMachine Ids Compatibility Types Crc Double FabricState FabricFrame FabricOps Schedule ScheduleTheorems Transaction Executor CpuExecutor CpuTheorems Pump FabricInvariants ProtocolInvariants FabricTheorems Authorization PumpTheorems GroupProgress PumpProgress.

(** One round of the hash. *)
Abbreviation fnv_round := (fun h v => Z.lxor h v *64 fnv_prime).

Definition word64 (z : Z) : Prop := 0 <= z < 2 ^ 64.

(** ** A round loses nothing *)

(** The inverse of the prime modulo 2^64. *)
Definition fnv_inverse : Z := 14886173955864302971.

Lemma fnv_unwind z : word64 z -> (z *64 fnv_prime) *64 fnv_inverse = z.
Proof.
  intros H. unfold wrap. rewrite Z.mul_mod_idemp_l by done. rewrite <- Z.mul_assoc.
  assert (fnv_prime * fnv_inverse = 1 + fnv_prime * fnv_inverse / 2 ^ 64 * 2 ^ 64) as -> by (vm_compute; reflexivity).
  rewrite Z.mul_add_distr_l, Z.mul_assoc, Z_mod_plus_full, Z.mul_1_r. by apply Z.mod_small.
Qed.

Lemma round_word h v : word64 (fnv_round h v).
Proof. apply in_range_iff. by apply wrap_range. Qed.

Lemma rounds_word l h : word64 h -> word64 (foldl fnv_round h l).
Proof. revert h. induction l as [|v l IH]; intros h Hh; [done|]. cbn [foldl]. apply IH, round_word. Qed.

Lemma round_inj h h' v v' :
  word64 h -> word64 h' -> word64 v -> word64 v' -> fnv_round h v = fnv_round h' v' -> Z.lxor h v = Z.lxor h' v'.
Proof.
  intros H1 H2 H3 H4 E. rewrite <- (fnv_unwind (Z.lxor h v)), <- (fnv_unwind (Z.lxor h' v')) by (apply lxor_range; done). by rewrite E.
Qed.

Lemma rounds_inj l h h' : Forall word64 l -> word64 h -> word64 h' -> foldl fnv_round h l = foldl fnv_round h' l -> h = h'.
Proof.
  intros Hl. revert h h'. induction Hl as [|v l Hv _ IH]; intros h h' Hh Hh' E; [done|]. cbn [foldl] in E.
  apply IH in E; [|apply round_word..]. apply round_inj in E; [|done..]. rewrite !(Z.lxor_comm _ v) in E. by apply lxor_cancel in E.
Qed.

(** Hashes of lists that differ at one place are different. *)
Lemma rounds_one_apart l1 l2 h v v' :
  Forall word64 l2 -> word64 h -> word64 v -> word64 v' ->
  foldl fnv_round h (l1 ++ v :: l2) = foldl fnv_round h (l1 ++ v' :: l2) -> v = v'.
Proof.
  intros Hl Hh Hv Hv'. rewrite !foldl_app. cbn [foldl]. intros E. apply rounds_inj in E; [|done|apply round_word..].
  apply round_inj in E; [by apply lxor_cancel in E|by apply rounds_word..|done|done].
Qed.

(** ** The parity of a hash *)

Lemma odd_round h v : Z.odd (fnv_round h v) = xorb (Z.odd h) (Z.odd v).
Proof.
  cbv beta. unfold wrap. rewrite <- Z.bit0_odd, Z.mod_pow2_bits_low, Z.bit0_odd by done. rewrite Z.odd_mul.
  change (Z.odd fnv_prime) with true. by rewrite andb_true_r, <- !Z.bit0_odd, Z.lxor_spec.
Qed.

Lemma odd_rounds l h : Z.odd (foldl fnv_round h l) = Z.odd (h + foldr Z.add 0 l).
Proof.
  revert h. induction l as [|v l IH]; intros h; cbn [foldl foldr]; [by rewrite Z.add_0_r|]. rewrite IH, !Z.odd_add, odd_round. by rewrite xorb_assoc.
Qed.

(** ** Acceptance keys *)

(** The nine numbers of a key. *)
Definition key_numbers (ep : CoordinatorEpoch) (wk : WorkerId) (wb : WorkerBootId) (seq : SequenceId) (st : StateId) (att : AttemptId)
    (gen : DecodeGeneration) (disp : DispatchId) (pos : Z) : list Z :=
  [id_value ep; id_value wk; id_value wb; id_value seq; id_value st; id_value att; id_value gen; id_value disp; pos].

Lemma acceptance_key_rounds ep wk wb seq st att gen disp pos :
  acceptance_key_fields ep wk wb seq st att gen disp pos = foldl fnv_round fnv_offset (key_numbers ep wk wb seq st att gen disp pos).
Proof. unfold acceptance_key_fields, key_numbers. reflexivity. Qed.

(** Two steps that differ in exactly one of the nine numbers have different keys: a step is never taken for the replay of one
    at another position, of another attempt, or under another epoch, everything else being the same. *)
Theorem acceptance_key_one_apart ep wk wb seq st att gen disp pos ep' wk' wb' seq' st' att' gen' disp' pos' (i : nat) (v : Z) :
  Forall word64 (key_numbers ep wk wb seq st att gen disp pos) -> word64 v ->
  key_numbers ep' wk' wb' seq' st' att' gen' disp' pos' = <[i := v]> (key_numbers ep wk wb seq st att gen disp pos) ->
  acceptance_key_fields ep' wk' wb' seq' st' att' gen' disp' pos' = acceptance_key_fields ep wk wb seq st att gen disp pos ->
  key_numbers ep' wk' wb' seq' st' att' gen' disp' pos' = key_numbers ep wk wb seq st att gen disp pos.
Proof.
  intros Hw Hv E Hk. rewrite !acceptance_key_rounds in Hk.
  rewrite E in *. set (l := key_numbers ep wk wb seq st att gen disp pos) in *. clearbody l. clear E.
  destruct (l !! i) as [w|] eqn:Hi; [|by rewrite list_insert_ge by (by apply lookup_ge_None)].
  rewrite insert_take_drop in * by (by apply lookup_lt_Some in Hi). rewrite <- (take_drop_middle l i w Hi) in Hk at 3. rewrite <- (take_drop_middle l i w Hi) at 3.
  rewrite (rounds_one_apart (take i l) (drop (S i) l) fnv_offset v w); [done|by apply Forall_drop| |done| |done].
  - split; vm_compute; done.
  - by apply (Forall_lookup_1 _ _ _ _ Hw Hi).
Qed.

(** Consecutive steps of a sequence under one authority have different keys when their dispatch numbers differ in parity, as
    those of consecutive cycles with one dispatch each do. *)
Theorem next_step_key_differs ep wk wb seq st att (gen : DecodeGeneration) (d1 d2 : DispatchId) pos :
  Z.odd (id_value d1) <> Z.odd (id_value d2) ->
  acceptance_key_fields ep wk wb seq st att gen d1 pos <> acceptance_key_fields ep wk wb seq st att (mkId (id_value gen +64 1)) d2 (pos +64 1).
Proof.
  intros Hd E. apply Hd. apply (f_equal Z.odd) in E. rewrite !acceptance_key_rounds, !odd_rounds in E. unfold key_numbers in E. cbn [foldr id_value] in E.
  assert (Hs : forall z, Z.odd (z +64 1) = negb (Z.odd z)).
  { intros z. unfold wrap. rewrite <- Z.bit0_odd, Z.mod_pow2_bits_low, Z.bit0_odd, Z.odd_add by done. by destruct (Z.odd z). }
  rewrite !Z.odd_add, !Hs in E. destruct (Z.odd (id_value d1)), (Z.odd (id_value d2)); try done; exfalso; revert E;
    repeat match goal with |- context [Z.odd ?z] => destruct (Z.odd z) end; done.
Qed.
