(* ===== verification/DistributedTheorems.v ===== *)
(** * The coordinator is safe against the network

    Whatever frames arrive on whatever connections, in whatever order, the coordinator's fabric
    only ever takes steps of the grant protocol; and the committed state of a sequence changes
    only when a worker's connection delivers a receipt for a grant pending for it. *)

From S2P Require Import Prelude Enums Errors Token StateMachine Ids Compatibility Types Binary Frame Messages Double FabricState FabricFrame FabricOps Schedule Transaction Executor CpuExecutor Pump Observability Distributed FabricInvariants ProtocolInvariants FabricTheorems.

Section server.
Context {CLK : Clock} {ORD : MapOrder} {OS : Ostream}.
Implicit Types (sv : Server) (co : Coordinator).

Abbreviation fabric_of sv := (co_fabric (sv_coord sv)).

(** The fabric does nothing, or one of its operations. *)
Definition one_op (m m' : Impl) : Prop := m' = m \/ exists op, m' = step m op.

(** The fabric does nothing, or an operation other than applying receipts. *)
Definition no_commit (m m' : Impl) : Prop := m' = m \/ exists op, m' = step m op /\ forall r, op <> OReceipts r.

Lemma no_commit_one m m' : no_commit m m' -> one_op m m'.
Proof. intros [->|(op & -> & _)]; [by left|right; by exists op]. Qed.

Lemma no_commit_view m m' : no_commit m m' -> no_receipt m m'.
Proof. intros [->|(op & -> & H)]; [apply no_receipt_refl|by apply no_receipt_step]. Qed.

Lemma client_request_op f m : no_commit m (client_request f m).2.
Proof.
  assert (Hop : forall op, (forall r, op <> OReceipts r) -> no_commit m (step m op)) by (intros op H; right; by exists op).
  unfold client_request. destruct (fr_type f); try (by left);
    lazymatch goal with
    | |- context [decode_submit_request ?p] => destruct (decode_submit_request p) as [req|]; [|by left];
        pose proof (Hop (OSubmit req) ltac:(discriminate)) as H; cbn [step] in H; by destruct (submit req m)
    | |- context [decode_query ?p] => destruct (decode_query p) as [q|]; [|by left];
        pose proof (Hop (OCancelRequest (q_request q)) ltac:(discriminate)) as H; cbn [step] in H; by destruct (cancel_request _ m)
    | |- context [decode_execute_result ?p] => destruct (decode_execute_result p) as [res|]; [|by left];
        exact (Hop (OCompletion res) ltac:(discriminate))
    | _ => exact (Hop ORollEpoch ltac:(discriminate))
    end.
Qed.

(** What a frame on a worker's connection does. *)
Lemma worker_frame_op w f co :
  no_commit (co_fabric co) (co_fabric (worker_frame w f co).2) \/
  exists rd, fr_type f = FrameType.CommitReceipt /\ decode_commit_receipts (fr_payload f) = Ok rd /\
    co_fabric (worker_frame w f co).2 = step (co_fabric co) (OReceipts rd).
Proof.
  unfold worker_frame. destruct (fr_type f) eqn:Et; try (by left; left).
  all: lazymatch goal with
    | |- context [decode_prepared_result ?p] => left; destruct (decode_prepared_result p) as [pd|]; [|by left];
        right; exists (OAuthorize pd); split; [|discriminate]; cbn [step]; by destruct (authorize_prepared pd (co_fabric co)) as [[ar|] m]
    | |- context [decode_commit_receipts ?p] => destruct (decode_commit_receipts p) as [rd|]; [right; by exists rd|by left; left]
    end.
Qed.

(** One event: no commit, or a worker's receipts. *)
Lemma server_step_op sv ev :
  no_commit (fabric_of sv) (fabric_of (server_step sv ev)) \/
  exists conn f w rd, ev = EvFrame conn f /\ sv_sessions sv !! conn = Some (WorkerSession w) /\
    fr_type f = FrameType.CommitReceipt /\ decode_commit_receipts (fr_payload f) = Ok rd /\
    fabric_of (server_step sv ev) = step (fabric_of sv) (OReceipts rd).
Proof.
  destruct sv as [co ss sent]. cbn [sv_coord sv_sessions]. destruct ev as [conn|conn f|conn|]; cbn [server_step].
  - left. case_bool_decide; by left.
  - destruct (ss !! conn) as [s|] eqn:Hs; [|by left; left].
    assert (Hclient : no_commit (co_fabric co) (co_fabric (client_frame f co).2)).
    { unfold client_frame. case_bool_decide; [by left|]. pose proof (client_request_op f (co_fabric co)) as Hr.
      by destruct (client_request f (co_fabric co)). }
    destruct s as [|w| |]; cbn [on_frame].
    + left. case_bool_decide as Hh; [|by destruct (client_frame f co) as [[out s] co']].
      unfold worker_hello. destruct (dec_worker _) as [w|]; [|by left].
      right. exists (ORegisterWorker w). split; [done|discriminate].
    + destruct (worker_frame_op w f co) as [H|(rd & H1 & H2 & H3)];
        destruct (worker_frame w f co) as [[out s] co']; cbn [snd sv_coord] in *; [by left|right].
      exists conn, f, w, rd. split_and!; done.
    + left. by destruct (client_frame f co) as [[out s] co'].
    + by left; left.
  - left. destruct (ss !! conn) as [s|]; [|by left]. destruct s as [|w| |]; try by left. cbn [on_lost sv_coord].
    right. exists (OMarkWorkerDead (wk_id w)). split; [done|discriminate].
  - left. unfold dispatch_tick. right. exists (OSchedule 0). split; [|discriminate]. cbn [step].
    by destruct (schedule 0 (co_fabric co)).
Qed.

Lemma serve_protocol sv evs : protocol (fabric_of sv) (fabric_of (serve sv evs)).
Proof.
  revert sv. induction evs as [|ev evs IH]; intros sv; [reflexivity|]. cbn. etrans; [|apply IH].
  destruct (server_step_op sv ev) as [[->|(op & -> & _)]|(c & f & w & rd & _ & _ & _ & _ & ->)];
    [reflexivity|apply step_protocol_lemma..].
Qed.

(** The accounts survive the network.  Whatever connections are opened and lost and whatever frames
    arrive on them, valid or not, in whatever order and interleaved with the dispatch thread, every
    generation, committed token and counted step of the coordinator's fabric is paid for by exactly
    one consumed grant. *)
Theorem server_exactly_once (evs : list CoordEvent) (id : SequenceId) (s : Seq) :
  let m := fabric_of (serve new_server evs) in
  bounded m -> im_seqs m !! id = Some s -> lengths_ok m id s -> accounts m id s.
Proof.
  intros m Hb Hs Hl. apply Inv_accounts; try done.
  apply (Inv_protocol (new_fabric coordinator_config)); [apply (serve_protocol new_server)|done|apply Inv_new].
Qed.

(** C31: only a worker's receipt commits.  If an event changes the committed state of a sequence, it is a
    frame on a connection that introduced itself as a worker, the frame is a decodable batch of
    receipts, and one of them consumed the open grant the sequence had in flight: no client frame, no
    completion, no lost connection and no scheduling can do it. *)
Theorem only_workers_commit sv (ev : CoordEvent) (id : SequenceId) (s s' : Seq) :
  im_seqs (fabric_of sv) !! id = Some s -> im_seqs (fabric_of (server_step sv ev)) !! id = Some s' ->
  committed_view s' <> committed_view s ->
  exists conn f w rd rec gr, ev = EvFrame conn f /\ sv_sessions sv !! conn = Some (WorkerSession w) /\
    fr_type f = FrameType.CommitReceipt /\ decode_commit_receipts (fr_payload f) = Ok rd /\ rec ∈ rd_receipts rd /\
    rc_sequence rec = id /\ im_grant_ledger (fabric_of sv) !! rc_grant_id rec = Some gr /\
    gr_status gr <> 1 /\ gr_status gr <> 2 /\ receipt_fits rec (gr_grant gr) = true /\
    s_in_flight_grant s = rc_grant_id rec /\ s_committed_state_digest s' = rc_post_state_digest rec.
Proof.
  intros Hs Hs' Hv. destruct (server_step_op sv ev) as [H|(conn & f & w & rd & E1 & E2 & E3 & E4 & Hf)].
  { apply no_commit_view in H. destruct (H id s Hs) as (s1 & Hs1 & E). congruence. }
  rewrite Hf in Hs'. cbn [step apply_commit_receipt snd] in Hs'.
  change (im_seqs (refresh_derived_stats ?x)) with (im_seqs x) in Hs'.
  destruct (receipts_chain _ _ id s s' Hs Hs') as [?|(rec & gr & fin & Hin & Hid & [A1 [A2 A2'] A3 A4 A5] & E)]; [done|].
  exists conn, f, w, rd, rec, gr. split_and!; try done.
  destruct (committed_view_fields _ _ E) as (_ & _ & _ & _ & R5 & _). rewrite R5.
  by destruct (commit_seq_fields rec fin s) as (_ & _ & _ & _ & _ & _ & -> & _).
Qed.
End server.
