(* ===== verification/PersistTheorems.v ===== *)
(** * Recovery is faithful and fenced

    What a fabric that recovers the image of another one looks like: the durable part of
    every sequence, the ledger with every pending grant aborted, nothing in flight.  The
    theorems say that recovery always succeeds on a serialized image, that it restores
    exactly this, that a damaged image changes nothing, and that no receipt from before
    the crash can advance a recovered sequence. *)

From S2P Require Import Prelude Enums Errors Token StateMachine Ids Compatibility Types Binary Frame Messages Crc Double FabricState FabricFrame FabricOps Schedule ScheduleTheorems Transaction Persist FabricInvariants ProtocolInvariants FabricTheorems.

(** ** What survives *)

(** The durable part of a request and of a state descriptor. *)
Definition durable_request (r : DecodeRequest) : DecodeRequest :=
  mkRequest (rq_id r) null_id (rq_tenant r) (rq_model r) (rq_revision r) null_id null_id (rq_prompt_length r)
    (rq_max_generation_length r) 0 (rq_priority r) double_one (rq_latency_class r) (rq_deadline r) 0 0 0 null_id ""
    default_state_descriptor.
Definition durable_descriptor (st : StateDescriptor) : StateDescriptor :=
  mkStateDescriptor (sd_id st) (sd_generation st) null_id (sd_bytes_held st) (sd_estimated_growth st)
    (sd_owner_tag st) 0.

(** Where a sequence resumes.  Only Grouped, Reserved and StepCompleted go back to Waiting. *)
Definition resumed (st : SequenceState) : SequenceState :=
  match st with
  | SequenceState.Grouped | SequenceState.Reserved | SequenceState.StepCompleted => SequenceState.Waiting
  | _ => st
  end.

(** A recovered sequence: durable data kept, nothing in flight. *)
Definition restore_seq (s : Seq) : Seq :=
  mkSeq (durable_request (s_req s)) (resumed (s_machine s)) (s_current_attempt s) (s_budget s)
    (s_current_length s) (s_generated s) (s_committed s) (s_generation s) null_id null_id null_id null_id 0 false
    (s_committed_state_digest s) (s_state_digest_established s) null_id false null_id 0
    (if s_has_accepted s then s_accepted s else default_accepted) (s_has_accepted s) null_id
    (durable_descriptor (s_state s)) (s_attempt_count s) 0 0 0 0 0 false.

(** A recovered grant: a pending one is aborted. *)
Definition restore_grant (gr : GrantRecord) : GrantRecord :=
  gr <| gr_status ::= (fun st => if st =? 0 then 2 else st) |>.

(** ** Fabrics whose values fit their fields *)

Definition accepted_ok (a : AcceptedGeneration) : bool :=
  in_range 64 (ac_idempotency_key a) && id_ok (ac_epoch a) && id_ok (ac_worker a) && id_ok (ac_worker_boot a) &&
  id_ok (ac_sequence a) && id_ok (ac_state a) && id_ok (ac_attempt a) && id_ok (ac_generation a) &&
  id_ok (ac_dispatch a) && in_range 64 (ac_committed_position_before a) &&
  in_range 64 (ac_committed_position_after a) && in_range 64 (ac_pre_state_digest a) &&
  in_range 64 (ac_post_state_digest a) && in_range 64 (ac_delta_digest a).

(** The budget is that of the request, within its bounds. *)
Definition budget_ok (s : Seq) : bool :=
  (tb_max (s_budget s) =? rq_max_generation_length (s_req s)) &&
  (tb_generated (s_budget s) <=? tb_max (s_budget s)) && in_range 64 (tb_max (s_budget s)) &&
  in_range 64 (tb_generated (s_budget s)).

Definition seq_ok (kv : SequenceId * Seq) : bool :=
  let s := kv.2 in
  id_ok kv.1 && id_ok (rq_id (s_req s)) && id_ok (s_current_attempt s) && id_ok (rq_tenant (s_req s)) &&
  id_ok (rq_model (s_req s)) && id_ok (rq_revision (s_req s)) && in_range 64 (rq_prompt_length (s_req s)) &&
  in_range 64 (rq_max_generation_length (s_req s)) && budget_ok s && in_range 64 (s_generation s) &&
  in_range 64 (s_generated s) && in_range 64 (s_committed s) && in_range 64 (s_current_length s) &&
  in_srange (rq_deadline (s_req s)) && in_range 32 (rq_priority (s_req s)) && enum_ok (rq_latency_class (s_req s)) &&
  enum_ok (s_machine s) && id_ok (sd_id (s_state s)) && in_range 64 (sd_generation (s_state s)) &&
  in_range 64 (sd_bytes_held (s_state s)) && in_range 64 (sd_estimated_growth (s_state s)) &&
  in_range 64 (sd_owner_tag (s_state s)) && in_range 32 (s_attempt_count s) &&
  in_range 64 (s_committed_state_digest s) && accepted_ok (s_accepted s).

Definition terminal_ok (kv : SequenceId * SequenceState) : bool := id_ok kv.1 && enum_ok kv.2.

Definition ledger_ok (kv : GrantId * GrantRecord) : bool :=
  id_eqb (g_grant_id (gr_grant kv.2)) kv.1 && grant_ok (gr_grant kv.2) && ((0 <=? gr_status kv.2) && (gr_status kv.2 <=? 2)) &&
  from_option receipt_ok true (gr_receipt kv.2).

Definition image_ok (m : Impl) : bool :=
  id_ok (im_epoch m) && in_range 64 (im_next_seq m) && in_range 64 (im_next_dispatch m) &&
  in_range 64 (im_receipt_count m) && forallb seq_ok (map_to_list (im_seqs m)) &&
  forallb terminal_ok (map_to_list (im_terminal_records m)) && forallb ledger_ok (map_to_list (im_grant_ledger m)) &&
  in_range 64 (Z.of_nat (size (im_seqs m))) && in_range 64 (Z.of_nat (size (im_terminal_records m))) &&
  in_range 64 (Z.of_nat (size (im_grant_ledger m))).

(** Those whose image can be read back: the reader accepts no more than [kMaxGrants] grants, a bound the writer does not have. *)
Definition persistable (m : Impl) : bool := image_ok m && (Z.of_nat (size (im_grant_ledger m)) <=? kMaxGrants).

(** ** Records *)

Lemma decodes_field {A} msg (m : Read A) bs a : decodes m bs a -> decodes (field msg m) bs a.
Proof.
  intros [Hr Ht]. split.
  - intros pre post. unfold field. by rewrite Hr.
  - intros pre p Hp Hn. unfold field. destruct (Ht pre p Hp Hn) as [msg' ->]. by exists msg.
Qed.
#[export] Hint Resolve decodes_field : decodes.

Lemma decodes_accepted a : accepted_ok a = true -> decodes read_accepted (write_accepted a) a.
Proof. solve_decodes a. Qed.
#[export] Hint Resolve decodes_accepted : decodes.

Lemma decodes_ledger_grant g : grant_ok g = true -> decodes read_ledger_grant (encode_commit_grant g) g.
Proof. solve_decodes g. Qed.
Lemma decodes_ledger_receipt rc : receipt_ok rc = true -> decodes read_ledger_receipt (write_receipt rc) rc.
Proof. solve_decodes rc. Qed.
#[export] Hint Resolve decodes_ledger_grant decodes_ledger_receipt : decodes.

Lemma restore_machine_resumed st : restore_machine st = resumed st.
Proof. by destruct st. Qed.

Lemma replay_budget s :
  budget_ok s = true ->
  tb_advance_times (Z.to_nat (tb_generated (s_budget s))) (new_budget (rq_max_generation_length (s_req s))) = s_budget s.
Proof.
  unfold budget_ok. rewrite !andb_true_iff, Z.eqb_eq, Z.leb_le. intros [[[Hm Hg] Hr] Hr'%in_range_iff].
  rewrite <- Hm, tb_advance_times_generated; rewrite ?Z2Nat.id by lia; [by destruct (s_budget s)|done|lia].
Qed.

Lemma budget_ok_range s : budget_ok s = true -> in_range 64 (tb_generated (s_budget s)) = true.
Proof. unfold budget_ok. by intros [_ H]%andb_true_iff. Qed.
#[local] Hint Resolve budget_ok_range : decodes.

Lemma decodes_seq kv : seq_ok kv = true -> decodes read_seq (write_seq kv) (kv.1, restore_seq kv.2).
Proof.
  destruct kv as [id s]. unfold seq_ok. cbn [fst snd]. intros H.
  repeat match goal with H : (_ && _) = true |- _ => apply andb_true_iff in H; destruct H end.
  assert (Hb := replay_budget s ltac:(done)).
  unfold read_seq, write_seq. cbv zeta. cbn [fst snd].
  destruct (s_has_accepted s) eqn:Ha; (eapply decodes_eq; [decode_fields|]); cbn beta iota;
    rewrite Hb, restore_machine_resumed; unfold restore_seq; by rewrite Ha.
Qed.
#[export] Hint Resolve decodes_seq : decodes.

Lemma decodes_terminal kv : terminal_ok kv = true -> decodes read_terminal (write_terminal kv) kv.
Proof. solve_decodes kv. Qed.

Lemma decodes_grant_record gid gr :
  ledger_ok (gid, gr) = true -> decodes read_grant_record (write_grant_record gr) (restore_grant gr).
Proof.
  unfold ledger_ok. cbn [snd]. rewrite !andb_true_iff. intros [[[_ Hg] [Hs1%Z.leb_le Hs2%Z.leb_le]] Hr].
  assert (Hs' : in_range 32 (gr_status gr) = true) by (apply in_range_iff; lia).
  assert (E : (if gr_status gr =? 0 then 2 else to_s32 (gr_status gr)) = if gr_status gr =? 0 then 2 else gr_status gr).
  { unfold to_s32. destruct (Z.ltb_spec (gr_status gr) (2 ^ 31)); [done|lia]. }
  unfold read_grant_record, write_grant_record.
  destruct (gr_receipt gr) as [rp|] eqn:Er; [|rewrite <- (app_nil_r (w_bool false))];
    (eapply decodes_eq; [decode_fields|]); cbn beta iota; rewrite E; destruct gr; cbn in *; by subst.
Qed.

(** ** Every writer writes bytes *)

Lemma are_bytes_seq kv : are_bytes (write_seq kv).
Proof. unfold write_seq, write_accepted. cbv zeta. bytes_walk. Qed.
Lemma are_bytes_terminal kv : are_bytes (write_terminal kv).
Proof. unfold write_terminal. bytes_walk. Qed.
Lemma are_bytes_grant_record gr : are_bytes (write_grant_record gr).
Proof. unfold write_grant_record, encode_commit_grant, write_receipt. bytes_walk. Qed.

(** ** Recovery steps *)

(** A recovery step that reads [bs], returns [a] and changes the state by [f]. *)
Definition recovers {A} (x : Recover A) (bs : bytes) (a : A) (f : Impl -> Impl) : Prop :=
  forall pre post m, x (mkReader (pre ++ bs ++ post) (List.length pre)) m =
    (Ok (a, mkReader (pre ++ bs ++ post) (List.length pre + List.length bs)), f m).

Lemma recovers_lift {A} (x : Read A) bs a : reads x bs a -> recovers (lift x) bs a (fun m => m).
Proof. intros Hr pre post m. unfold lift. by rewrite Hr. Qed.

Lemma recovers_modify f : recovers (modify f) [] tt f.
Proof. intros pre post m. unfold modify. cbn. by rewrite Nat.add_0_r. Qed.

Lemma recovers_bind {A B} (x : Recover A) (k : A -> Recover B) bs bs' a b f g :
  recovers x bs a f -> recovers (k a) bs' b g -> recovers (rc_bind x k) (bs ++ bs') b (fun m => g (f m)).
Proof.
  intros Hx Hk pre post m. unfold rc_bind. rewrite <- app_assoc, Hx, app_assoc.
  specialize (Hk (pre ++ bs) post (f m)). rewrite length_app in Hk. rewrite Hk, length_app.
  by rewrite Nat.add_assoc.
Qed.

(** A bind whose first step reads nothing. *)
Lemma recovers_silent {A B} (x : Recover A) (k : A -> Recover B) bs a b f g :
  recovers x [] a f -> recovers (k a) bs b g -> recovers (rc_bind x k) bs b (fun m => g (f m)).
Proof. intros Hx Hk. apply (recovers_bind x k [] bs a b f g Hx Hk). Qed.

Lemma recovers_loop {A B} (x : Read B) (store : B -> Impl -> Impl) (w : A -> bytes) (g : A -> B) l :
  Forall (fun a => decodes x (w a) (g a)) l ->
  recovers (recover_loop (List.length l) x store) (mjoin (w <$> l)) tt
    (fun m => foldl (fun m a => store (g a) m) m l).
Proof.
  induction 1 as [|a l Ha _ IH]; [apply recovers_modify|].
  apply (recovers_bind _ _ _ _ (g a) _ (fun m => m) (fun m => foldl (fun m a => store (g a) m) (store (g a) m) l)).
  - apply recovers_lift, Ha.
  - apply (recovers_silent _ _ _ tt tt (store (g a)) (fun m => foldl (fun m a => store (g a) m) m l)); [apply recovers_modify|exact IH].
Qed.

(** A counted section of the image. *)
Lemma recovers_counted {A B C} (x : Read B) (store : B -> Impl -> Impl) (w : A -> bytes) (g : A -> B) l msg
    (k : Recover C) bs c f :
  Forall (fun a => decodes x (w a) (g a)) l -> in_range 64 (Z.of_nat (List.length l)) = true ->
  recovers k bs c f ->
  recovers (cnt <-- lift (field msg r_u64) ;; _ <-- recover_loop (Z.to_nat cnt) x store ;; k)%recover
    (w_counted w l ++ bs) c (fun m => f (foldl (fun m a => store (g a) m) m l)).
Proof.
  intros Hl Hn Hk. unfold w_counted. rewrite <- app_assoc.
  apply (recovers_bind _ _ _ _ (Z.of_nat (List.length l)) c (fun m => m)).
  - apply recovers_lift, decodes_field, decodes_u64, Hn.
  - rewrite Nat2Z.id. eapply recovers_bind; [by apply recovers_loop|exact Hk].
Qed.

(** A recovery step that fails on the bytes, whatever surrounds them. *)
Definition refuses {A} (x : Recover A) (bs : bytes) (e : Error) : Prop :=
  forall pre post m, exists m', x (mkReader (pre ++ bs ++ post) (List.length pre)) m = (Err e, m').

Lemma refuses_bind {A B} (x : Recover A) (k : A -> Recover B) bs bs' a f e :
  recovers x bs a f -> refuses (k a) bs' e -> refuses (rc_bind x k) (bs ++ bs') e.
Proof.
  intros Hx Hk pre post m. unfold rc_bind. rewrite <- app_assoc, Hx, app_assoc.
  specialize (Hk (pre ++ bs) post (f m)). by rewrite length_app in Hk.
Qed.

Lemma refuses_now {A B} (x : Recover A) (k : A -> Recover B) bs e : refuses x bs e -> refuses (rc_bind x k) bs e.
Proof. intros Hx pre post m. unfold rc_bind. destruct (Hx pre post m) as [m' ->]. by exists m'. Qed.

Lemma refuses_silent {A B} (x : Recover A) (k : A -> Recover B) bs a f e :
  recovers x [] a f -> refuses (k a) bs e -> refuses (rc_bind x k) bs e.
Proof. intros Hx Hk. apply (refuses_bind x k [] bs a f e Hx Hk). Qed.

Lemma refuses_counted {A B C} (x : Read B) (store : B -> Impl -> Impl) (w : A -> bytes) (g : A -> B) l msg (k : Recover C) bs e :
  Forall (fun a => decodes x (w a) (g a)) l -> in_range 64 (Z.of_nat (List.length l)) = true -> refuses k bs e ->
  refuses (cnt <-- lift (field msg r_u64) ;; _ <-- recover_loop (Z.to_nat cnt) x store ;; k)%recover (w_counted w l ++ bs) e.
Proof.
  intros Hl Hn Hk. unfold w_counted. rewrite <- app_assoc. eapply refuses_bind; [apply recovers_lift, decodes_field, decodes_u64, Hn|].
  rewrite Nat2Z.id. eapply refuses_bind; [by apply recovers_loop|exact Hk].
Qed.

Section recovery.
Context {CLK : Clock} {ORD : MapOrder}.

Implicit Types m : Impl.

Lemma iter_forall `{Countable K} {A} (P : K * A -> bool) t (mp : gmap K A) :
  forallb P (map_to_list mp) = true -> Forall (fun kv => P kv = true) (iter t mp).
Proof.
  intros Hf. apply Forall_forall. intros kv Hkv. rewrite (iter_perm _ _ t mp) in Hkv.
  rewrite forallb_forall in Hf. by apply Hf, list_elem_of_In.
Qed.

Lemma iter_length `{Countable K} {A} t (mp : gmap K A) : List.length (iter t mp) = size mp.
Proof. by rewrite (Permutation_length (iter_perm _ _ t mp)), length_map_to_list. Qed.

(** The state that recovery builds, section by section. *)
Definition with_seqs m (m0 : Impl) : Impl :=
  foldl (fun m kv => store_seq (kv.1, restore_seq kv.2) m) m0 (iter (im_ticks m) (im_seqs m)).
Definition with_terminals m (m0 : Impl) : Impl :=
  foldl (fun m kv => store_terminal kv m) m0 (iter (im_ticks m) (im_terminal_records m)).
Definition with_grants m (m0 : Impl) : Impl :=
  foldl (fun m gr => store_grant (restore_grant gr) m)
    (m0 <| im_grant_ledger := ∅ |> <| im_receipt_count := 0 |>) (iter (im_ticks m) (im_grant_ledger m)).*2.
Definition recovered_state m m0 : Impl :=
  recount (with_grants m (with_terminals m (with_seqs m
    (restart (im_epoch m, im_next_seq m, im_next_dispatch m) m0))) <| im_receipt_count := im_receipt_count m |>).

Lemma are_bytes_body m : are_bytes (serialize_body m).
Proof.
  unfold serialize_body, w_counted. bytes_walk; try (by repeat constructor); apply are_bytes_mjoin.
  - apply are_bytes_seq.
  - apply are_bytes_terminal.
  - apply are_bytes_grant_record.
Qed.

Lemma decodes_magic : decodes check_magic magic tt.
Proof.
  unfold check_magic.
  apply (decodes_bind _ _ [68] _ 68); [apply decodes_field, decodes_u8|].
  apply (decodes_bind _ _ [70] _ 70); [apply decodes_field, decodes_u8|].
  apply (decodes_bind _ _ [83] _ 83); [apply decodes_field, decodes_u8|].
  apply (decodes_bind _ _ [84] [] 84); [apply decodes_field, decodes_u8|].
  rewrite bool_decide_true by done. apply decodes_ret.
Qed.

Lemma reads_bind {A B} (x : Read A) (k : A -> Read B) bs bs' a b :
  reads x bs a -> reads (k a) bs' b -> reads (r_bind x k) (bs ++ bs') b.
Proof.
  intros Hr Hr' pre post. unfold r_bind. rewrite <- app_assoc, Hr, app_assoc.
  specialize (Hr' (pre ++ bs) post). rewrite length_app in Hr'. rewrite Hr', length_app. by rewrite Nat.add_assoc.
Qed.

Lemma reads_version : reads check_version (w_u32 kPersistenceVersion) tt.
Proof.
  intros pre post. unfold check_version. destruct (decodes_u32 kPersistenceVersion eq_refl) as [Hr _]. by rewrite Hr.
Qed.

Lemma reads_header ep ns nd :
  id_ok ep = true -> in_range 64 ns = true -> in_range 64 nd = true ->
  reads read_header (magic ++ w_u32 kPersistenceVersion ++ w_id ep ++ w_u64 ns ++ w_u64 nd) (ep, ns, nd).
Proof.
  intros. unfold read_header. eapply reads_bind; [apply decodes_magic|].
  eapply reads_bind; [apply reads_version|]. eapply decodes_eq; [decode_fields|done].
Qed.

Lemma recovers_ext {A} (x : Recover A) bs a f g :
  recovers x bs a f -> (forall m, f m = g m) -> recovers x bs a g.
Proof. intros Hx E pre post m. by rewrite Hx, E. Qed.

Lemma recovers_image m :
  persistable m = true -> recovers recover_body (serialize_body m) tt (recovered_state m).
Proof.
  unfold persistable, image_ok. rewrite !andb_true_iff, Z.leb_le.
  intros [[[[[[[[[[He Hns] Hnd] Hrc] Hs] Ht] Hg] Hsn] Htn] _] Hgn].
  apply (iter_forall _ (im_ticks m)) in Hs, Ht, Hg.
  unfold serialize_body.
  rewrite <- (iter_length (im_ticks m)) in Hsn. rewrite <- (iter_length (im_ticks m)) in Htn.
  rewrite <- (iter_length (im_ticks m)) in Hgn.
  set (hdr := magic ++ w_u32 kPersistenceVersion ++ w_id (im_epoch m) ++ w_u64 (im_next_seq m) ++ w_u64 (im_next_dispatch m)).
  set (rest := w_counted write_seq _ ++ _).
  replace (magic ++ _) with (hdr ++ rest) by (unfold hdr; by rewrite <- !app_assoc).
  eapply recovers_ext.
  { eapply recovers_bind; [by apply recovers_lift, reads_header|]. subst rest.
    eapply recovers_silent; [apply recovers_modify|].
    eapply recovers_counted; [eapply Forall_impl; [exact Hs|apply decodes_seq]|done|].
    eapply recovers_counted; [eapply Forall_impl; [exact Ht|apply decodes_terminal]|done|].
    eapply recovers_silent; [apply recovers_modify|].
    unfold w_counted. rewrite <- app_assoc.
    eapply recovers_bind; [apply recovers_lift, decodes_field, decodes_u64|].
    { rewrite length_fmap. apply in_range_iff. change kMaxGrants with 4194304 in Hgn. lia. }
    rewrite Nat2Z.id. eapply recovers_silent.
    { rewrite length_fmap. destruct (Z.gtb_spec (Z.of_nat (List.length (iter (im_ticks m) (im_grant_ledger m)))) kMaxGrants); [lia|].
      apply recovers_lift, decodes_ret. }
    eapply recovers_bind; [apply (recovers_loop _ _ write_grant_record restore_grant)|].
    { apply Forall_fmap. eapply Forall_impl; [exact Hg|]. intros [gid gr]. apply decodes_grant_record. }
    rewrite <- (app_nil_r (w_u64 _)).
    eapply recovers_bind; [by apply recovers_lift, decodes_field, decodes_u64|]. apply recovers_modify. }
  done.
Qed.

(** An image with more grants than the reader accepts. *)
Lemma refuses_image m :
  image_ok m = true -> kMaxGrants < Z.of_nat (size (im_grant_ledger m)) ->
  refuses recover_body (serialize_body m) (mkError ErrorCode.PersistenceInvalidField "grant count too large").
Proof.
  unfold image_ok. rewrite !andb_true_iff. intros [[[[[[[[[He Hns] Hnd] _] Hs] Ht] _] Hsn] Htn] Hgn] Hbig.
  apply (iter_forall _ (im_ticks m)) in Hs, Ht.
  unfold serialize_body. rewrite <- (iter_length (im_ticks m)) in Hsn. rewrite <- (iter_length (im_ticks m)) in Htn.
  rewrite <- (iter_length (im_ticks m)) in Hgn, Hbig.
  set (hdr := magic ++ w_u32 kPersistenceVersion ++ w_id (im_epoch m) ++ w_u64 (im_next_seq m) ++ w_u64 (im_next_dispatch m)).
  set (rest := w_counted write_seq _ ++ _).
  replace (magic ++ _) with (hdr ++ rest) by (unfold hdr; by rewrite <- !app_assoc).
  eapply refuses_bind; [by apply recovers_lift, reads_header|]. subst rest. eapply refuses_silent; [apply recovers_modify|].
  eapply refuses_counted; [eapply Forall_impl; [exact Hs|apply decodes_seq]|done|].
  eapply refuses_counted; [eapply Forall_impl; [exact Ht|apply decodes_terminal]|done|].
  eapply refuses_silent; [apply recovers_modify|]. unfold w_counted. rewrite <- app_assoc.
  eapply refuses_bind; [apply recovers_lift, decodes_field, decodes_u64; by rewrite length_fmap|].
  apply refuses_now. rewrite length_fmap. destruct (Z.gtb_spec (Z.of_nat (List.length (iter (im_ticks m) (im_grant_ledger m)))) kMaxGrants); [|lia].
  intros pre post m'. by exists m'.
Qed.

(** Recovery of a serialized image succeeds and builds that state. *)
Lemma recover_image m m0 :
  persistable m = true -> recover_state (seal (serialize_body m)) m0 = (Ok tt, recovered_state m m0).
Proof.
  intros R%recovers_image.
  unfold recover_state. rewrite seal_ok_seal by apply are_bytes_body. cbn [negb].
  destruct (Z.ltb_spec (Z.of_nat (List.length (seal (serialize_body m)))) 5) as [Hl|_].
  { unfold seal, serialize_body in Hl. rewrite !length_app in Hl. cbn in Hl. lia. }
  specialize (R [] (w_u32 (crc32 (serialize_body m))) m0). cbn [app List.length] in R.
  unfold seal. by rewrite R.
Qed.

(** Recovery of an image with too many grants fails, after it has overwritten the fabric. *)
Lemma recover_image_large m m0 :
  image_ok m = true -> kMaxGrants < Z.of_nat (size (im_grant_ledger m)) ->
  exists m', recover_state (seal (serialize_body m)) m0 = (failed ErrorCode.PersistenceInvalidField "grant count too large", m').
Proof.
  intros Ho Hb. pose proof (refuses_image m Ho Hb [] (w_u32 (crc32 (serialize_body m))) m0) as [m' R].
  exists m'. unfold recover_state. rewrite seal_ok_seal by apply are_bytes_body. cbn [negb].
  destruct (Z.ltb_spec (Z.of_nat (List.length (seal (serialize_body m)))) 5) as [Hl|_].
  { unfold seal, serialize_body in Hl. rewrite !length_app in Hl. cbn in Hl. lia. }
  cbn [app List.length] in R. unfold seal. by rewrite R.
Qed.

(** ** The recovered fields *)

(** Storing records with distinct fresh keys in one of the maps. *)
Lemma foldl_store `{Countable K} {A B} (get : Impl -> gmap K A) (store : B -> Impl -> Impl) (key : B -> K) (val : B -> A) l m :
  (forall b m, get m !! key b = None -> get (store b m) = <[key b := val b]> (get m)) ->
  NoDup (key <$> l) -> (forall b, b ∈ l -> get m !! key b = None) ->
  get (foldl (fun m b => store b m) m l) = list_to_map ((fun b => (key b, val b)) <$> l) ∪ get m.
Proof.
  intros Hst. revert m. induction l as [|b l IH]; intros m Hnd Hf.
  { cbn. by rewrite (left_id_L ∅ (∪)). }
  cbn [fmap list_fmap foldl list_to_map] in *. apply NoDup_cons in Hnd as [Hb Hnd].
  assert (Hfr : get m !! key b = None) by (apply Hf; by left).
  rewrite IH; [|done|].
  - rewrite Hst by done. cbn. rewrite <- insert_union_l. symmetry. apply insert_union_r.
    apply not_elem_of_list_to_map_1. by rewrite <- list_fmap_compose.
  - intros b' Hb'. rewrite Hst by done. rewrite lookup_insert_ne; [apply Hf; by right|].
    intros E. apply Hb. rewrite E. by apply list_elem_of_fmap_2.
Qed.

Lemma list_to_map_iter `{Countable K} {A B} (f : A -> B) t (mp : gmap K A) :
  list_to_map ((fun kv => (kv.1, f kv.2)) <$> iter t mp) = f <$> mp.
Proof.
  rewrite <- (list_to_map_to_list mp) at 2. rewrite <- list_to_map_fmap.
  apply list_to_map_proper.
  - rewrite <- list_fmap_compose. apply iter_keys_nodup.
  - apply fmap_Permutation, iter_perm.
Qed.

(** What the sections do not touch. *)
Definition kept_view m :=
  (im_cfg m, im_workers m, im_worker_current_boot m, im_dev_mem m, im_reservations m, im_tenant_tokens m,
   (im_next_group m, im_next_reservation m, im_next_grant m)).

Lemma foldl_same {B X} (get : Impl -> X) (store : B -> Impl -> Impl) l m :
  (forall b m, get (store b m) = get m) -> get (foldl (fun m b => store b m) m l) = get m.
Proof. intros Hs. apply (foldl_inv (fun m' => get m' = get m)); [done|]. intros m' b _ <-. apply Hs. Qed.

Lemma with_seqs_seqs m m0 : im_seqs m0 = ∅ -> im_seqs (with_seqs m m0) = restore_seq <$> im_seqs m.
Proof.
  intros H0. unfold with_seqs.
  rewrite (foldl_store im_seqs (fun kv m => store_seq (kv.1, restore_seq kv.2) m) fst (fun kv => restore_seq kv.2)).
  - by rewrite H0, (right_id_L ∅ (∪)), list_to_map_iter.
  - intros kv m' Hk. unfold store_seq. rsimpl. cbn [fst snd]. by rewrite bool_decide_false by (rewrite Hk; by intros [? ?]).
  - apply iter_keys_nodup.
  - intros kv _. by rewrite H0.
Qed.

Lemma with_terminals_records m m0 :
  im_terminal_records m0 = ∅ -> im_terminal_records (with_terminals m m0) = im_terminal_records m.
Proof.
  intros H0. unfold with_terminals. rewrite (foldl_store im_terminal_records store_terminal fst snd).
  - rewrite H0, (right_id_L ∅ (∪)). rewrite <- (map_fmap_id (im_terminal_records m)) at 2. apply (list_to_map_iter id).
  - done.
  - apply iter_keys_nodup.
  - intros kv _. by rewrite H0.
Qed.

Lemma ledger_key m gid gr :
  forallb ledger_ok (map_to_list (im_grant_ledger m)) = true -> (gid, gr) ∈ iter (im_ticks m) (im_grant_ledger m) ->
  g_grant_id (gr_grant gr) = gid.
Proof.
  intros Hf%(iter_forall _ (im_ticks m)) Hin. rewrite Forall_forall in Hf. specialize (Hf _ Hin).
  unfold ledger_ok in Hf. cbn [fst snd] in Hf. rewrite !andb_true_iff in Hf.
  destruct Hf as [[[Hk _] _] _]. by apply id_eqb_eq.
Qed.

Lemma with_grants_ledger m m0 :
  forallb ledger_ok (map_to_list (im_grant_ledger m)) = true ->
  im_grant_ledger (with_grants m m0) = restore_grant <$> im_grant_ledger m.
Proof.
  intros Hf. unfold with_grants.
  assert (Hk : (fun gr => g_grant_id (gr_grant gr)) <$> (iter (im_ticks m) (im_grant_ledger m)).*2
             = (iter (im_ticks m) (im_grant_ledger m)).*1).
  { rewrite <- list_fmap_compose. apply list_fmap_ext. intros i [gid gr] Hi. cbn.
    eapply ledger_key; [done|]. by apply list_elem_of_lookup_2 in Hi. }
  rewrite (foldl_store im_grant_ledger (fun gr m => store_grant (restore_grant gr) m)
             (fun gr => g_grant_id (gr_grant gr)) restore_grant).
  - rsimpl. rewrite (right_id_L ∅ (∪)), <- list_fmap_compose, <- (list_to_map_iter restore_grant (im_ticks m)).
    f_equal. apply list_fmap_ext. intros i [gid gr] Hi. cbn. f_equal.
    eapply ledger_key; [done|]. by apply list_elem_of_lookup_2 in Hi.
  - done.
  - rewrite Hk. apply iter_keys_nodup.
  - intros gr _. by rsimpl.
Qed.

Definition header_view m := (im_epoch m, im_next_seq m, im_next_dispatch m).

Lemma with_seqs_rest m m0 :
  (header_view (with_seqs m m0), im_terminal_records (with_seqs m m0), kept_view (with_seqs m m0)) =
  (header_view m0, im_terminal_records m0, kept_view m0).
Proof.
  apply (foldl_same (fun m => (header_view m, im_terminal_records m, kept_view m))
           (fun kv m => store_seq (kv.1, restore_seq kv.2) m)). done.
Qed.

Lemma with_terminals_rest m m0 :
  (header_view (with_terminals m m0), im_seqs (with_terminals m m0), kept_view (with_terminals m m0)) =
  (header_view m0, im_seqs m0, kept_view m0).
Proof. apply (foldl_same (fun m => (header_view m, im_seqs m, kept_view m)) store_terminal). done. Qed.

Lemma with_grants_rest m m0 :
  (header_view (with_grants m m0), im_seqs (with_grants m m0), im_terminal_records (with_grants m m0), kept_view (with_grants m m0)) =
  (header_view m0, im_seqs m0, im_terminal_records m0, kept_view m0).
Proof.
  unfold with_grants. etrans; [apply (foldl_same (fun m => (header_view m, im_seqs m, im_terminal_records m, kept_view m))
    (fun gr m => store_grant (restore_grant gr) m)); done|done].
Qed.

Definition durable_view m :=
  (header_view m, im_seqs m, im_terminal_records m, im_grant_ledger m, im_receipt_count m, kept_view m).

Lemma event_durable k r sq d m : durable_view (record_event k r sq d m) = durable_view m /\ im_stats (record_event k r sq d m) = im_stats m.
Proof. unfold record_event. cbn [now]. by case_match. Qed.

(** The sum of a field over the sequences of a map. *)
Definition total (f : Seq -> Z) (mp : gmap SequenceId Seq) : Z := foldr (fun kv n => f kv.2 + n) 0 (map_to_list mp).

Lemma foldl_total (f : Seq -> Z) t mp :
  foldl (fun n s => n +64 f s) 0 (iter t mp).*2 = wrap 64 (total f mp).
Proof.
  assert (K : forall l n, foldl (fun n s => n +64 f s) (wrap 64 n) l = wrap 64 (n + foldr (fun s n => f s + n) 0 l)).
  { induction l as [|s l IH]; intros n; cbn; [by rewrite Z.add_0_r|].
    unfold wrap. rewrite Zplus_mod_idemp_l.
    fold (wrap 64 (n + f s)). rewrite IH. unfold wrap. f_equal. lia. }
  rewrite (K _ 0). f_equal. unfold total. rewrite Z.add_0_l.
  assert (P : (iter t mp).*2 ≡ₚ (map_to_list mp).*2) by apply fmap_Permutation, iter_perm.
  assert (Q : forall l l', l ≡ₚ l' -> foldr (fun s n => f s + n) 0 l = foldr (fun s n => f s + n) 0 l')
    by (induction 1; cbn; lia).
  rewrite (Q _ _ P). clear P. induction (map_to_list mp) as [|kv l IH]; [done|].
  cbn [fmap list_fmap foldr]. by rewrite IH.
Qed.

Definition steps_of (s : Seq) : Z := if s_generation s >=? 1 then s_generation s - 1 else 0.

Lemma foldl_steps l n :
  foldl (fun n s => if s_generation s >=? 1 then n +64 (s_generation s - 1) else n) (wrap 64 n) l =
  foldl (fun n s => n +64 steps_of s) (wrap 64 n) l.
Proof.
  revert n. induction l as [|s l IH]; intros n; [done|]. cbn [foldl].
  assert (E : (if s_generation s >=? 1 then wrap 64 n +64 (s_generation s - 1) else wrap 64 n) = wrap 64 n +64 steps_of s).
  { unfold steps_of. destruct (s_generation s >=? 1); [done|]. rewrite Z.add_0_r. unfold wrap. by rewrite Zmod_mod. }
  rewrite E. apply IH.
Qed.

Lemma recount_fields m :
  durable_view (recount m) = durable_view m /\
  st_generated_tokens (im_stats (recount m)) = wrap 64 (total s_generated (im_seqs m)) /\
  st_decode_steps (im_stats (recount m)) = wrap 64 (total steps_of (im_seqs m)).
Proof.
  unfold recount. cbv zeta.
  match goal with |- context [record_event ?k ?r ?sq ?d ?x] => destruct (event_durable k r sq d x) as [-> ->] end.
  rewrite <- !(foldl_total _ (im_ticks m)). split_and!; rsimpl; [done|done|].
  apply (foldl_steps _ 0).
Qed.

(** What a fabric [m'] that recovered the image of [m], having been [m0] before, looks like. *)
Record recovered m m0 m' : Prop := {
  re_header : im_epoch m' = im_epoch m /\ im_next_seq m' = im_next_seq m /\ im_next_dispatch m' = im_next_dispatch m;
  re_seqs : im_seqs m' = restore_seq <$> im_seqs m;
  re_terminals : im_terminal_records m' = im_terminal_records m;
  re_ledger : im_grant_ledger m' = restore_grant <$> im_grant_ledger m;
  re_receipts : im_receipt_count m' = im_receipt_count m;
  re_tokens : st_generated_tokens (im_stats m') = wrap 64 (total s_generated (im_seqs m'));
  re_steps : st_decode_steps (im_stats m') = wrap 64 (total steps_of (im_seqs m'));
  re_kept : kept_view m' = kept_view m0;
}.

Lemma recovered_state_fields m m0 : persistable m = true -> recovered m m0 (recovered_state m m0).
Proof.
  intros Hp. assert (Hl : forallb ledger_ok (map_to_list (im_grant_ledger m)) = true).
  { unfold persistable, image_ok in Hp. rewrite !andb_true_iff in Hp. tauto. }
  unfold recovered_state. set (m1 := restart _ m0).
  pose proof (with_seqs_seqs m m1 eq_refl) as A1. pose proof (with_seqs_rest m m1) as A2.
  assert (A0 : kept_view m1 = kept_view m0 /\ header_view m1 = header_view m /\ im_terminal_records m1 = ∅) by done.
  clearbody m1. destruct A0 as (A0k & A0h & A0t).
  set (m2 := with_seqs m m1) in *. clearbody m2. assert (A2t : im_terminal_records m2 = ∅) by congruence.
  pose proof (with_terminals_records m m2 A2t) as B1. pose proof (with_terminals_rest m m2) as B2.
  set (m3 := with_terminals m m2) in *. clearbody m3.
  pose proof (with_grants_ledger m m3 Hl) as D1. pose proof (with_grants_rest m m3) as D2.
  set (m4 := with_grants m m3) in *. clearbody m4.
  set (m5 := m4 <| im_receipt_count := im_receipt_count m |>).
  assert (E5 : durable_view m5 = (header_view m4, im_seqs m4, im_terminal_records m4, im_grant_ledger m4, im_receipt_count m, kept_view m4)) by done.
  clearbody m5. destruct (recount_fields m5) as (F1 & F2 & F3). set (m6 := recount m5) in *. clearbody m6.
  rewrite E5 in F1. unfold durable_view, header_view, kept_view in *. simplify_eq.
  split; try split_and!; unfold kept_view; congruence.
Qed.

(** ** No grant pending *)

Definition settled m : Prop :=
  forall gid gr, im_grant_ledger m !! gid = Some gr -> gr_status gr = 1 \/ gr_status gr = 2.

Lemma quiet_ledger m m' : quiet m m' -> im_grant_ledger m' = im_grant_ledger m.
Proof. intros Hq. pose proof (q_view _ _ Hq) as Hv. unfold ledger_view in Hv. by simplify_eq/=. Qed.

Lemma settled_quiet m m' : quiet m m' -> settled m -> settled m'.
Proof. unfold settled. intros ->%quiet_ledger. done. Qed.

Lemma ledger_submit req m : im_grant_ledger (submit req m).2 = im_grant_ledger m.
Proof.
  unfold submit. cbv zeta.
  destruct (validate req) as [u|e]; [|cbn [snd]; apply quiet_ledger; auto with quiet].
  rewrite <- (quiet_ledger _ _ (quiet_build_key req m)). destruct (build_key req m) as [req' m1]. cbn [snd].
  repeat match goal with |- context [if ?b then _ else _] => destruct b | |- context [match ?b with _ => _ end] => destruct b end;
    cbn [snd]; rewrite (quiet_ledger _ _ (quiet_record_event _ _ _ _ _ _ (quiet_refl _))); done.
Qed.

Lemma settled_abort a m : settled m -> settled (abort_prepared a m).2.
Proof.
  intros Hs. destruct (abort_closes a m) as [->|(gid & Hq)]; [done|]. apply (settled_quiet _ _ Hq).
  intros gid' gr. unfold close_grant. rsimpl. rewrite lookup_alter. case_decide; [|apply Hs].
  intros (gr0 & Hg & ->)%fmap_Some. destruct (Z.eqb_spec (gr_status gr0) 0); [by right|by eapply Hs].
Qed.

Lemma settled_receipts l m : settled m -> quiet m (foldl apply_receipt m l).
Proof.
  intros Hs. apply (foldl_inv (quiet m)); [reflexivity|]. intros m' rec _ Hq. etrans; [exact Hq|].
  apply apply_receipt_rejected. intros (gr & Hg & H1 & H2 & _).
  destruct (settled_quiet _ _ Hq Hs _ _ Hg); done.
Qed.

(** Without authorizations a settled fabric stays settled and commits nothing. *)
Lemma settled_step m op :
  (forall p, op <> OAuthorize p) -> settled m -> settled (step m op) /\ no_receipt m (step m op).
Proof.
  intros Hop Hs.
  assert (Q : forall m', quiet m m' -> settled m' /\ no_receipt m m')
    by (intros m' Hq; split; [by apply (settled_quiet m)|by apply no_receipt_quiet]).
  destruct op; cbn [step]; try (apply Q; auto using quiet_cancel, quiet_cancel_request, quiet_retry,
    quiet_register_worker, quiet_mark_worker_dead, quiet_roll_epoch, quiet_advance, quiet_schedule, quiet_apply_completion; fail).
  - split; [unfold settled; by rewrite ledger_submit|apply no_receipt_submit].
  - by destruct (Hop p).
  - apply Q. cbn [apply_commit_receipt snd]. etrans; [by apply settled_receipts|]. auto with quiet.
  - split; [by apply settled_abort|apply no_receipt_abort].
Qed.

Lemma settled_run ops m :
  Forall (fun op => forall p, op <> OAuthorize p) ops -> settled m -> settled (run m ops) /\ no_receipt m (run m ops).
Proof.
  intros Ho. revert m. induction Ho as [|op ops Hop _ IH]; intros m Hs; [split; [done|apply no_receipt_refl]|].
  destruct (settled_step m op Hop Hs) as [Hs1 Hn1]. destruct (IH _ Hs1) as [Hs2 Hn2].
  split; [done|]. by eapply no_receipt_trans.
Qed.

Lemma recovered_settled m m0 m' : persistable m = true -> recovered m m0 m' -> settled m'.
Proof.
  intros Hp Hr gid gr. rewrite (re_ledger _ _ _ Hr), lookup_fmap. intros (gr0 & Hg & ->)%fmap_Some.
  assert (Hl : forallb ledger_ok (map_to_list (im_grant_ledger m)) = true).
  { unfold persistable, image_ok in Hp. rewrite !andb_true_iff in Hp. tauto. }
  rewrite forallb_forall in Hl. specialize (Hl (gid, gr0)). unfold ledger_ok in Hl. cbn [fst snd] in Hl.
  rewrite !andb_true_iff, !Z.leb_le in Hl. unfold restore_grant. rsimpl.
  destruct Hl as [[[_ _] [H1 H2]] _]; [by apply list_elem_of_In, elem_of_map_to_list|].
  destruct (Z.eqb_spec (gr_status gr0) 0); lia.
Qed.

(** ** Which failures come after the first write *)

Definition fails_with {A} (codes : list ErrorCode) (x : Read A) : Prop := forall r e, x r = Err e -> err_code e ∈ codes.

Lemma fails_field {A} codes msg (x : Read A) :
  ErrorCode.PersistenceTruncated ∈ codes -> fails_with codes (field msg x).
Proof. intros Hc r e. unfold field. destruct (x r); [done|]. by intros [= <-]. Qed.
Lemma fails_bind {A B} codes (x : Read A) (k : A -> Read B) :
  fails_with codes x -> (forall a, fails_with codes (k a)) -> fails_with codes (r_bind x k).
Proof. intros Hx Hk r e. unfold r_bind. destruct (x r) as [[a r']|e'] eqn:E; [apply Hk|]. intros [= <-]. by eapply Hx. Qed.
Lemma fails_ret {A} codes (a : A) : fails_with codes (r_ret a).
Proof. done. Qed.
Lemma fails_fail {A} codes c msg : c ∈ codes -> fails_with codes (r_fail (A := A) c msg).
Proof. intros Hc r e [= <-]. done. Qed.

Ltac fails_walk :=
  repeat first [apply fails_ret | apply fails_field; by left | apply fails_bind; [|intros ?]
               | match goal with |- fails_with _ (if ?b then _ else _) => destruct b end].

(** A recovery step whose failures are all of those codes. *)
Definition recover_fails {A} (codes : list ErrorCode) (x : Recover A) : Prop :=
  forall r m e m', x r m = (Err e, m') -> err_code e ∈ codes.

Lemma rf_lift {A} codes (x : Read A) : fails_with codes x -> recover_fails codes (lift x).
Proof. intros Hx r m e m' [= E _]. by eapply Hx. Qed.
Lemma rf_modify codes f : recover_fails codes (modify f).
Proof. done. Qed.
Lemma rf_bind {A B} codes (x : Recover A) (k : A -> Recover B) :
  recover_fails codes x -> (forall a, recover_fails codes (k a)) -> recover_fails codes (rc_bind x k).
Proof.
  intros Hx Hk r m e m'. unfold rc_bind. destruct (x r m) as [[[a r']|e'] m1] eqn:E; [apply Hk|].
  intros [= <- _]. by eapply Hx.
Qed.
Lemma rf_loop {A} codes n (x : Read A) store : fails_with codes x -> recover_fails codes (recover_loop n x store).
Proof.
  intros Hx. induction n as [|n IH]; [apply rf_modify|]. apply rf_bind; [by apply rf_lift|]. intros a.
  apply rf_bind; [apply rf_modify|]. by intros _.
Qed.

Definition late_codes : list ErrorCode := [ErrorCode.PersistenceTruncated; ErrorCode.PersistenceInvalidField].

Lemma fails_seq : fails_with late_codes read_seq.
Proof. unfold read_seq, read_accepted. fails_walk. Qed.
Lemma fails_terminal : fails_with late_codes read_terminal.
Proof. unfold read_terminal. fails_walk. Qed.
Lemma fails_grant_record : fails_with late_codes read_grant_record.
Proof. unfold read_grant_record, read_ledger_grant, read_ledger_receipt. fails_walk. Qed.

Lemma fails_records : recover_fails late_codes recover_records.
Proof.
  unfold recover_records.
  repeat first [ apply rf_bind; [|intros ?] | apply rf_modify
               | apply rf_loop; first [apply fails_seq | apply fails_terminal | apply fails_grant_record]
               | apply rf_lift; fails_walk ].
  all: apply fails_fail; by right; left.
Qed.

Definition early_codes : list ErrorCode := [ErrorCode.PersistenceCorrupt; ErrorCode.PersistenceUnknownVersion].

Lemma fails_header : fails_with (late_codes ++ early_codes) read_header.
Proof.
  unfold read_header. fails_walk.
  - unfold check_magic. fails_walk. apply fails_fail. unfold late_codes, early_codes. set_solver.
  - intros r e. unfold check_version. repeat case_match; intros [=]; simplify_eq; cbn; unfold late_codes, early_codes; set_solver.
Qed.

Lemma recover_body_codes r m e m' :
  recover_body r m = (Err e, m') -> err_code e ∉ late_codes ->
  err_code e = ErrorCode.PersistenceChecksumMismatch \/ err_code e = ErrorCode.PersistenceCorrupt \/
  err_code e = ErrorCode.PersistenceUnknownVersion.
Proof.
  intros E Hc.
  assert (He : err_code e ∈ late_codes ++ early_codes).
  { revert E. apply rf_bind; [apply rf_lift, fails_header|]. intros h. apply rf_bind; [apply rf_modify|]. intros _ r' m1 e' m2 E.
    apply elem_of_app. left. by apply fails_records in E. }
  apply elem_of_app in He as [|He]; [done|]. unfold early_codes in He. rewrite !elem_of_cons in He.
  destruct He as [->|[->|[]%not_elem_of_nil]]; auto.
Qed.

Lemma recover_body_clean r m e m' :
  recover_body r m = (Err e, m') -> err_code e ∉ late_codes -> m' = m.
Proof.
  unfold recover_body. unfold rc_bind at 1, lift.
  destruct (read_header r) as [[h r1]|e1]; [|by intros [= _ <-]]. unfold rc_bind, modify.
  intros E Hc. exfalso. by apply Hc, (fails_records _ _ _ _ E).
Qed.

(** ** Properties *)

(** C8: serialize, crash, recover.  [serialize_state] always writes an image.  If the ledger has at most 2^22 grants,
    [recover_state] accepts it, whatever fabric [m0] recovers it: the epoch, the counters, the terminal records
    and the receipt count are those of the image, every sequence comes back as its durable part with
    nothing in flight, the ledger comes back with every pending grant aborted, the token and step
    counters are recomputed from the sequences (modulo 2^64), and workers, configuration and grant
    counter are those [m0] had.  If the ledger is larger, the image that was written is refused as invalid. *)
Theorem recovery_round_trip m m0 :
  image_ok m = true ->
  exists bs m', serialize_state m = Ok bs /\
    if Z.of_nat (size (im_grant_ledger m)) <=? 2 ^ 22 then recover_state bs m0 = (Ok tt, m') /\ recovered m m0 m'
    else recover_state bs m0 = (failed ErrorCode.PersistenceInvalidField "grant count too large", m').
Proof.
  intros Hi. exists (seal (serialize_body m)). change (2 ^ 22) with kMaxGrants.
  destruct (Z.leb_spec (Z.of_nat (size (im_grant_ledger m))) kMaxGrants) as [Hle|Hgt].
  - assert (Hp : persistable m = true) by (unfold persistable; by rewrite Hi, (proj2 (Z.leb_le _ _) Hle)).
    exists (recovered_state m m0). split; [done|]. split; [by apply recover_image|by apply recovered_state_fields].
  - destruct (recover_image_large m m0 Hi Hgt) as [m' H]. by exists m'.
Qed.

(** C9: recovery fences what was in flight.  After a recovery no sequence of operations without a fresh
    authorization (receipts of before the crash, completions, aborts, scheduling, cancellations, in any
    order and any number) changes the committed data of a recovered sequence: its generation, token
    counts, position, digest and accepted generation stay those of the image. *)
Theorem recovery_fences_receipts m m0 bs m' ops id s :
  persistable m = true -> serialize_state m = Ok bs -> recover_state bs m0 = (Ok tt, m') ->
  Forall (fun op => forall p, op <> OAuthorize p) ops -> im_seqs m !! id = Some s ->
  exists s', im_seqs (run m' ops) !! id = Some s' /\ committed_view s' = committed_view (restore_seq s).
Proof.
  intros Hp [= <-]. rewrite (recover_image m m0 Hp). intros [= <-] Hops Hs.
  pose proof (recovered_state_fields m m0 Hp) as Hr.
  destruct (settled_run ops _ Hops (recovered_settled _ _ _ Hp Hr)) as [_ Hn]. apply Hn.
  by rewrite (re_seqs _ _ _ Hr), lookup_fmap, Hs.
Qed.

(** C10: damage is detected.  If up to four consecutive bytes of a serialized image are replaced by
    different ones, in the body or in the checksum, [recover_state] reports a checksum mismatch and
    leaves the recovering fabric as it was. *)
Theorem corruption_rejected m m0 pre w w' post :
  serialize_state m = Ok (pre ++ w ++ post) -> are_bytes w' -> List.length w = List.length w' ->
  (List.length w <= 4)%nat -> w <> w' ->
  recover_state (pre ++ w' ++ post) m0 = (failed ErrorCode.PersistenceChecksumMismatch "state checksum mismatch", m0).
Proof.
  intros [= E] Hw Hl H4 Hne. pose proof (are_bytes_body m) as Hb. unfold recover_state.
  assert (Hlen : (8 <= List.length (pre ++ w ++ post))%nat).
  { assert (List.length (w_u32 kPersistenceVersion) = 4%nat) by done.
    rewrite <- E. unfold seal, serialize_body, magic. rewrite !List.length_app. cbn [List.length]. lia. }
  assert (Hlen' : List.length (pre ++ w' ++ post) = List.length (pre ++ w ++ post)) by (rewrite !List.length_app; lia).
  rewrite Hlen'. destruct (Z.ltb_spec (Z.of_nat (List.length (pre ++ w ++ post))) 5) as [Hlt|_]; [lia|].
  rewrite (seal_window pre w w' post); [done| |done|done|done|lia|done|].
  - rewrite <- E. by apply are_bytes_seal.
  - rewrite <- E. by apply seal_ok_seal.
Qed.

(** C11: a rejected image changes nothing.  If [recover_state] refuses any byte string for its checksum,
    its magic or its version, the fabric is exactly the one before the call; only a truncation or an
    invalid field inside a checksummed body can fail later. *)
Theorem recover_rejects_cleanly bs m e m' :
  recover_state bs m = (Err e, m') ->
  err_code e <> ErrorCode.PersistenceTruncated -> err_code e <> ErrorCode.PersistenceInvalidField ->
  m' = m /\ (err_code e = ErrorCode.PersistenceChecksumMismatch \/ err_code e = ErrorCode.PersistenceCorrupt \/
            err_code e = ErrorCode.PersistenceUnknownVersion).
Proof.
  unfold recover_state. intros H Ht Hi. destruct (Z.ltb_spec (Z.of_nat (List.length bs)) 5); [by injection H as <- <-|].
  destruct (seal_ok bs); cbn [negb] in H; [|injection H as <- <-; auto].
  destruct (recover_body (mkReader bs 0) m) as [[u|e'] m1] eqn:E; simplify_eq.
  assert (Hc : err_code e ∉ late_codes) by (unfold late_codes; rewrite !elem_of_cons, elem_of_nil; tauto).
  split; [by eapply recover_body_clean|]. by apply (recover_body_codes _ _ _ _ E) in Hc.
Qed.

(** C12: what recovery strands.  A sequence whose step was running when the image was written comes back
    in the same running state but without its dispatch, worker and grant; no scheduling cycle of the
    recovered fabric dispatches it. *)
Theorem recovery_strands_dispatched m m0 bs m' id s tn :
  persistable m = true -> serialize_state m = Ok bs -> recover_state bs m0 = (Ok tt, m') ->
  im_seqs m !! id = Some s -> is_running (s_machine s) = true ->
  (exists s', im_seqs m' !! id = Some s' /\ s_machine s' = s_machine s /\ s_has_inflight_grant s' = false /\
     s_in_flight_dispatch s' = null_id /\ s_in_flight_worker s' = null_id) /\
  id ∉ (schedule tn m').1 ≫= dispatched.
Proof.
  intros Hp [= <-]. rewrite (recover_image m m0 Hp). intros [= <-] Hs Hrun.
  pose proof (recovered_state_fields m m0 Hp) as Hr.
  assert (Hs' : im_seqs (recovered_state m m0) !! id = Some (restore_seq s)) by (by rewrite (re_seqs _ _ _ Hr), lookup_fmap, Hs).
  generalize dependent (recovered_state m m0). clear - Hrun. intros m' _ Hs'.
  assert (Hm : resumed (s_machine s) = s_machine s) by (by destruct (s_machine s)).
  split; [exists (restore_seq s); by split_and!|].
  intros (d & Hd & Hx)%list_elem_of_bind. pose proof (schedule_facts tn m') as H.
  destruct (schedule tn m') as [ds m1]. destruct (proj2 H d Hx) as [_ _ _ _ C].
  destruct (C id Hd) as (s1 & k & Hs1 & _ & _ & [Hc _]). rewrite Hs' in Hs1. injection Hs1 as <-.
  cbn [restore_seq s_machine] in Hc. rewrite Hm in Hc. by destruct (s_machine s).
Qed.

End recovery.
