(* ===== verification/ProtocolSpec.v ===== *)
(** * The commit protocol

    What the fabric promises about tokens, without its data structures: sequences that advance one token at a time,
    and a ledger of grants each of which is used once.  The rules of [pstep] are all there is; the fabric's
    operations are shown to be runs of them, and a recovery to leave no grant in flight. *)

From S2P Require Import Prelude Enums Errors Token StateMachine Ids Compatibility Types Binary Crc Double FabricState FabricFrame FabricOps Schedule Transaction FabricInvariants ProtocolInvariants FabricTheorems Authorization Persist.

(** ** The protocol *)

(** A sequence: its generation, its committed tokens, the position its next step starts from, the digest of its committed
    state once there is one, the grant it has in flight with its proposal, and whether it has stopped for good. *)
Record ASeq := mkASeq {
  as_generation : Z;
  as_committed : Z;
  as_position : Z;
  as_digest : option Z;
  as_grant : option (GrantId * ProposalId);
  as_stopped : bool;
}.

Inductive GrantState := GOpen | GConsumed | GAborted.

Record Proto := mkProto {
  p_seqs : gmap SequenceId ASeq;
  p_ledger : gmap GrantId (CommitGrant * GrantState);
  p_next : Z;
}.

(** What may happen to a sequence without the protocol: its grant in flight is forgotten, its position set back to the committed
    tokens, and it may stop; a stopped sequence does not come back. *)
Record calm (q q' : ASeq) : Prop := {
  cl_generation : as_generation q' = as_generation q;
  cl_committed : as_committed q' = as_committed q;
  cl_digest : as_digest q' = as_digest q;
  cl_position : as_position q' = as_position q \/ as_position q' = as_committed q;
  cl_grant : as_grant q' = as_grant q \/ as_grant q' = None;
  cl_stopped : as_stopped q = true -> as_stopped q' = true;
}.

Inductive pstep : Proto -> Proto -> Prop :=
  | p_internal p seqs :
      (forall id, option_Forall2 calm (p_seqs p !! id) (seqs !! id)) -> pstep p (mkProto seqs (p_ledger p) (p_next p))
  | p_submit p id n :
      p_seqs p !! id = None -> 0 <= n ->
      pstep p (mkProto (<[id := mkASeq 1 n n None None false]> (p_seqs p)) (p_ledger p) (p_next p))
  | p_grant p id q g :
      p_seqs p !! id = Some q -> as_stopped q = false -> as_grant q = None ->
      g_grant_id g = mkId (p_next p) -> g_sequence g = id -> g_committed_position g = as_position q ->
      (forall d, as_digest q = Some d -> g_pre_state_digest g = d) ->
      pstep p (mkProto
        (<[id := mkASeq (as_generation q) (as_committed q) (as_position q) (as_digest q) (Some (g_grant_id g, g_proposal g)) false]> (p_seqs p))
        (<[g_grant_id g := (g, GOpen)]> (p_ledger p)) ((p_next p + 1) mod 2 ^ 64))
  | p_abort p id q gid pr g :
      p_seqs p !! id = Some q -> as_grant q = Some (gid, pr) -> p_ledger p !! gid = Some (g, GOpen) ->
      pstep p (mkProto
        (<[id := mkASeq (as_generation q) (as_committed q) (as_position q) (as_digest q) None (as_stopped q)]> (p_seqs p))
        (<[gid := (g, GAborted)]> (p_ledger p)) (p_next p))
  | p_receipt p id q gid g :
      p_seqs p !! id = Some q -> as_stopped q = false -> as_grant q = Some (gid, g_proposal g) ->
      p_ledger p !! gid = Some (g, GOpen) -> g_grant_id g = gid -> g_sequence g = id ->
      pstep p (mkProto
        (<[id := mkASeq ((as_generation q + 1) mod 2 ^ 64) ((as_committed q + 1) mod 2 ^ 64) ((as_position q + 1) mod 2 ^ 64)
                   (Some (g_post_state_digest g)) None false]> (p_seqs p))
        (<[gid := (g, GConsumed)]> (p_ledger p)) (p_next p)).

(** A recovery changes nothing, or puts sequences in place none of which has a grant in flight; it keeps the grant counter. *)
Definition fenced (p p' : Proto) : Prop :=
  p' = p \/ p_next p' = p_next p /\ forall id q, p_seqs p' !! id = Some q -> as_grant q = None.

(** ** The fabric's state as a state of the protocol *)

Definition grant_state (status : Z) : GrantState := if status =? 1 then GConsumed else if status =? 2 then GAborted else GOpen.

Definition abs_seq (s : Seq) : ASeq :=
  mkASeq (s_generation s) (s_committed s) (s_generated s)
    (if s_state_digest_established s then Some (s_committed_state_digest s) else None)
    (if s_has_inflight_grant s then Some (s_in_flight_grant s, s_in_flight_proposal s) else None) (is_stopped (s_machine s)).

Definition abs (m : Impl) : Proto :=
  mkProto (abs_seq <$> im_seqs m) ((fun gr => (gr_grant gr, grant_state (gr_status gr))) <$> im_grant_ledger m) (im_next_grant m).

(** ** The operations are runs of the protocol *)

Section refinement.
Context {CLK : Clock} {ORD : MapOrder}.
Implicit Types (m : Impl) (id : SequenceId).

Lemma calm_refl q : calm q q.
Proof. split; auto. Qed.

Lemma calm_quiet s s' : seq_quiet s s' -> calm (abs_seq s) (abs_seq s').
Proof.
  intros H. destruct (committed_view_fields _ _ (sq_view _ _ H)) as (_ & Hc & Hg & _ & Hd & He & _). split; cbn.
  - done.
  - done.
  - by rewrite He, Hd.
  - rewrite <- Hc. apply H.
  - destruct (sq_grant _ _ H) as [E|E]; unfold grant_view in E; destruct (s_has_inflight_grant s), (s_has_inflight_grant s'); try done; auto.
    injection E as -> -> _. by left.
  - apply lifecycle_stopped, H.
Qed.

(** The abstraction of the parts. *)
Lemma abs_lookup m id : p_seqs (abs m) !! id = abs_seq <$> im_seqs m !! id.
Proof. apply lookup_fmap. Qed.

Lemma internal_seqs p m' :
  (forall id, option_Forall2 calm (p_seqs p !! id) (abs_seq <$> im_seqs m' !! id)) -> p_ledger p = p_ledger (abs m') -> p_next p = p_next (abs m') ->
  pstep p (abs m').
Proof.
  intros Hs Hl Hn. destruct (abs m') as [seqs' l n] eqn:E. cbn in Hl, Hn. subst l n. apply p_internal. intros id.
  assert (seqs' !! id = abs_seq <$> im_seqs m' !! id) as -> by (rewrite <- abs_lookup, E; done). apply Hs.
Qed.

Lemma seqs_rel_calm m m' id : seqs_rel seq_quiet m m' -> option_Forall2 calm (abs_seq <$> im_seqs m !! id) (abs_seq <$> im_seqs m' !! id).
Proof. intros H. specialize (H id). destruct H; constructor. by apply calm_quiet. Qed.

Lemma sim_quiet m m' : quiet m m' -> pstep (abs m) (abs m').
Proof.
  intros Hq. destruct (ledger_view_fields _ _ (q_view _ _ Hq)) as (L1 & L2 & _). apply internal_seqs.
  - intros id. rewrite abs_lookup. apply seqs_rel_calm, quiet_rel, Hq.
  - cbn. by rewrite L1.
  - cbn. by rewrite L2.
Qed.

Lemma sim_submit m m' id req :
  im_seqs m !! id = None -> im_seqs m' = <[id := admitted_seq req]> (im_seqs m) ->
  im_grant_ledger m' = im_grant_ledger m -> im_next_grant m' = im_next_grant m -> pstep (abs m) (abs m').
Proof.
  intros Hn Hs Hl Hx. unfold abs at 2. rewrite Hs, Hl, Hx, fmap_insert.
  assert (abs_seq (admitted_seq req) = mkASeq 1 (Z.max 0 (rq_pregenerated req)) (Z.max 0 (rq_pregenerated req)) None None false) as ->.
  { unfold admitted_seq. cbv zeta. destruct (Z.gtb_spec (rq_pregenerated req) 0); unfold abs_seq; rsimpl.
    - by rewrite Z.max_r by lia.
    - by rewrite Z.max_l by lia. }
  apply (p_submit (abs m) id); [|lia]. by rewrite abs_lookup, Hn.
Qed.

Lemma sim_grant m prepared pm s :
  im_seqs m !! pm_sequence pm = Some s -> stale_authority pm s m = None -> binding_error pm s = None ->
  pstep (abs m) (abs (issue_grant prepared pm m).2).
Proof.
  intros Hs Ha Hb. apply stale_authority_none in Ha as (_ & _ & _ & _ & _ & Hst). apply binding_error_none in Hb as (B1 & B2 & B3).
  destruct (issue_grant_fields prepared pm m) as (L & N & _ & _ & _ & Sq). unfold abs at 2. rewrite L, N, Sq, (alter_some _ _ _ s), !fmap_insert by done.
  unfold abs_seq at 1. rsimpl. rewrite Hst.
  apply (p_grant (abs m) (pm_sequence pm) (abs_seq s) (grant_for prepared pm (mkId (im_next_grant m)))); try done.
  - by rewrite abs_lookup, Hs.
  - cbn. by rewrite B1.
  - intros d. cbn. destruct (s_state_digest_established s); [|done]. intros [= <-]. by apply B3.
Qed.

Lemma sim_abort m m' id s gr :
  im_seqs m !! id = Some s -> s_has_inflight_grant s = true ->
  im_grant_ledger m !! s_in_flight_grant s = Some gr -> gr_status gr = 0 ->
  seqs_rel seq_quiet m m' -> (forall s', im_seqs m' !! id = Some s' -> grant_view s' = None) ->
  ledger_view m' = ledger_view (m <| im_grant_ledger ::= <[s_in_flight_grant s := gr <| gr_status := 2 |>]> |>) ->
  rtc pstep (abs m) (abs m').
Proof.
  intros Hs Hi Hl H0 Hr Hd Hv. apply ledger_view_fields in Hv as (L1 & L2 & _). rsimpl in L1. rsimpl in L2.
  eapply rtc_l; [apply (p_abort (abs m) id (abs_seq s) (s_in_flight_grant s) (s_in_flight_proposal s) (gr_grant gr))|].
  - by rewrite abs_lookup, Hs.
  - cbn. by rewrite Hi.
  - cbn. by rewrite lookup_fmap, Hl; cbn; rewrite H0.
  - apply rtc_once, internal_seqs; [|cbn; by rewrite L1, fmap_insert|cbn; by rewrite L2]. intros i. cbn [p_seqs].
    destruct (decide (i = id)) as [->|Hn]; [|rewrite lookup_insert_ne, abs_lookup by done; by apply seqs_rel_calm].
    rewrite lookup_insert_eq. destruct (seqs_rel_lookup _ _ _ _ _ Hr Hs) as (s' & Hs' & Hq). rewrite Hs'. constructor.
    apply calm_quiet in Hq as [C1 C2 C3 C4 C5 C6]. specialize (Hd s' Hs'). apply grant_view_none in Hd. split; try done. cbn. rewrite Hd. by left.
Qed.

Lemma sim_receipt m m' rec gr :
  im_grant_ledger m !! rc_grant_id rec = Some gr -> gr_status gr <> 1 -> gr_status gr <> 2 ->
  receipt_error rec (gr_grant gr) m = None -> finalized rec m m' -> rtc pstep (abs m) (abs m').
Proof.
  intros Hl H1 H2 (Hf & s & Hs & Hi & Hg & Hp & Hst)%receipt_error_iff [[fin Fs] Fg Fv].
  assert (Hpr : rc_proposal rec = g_proposal (gr_grant gr)) by (unfold receipt_fits in Hf; rewrite !andb_true_iff, !id_eqb_eq in Hf; tauto).
  destruct (receipt_fits_fields _ _ Hf) as (E1 & E2 & _ & _ & _ & _ & _ & _ & _ & E3).
  unfold ledger_view in Fv. injection Fv as _ L1 L2 _ _ _ _ _ _. rewrite (alter_some _ _ _ gr) in L1 by done.
  eapply rtc_l; [apply (p_receipt (abs m) (rc_sequence rec) (abs_seq s) (rc_grant_id rec) (gr_grant gr)); try done|].
  - by rewrite abs_lookup, Hs.
  - cbn. by rewrite Hi, Hg, Hp, Hpr.
  - cbn. rewrite lookup_fmap, Hl. cbn. unfold grant_state. by destruct (Z.eqb_spec (gr_status gr) 1), (Z.eqb_spec (gr_status gr) 2).
  - apply rtc_once, internal_seqs; [|cbn; by rewrite L1, fmap_insert|cbn; by rewrite L2]. intros i. cbn [p_seqs].
    destruct (decide (i = rc_sequence rec)) as [->|Hn].
    + rewrite lookup_insert_eq. assert (Hc : im_seqs (upd_seq (rc_sequence rec) (commit_seq rec fin) m) !! rc_sequence rec = Some (commit_seq rec fin s))
        by (by rewrite lookup_upd_seq, decide_True, Hs by done).
      destruct (seqs_rel_lookup _ _ _ _ _ Fs Hc) as (s' & Hs' & Hq). rewrite Hs'. constructor.
      apply calm_quiet in Hq as [C1 C2 C3 C4 C5 C6]. specialize (Fg s' Hs'). apply grant_view_none in Fg.
      unfold commit_seq in C1, C2, C3, C4, C6. split; cbn in *; rewrite ?Fg, <- ?E3; try done. by left.
    + rewrite lookup_insert_ne, abs_lookup by done. specialize (Fs i). rewrite lookup_upd_seq, decide_False in Fs by done.
      destruct Fs; constructor. by apply calm_quiet.
Qed.

Lemma sim_micro m m' : micro m m' -> rtc pstep (abs m) (abs m').
Proof.
  intros [? ? Hq|? ? id req Hn Hs [= L1 L2 _ _ _] _|? prepared pm s Hs Ha _ Hb|? ? id s gr|? ? rec gr].
  - by apply rtc_once, sim_quiet.
  - by apply rtc_once, (sim_submit _ _ id req).
  - by apply rtc_once, (sim_grant _ _ _ s).
  - by apply (sim_abort _ _ id s gr).
  - by apply (sim_receipt _ _ rec gr).
Qed.

Lemma sim_run m ops : rtc pstep (abs m) (abs (run m ops)).
Proof.
  pose proof (run_protocol m ops) as H. unfold protocol in H. induction H as [|m1 m2 m3 H12 _ IH]; [reflexivity|].
  etrans; [by apply sim_micro|exact IH].
Qed.

(** ** Recovery leaves no grant in flight *)

(** No sequence has a grant in flight, and the grant counter is [n]. *)
Definition unheld (n : Z) (m : Impl) : Prop :=
  im_next_grant m = n /\ forall id s, im_seqs m !! id = Some s -> s_has_inflight_grant s = false.

Definition through {A} (P : Impl -> Prop) (x : Recover A) : Prop := forall r m, P m -> P (x r m).2.

Lemma through_lift {A} P (x : Read A) : through P (lift x).
Proof. by intros r m H. Qed.
Lemma through_modify (P : Impl -> Prop) f : (forall m, P m -> P (f m)) -> through P (modify f).
Proof. intros Hf r m H. by apply Hf. Qed.
Lemma through_bind {A B} P (x : Recover A) (k : A -> Recover B) : through P x -> (forall a, through P (k a)) -> through P (rc_bind x k).
Proof. intros Hx Hk r m H. unfold rc_bind. specialize (Hx r m H). destruct (x r m) as [[[a r']|e] m']; [by apply Hk|done]. Qed.

Lemma through_loop {A} (P : Impl -> Prop) (Q : A -> Prop) n (x : Read A) store :
  (forall r a r', x r = Ok (a, r') -> Q a) -> (forall a m, Q a -> P m -> P (store a m)) -> through P (recover_loop n x store).
Proof.
  intros Hx Hs. induction n as [|n IH]; [by apply through_modify|]. intros r m H. cbn [recover_loop]. unfold rc_bind, lift, modify.
  destruct (x r) as [[a r']|e] eqn:E; [|done]. apply IH, Hs; [by eapply Hx|done].
Qed.

Lemma r_bind_ok {A B} (x : Read A) (k : A -> Read B) r b r' :
  r_bind x k r = Ok (b, r') -> exists a r1, x r = Ok (a, r1) /\ k a r1 = Ok (b, r').
Proof. unfold r_bind. destruct (x r) as [[a r1]|e]; [eauto|done]. Qed.

Lemma read_seq_unheld r kv r' : read_seq r = Ok (kv, r') -> s_has_inflight_grant kv.2 = false.
Proof. unfold read_seq. intros H. repeat (apply r_bind_ok in H as (? & ? & _ & H)). unfold r_ret in H. by injection H as <- _. Qed.

Lemma unheld_store n kv m : s_has_inflight_grant kv.2 = false -> unheld n m -> unheld n (store_seq kv m).
Proof.
  intros Hk [Hn Hs]. split; [done|]. intros id s. unfold store_seq. rsimpl. case_bool_decide; [apply Hs|].
  intros [[_ <-]|[_ H']]%lookup_insert_Some; [done|by apply (Hs id)].
Qed.

Lemma unheld_recount n m : unheld n m -> unheld n (recount m).
Proof.
  intros [Hn Hs]. unfold recount. cbv zeta. set (m1 := upd im_stats _ m).
  destruct (record_event_fields EventKind.MemoryReconciled null_id null_id "recovered" m1) as (Es & Ev & _).
  apply ledger_view_fields in Ev as (_ & En & _). split; [by rewrite En|]. intros id s. rewrite Es. apply Hs.
Qed.

Lemma records_unheld n : through (unheld n) recover_records.
Proof.
  unfold recover_records. apply through_bind; [apply through_lift|intros cnt].
  apply through_bind; [apply (through_loop _ (fun kv => s_has_inflight_grant kv.2 = false)); [apply read_seq_unheld|intros kv m; apply unheld_store]|intros _].
  apply through_bind; [apply through_lift|intros tcnt]. apply through_bind; [by apply (through_loop _ (fun _ => True))|intros _].
  apply through_bind; [by apply through_modify|intros _]. apply through_bind; [apply through_lift|intros gcnt].
  apply through_bind; [apply through_lift|intros _]. apply through_bind; [by apply (through_loop _ (fun _ => True))|intros _].
  apply through_bind; [apply through_lift|intros rcnt]. apply through_modify. intros m H. by apply unheld_recount.
Qed.

Lemma recover_fenced bs m : fenced (abs m) (abs (recover_state bs m).2).
Proof.
  unfold recover_state. destruct (_ <? 5); [by left|]. destruct (negb (seal_ok bs)); [by left|].
  assert (H : (recover_body (mkReader bs 0) m).2 = m \/ unheld (im_next_grant m) (recover_body (mkReader bs 0) m).2).
  { unfold recover_body, rc_bind, lift, modify. destruct (read_header (mkReader bs 0)) as [[h r1]|e]; [right|by left]. apply records_unheld. split; [done|]. intros id s. unfold restart. rsimpl. by intros ?%lookup_empty_Some. }
  destruct (recover_body (mkReader bs 0) m) as [[u|e] m']; cbn [snd] in *;
    (destruct H as [->|[Hn Hs]]; [by left|right; split; [done|]]; intros id q; rewrite abs_lookup;
     intros (s & E & Hq)%fmap_Some; subst q; cbn; by rewrite (Hs id)).
Qed.

(** C5: the fabric implements the protocol.  Seen through [abs], whatever operations are applied to whatever fabric, with
    whatever arguments, their effect is a run of the protocol's rules: a sequence appears with generation 1 and nothing in
    flight; a grant under the next number is opened for a sequence that has not stopped and has none in flight, for its
    position and committed digest; the open grant a sequence has in flight is aborted, or consumed, which adds exactly
    one to generation, tokens and position and makes the grant's post-state the committed one; or a sequence
    forgets its grant, returns to its committed position or stops.  And [recover_state], on any bytes,
    changes nothing or leaves no sequence with a grant in flight, and never changes the grant counter. *)
Theorem operations_refine_protocol (m : Impl) :
  (forall ops, rtc pstep (abs m) (abs (run m ops))) /\ (forall bs, fenced (abs m) (abs (recover_state bs m).2)).
Proof. split; intros ?; [apply sim_run|apply recover_fenced]. Qed.
End refinement.
