(* ===== verification/SystemTheorems.v ===== *)
(** * What the coordinator believes, a worker did

    The invariant of the composed system of System.v, for any number of workers whose executors
    keep the laws, against any interleaving, crash and loss: every grant a worker is sent is in the
    ledger, workers commit only what was granted, every receipt in flight is one an executor
    returned, and a grant is consumed only by the receipt its commit returned. *)

From S2P Require Import Prelude Enums Errors Token StateMachine Ids Compatibility Types Binary Frame Messages MessageTypes Double FabricState FabricFrame FabricOps Schedule Transaction Executor CpuExecutor CpuTheorems Pump Observability Distributed System FabricInvariants ProtocolInvariants FabricTheorems PumpTheorems PersistTheorems DistributedTheorems.

(** What the wire asks of an executor: receipts of well-typed grants are well typed. *)
Class WireExecutor (E : Type) `{DecodeExecutor E} := {
  ex_wf : E -> Prop;
  wf_prepare : forall req e, ex_wf e -> ex_wf (ex_prepare req e).2;
  wf_abort : forall a e, ex_wf e -> ex_wf (ex_abort a e).2;
  wf_commit : forall g e, grant_ok g = true -> ex_wf e -> ex_wf (ex_commit g e).2;
  wf_receipt : forall g e rec e', grant_ok g = true -> ex_wf e -> ex_commit g e = (Ok rec, e') -> receipt_ok rec = true;
}.

(** ** The ledger *)

Section ledger.
Context {CLK : Clock} {ORD : MapOrder}.
Implicit Types (m : Impl).

(** The grant is in the ledger, whatever has become of it. *)
Definition issued m (g : CommitGrant) : Prop := exists gr, im_grant_ledger m !! g_grant_id g = Some gr /\ gr_grant gr = g.

Lemma issued_protocol m m' g : protocol m m' -> bounded m' -> Inv m -> issued m g -> issued m' g.
Proof.
  intros Hp Hb HI (gr & Hg & <-). destruct (protocol_grants _ _ _ _ Hp Hb HI Hg) as (gr' & Hg' & [E _]).
  exists gr'. by rewrite E in *.
Qed.

(** Consumed entries of the second ledger are in the first. *)
Definition consumes_none m m' : Prop :=
  forall gid gr, im_grant_ledger m' !! gid = Some gr -> gr_status gr = 1 -> im_grant_ledger m !! gid = Some gr.

Lemma consumes_none_same m m' : im_grant_ledger m' = im_grant_ledger m -> consumes_none m m'.
Proof. intros E gid gr. by rewrite E. Qed.
Lemma consumes_none_trans m1 m2 m3 : consumes_none m1 m2 -> consumes_none m2 m3 -> consumes_none m1 m3.
Proof. intros H12 H23 gid gr Hg H1. apply H12; [by apply H23|done]. Qed.

Lemma consumes_none_member prepared out m pm : consumes_none m (authorize_member prepared (out, m) pm).2.
Proof.
  destruct (authorize_member_answer prepared out m pm) as (ga & _ & H). cbv zeta in H. destruct (ga_grant ga) as [g|].
  - destruct H as (_ & _ & _ & L & _). intros gid gr. rewrite L.
    destruct (decide (g_grant_id g = gid)) as [<-|Hn]; [rewrite lookup_insert_eq; by intros [= <-]|by rewrite lookup_insert_ne].
  - destruct H as [L _]. by apply consumes_none_same.
Qed.

Lemma consumes_none_authorize p m : consumes_none m (authorize_prepared p m).2.
Proof.
  assert (K : forall l acc, consumes_none acc.2 (foldl (authorize_member p) acc l).2).
  { induction l as [|pm l IH]; intros [out m']; [by apply consumes_none_same|]. cbn [foldl].
    eapply consumes_none_trans; [apply consumes_none_member|apply IH]. }
  specialize (K (pd_members p) ([], m)). unfold authorize_prepared. by destruct (foldl _ _ _).
Qed.

Lemma consumes_none_abort a m : consumes_none m (abort_prepared a m).2.
Proof.
  destruct (abort_closes a m) as [->|(gid & Hq)]; [by apply consumes_none_same|].
  intros g gr. rewrite (quiet_ledger _ _ Hq). unfold close_grant. rsimpl. rewrite lookup_alter. case_decide; [|done].
  intros (gr0 & Hg & ->)%fmap_Some. destruct (Z.eqb_spec (gr_status gr0) 0); [by rsimpl|congruence].
Qed.

Lemma consumes_none_step m op : (forall r, op <> OReceipts r) -> consumes_none m (step m op).
Proof.
  intros Hop. destruct op; cbn [step];
    [apply consumes_none_same, ledger_submit|..| |apply consumes_none_authorize|by destruct (Hop r)|apply consumes_none_abort];
    apply consumes_none_same, quiet_ledger; auto using quiet_cancel, quiet_cancel_request, quiet_retry, quiet_register_worker,
      quiet_mark_worker_dead, quiet_roll_epoch, quiet_advance, quiet_schedule, quiet_apply_completion.
Qed.

(** A batch of receipts consumes a grant only by one of them, which fits it. *)
Lemma receipts_consume l m gid gr :
  im_grant_ledger (foldl apply_receipt m l) !! gid = Some gr -> gr_status gr = 1 ->
  im_grant_ledger m !! gid = Some gr \/
  exists rec gr0, rec ∈ l /\ im_grant_ledger m !! gid = Some gr0 /\ gr_grant gr = gr_grant gr0 /\
    gr_receipt gr = Some rec /\ rc_grant_id rec = gid.
Proof.
  revert m. induction l as [|r l IH]; intros m Hg H1; [by left|]. cbn [foldl] in Hg.
  destruct (IH _ Hg H1) as [H|(rec & gr0 & Hin & H0 & E & Er & Ei)].
  - destruct (apply_receipt_cases m r) as [Hq|(g0 & s & _ & A & _ & [_ _ Fv])].
    { left. by rewrite <- (quiet_ledger _ _ Hq). }
    unfold ledger_view in Fv. injection Fv as _ L _ _ _ _ _ _ _. rewrite L, (alter_some _ _ _ g0) in H by apply A.
    destruct (decide (rc_grant_id r = gid)) as [<-|Hn]; [|left; by rewrite lookup_insert_ne in H].
    rewrite lookup_insert_eq in H. injection H as <-. right. exists r, g0. split_and!; [by left|apply A|by rsimpl..|done].
  - right. destruct (apply_receipt_cases m r) as [Hq|(g1 & s & _ & A & _ & [_ _ Fv])].
    { exists rec, gr0. rewrite (quiet_ledger _ _ Hq) in H0. split_and!; [by right|done..]. }
    unfold ledger_view in Fv. injection Fv as _ L _ _ _ _ _ _ _. rewrite L, (alter_some _ _ _ g1) in H0 by apply A.
    destruct (decide (rc_grant_id r = gid)) as [<-|Hn].
    + rewrite lookup_insert_eq in H0. injection H0 as <-. exists rec, g1. split_and!; [by right|apply A|by rewrite E; rsimpl|done..].
    + rewrite lookup_insert_ne in H0 by done. exists rec, gr0. split_and!; [by right|done..].
Qed.

(** ** Grants are well typed and issued *)

Lemma grant_for_ok pd pm gid :
  prepared_result_ok pd = true -> prepared_ok pm = true -> id_ok gid = true -> grant_ok (grant_for pd pm gid) = true.
Proof.
  unfold prepared_result_ok, prepared_ok, outcome_ok, grant_ok, grant_for. intros H1 H2 H3.
  rewrite !andb_true_iff in H1, H2. cbn -[id_ok in_range in_srange enum_ok]. rewrite (wrap_range 32) by lia.
  rewrite H3. repeat match goal with H : _ /\ _ |- _ => destruct H end.
  repeat match goal with H : (_ && _) = true |- _ => apply andb_true_iff in H as [? ?] end.
  repeat match goal with H : ?x = true |- context [?x] => rewrite H end. done.
Qed.

Lemma authorize_issues pd m :
  prepared_result_ok pd = true -> Inv m -> bounded (authorize_prepared pd m).2 ->
  forall g, g ∈ granted (from_option au_members [] (match (authorize_prepared pd m).1 with Ok ar => Some ar | Err _ => None end)) ->
  grant_ok g = true /\ issued (authorize_prepared pd m).2 g.
Proof.
  intros Hok.
  assert (K : forall l out m, forallb prepared_ok l = true -> Inv m -> bounded (foldl (authorize_member pd) (out, m) l).2 ->
    (forall g, g ∈ granted out -> grant_ok g = true /\ issued m g) ->
    forall g, g ∈ granted (foldl (authorize_member pd) (out, m) l).1 ->
      grant_ok g = true /\ issued (foldl (authorize_member pd) (out, m) l).2 g).
  { clear m. induction l as [|pm l IH]; intros out m Hl HI Hb Hout; [exact Hout|]. cbn [foldl] in *.
    cbn in Hl. apply andb_true_iff in Hl as [Hpm Hl]. pose proof (authorize_member_protocol pd (out, m) pm) as Hp. cbn [snd] in Hp.
    destruct (authorize_member_answer pd out m pm) as (ga & Ea & H). cbv zeta in H.
    set (m1 := (authorize_member pd (out, m) pm).2) in *. rewrite Ea in *.
    assert (Hb1 : bounded m1).
    { unfold bounded in *. assert (Hpr : forall l acc, protocol acc.2 (foldl (authorize_member pd) acc l).2).
      { induction l0 as [|x l0 IHl]; intros acc; [reflexivity|]. cbn [foldl]. etrans; [apply authorize_member_protocol|apply IHl]. }
      pose proof (protocol_ledger_size _ _ (Hpr l (out ++ [ga], m1))). cbn [snd] in *. lia. }
    apply IH; [done|by eapply Inv_protocol|done|].
    intros g Hg. unfold granted in Hg. rewrite omap_app in Hg. apply elem_of_app in Hg as [Hg|Hg].
    - destruct (Hout g Hg) as [G1 G2]. split; [done|]. by apply (issued_protocol m).
    - cbn [omap list_omap] in Hg. destruct (ga_grant ga) as [g'|]; [|by apply not_elem_of_nil in Hg].
      apply list_elem_of_singleton in Hg as ->. destruct H as (Eg & _ & _ & L & _). split.
      + rewrite Eg. apply grant_for_ok; [done|done|]. rewrite (inv_next m HI).
        pose proof (protocol_ledger_size _ _ Hp). apply in_range_iff. cbn. unfold bounded in Hb1. lia.
      + exists (mkGrantRecord g' 0 None). by rewrite L, lookup_insert_eq. }
  intros HI Hb g. unfold authorize_prepared in *. specialize (K (pd_members pd) [] m).
  destruct (foldl (authorize_member pd) ([], m) (pd_members pd)) as [out m']. cbn in *. apply K; try done.
  - unfold prepared_result_ok, counted_ok in Hok. rewrite !andb_true_iff in Hok. tauto.
  - by intros ? ?%not_elem_of_nil.
Qed.
End ledger.

(** ** What the coordinator sends *)

Section sends.
Context {CLK : Clock} {ORD : MapOrder} {OS : Ostream}.
Implicit Types (sv : Server).
Abbreviation fabric_of sv := (co_fabric (sv_coord sv)).

Lemma client_sends_no_grant f m s : s ∈ (client_request f m).1 -> s.1 <> FrameType.CommitGrant.
Proof.
  unfold client_request. intros Hs.
  destruct (fr_type f); repeat case_match; simplify_eq/=; try (by apply not_elem_of_nil in Hs);
    by apply list_elem_of_singleton in Hs as ->.
Qed.

(** A grant the coordinator sends answers a prepared group of that connection, and is in its ledger. *)
Lemma server_sends_grant sv ev conn pl :
  (conn, (FrameType.CommitGrant, pl)) ∈ sv_sent (server_step sv ev) ->
  (conn, (FrameType.CommitGrant, pl)) ∈ sv_sent sv \/
  exists w f pd g, ev = EvFrame conn f /\ sv_sessions sv !! conn = Some (WorkerSession w) /\
    fr_type f = FrameType.PreparedResult /\ decode_prepared_result (fr_payload f) = Ok pd /\
    fabric_of (server_step sv ev) = (authorize_prepared pd (fabric_of sv)).2 /\ pl = encode_commit_grant g /\
    g ∈ granted (from_option au_members [] (match (authorize_prepared pd (fabric_of sv)).1 with Ok ar => Some ar | Err _ => None end)).
Proof.
  destruct sv as [co ss sent]. destruct ev as [c|c f|c|]; cbn [server_step].
  - case_bool_decide; by left.
  - destruct (ss !! c) as [s|] eqn:Hc; [|by left].
    destruct (on_frame c s f co) as [[out s'] co'] eqn:Eo. cbn [sv_sent sv_coord sv_sessions].
    intros [H|H]%elem_of_app; [by left|]. apply list_elem_of_fmap in H as (x & [= -> <-] & Hx).
    assert (Hcl : forall co0, client_frame f co0 = (out, s', co') -> False).
    { intros co0. unfold client_frame. case_bool_decide; [intros [= <- _ _]; by apply not_elem_of_nil in Hx|].
      pose proof (client_sends_no_grant f (co_fabric co0) (FrameType.CommitGrant, pl)) as Hn.
      destruct (client_request f (co_fabric co0)) as [o m]. intros [= -> _ _]. by apply Hn. }
    destruct s as [|w| |]; cbn [on_frame] in Eo.
    + case_bool_decide; [|by destruct (Hcl co)]. destruct (worker_hello c f co). injection Eo as <- _ _. by apply not_elem_of_nil in Hx.
    + right. exists w, f. unfold worker_frame in Eo.
      destruct (fr_type f) eqn:Et; try (injection Eo as <- _ _; by apply not_elem_of_nil in Hx).
      all: lazymatch type of Eo with
        | context [decode_prepared_result ?b] => destruct (decode_prepared_result b) as [pd|] eqn:Ed
        | context [decode_commit_receipts ?b] => destruct (decode_commit_receipts b) as [rd|] end;
        try (injection Eo as <- _ _; by apply not_elem_of_nil in Hx).
      exists pd. destruct (authorize_prepared pd (co_fabric co)) as [[ar|] m'] eqn:Ea;
        injection Eo as <- <- <-; [|by apply not_elem_of_nil in Hx].
      apply list_elem_of_bind in Hx as (ga & Hx & Hga). unfold answer_member in Hx.
      destruct (ga_grant ga) as [g|] eqn:Hg.
      * apply list_elem_of_singleton in Hx as [= ->]. exists g. cbn. split_and!; try done.
        apply list_elem_of_omap. by exists ga.
      * destruct (ga_has_abort ga); [by apply list_elem_of_singleton in Hx|by apply not_elem_of_nil in Hx].
    + by destruct (Hcl co).
    + injection Eo as <- _ _. by apply not_elem_of_nil in Hx.
  - destruct (ss !! c) as [s|]; [|by left]. destruct (on_lost s co). by left.
  - unfold dispatch_tick. destruct (schedule 0 (co_fabric co)) as [ds m]. cbn [sv_sent].
    intros [H|H]%elem_of_app; [by left|]. apply list_elem_of_omap in H as (d & _ & Hd).
    apply fmap_Some in Hd as (c & _ & [= _ _]).
Qed.

(** A connection becomes a worker's by a Hello on it. *)
Lemma server_sessions sv ev conn w :
  sv_sessions (server_step sv ev) !! conn = Some (WorkerSession w) ->
  (exists w', sv_sessions sv !! conn = Some (WorkerSession w')) \/ exists f, ev = EvFrame conn f /\ fr_type f = FrameType.Hello.
Proof.
  destruct sv as [co ss sent]. destruct ev as [c|c f|c|]; cbn [server_step].
  - case_bool_decide; [by eauto|]. cbn. destruct (decide (c = conn)) as [<-|?]; [by rewrite lookup_insert_eq|rewrite lookup_insert_ne by done; eauto].
  - destruct (ss !! c) as [s|] eqn:Hc; [|by eauto]. destruct (on_frame c s f co) as [[out s'] co'] eqn:Eo. cbn.
    destruct (decide (c = conn)) as [<-|?]; [|rewrite lookup_insert_ne by done; eauto].
    rewrite lookup_insert_eq. intros [= ->]. destruct s as [|w'| |]; cbn [on_frame] in Eo; try by eauto.
    + case_bool_decide; [right; eauto|]. unfold client_frame in Eo. case_bool_decide; [done|]. by destruct (client_request f (co_fabric co)).
    + unfold client_frame in Eo. case_bool_decide; [done|]. by destruct (client_request f (co_fabric co)).
  - destruct (ss !! c) as [s|] eqn:Hc; [|by eauto]. destruct (on_lost s co) as [s' co'] eqn:El. cbn.
    destruct (decide (c = conn)) as [<-|?]; [|rewrite lookup_insert_ne by done; eauto].
    rewrite lookup_insert_eq. intros [= ->]. by destruct s.
  - unfold dispatch_tick. destruct (schedule 0 (co_fabric co)). cbn. eauto.
Qed.
End sends.

(** ** The invariant of the system *)

Lemma are_bytes_prepared_result pd : are_bytes (encode_prepared_result pd).
Proof.
  unfold encode_prepared_result, w_counted. bytes_walk. apply are_bytes_mjoin. intros pm.
  unfold write_prepared, write_outcome. bytes_walk.
Qed.

Section invariant.
Context {CLK : Clock} {ORD : MapOrder} {OS : Ostream} {E : Type} {EX : DecodeExecutor E} {EL : ExecutorLaws E} {WX : WireExecutor E}.
Implicit Types (sy : System E) (commits : list (CommitGrant * MemberReceipt)).
Abbreviation fabric_of sv := (co_fabric (sv_coord sv)).

(** What a worker process may have sent: prepared groups, and receipts of commits its executor accepted. *)
Record honest commits (s : Sent) : Prop := {
  ho_prepared : s.1 = FrameType.PreparedResult -> are_bytes s.2;
  ho_receipt : s.1 = FrameType.CommitReceipt -> exists g res, s.2 = encode_commit_receipts (commit_reply g res) /\
    grant_ok g = true /\ forall rec, res = Ok rec -> (g, rec) ∈ commits;
}.

Record sys_inv sy : Prop := {
  iv_fabric : Inv (fabric_of_system sy);
  iv_grants : forall conn pl, (conn, (FrameType.CommitGrant, pl)) ∈ sv_sent (sy_server sy) ->
    exists g, pl = encode_commit_grant g /\ grant_ok g = true /\ issued (fabric_of_system sy) g;
  iv_commits : forall g rec, (g, rec) ∈ sy_commits sy ->
    issued (fabric_of_system sy) g /\ receipt_ok rec = true /\ receipt_fits rec g = true;
  iv_procs : forall conn p, sy_procs sy !! conn = Some p ->
    ex_wf (pr_executor p) /\ forall s, s ∈ pr_sent p -> honest (sy_commits sy) s;
  iv_sessions : forall conn w, sv_sessions (sy_server sy) !! conn = Some (WorkerSession w) -> is_Some (sy_procs sy !! conn);
  iv_consumed : forall gid gr, im_grant_ledger (fabric_of_system sy) !! gid = Some gr -> gr_status gr = 1 ->
    exists rec, (gr_grant gr, rec) ∈ sy_commits sy /\ gr_receipt gr = Some (rec <| rc_committed_at := 0 |>);
}.

(** Where the frames of a connection come from. *)
Definition frame_origin sy (ev : CoordEvent) : Prop :=
  match ev with
  | EvFrame conn f =>
      (is_Some (sy_procs sy !! conn) -> honest (sy_commits sy) (fr_type f, fr_payload f)) /\
      (sy_procs sy !! conn = None -> fr_type f <> FrameType.Hello)
  | _ => True
  end.

Lemma receipt_now_ok rec : receipt_ok rec = true -> receipt_ok (rec <| rc_committed_at := 0 |>) = true.
Proof. unfold receipt_ok. rsimpl. rewrite !andb_true_iff. tauto. Qed.

(** The receipts of a worker's message are those of its commit. *)
Lemma commit_reply_decoded sy g res rd :
  sys_inv sy -> grant_ok g = true -> (forall rec, res = Ok rec -> (g, rec) ∈ sy_commits sy) ->
  decode_commit_receipts (encode_commit_receipts (commit_reply g res)) = Ok rd ->
  forall r, r ∈ rd_receipts rd -> exists rec, (g, rec) ∈ sy_commits sy /\ r = rec <| rc_committed_at := 0 |>.
Proof.
  intros HI Hg Hres Hd r Hr.
  assert (Hok : commit_receipts_ok (commit_reply g res) = true).
  { unfold commit_receipts_ok, commit_reply. cbn -[id_ok receipt_ok counted_ok enum_ok str_ok].
    unfold grant_ok in Hg. rewrite !andb_true_iff in Hg.
    repeat match goal with H : _ /\ _ |- _ => destruct H end.
    repeat match goal with H : ?x = true |- context [?x] => rewrite H end.
    assert (Hc : counted_ok kMaxCount receipt_ok (match res with Ok mr => [mr <| rc_committed_at := 0 |>] | Err _ => [] end) = true).
    { destruct res as [rec|]; [|done]. destruct (iv_commits sy HI g rec (Hres rec eq_refl)) as (_ & Hrec & _).
      unfold counted_ok. cbn [length forallb]. by rewrite (receipt_now_ok rec Hrec). }
    by rewrite Hc. }
  pose proof (run_read_decodes _ _ _ [] (decodes_commit_receipts _ Hok)) as Hrt. rewrite app_nil_r in Hrt.
  unfold decode_commit_receipts in Hd. rewrite Hrt in Hd. injection Hd as <-. cbn [commit_reply rd_receipts] in Hr.
  destruct res as [rec|]; [|by apply not_elem_of_nil in Hr]. apply list_elem_of_singleton in Hr as ->. eauto.
Qed.

Lemma sys_inv_server sy ev :
  bounded (fabric_of (server_step (sy_server sy) ev)) -> frame_origin sy ev -> sys_inv sy -> sys_inv (with_server ev sy).
Proof.
  intros Hb Ho HI. pose proof HI as [I1 I2 I3 I4 I5 I6]. set (sv := sy_server sy) in *.
  assert (Hp : protocol (fabric_of sv) (fabric_of (server_step sv ev))) by exact (serve_protocol sv [ev]).
  assert (Hiss : forall g, issued (fabric_of sv) g -> issued (fabric_of (server_step sv ev)) g)
    by (intros g; by apply issued_protocol).
  split; unfold with_server, fabric_of_system; cbn [sy_server sy_procs sy_commits]; fold sv.
  - by apply (Inv_protocol (fabric_of sv)).
  - intros conn pl Hs. destruct (server_sends_grant sv ev conn pl Hs) as [H|(w & f & pd & g & -> & Hw & Ht & Hd & Ef & -> & Hg)].
    { destruct (I2 conn pl H) as (g & ? & ? & ?). eauto 10. }
    destruct (I5 conn w Hw) as [p Hpr]. destruct Ho as [Ho _]. destruct (Ho ltac:(by eexists)) as [Hbytes _].
    assert (Hpd : prepared_result_ok pd = true).
    { specialize (Hbytes Ht). unfold decode_prepared_result, run_read in Hd.
      destruct (read_prepared_result _) as [[x r']|] eqn:Er; [|done]. injection Hd as ->.
      by destruct (typed_prepared_result _ _ _ (Hbytes : are_bytes (rd_data (mkReader (fr_payload f) 0))) Er) as [? _]. }
    rewrite Ef in Hb |- *. destruct (authorize_issues pd (fabric_of sv) Hpd I1 Hb g Hg). eauto.
  - intros g rec Hg. destruct (I3 g rec Hg) as (? & ? & ?). auto.
  - exact I4.
  - intros conn w Hw. destruct (server_sessions sv ev conn w Hw) as [(w' & Hw')|(f & -> & Ht)]; [by eapply I5|].
    destruct Ho as [_ Ho]. destruct (sy_procs sy !! conn); [by eexists|by destruct Ho].
  - intros gid gr Hg H1. destruct (server_step_op sv ev) as [Hn|(conn & f & w & rd & -> & Hw & Ht & Hd & Ef)].
    { destruct Hn as [E0|(op & E0 & Hop)]; rewrite E0 in Hg; [by eapply I6|].
      apply (I6 gid gr); [|done]. by apply (consumes_none_step _ op Hop). }
    rewrite Ef in Hg. cbn [step apply_commit_receipt snd] in Hg.
    change (im_grant_ledger (refresh_derived_stats ?x)) with (im_grant_ledger x) in Hg.
    destruct (receipts_consume _ _ gid gr Hg H1) as [H|(r & gr0 & Hin & H0 & Eg & Er & Eid)]; [by eapply I6|].
    destruct (I5 conn w Hw) as [p Hpr]. destruct Ho as [Ho _]. destruct (Ho ltac:(by eexists)) as [_ Hrec].
    destruct (Hrec Ht) as (g & res & Epl & Hok & Hres). cbn [snd] in Epl. rewrite Epl in Hd.
    destruct (commit_reply_decoded sy g res rd HI Hok Hres Hd r Hin) as (rec & Hc & ->).
    exists rec. split; [|done]. destruct (I3 g rec Hc) as ((gr1 & Hg1 & Egr1) & _ & Hfit).
    apply receipt_fits_fields in Hfit as (F1 & _). rsimpl in Eid. change (fabric_of_system sy) with (fabric_of sv) in Hg1. rewrite <- F1, Eid, H0 in Hg1.
    injection Hg1 as <-. by rewrite Eg, Egr1.
Qed.

(** Executors that start well typed, and clients that do not pose as workers. *)
Definition legal (a : Action E) : Prop :=
  match a with
  | AStart _ _ e => ex_wf e
  | AClientFrame _ f => fr_type f <> FrameType.Hello
  | _ => True
  end.

Lemma honest_more commits more s : honest commits s -> honest (commits ++ more) s.
Proof.
  intros [H1 H2]. split; [done|]. intros Ht. destruct (H2 Ht) as (g & res & ? & ? & Hr). exists g, res.
  split_and!; [done|done|]. intros rec Hrec. apply elem_of_app. left. by apply Hr.
Qed.

(** A process goes on, with the commits its executor accepted. *)
Lemma sys_inv_proc sy conn (p : Process E) more :
  sys_inv sy -> ex_wf (pr_executor p) -> (forall s, s ∈ pr_sent p -> honest (sy_commits sy ++ more) s) ->
  (forall g rec, (g, rec) ∈ more -> issued (fabric_of_system sy) g /\ receipt_ok rec = true /\ receipt_fits rec g = true) ->
  sys_inv (mkSystem (sy_server sy) (<[conn := p]> (sy_procs sy)) (sy_commits sy ++ more)).
Proof.
  intros [I1 I2 I3 I4 I5 I6] Hwf Hs Hm. split; unfold fabric_of_system; cbn [sy_server sy_procs sy_commits]; try done.
  - intros g rec [H|H]%elem_of_app; [by apply I3|by apply Hm].
  - intros c q. destruct (decide (conn = c)) as [<-|Hn]; [rewrite lookup_insert_eq; by intros [= <-]|].
    rewrite lookup_insert_ne by done. intros Hq. destruct (I4 c q Hq) as [W H]. split; [done|]. intros s' Hs'. by apply honest_more, H.
  - intros c w Hw. destruct (decide (conn = c)) as [<-|Hn]; [rewrite lookup_insert_eq; by eexists|].
    rewrite lookup_insert_ne by done. by eapply I5.
  - intros gid gr Hg H1. destruct (I6 gid gr Hg H1) as (rec & Hc & ?). exists rec. split; [|done]. apply elem_of_app. by left.
Qed.

Lemma sys_inv_same_proc sy conn (p q : Process E) :
  sys_inv sy -> sy_procs sy !! conn = Some q -> pr_executor p = pr_executor q -> pr_sent p = pr_sent q ->
  sys_inv (mkSystem (sy_server sy) (<[conn := p]> (sy_procs sy)) (sy_commits sy)).
Proof.
  intros HI Hq He Hs. destruct (iv_procs sy HI conn q Hq) as [W H]. rewrite <- (app_nil_r (sy_commits sy)).
  apply sys_inv_proc; [done|by rewrite He|rewrite Hs; intros s Hin; by apply honest_more, H|by intros ? ? ?%not_elem_of_nil].
Qed.

(** What one frame makes a worker do: its executor stays well typed, and what it sends is honest. *)
Lemma worker_loop_honest sy s e out e' b :
  sys_inv sy -> ex_wf e -> (s.1 = FrameType.CommitGrant -> exists g, s.2 = encode_commit_grant g /\ grant_ok g = true /\ issued (fabric_of_system sy) g) ->
  worker_loop (sent_frame s) e = (out, e', b) ->
  let more := commit_of (sent_frame s) e in
  ex_wf e' /\ (forall x, x ∈ out -> honest (sy_commits sy ++ more) x) /\
  (forall g rec, (g, rec) ∈ more -> issued (fabric_of_system sy) g /\ receipt_ok rec = true /\ receipt_fits rec g = true).
Proof.
  intros HI We Hs. unfold worker_loop, commit_of, sent_frame. cbn [fr_type fr_payload Frame.frame_of].
  destruct s as [ty pl]. cbn [fst snd] in *.
  assert (Hnone : forall x, x ∈ ([] : list Sent) -> honest (sy_commits sy ++ []) x) by by intros ? ?%not_elem_of_nil.
  assert (Hmore : forall g rec, (g, rec) ∈ ([] : list (CommitGrant * MemberReceipt)) ->
    issued (fabric_of_system sy) g /\ receipt_ok rec = true /\ receipt_fits rec g = true) by by intros ? ? ?%not_elem_of_nil.
  destruct ty; try (by intros [= <- <- <-]).
  all: lazymatch goal with
  | |- context [decode_execute_request ?b] => destruct (decode_execute_request b) as [req|]; [|by intros [= <- <- <-]];
      pose proof (wf_prepare req e We) as W; destruct (ex_prepare req e) as [res e1]; intros [= <- <- <-]; split_and!; try done;
      intros x Hx; apply list_elem_of_singleton in Hx as ->; split; [intros _; apply are_bytes_prepared_result|done]
  | |- context [decode_abort_prepared ?b] => destruct (decode_abort_prepared b) as [a|]; intros [= <- <- <-]; [|done];
      split_and!; try done; by apply wf_abort
  | |- context [decode_commit_grant ?b] => idtac
  | _ => intros [= <- <- <-]; split_and!; try done; intros x Hx; by apply list_elem_of_singleton in Hx as ->
  end.
  destruct (Hs eq_refl) as (g & -> & Hok & Hi).
  pose proof (run_read_decodes _ _ _ [] (decodes_commit_grant g Hok)) as Hrt. rewrite app_nil_r in Hrt.
  unfold decode_commit_grant. rewrite Hrt. pose proof (wf_commit g e Hok We) as W.
  destruct (ex_commit g e) as [res e1] eqn:Ec. intros [= <- <- <-]. cbn [fst snd] in *. split_and!; [done| |].
  - intros x Hx. apply list_elem_of_singleton in Hx as ->. split; [done|]. intros _. exists g, res. split_and!; [done|done|].
    intros rec ->. apply elem_of_app. right. by left.
  - destruct res as [rec|]; [|done]. intros g' rec' Hin. apply list_elem_of_singleton in Hin as [= -> ->].
    split_and!; [done|exact (wf_receipt g e rec e1 Hok We Ec)|exact (law_receipt g e rec e1 Ec)].
Qed.

Lemma sys_step_protocol sy a : protocol (fabric_of_system sy) (fabric_of_system (sys_step sy a)).
Proof.
  assert (H : forall ev, protocol (fabric_of_system sy) (fabric_of (server_step (sy_server sy) ev)))
    by (intros ev; exact (serve_protocol (sy_server sy) [ev])).
  destruct a; cbn [sys_step]; repeat case_match; try reflexivity; try exact (H _).
  unfold worker_turn. repeat case_match; reflexivity.
Qed.

Lemma sys_step_inv sy a : legal a -> bounded (fabric_of_system (sys_step sy a)) -> sys_inv sy -> sys_inv (sys_step sy a).
Proof.
  intros Hl Hb HI. destruct a as [conn w e|conn|conn|conn|conn|conn f|conn|]; cbn [sys_step] in *.
  - case_bool_decide; [done|]. pose proof (sys_inv_server sy (EvAccept conn) Hb I HI) as H1.
    rewrite <- (app_nil_r (sy_commits sy)). apply (sys_inv_proc (with_server (EvAccept conn) sy)); [done|done| |by intros ? ? ?%not_elem_of_nil].
    intros s Hs. cbn in Hs. by apply list_elem_of_singleton in Hs as ->.
  - destruct (sy_procs sy !! conn) as [p|] eqn:Hp; [|done]. destruct (pr_running p); [|done]. unfold worker_turn.
    destruct (sent_to conn (sy_server sy) !! pr_read p) as [s|] eqn:Hs; [|done].
    destruct (worker_loop (sent_frame s) (pr_executor p)) as [[out e'] b] eqn:Ew. destruct (iv_procs sy HI conn p Hp) as [W H].
    destruct (worker_loop_honest sy s (pr_executor p) out e' b HI W) as (W' & Ho & Hm); [|done|].
    { intros Ht. apply (iv_grants sy HI conn). apply list_elem_of_lookup_2 in Hs. unfold sent_to in Hs.
      apply list_elem_of_fmap in Hs as ([c x] & -> & Hx). apply list_elem_of_filter in Hx as [Ec Hx]. cbn in Ec. subst c.
      cbn in Ht. destruct x as [ty pl]. cbn in Ht. by subst ty. }
    apply sys_inv_proc; [done|done| |done]. intros x Hx. cbn in Hx. apply elem_of_app in Hx as [Hx|Hx]; [by apply honest_more, H|by apply Ho].
  - destruct (sy_procs sy !! conn) as [p|] eqn:Hp; [|done]. destruct (pr_sent p !! pr_delivered p) as [s|] eqn:Hs; [|done].
    assert (Ho : frame_origin sy (EvFrame conn (sent_frame s))).
    { split; [|by rewrite Hp]. intros _. destruct (iv_procs sy HI conn p Hp) as [_ H]. destruct s as [ty pl].
      by apply (H (ty, pl)), (list_elem_of_lookup_2 _ (pr_delivered p)). }
    pose proof (sys_inv_server sy _ Hb Ho HI) as H1. by apply (sys_inv_same_proc (with_server (EvFrame conn (sent_frame s)) sy) conn _ p).
  - destruct (sy_procs sy !! conn) as [p|] eqn:Hp; [|done]. by apply (sys_inv_same_proc sy conn _ p).
  - case_bool_decide; [done|]. by apply sys_inv_server.
  - case_bool_decide as Hn; [done|]. apply sys_inv_server; [done| |done]. split; [done|]. intros _. exact Hl.
  - by apply sys_inv_server.
  - by apply sys_inv_server.
Qed.

Lemma run_system_inv sy acts :
  Forall legal acts -> bounded (fabric_of_system (run_system sy acts)) -> sys_inv sy -> sys_inv (run_system sy acts).
Proof.
  assert (Hp : forall acts sy, protocol (fabric_of_system sy) (fabric_of_system (run_system sy acts))).
  { induction acts0 as [|a l IH]; intros sy0; [reflexivity|]. etrans; [apply sys_step_protocol|apply IH]. }
  intros Hl. revert sy. induction Hl as [|a acts Ha _ IH]; intros sy Hb HI; [done|]. cbn in *. apply IH; [done|].
  apply sys_step_inv; [done| |done]. unfold bounded in *. pose proof (protocol_ledger_size _ _ (Hp acts (sys_step sy a))).
  unfold run_system in *. lia.
Qed.

Lemma new_system_inv : sys_inv new_system.
Proof.
  split; [exact (Inv_new coordinator_config)|by intros ? ? ?%not_elem_of_nil|by intros ? ? ?%not_elem_of_nil|done..].
Qed.

(** C2: the coordinator believes only what a worker did.  A coordinator with any number of worker processes
    whose executors keep the contract, and clients that send anything but a Hello, run in any interleaving with
    processes dying and connections lost at any moment.  (The coordinator registers every peer that sends a Hello as a
    worker and believes its receipts, so a peer that claims to be a worker is trusted to be one.)  As long as fewer than
    2^64 - 1 grants are issued, every grant the fabric counts as consumed was committed by a worker's executor, by
    exactly the grant that was issued, and the recorded receipt is the one that commit returned; and executors commit
    only grants the coordinator issued. *)
Theorem commits_backed_by_workers (acts : list (Action E)) :
  let sy := run_system new_system acts in
  Forall legal acts -> bounded (fabric_of_system sy) ->
  (forall gid gr, im_grant_ledger (fabric_of_system sy) !! gid = Some gr -> gr_status gr = 1 ->
     exists rec, (gr_grant gr, rec) ∈ sy_commits sy /\ gr_receipt gr = Some (rec <| rc_committed_at := 0 |>)) /\
  (forall g rec, (g, rec) ∈ sy_commits sy ->
     receipt_fits rec g = true /\ exists gr, im_grant_ledger (fabric_of_system sy) !! g_grant_id g = Some gr /\ gr_grant gr = g).
Proof.
  intros sy Hl Hb. destruct (run_system_inv new_system acts Hl Hb new_system_inv) as [_ _ I3 _ _ I6]. split; [exact I6|].
  intros g rec Hg. by destruct (I3 g rec Hg) as (? & _ & ?).
Qed.
End invariant.
