(* ===== verification/WireExecutors.v ===== *)
(** * The two executors behind the wire

    The CPU and the CUDA executor keep what [WireExecutor] asks: all the receipts they keep for
    recall are well typed, and a new receipt repeats the fields of a well-typed grant. *)

From S2P Require Import Prelude Enums Errors Token StateMachine Ids Compatibility Types Binary Frame Messages Double FabricState Transaction Executor CpuExecutor CpuTheorems Kernel CudaExecutor CudaHost CudaTheorems System SystemTheorems.
Open Scope Z_scope.

Lemma granted_receipt_ok g before pre post :
  grant_ok g = true -> in_range 64 before = true -> in_range 64 pre = true -> in_range 64 post = true ->
  receipt_ok (mkReceipt (mkId (id_value (g_grant_id g))) (g_grant_id g) (g_proposal g) (g_epoch g) (g_worker g)
    (g_worker_boot g) (g_sequence g) (g_state g) (g_attempt g) (g_generation g) (g_dispatch g) before (before +64 1) pre post
    (g_delta_digest g) (g_outcome_kind g) (g_terminal g) (g_token_identifier g) (g_active_ns g) 0) = true.
Proof.
  unfold grant_ok, receipt_ok. intros H Hb Hpre Hpost. rewrite !andb_true_iff in H.
  cbn -[id_ok in_range in_srange enum_ok]. change (id_ok (mkId (id_value (g_grant_id g)))) with (id_ok (g_grant_id g)).
  rewrite (wrap_range 64) by lia.
  repeat match goal with H : _ /\ _ |- _ => destruct H end.
  repeat match goal with H : ?x = true |- context [?x] => rewrite H end. done.
Qed.

(** The fields of a grant its receipt repeats. *)
Lemma grant_ok_numbers g :
  grant_ok g = true ->
  in_range 64 (g_committed_position g) = true /\ in_range 64 (g_pre_state_digest g) = true /\ in_range 64 (g_post_state_digest g) = true.
Proof. unfold grant_ok. rewrite !andb_true_iff. tauto. Qed.

Section cpu.
Context `{LM : Libm} {SC : SteadyClock}.

Definition receipts_ok (rs : gmap GrantId MemberReceipt) : Prop := map_Forall (fun _ r => receipt_ok r = true) rs.

Lemma cpu_prepare_receipts ms req c : ce_receipts_by_grant (prepare_members ms req c).2 = ce_receipts_by_grant c.
Proof.
  revert c. induction ms as [|m ms IH]; intros c; [done|]. cbn [prepare_members].
  assert (H : ce_receipts_by_grant (prepare_member m req c).2 = ce_receipts_by_grant c).
  { unfold prepare_member. cbv zeta. destruct (settle_tentative m _); cbn [snd]; by rsimpl. }
  destruct (prepare_member m req c) as [[pm|e] c1]; [|done]. cbn [snd] in H. specialize (IH c1).
  destruct (prepare_members ms req c1) as [[pms|e] c2]; cbn [snd] in *; congruence.
Qed.

#[export] Program Instance cpu_wire : WireExecutor CpuDecodeExecutor :=
  {| ex_wf c := receipts_ok (ce_receipts_by_grant c) |}.
Next Obligation.
  intros req c H. cbn. unfold cpu_prepare. pose proof (cpu_prepare_receipts (er_members req) req c) as E.
  destruct (prepare_members _ req c) as [[pms|e] c1]; cbn [snd] in *; by rewrite E.
Qed.
Next Obligation. intros a c H. cbn. unfold cpu_abort. repeat case_match; done. Qed.
Next Obligation.
  intros g c Hg H. cbn. destruct (cpu_commit_case g c) as [e _|rec' Hr Hs|st Hc]; cbn [snd]; [done|done|].
  unfold promoted. rsimpl. apply map_Forall_insert_2; [|done]. destruct (grant_ok_numbers g Hg) as (H1 & H2 & H3).
  apply granted_receipt_ok; [done|by rewrite (cm_position _ _ _ Hc)|by rewrite (cm_pre _ _ _ Hc)|by rewrite (cm_post _ _ _ Hc)].
Qed.
Next Obligation.
  intros g c rec c' Hg H. cbn. destruct (cpu_commit_case g c) as [e _|rec' Hr Hs|st Hc]; intros [=]; subst.
  - exact (H _ _ Hr).
  - destruct (grant_ok_numbers g Hg) as (H1 & H2 & H3).
    apply granted_receipt_ok; [done|by rewrite (cm_position _ _ _ Hc)|by rewrite (cm_pre _ _ _ Hc)|by rewrite (cm_post _ _ _ Hc)].
Qed.

Lemma new_cpu_wf dev : ex_wf (new_cpu dev).
Proof. apply map_Forall_empty. Qed.
End cpu.

Section cuda.
Context `{LM : Libm} `{CM : CudaMath} `{CR : CudaRuntime} {SC : SteadyClock}.

Lemma cuda_prepare_receipts ms req c : cu_receipts_by_grant (cuda_prepare_members ms req c).2 = cu_receipts_by_grant c.
Proof.
  revert c. induction ms as [|m ms IH]; intros c; [done|]. cbn [cuda_prepare_members].
  assert (H : cu_receipts_by_grant (cuda_prepare_member m req c).2 = cu_receipts_by_grant c).
  { unfold cuda_prepare_member. cbv zeta. destruct (cuda_call (cu_gpu c)) as [[e|[]] g]; cbn [snd]; [by rsimpl|].
    destruct ((dev_ensure m ;;; dev_settle m ;;; dev_compute)%host _) as [[r|e] [st g']]; cbn [snd]; by rsimpl. }
  destruct (cuda_prepare_member m req c) as [[pm|e] c1]; [|done]. cbn [snd] in H. specialize (IH c1).
  destruct (cuda_prepare_members ms req c1) as [[pms|e] c2]; cbn [snd] in *; congruence.
Qed.

(** Selecting the device leaves the receipts alone. *)
Lemma with_device_receipts {A} (f : CudaDecodeExecutor -> Result A * CudaDecodeExecutor) (P : Result A * CudaDecodeExecutor -> Prop) c :
  receipts_ok (cu_receipts_by_grant c) ->
  (forall c1 e, receipts_ok (cu_receipts_by_grant c1) -> P (Err e, c1)) ->
  (forall c1, receipts_ok (cu_receipts_by_grant c1) -> P (f c1)) -> P (with_device f c).
Proof. intros H He Hf. unfold with_device. destruct (cuda_call (cu_gpu c)) as [[e|[]] g]; [by apply He|by apply Hf]. Qed.

Lemma cuda_commit_receipts g c :
  grant_ok g = true -> receipts_ok (cu_receipts_by_grant c) ->
  receipts_ok (cu_receipts_by_grant (cuda_commit g c).2) /\ forall rec, (cuda_commit g c).1 = Ok rec -> receipt_ok rec = true.
Proof.
  intros Hg H. unfold cuda_commit.
  apply (with_device_receipts _ (fun x => receipts_ok (cu_receipts_by_grant x.2) /\ forall rec, x.1 = Ok rec -> receipt_ok rec = true)); [done|done|].
  clear c H. intros c H. destruct (cu_receipts_by_grant c !! g_grant_id g) as [existing|] eqn:Er.
  { destruct (same_grant existing g); [|done]. split; [done|]. intros rec [= <-]. exact (H _ _ Er). }
  destruct (cu_states c !! g_state g) as [st|]; [|done]. destruct (_ || _); [done|].
  destruct (dev_commit g (st, cu_gpu c)) as [[[]|e] [st' g']] eqn:Ed; cbn [fst snd]; [|split; [by rsimpl|done]].
  apply dev_commit_position in Ed. destruct (grant_ok_numbers g Hg) as (H1 & H2 & H3).
  assert (Hrec : receipt_ok (dev_receipt g (ds_tokens st)) = true) by (apply granted_receipt_ok; [done|by rewrite Ed|done|done]).
  split; [|by intros rec [= <-]]. rsimpl. by apply map_Forall_insert_2.
Qed.

#[export] Program Instance cuda_wire : WireExecutor CudaDecodeExecutor :=
  {| ex_wf c := receipts_ok (cu_receipts_by_grant c) |}.
Next Obligation.
  intros req c H. cbn [ex_prepare cuda_executor]. unfold cuda_prepare. apply (with_device_receipts _ (fun x => receipts_ok (cu_receipts_by_grant x.2))); [done|done|].
  clear c H. intros c H. pose proof (cuda_prepare_receipts (er_members req) req c) as E.
  destruct (cuda_prepare_members _ req c) as [[pms|e] c1]; cbn [snd] in *; by rewrite E.
Qed.
Next Obligation.
  intros a c H. cbn [ex_abort cuda_executor]. unfold cuda_abort. apply (with_device_receipts _ (fun x => receipts_ok (cu_receipts_by_grant x.2))); [done|done|].
  clear c H. intros c H. repeat case_match; done.
Qed.
Next Obligation. intros g c Hg H. by apply cuda_commit_receipts. Qed.
Next Obligation. intros g c rec c' Hg H E. apply (cuda_commit_receipts g c Hg H). change (cuda_commit g c) with (ex_commit g c). by rewrite E. Qed.
End cuda.
