(* ===== verification/Scenario.v ===== *)
(** * A concrete run of the fabric

    One worker, one request of two tokens, and the messages of its first step:
    the inputs at which the theorems about the fabric are instantiated, and the
    executable model evaluated end to end. *)

From S2P Require Import Prelude Enums Errors Token StateMachine Ids Compatibility Types Double FabricState FabricFrame FabricOps Schedule ScheduleTheorems ScheduleProgress Transaction FabricInvariants ProtocolInvariants FabricTheorems Authorization MemoryBooks.

#[local] Existing Instance canonical_order.
#[local] Instance scenario_clock : Clock := FixedClock 1000.

Definition sc_key : CompatibilityKey := mkKey (mkId 1) (mkId 1) null_id BackendKind.CPU (mkId 1) DType.F32 0 0 0 0.
Definition sc_worker : WorkerDescriptor :=
  mkWorker (mkId 5) (mkId 50) (mkDevice (mkId 1) BackendKind.CPU "cpu" 0 0 4096 1 1) WorkerHealth.Healthy 8 0 [sc_key] 1.
Definition sc_request : DecodeRequest :=
  default_request <| rq_id := mkId 1 |> <| rq_tenant := mkId 3 |> <| rq_model := mkId 1 |> <| rq_revision := mkId 1 |>
    <| rq_sequence := mkId 7 |> <| rq_prompt_length := 10 |> <| rq_max_generation_length := 2 |>.

(** Registered, admitted and dispatched. *)
Definition sc_ops : list Op := [ORegisterWorker sc_worker; OSubmit sc_request; OSchedule 1000].
Definition sc_state : Impl := run (new_fabric default_config) sc_ops.

(** What the worker prepares. *)
Definition sc_prepared_member : PreparedMember :=
  mkPrepared (mkId 7) (mkId 70) (mkId 1) (mkId 1) (mkId 1) (mkId 1) (mkId 5) (mkId 50) (mkId 90) 11 22 33
    default_outcome 0 1 5.
Definition sc_prepared : PreparedDecode :=
  mkPreparedDecode (mkId 1) (mkId 1) (mkId 5) (mkId 50) [sc_prepared_member] 5 ErrorCode.Ok "".

(** Its receipt for the first grant. *)
Definition sc_receipt : MemberReceipt :=
  mkReceipt (mkId 1) (mkId 1) (mkId 90) (mkId 1) (mkId 5) (mkId 50) (mkId 7) (mkId 70) (mkId 1) (mkId 1) (mkId 1)
    0 1 11 22 33 MemberOutcomeKind.StepSuccessContinue false 0 5 1000.
Definition sc_receipts : ReceiptDecode := mkReceiptDecode (mkId 1) (mkId 1) (mkId 5) (mkId 50) [sc_receipt] ErrorCode.Ok "".
Definition sc_commit : list Op := [OAuthorize sc_prepared; OReceipts sc_receipts].

Definition sc_seq (m : Impl) : Seq := default default_seq (im_seqs m !! (mkId 7)).

Example scenario_dispatched :
  s_machine (sc_seq sc_state) = SequenceState.Dispatched /\ s_in_flight_dispatch (sc_seq sc_state) = mkId 1.
Proof. by vm_compute. Qed.

Example scenario_committed :
  let m := run sc_state sc_commit in
  s_generation (sc_seq m) = 2 /\ s_generated (sc_seq m) = 1 /\ s_committed_state_digest (sc_seq m) = 22 /\
  s_machine (sc_seq m) = SequenceState.ReadyForNextToken /\ im_receipt_count m = 1 /\ grant_status (mkId 1) m = 1.
Proof. by vm_compute. Qed.

(** ** The theorems at this run *)

Lemma lifecycle_forever_witness :
  exists s', im_seqs (run sc_state sc_commit) !! (mkId 7) = Some s' /\ s_req s' = s_req (sc_seq sc_state) /\
    lifecycle SequenceState.Dispatched (s_machine s') /\
    (is_terminal SequenceState.Dispatched = true -> s_machine s' = SequenceState.Dispatched).
Proof. apply (lifecycle_forever sc_state sc_commit (mkId 7) (sc_seq sc_state)). vm_compute. reflexivity. Defined.

Lemma exactly_once_witness :
  let m := run (new_fabric default_config) (sc_ops ++ sc_commit) in
  s_generation (sc_seq m) = 1 + Z.of_nat (consumed (mkId 7) m) /\ s_committed (sc_seq m) = 0 + Z.of_nat (consumed (mkId 7) m) /\
  tb_generated (s_budget (sc_seq m)) = Z.min 2 (0 + Z.of_nat (consumed (mkId 7) m)) /\ consumed (mkId 7) m = 1%nat /\
  im_receipt_count m = Z.of_nat (consumed_all m).
Proof.
  edestruct (exactly_once default_config (sc_ops ++ sc_commit) (mkId 7)
    (sc_seq (run (new_fabric default_config) (sc_ops ++ sc_commit)))) as (H1 & H2 & _ & _ & _ & H3 & H5 & _).
  - vm_compute. reflexivity.
  - vm_compute. reflexivity.
  - vm_compute. discriminate.
  - vm_compute. discriminate.
  - vm_compute. reflexivity.
  - vm_compute. reflexivity.
  - assert (Hc : consumed (mkId 7) (run (new_fabric default_config) (sc_ops ++ sc_commit)) = 1%nat) by (vm_compute; reflexivity).
    exact (conj H1 (conj H2 (conj H3 (conj Hc H5)))).
Defined.

Lemma grants_one_use_witness :
  let m := run (new_fabric default_config) (sc_ops ++ sc_commit) in
  let gr := default (mkGrantRecord (grant_for sc_prepared sc_prepared_member (mkId 1)) 0 None) (im_grant_ledger m !! (mkId 1)) in
  exists gr', im_grant_ledger (run m [OReceipts sc_receipts; OSchedule 2000]) !! (mkId 1) = Some gr' /\
    gr_grant gr' = gr_grant gr /\ (gr_status gr = 1 \/ gr_status gr = 2 -> gr' = gr).
Proof.
  apply (grants_one_use default_config (sc_ops ++ sc_commit) [OReceipts sc_receipts; OSchedule 2000] (mkId 1)).
  - vm_compute. reflexivity.
  - vm_compute. reflexivity.
Defined.

Lemma receipt_chain_witness :
  exists r rec gr, OReceipts sc_receipts = OReceipts r /\ rec ∈ rd_receipts r /\ rc_sequence rec = mkId 7 /\
    im_grant_ledger (run sc_state [OAuthorize sc_prepared]) !! rc_grant_id rec = Some gr /\ gr_status gr = 0.
Proof.
  edestruct (receipt_chain default_config (sc_ops ++ [OAuthorize sc_prepared]) (OReceipts sc_receipts) (mkId 7)
    (sc_seq (run sc_state [OAuthorize sc_prepared])) (sc_seq (run sc_state sc_commit)))
    as (r & rec & gr & H1 & H2 & H3 & H4 & H5 & _).
  - vm_compute. reflexivity.
  - vm_compute. reflexivity.
  - vm_compute. reflexivity.
  - vm_compute. discriminate.
  - exists r, rec, gr. exact (conj H1 (conj H2 (conj H3 (conj H4 H5)))).
Defined.

Lemma sc_grantable : grantable sc_state sc_prepared_member (sc_seq sc_state).
Proof.
  split; try (vm_compute; reflexivity); try (vm_compute; intros [=]).
  - right. vm_compute. reflexivity.
  - vm_compute. intros [[=] _].
Qed.

(** Registered and admitted, not yet scheduled. *)
Definition sc_admitted : Impl := run (new_fabric default_config) [ORegisterWorker sc_worker; OSubmit sc_request].

Lemma sc_keys_ok : keys_ok sc_admitted.
Proof.
  assert (Hw : im_workers sc_admitted = {[ mkId 5 := sc_worker ]}) by (vm_compute; reflexivity).
  intros wid w k. rewrite Hw. intros [_ <-]%lookup_singleton_Some Hk. apply list_elem_of_singleton in Hk as ->.
  split; [reflexivity|]. split; apply list_elem_of_In; cbn; tauto.
Qed.

Lemma schedule_groups_witness :
  let '(ds, m') := schedule 1000 sc_admitted in
  NoDup (ds ≫= dispatched) /\ length ds = 1%nat.
Proof.
  pose proof (schedule_groups 1000 sc_admitted sc_keys_ok) as H.
  assert (Hl : length (schedule 1000 sc_admitted).1 = 1%nat) by (vm_compute; reflexivity).
  destruct (schedule 1000 sc_admitted) as [ds m']. exact (conj (proj1 H) Hl).
Defined.

(** The only worker is taken when a second request arrives. *)
Definition sc_small : WorkerDescriptor := sc_worker <| wk_advertised_capacity := 1 |>.
Definition sc_second : DecodeRequest := sc_request <| rq_id := mkId 2 |> <| rq_sequence := mkId 8 |>.
Definition sc_full : Impl :=
  run (new_fabric default_config) [ORegisterWorker sc_small; OSubmit sc_request; OSchedule 1000; OSubmit sc_second].

Lemma sc_full_workers : im_workers sc_full = {[ mkId 5 := sc_small <| wk_active_reservations := 1 |> ]}.
Proof. vm_compute. reflexivity. Qed.

Lemma schedule_work_conserving_witness :
  let m' := (schedule 2000 sc_full).2 in
  let s := default default_seq (im_seqs m' !! (mkId 8)) in
  (schedule 2000 sc_full).1 = [] /\ s_machine s = SequenceState.Ready /\ exists g, held_back 2000 sc_full (mkId 8) s g /\ refused m' (f_key g) (f_members g).
Proof.
  assert (Hk : forall wid w k, im_workers sc_full !! wid = Some w -> k ∈ wk_supported_models w ->
    w = sc_small <| wk_active_reservations := 1 |> /\ k = sc_key).
  { intros wid w k. rewrite sc_full_workers. intros [_ <-]%lookup_singleton_Some Hk. by apply list_elem_of_singleton in Hk as ->. }
  assert (K1 : keys_ok sc_full).
  { intros wid w k Hw Hin. destruct (Hk _ _ _ Hw Hin) as [_ ->]. split; [reflexivity|]. split; apply list_elem_of_In; cbn; tauto. }
  assert (K2 : keys_valid sc_full) by (intros wid w k Hw Hin; by destruct (Hk _ _ _ Hw Hin) as [_ ->]).
  assert (Hl : im_seqs (schedule 2000 sc_full).2 !! (mkId 8 : SequenceId) =
    Some (default default_seq (im_seqs (schedule 2000 sc_full).2 !! (mkId 8 : SequenceId)))) by (vm_compute; reflexivity).
  assert (Hd : (schedule 2000 sc_full).1 = []) by (vm_compute; reflexivity).
  assert (Hr : let s := default default_seq (im_seqs (schedule 2000 sc_full).2 !! (mkId 8 : SequenceId)) in
    runnable s /\ class_admitted (cf_group_limits (im_cfg sc_full)) s = true /\ s_machine s = SequenceState.Ready /\
    rq_model (s_req s) = mkId 1 /\ rq_revision (s_req s) = mkId 1 /\ rq_adapter (s_req s) = null_id /\
    is_valid (rq_device_constraint (s_req s)) = false) by (vm_compute; auto 10).
  pose proof (schedule_work_conserving 2000 sc_full K1 K2) as H.
  destruct (schedule 2000 sc_full) as [ds m']. cbn [fst snd] in *.
  destruct Hr as (R1 & R2 & R3 & R4 & R5 & R6 & R7). split; [exact Hd|]. split; [exact R3|].
  destruct (H Hd _ _ Hl R1 R2) as (g & Hs & _ & Hf); [|by exists g].
  exists (mkId 5), (sc_small <| wk_active_reservations := 1 |>), sc_key. rewrite sc_full_workers, R4, R5, R6, R7.
  split_and!; try done. by left.
Defined.

Definition sc_dispatch : Dispatch := hd (mkDispatch null_id null_id null_id null_id null_id null_id sc_key (wk_device sc_worker) 0 [])
  (schedule 1000 sc_admitted).1.

Lemma schedule_authority_witness :
  dp_epoch sc_dispatch = im_epoch sc_admitted /\
  forall spec, spec ∈ dp_members sc_dispatch ->
    exists s, im_seqs (schedule 1000 sc_admitted).2 !! ms_sequence spec = Some s /\ holds sc_dispatch spec s.
Proof.
  assert (Hd : sc_dispatch ∈ (schedule 1000 sc_admitted).1) by (apply list_elem_of_In; vm_compute; tauto).
  destruct (schedule_authority 1000 sc_admitted sc_dispatch Hd) as (H1 & _ & H2). exact (conj H1 H2).
Defined.

Lemma memory_not_overcommitted_witness :
  live_bytes (im_reservations sc_state) (mkId 1) = 64 /\
  exists dm, im_dev_mem sc_state !! mkId 1 = Some dm /\ dm_capacity dm = 4096 /\
  live_bytes (im_reservations sc_state) (mkId 1) <= dm_reserved dm <= dm_capacity dm.
Proof.
  split; [vm_compute; reflexivity|]. eexists. split; [vm_compute; reflexivity|]. split; [reflexivity|].
  apply (memory_not_overcommitted default_config sc_ops (mkId 1)); [|vm_compute; reflexivity].
  repeat constructor; cbn; lia.
Defined.

(** A second sequence of the same key joins the group.  The receipt of the first member releases the reservation of the
    whole group, while the second member is still in flight and names it. *)
Example first_release_frees_group :
  let ops := [ORegisterWorker sc_worker; OSubmit sc_request; OSubmit sc_second; OSchedule 1000] in
  let before := run (new_fabric default_config) ops in
  let after := run before sc_commit in
  live_bytes (im_reservations before) (mkId 1) = 128 /\ live_bytes (im_reservations after) (mkId 1) = 0 /\
  exists s, im_seqs after !! mkId 8 = Some s /\ s_has_inflight s = true /\ s_reservation s = mkId 1.
Proof. vm_compute. split; [reflexivity|]. split; [reflexivity|]. eexists. repeat split; reflexivity. Qed.

(** A worker without the adapter serves the device that another one with it registered: the request for the adapter goes to
    the one without, because placement compares the model, the revision and the device only. *)
Definition sc_adapter_key : CompatibilityKey := mkKey (mkId 1) (mkId 1) (mkId 9) BackendKind.CPU (mkId 1) DType.F32 0 0 0 0.
Definition sc_with_adapter : WorkerDescriptor :=
  sc_worker <| wk_id := mkId 6 |> <| wk_supported_models := [sc_adapter_key] |> <| wk_active_reservations := 3 |>.
Example adapter_not_compared :
  let m := run (new_fabric default_config)
    [ORegisterWorker sc_worker; ORegisterWorker sc_with_adapter; OSubmit (sc_request <| rq_adapter := mkId 9 |>)] in
  map (fun d => (dp_worker d, k_adapter (dp_key d))) (schedule 1000 m).1 = [(mkId 5, mkId 9)] /\
  Forall (fun k => k_adapter k = null_id) (wk_supported_models sc_worker).
Proof. split; [vm_compute; reflexivity|]. repeat constructor. Qed.
