(* ===== verification/PersistScenario.v ===== *)
(** * A crash in the middle of a step

    The run of Scenario.v stopped with a grant outstanding: the image it writes, the
    fabric that recovers it, and the theorems of PersistTheorems.v at that image. *)

From S2P Require Import Prelude Enums Errors Token StateMachine Ids Compatibility Types Binary Crc Double FabricState FabricFrame FabricOps Schedule ScheduleTheorems Transaction Persist FabricInvariants ProtocolInvariants FabricTheorems PersistTheorems Scenario.

#[local] Existing Instance canonical_order.
#[local] Instance crash_clock : Clock := FixedClock 2000.

(** The grant is issued, the receipt has not arrived. *)
Definition crash_state : Impl := run sc_state [OAuthorize sc_prepared].
Definition fresh : Impl := new_fabric default_config.
Definition crash_image : bytes := seal (serialize_body crash_state).
Definition after_crash : Impl := recovered_state crash_state fresh.

Example crash_recovers :
  let '(res, m) := recover_state crash_image fresh in
  is_ok res = true /\ s_machine (sc_seq m) = SequenceState.Dispatched /\ s_has_inflight_grant (sc_seq m) = false /\
  grant_status (mkId 1) m = 2 /\ s_generation (sc_seq m) = 1.
Proof. by vm_compute. Qed.

Lemma recovery_round_trip_witness :
  exists bs m', serialize_state crash_state = Ok bs /\ recover_state bs fresh = (Ok tt, m') /\ recovered crash_state fresh m'.
Proof.
  destruct (recovery_round_trip crash_state fresh) as (bs & m' & H1 & H2); [vm_compute; reflexivity|].
  assert (E : (Z.of_nat (size (im_grant_ledger crash_state)) <=? 2 ^ 22) = true) by (vm_compute; reflexivity).
  rewrite E in H2. exists bs, m'. exact (conj H1 H2).
Defined.

(** The receipt of before the crash, twice, then a scheduling cycle. *)
Definition late_ops : list Op := [OReceipts sc_receipts; OReceipts sc_receipts; OSchedule 3000].

Lemma late_ops_quiet : Forall (fun op => forall p, op <> OAuthorize p) late_ops.
Proof. repeat constructor; discriminate. Qed.

Lemma recovery_fences_receipts_witness :
  exists s', im_seqs (run after_crash late_ops) !! (mkId 7) = Some s' /\
    committed_view s' = committed_view (restore_seq (sc_seq crash_state)).
Proof.
  apply (recovery_fences_receipts crash_state fresh crash_image after_crash late_ops (mkId 7) (sc_seq crash_state)).
  - vm_compute. reflexivity.
  - reflexivity.
  - apply recover_image. vm_compute. reflexivity.
  - exact late_ops_quiet.
  - vm_compute. reflexivity.
Defined.

(** One flipped bit in the version. *)
Lemma corruption_rejected_witness :
  recover_state (take 4 crash_image ++ [2] ++ drop 5 crash_image) fresh =
    (failed ErrorCode.PersistenceChecksumMismatch "state checksum mismatch", fresh).
Proof.
  apply (corruption_rejected crash_state fresh (take 4 crash_image) [3] [2] (drop 5 crash_image)).
  - vm_compute. reflexivity.
  - repeat constructor; lia.
  - reflexivity.
  - cbn. lia.
  - discriminate.
Defined.

(** A well-sealed image of another version. *)
Definition old_image : bytes := seal (magic ++ w_u32 2).

Lemma recover_rejects_cleanly_witness :
  fresh = fresh /\ (ErrorCode.PersistenceUnknownVersion = ErrorCode.PersistenceChecksumMismatch \/
                    ErrorCode.PersistenceUnknownVersion = ErrorCode.PersistenceCorrupt \/
                    ErrorCode.PersistenceUnknownVersion = ErrorCode.PersistenceUnknownVersion).
Proof.
  apply (recover_rejects_cleanly old_image fresh (mkError ErrorCode.PersistenceUnknownVersion "bad persistence version") fresh).
  - vm_compute. reflexivity.
  - discriminate.
  - discriminate.
Defined.

Lemma recovery_strands_dispatched_witness :
  (exists s', im_seqs after_crash !! (mkId 7) = Some s' /\ s_machine s' = s_machine (sc_seq crash_state) /\
     s_has_inflight_grant s' = false /\ s_in_flight_dispatch s' = null_id /\ s_in_flight_worker s' = null_id) /\
  mkId 7 ∉ (schedule 3000 after_crash).1 ≫= dispatched.
Proof.
  apply (recovery_strands_dispatched crash_state fresh crash_image after_crash (mkId 7) (sc_seq crash_state) 3000).
  - vm_compute. reflexivity.
  - reflexivity.
  - apply recover_image. vm_compute. reflexivity.
  - vm_compute. reflexivity.
  - vm_compute. reflexivity.
Defined.
