(* ===== verification/CpuScenario.v ===== *)
(** * The fabric pumping the CPU executor

    The executor and the pump evaluated on the request of Scenario.v, and the theorems of
    CpuTheorems.v and PumpTheorems.v at these inputs.  The numeric library is instantiated by
    an identity in place of tanh and a zero in place of sin. *)

From S2P Require Import Prelude Enums Errors Token StateMachine Ids Compatibility Types Double FabricState FabricFrame FabricOps Schedule ScheduleTheorems Transaction Executor CpuExecutor CpuTheorems Pump FabricInvariants ProtocolInvariants FabricTheorems Authorization PumpTheorems GroupProgress PumpProgress ScheduleProgress PumpCompletes Scenario.
From stdpp Require Import relations.
Open Scope Z_scope.

#[local] Existing Instance canonical_order.
#[local] Instance pump_clock : Clock := fun n => 1000 + Z.of_nat n.
#[local] Instance sample_libm : Libm := {| lm_tanh := fun x => x; lm_sin := fun _ => d_zero; lm_nan_bits := 0x7FF8000000000000 |}.
#[local] Instance sample_steady : SteadyClock := fun n => 10 * Z.of_nat n.

(** ** The executor alone *)

Definition cpu0 : CpuDecodeExecutor := new_cpu (mkId 1).
Definition spec_at (tokens : Z) (attempt : AttemptId) : DecodeMemberSpec :=
  mkMemberSpec (mkId 7) attempt (mkId (tokens + 1)) (default_state_descriptor <| sd_id := mkId 70 |>) (10 + tokens) tokens 5 [].
Definition req_at (tokens : Z) (attempt : AttemptId) : DecodeExecutionRequest :=
  mkExecRequest (mkId 1) (mkId 1) (mkId 5) (mkId 50) sc_key (cpu_device (mkId 1)) 1 [spec_at tokens attempt] [] 0.

(** The first step, prepared and committed. *)
Definition cpu1 : CpuDecodeExecutor := (cpu_prepare (req_at 0 (mkId 1)) cpu0).2.
Definition issued1 : list PreparedMember := returned (cpu_prepare (req_at 0 (mkId 1)) cpu0).1 ++ [].
Definition pm1 : PreparedMember := hd sc_prepared_member issued1.
Definition grant1 : CommitGrant :=
  mkGrant (mkId 1) (pm_proposal pm1) (mkId 1) (mkId 5) (mkId 50) (mkId 7) (mkId 70) (mkId 1) (mkId 1) (mkId 1)
    (pm_committed_position_before pm1) (pm_pre_state_digest pm1) (pm_post_state_digest pm1) (pm_delta_digest pm1)
    MemberOutcomeKind.StepSuccessContinue false 0 0.
Definition cpu2 : CpuDecodeExecutor := (cpu_commit grant1 cpu1).2.
Definition receipt1 : MemberReceipt := receipt_of grant1 (default default_seq_state (ce_states cpu1 !! (mkId 70))).
Definition st2 : SeqState := default default_seq_state (ce_states cpu2 !! (mkId 70)).

Example cpu_first_step :
  committed_tokens (mkId 70) cpu1 = 0 /\ tentative_tokens (mkId 70) cpu1 = 1 /\ committed_tokens (mkId 70) cpu2 = 1 /\
  committed_state_digest (mkId 70) cpu2 = pm_post_state_digest pm1 /\ has_prepared (mkId 70) (mkId 1) cpu2 = false.
Proof. by vm_compute. Qed.

Lemma pm1_granted : granted_from issued1 grant1.
Proof. exists pm1. split_and!; [apply list_elem_of_In; vm_compute; left; reflexivity|reflexivity|reflexivity]. Qed.

Lemma cpu1_reachable : reachable (cpu1, issued1).
Proof.
  exists (mkId 1). apply rtc_once. apply es_prepare with (req := req_at 0 (mkId 1)).
  - exact (surjective_pairing (cpu_prepare (req_at 0 (mkId 1)) cpu0)).
  - by repeat constructor.
  - vm_compute. reflexivity.
Qed.

Lemma cpu2_reachable : reachable (cpu2, issued1).
Proof.
  destruct cpu1_reachable as [dev H]. exists dev. eapply rtc_r; [exact H|]. apply es_commit with (g := grant1) (res := (cpu_commit grant1 cpu1).1).
  - exact (surjective_pairing (cpu_commit grant1 cpu1)).
  - apply pm1_granted.
  - vm_compute. reflexivity.
Qed.

Lemma cpu_state_canonical_witness :
  exists seed kv0 n, at_position (mkId 70) seed kv0 n st2 /\ committed_tokens (mkId 70) cpu2 = Z.of_nat n /\
    committed_state_digest (mkId 70) cpu2 = digest_at (mkId 70) seed kv0 n.
Proof.
  destruct (cpu_state_canonical cpu2 issued1 (mkId 70) st2) as (seed & kv0 & n & H1 & H2 & H3 & _).
  - exact cpu2_reachable.
  - vm_compute. reflexivity.
  - exists seed, kv0, n. exact (conj H1 (conj H2 H3)).
Defined.

(** A second worker takes the sequence over after one token. *)
Lemma cpu_reconstruction_witness :
  exists pm c0', prepare_member (spec_at 1 (mkId 1)) (req_at 1 (mkId 1)) cpu0 = (Ok pm, c0') /\
    pm_committed_position_before pm = committed_tokens (mkId 70) cpu2 /\
    pm_pre_state_digest pm = committed_state_digest (mkId 70) cpu2 /\
    pm_post_state_digest pm = digest_at (mkId 70) 1 0 2 /\
    committed_state_digest (mkId 70) c0' = committed_state_digest (mkId 70) cpu2.
Proof.
  apply (cpu_reconstruction (mkId 70) 1 0 1 cpu2 st2 cpu0 (spec_at 1 (mkId 1)) (req_at 1 (mkId 1))).
  - vm_compute. reflexivity.
  - split; vm_compute; reflexivity.
  - reflexivity.
  - reflexivity.
  - reflexivity.
  - reflexivity.
  - reflexivity.
Defined.

(** Under another attempt the second worker starts from another first state. *)
Example retry_elsewhere_diverges :
  (pm_pre_state_digest <$> match (prepare_member (spec_at 1 (mkId 2)) (req_at 1 (mkId 2)) cpu0).1 with Ok pm => Some pm | Err _ => None end)
    <> Some (committed_state_digest (mkId 70) cpu2).
Proof. vm_compute. discriminate. Qed.

(** ** The pump *)

Definition pumped : option (Result unit * (CpuDecodeExecutor * Impl)) := pump_until_idle 10 10 cpu0 sc_admitted.

(** Two tokens, then the sequence is complete and fabric and executor agree. *)
Example pump_completes :
  match pumped with
  | Some (Ok tt, (c, m)) =>
      s_machine (sc_seq m) = SequenceState.Completed /\ s_generated (sc_seq m) = 2 /\
      s_committed_state_digest (sc_seq m) = committed_state_digest (sd_id (s_state (sc_seq m))) c /\
      committed_tokens (sd_id (s_state (sc_seq m))) c = 2
  | _ => False
  end.
Proof. by vm_compute. Qed.

Lemma pump_until_idle_ends_witness :
  exists k, (1 <= k)%nat /\ Z.of_nat k <= 10 /\ pump_until_idle 10 10 cpu0 sc_admitted = Some (Ok tt, (cycles k cpu0 sc_admitted).2).
Proof.
  destruct (pump_until_idle_ends 10 cpu0 sc_admitted) as (k & H1 & H2 & H3 & _).
  - reflexivity.
  - exists k. exact (conj H1 (conj H2 H3)).
Defined.

Definition sc_drive : list (list Op * (nat * CpuDecodeExecutor)) :=
  [([ORegisterWorker sc_worker; OSubmit sc_request], (2%nat, cpu0))].
Definition driven : Impl := foldl (fun m x => (cycles x.2.1 x.2.2 (run m x.1)).2.2) (new_fabric default_config) sc_drive.

(** The first dispatch, phase by phase. *)
Definition sc_dispatched : Impl := (schedule 1000 sc_admitted).2.
Definition pd1 : PreparedDecode :=
  match (cpu_prepare (exec_request sc_dispatch) cpu0).1 with Ok pd => pd | Err _ => sc_prepared end.
Definition ar1 : AuthorizeResult :=
  match (authorize_prepared pd1 sc_dispatched).1 with Ok ar => ar | Err _ => mkAuthorizeResult null_id null_id null_id null_id [] end.
Definition cpu1' : CpuDecodeExecutor := (cpu_prepare (exec_request sc_dispatch) cpu0).2.
Definition receipts1 : list MemberReceipt := (commit_members 1000 (au_members ar1) cpu1').1.

Lemma pump_commits_recorded_witness :
  let '(e', m') := pump_dispatch 1000 (cpu0, sc_dispatched) sc_dispatch in
  e' = (commit_members 1000 (au_members ar1) cpu1').2 /\ length receipts1 = 1%nat /\
  recorded m' (hd sc_receipt receipts1).
Proof.
  assert (Hl : exists r, receipts1 = [r]) by (vm_compute; eexists; reflexivity).
  pose proof (pump_commits_recorded 1000 cpu0 sc_dispatched sc_dispatch pd1 cpu1' ar1 (authorize_prepared pd1 sc_dispatched).2
    receipts1 (commit_members 1000 (au_members ar1) cpu1').2) as H.
  destruct (pump_dispatch 1000 (cpu0, sc_dispatched) sc_dispatch) as [e' m']. destruct H as [H1 H2].
  - vm_compute. reflexivity.
  - vm_compute. reflexivity.
  - exact (surjective_pairing (commit_members 1000 (au_members ar1) cpu1')).
  - change (dispatched sc_dispatch) with [mkId 7 : SequenceId]. apply NoDup_singleton.
  - vm_compute. discriminate.
  - vm_compute. reflexivity.
  - destruct Hl as [r Hr]. split; [exact H1|]. split; [by rewrite Hr|]. apply H2. rewrite Hr. by left.
Defined.

(** ** Progress *)

Lemma sc_admitted_seqs : im_seqs sc_admitted = {[ mkId 7 := sc_seq sc_admitted ]}.
Proof. vm_compute. reflexivity. Qed.

(** A fabric with the one request admitted, before its first step. *)
Lemma one_drainable m :
  (forall x s, im_seqs m !! x = Some s -> x = mkId 7 /\ s = sc_seq m) -> s_machine (sc_seq m) = SequenceState.Ready ->
  s_has_inflight_grant (sc_seq m) = false -> s_generated (sc_seq m) = 0 -> s_state_digest_established (sc_seq m) = false ->
  s_budget (sc_seq m) = new_budget 2 -> im_next_grant m = 1 -> Z.of_nat (backlog m) = 2 -> drainable cpu0 m.
Proof.
  intros Hone Hm Hg Hgen Hd Hb Hn Hl. split.
  - intros x s [_ ->]%Hone. right. split; [by left|done|]. split; [done|]. left. by rewrite Hgen.
  - intros x y s t [-> _]%Hone [-> _]%Hone _. done.
  - intros x s [_ ->]%Hone. rewrite Hb. by apply budget_wf_new.
  - split; rewrite Hn, ?Hl; [lia|lia|]. intros i _. done.
Qed.

Lemma sc_drainable : drainable cpu0 sc_admitted.
Proof.
  apply one_drainable; [|vm_compute; reflexivity..].
  intros x s. rewrite sc_admitted_seqs. intros [<- <-]%lookup_singleton_Some. done.
Qed.

Lemma pump_once_progress_witness :
  let '(ds, (c', m')) := pump_once 1000 cpu0 sc_admitted in length ds = 1%nat /\ cycle_done cpu0 sc_admitted ds c' m'.
Proof.
  assert (Hl : length (pump_once 1000 cpu0 sc_admitted).1 = 1%nat) by (vm_compute; reflexivity).
  pose proof (pump_once_progress 1000 cpu0 sc_admitted) as H. destruct (pump_once 1000 cpu0 sc_admitted) as [ds [c' m']]. split; [exact Hl|].
  destruct sc_drainable as [D1 D2 _ _]. apply H; [exact D1|exact D2| |apply keys_freshb_ok; vm_compute; reflexivity].
  split; [vm_compute; discriminate|vm_compute; reflexivity|]. intros i _. done.
Defined.





(** A worker is lost with the sequence in flight and registers again: the pump generates every token, and the sequence never
    completes. *)
Definition requeued : Impl := run sc_dispatched [OMarkWorkerDead (mkId 5); ORegisterWorker sc_worker].
Example requeued_never_completes :
  s_machine (sc_seq requeued) = SequenceState.Waiting /\
  match pump_until_idle 4 (-1) cpu0 requeued with
  | Some (Ok tt, (c, m)) => s_machine (sc_seq m) = SequenceState.Waiting /\ s_generated (sc_seq m) = 2 /\ tb_exhausted (s_budget (sc_seq m)) = true
  | _ => False
  end.
Proof. by vm_compute. Qed.
