(* ===== verification/DistributedScenario.v ===== *)
(** * A coordinator, a worker and a client

    One token decoded over the wire: the client submits, the dispatch thread sends the work, the
    worker prepares, the coordinator grants, the worker commits, the coordinator records; then two
    things that can go wrong. *)

From S2P Require Import Prelude Enums Errors Token StateMachine Ids Compatibility Types Binary Frame Messages Double FabricState FabricFrame FabricOps Schedule Transaction Executor CpuExecutor Pump Observability Distributed FabricInvariants ProtocolInvariants FabricTheorems DistributedTheorems Scenario.

#[local] Existing Instance canonical_order.
#[local] Instance wire_clock : Clock := fun n => 1000 + Z.of_nat n.
#[local] Instance wire_libm : Libm := {| lm_tanh := fun x => x; lm_sin := fun _ => d_zero; lm_nan_bits := 0x7FF8000000000000 |}.
#[local] Instance wire_steady : SteadyClock := fun n => 10 * Z.of_nat n.
#[local] Instance wire_ostream : Ostream := fun _ => "0".

Definition frame_of (s : Sent) : Frame := mkFrame (12 + Z.of_nat (List.length s.2)) 1 s.1 s.2.
(** What the server sent on a connection since it had sent [n] frames. *)
Definition sent_since (n : nat) (conn : ConnId) (sv : Server) : list Frame :=
  frame_of <$> (filter (fun x => x.1 = conn) (drop n (sv_sent sv))).*2.

Definition wire_worker : WorkerDescriptor := worker_descriptor (mkId 5) (mkId 50) (mkId 1) (cpu_device (mkId 1)) BackendKind.CPU.
Definition hello : Frame := frame_of (worker_greeting wire_worker).
Definition submission : Frame := frame_of (FrameType.SubmitRequest, encode_submit_request sc_request).

(** Connected, submitted and dispatched. *)
Definition sv1 : Server := serve new_server [EvAccept 1; EvFrame 1 hello; EvAccept 2; EvFrame 2 submission; EvTick].
(** The worker prepares. *)
Definition execute : Frame := hd hello (sent_since 0 1 sv1).
Definition cpu_a : CpuDecodeExecutor := (worker_loop execute (new_cpu (mkId 1))).1.2.
Definition prepared : Frame := frame_of (hd (worker_greeting wire_worker) (worker_loop execute (new_cpu (mkId 1))).1.1).
(** The coordinator grants. *)
Definition sv2 : Server := server_step sv1 (EvFrame 1 prepared).
Definition grant_frame : Frame := hd hello (sent_since (List.length (sv_sent sv1)) 1 sv2).
(** The worker commits. *)
Definition cpu_b : CpuDecodeExecutor := (worker_loop grant_frame cpu_a).1.2.
Definition receipt_frame : Frame := frame_of (hd (worker_greeting wire_worker) (worker_loop grant_frame cpu_a).1.1).
(** The coordinator records. *)
Definition sv3 : Server := server_step sv2 (EvFrame 1 receipt_frame).

Abbreviation seq_of sv := (sc_seq (co_fabric (sv_coord sv))).

Example one_token_over_the_wire :
  fr_type execute = FrameType.ExecuteRequest /\ fr_type prepared = FrameType.PreparedResult /\
  fr_type grant_frame = FrameType.CommitGrant /\ fr_type receipt_frame = FrameType.CommitReceipt /\
  s_generated (seq_of sv3) = 1 /\ s_machine (seq_of sv3) = SequenceState.ReadyForNextToken /\
  s_committed_state_digest (seq_of sv3) = committed_state_digest null_id cpu_b /\ committed_tokens null_id cpu_b = 1.
Proof. by vm_compute. Qed.

Lemma only_workers_commit_witness :
  exists conn f w rd rec, EvFrame 1 receipt_frame = EvFrame conn f /\ sv_sessions sv2 !! conn = Some (WorkerSession w) /\
    fr_type f = FrameType.CommitReceipt /\ decode_commit_receipts (fr_payload f) = Ok rd /\ rec ∈ rd_receipts rd /\
    s_committed_state_digest (seq_of sv3) = rc_post_state_digest rec.
Proof.
  assert (H1 : im_seqs (co_fabric (sv_coord sv2)) !! (mkId 7 : SequenceId) = Some (seq_of sv2)) by (vm_compute; reflexivity).
  assert (H2 : im_seqs (co_fabric (sv_coord (server_step sv2 (EvFrame 1 receipt_frame)))) !! (mkId 7 : SequenceId) = Some (seq_of sv3))
    by (vm_compute; reflexivity).
  assert (H3 : committed_view (seq_of sv3) <> committed_view (seq_of sv2)) by (vm_compute; discriminate).
  destruct (only_workers_commit sv2 (EvFrame 1 receipt_frame) (mkId 7) (seq_of sv2) (seq_of sv3) H1 H2 H3)
    as (conn & f & w & rd & rec & gr & E1 & E2 & E3 & E4 & E5 & _ & _ & _ & _ & _ & _ & E6).
  exists conn, f, w, rd, rec. exact (conj E1 (conj E2 (conj E3 (conj E4 (conj E5 E6))))).
Defined.

(** A worker that restarts connects again before its old connection is seen to be lost: the loss of
    the old connection removes the new one and declares the running worker dead. *)
Definition restarted : Frame := frame_of (worker_greeting (wire_worker <| wk_boot_id := mkId 51 |>)).
Definition sv_restart : Server :=
  serve new_server [EvAccept 1; EvFrame 1 hello; EvAccept 3; EvFrame 3 restarted; EvLost 1].
Example old_connection_kills_new_worker :
  co_conns (sv_coord sv_restart) !! (mkId 5 : WorkerId) = None /\
  wk_health <$> (im_workers (co_fabric (sv_coord sv_restart)) !! (mkId 5 : WorkerId)) = Some WorkerHealth.Failed.
Proof. by vm_compute. Qed.

(** A prepare that fails is answered with a group error and no members: the coordinator does not look at
    the error, and the dispatched sequence stays dispatched. *)
Definition refused : Frame :=
  frame_of (FrameType.PreparedResult, encode_prepared_result
    (prepare_reply (exec_request sc_dispatch) (failed ErrorCode.BackendError "out of memory"))).
Example failed_prepare_strands :
  let sv := server_step sv1 (EvFrame 1 refused) in
  s_machine (seq_of sv) = SequenceState.Dispatched /\ s_has_inflight (seq_of sv) = true /\
  List.length (sv_sent sv) = List.length (sv_sent sv1).
Proof. by vm_compute. Qed.
