(* ===== verification/SystemScenario.v ===== *)
(** * A whole run: coordinator, worker process and client

    One token decoded by the composed system of System.v, and a run in which the worker's connection
    is lost between its commit and the delivery of its receipt. *)

From S2P Require Import Prelude Enums Errors Token StateMachine Ids Compatibility Types Binary Frame Messages Double FabricState FabricFrame FabricOps Schedule Transaction Executor CpuExecutor CpuTheorems Pump Observability Distributed System FabricInvariants ProtocolInvariants FabricTheorems SystemTheorems WireExecutors Scenario DistributedScenario.

#[local] Existing Instance canonical_order.
#[local] Instance run_clock : Clock := fun n => 1000 + Z.of_nat n.
#[local] Instance run_libm : Libm := {| lm_tanh := fun x => x; lm_sin := fun _ => d_zero; lm_nan_bits := 0x7FF8000000000000 |}.
#[local] Instance run_steady : SteadyClock := fun n => 10 * Z.of_nat n.
#[local] Instance run_ostream : Ostream := fun _ => "0".

(** A worker connects, a client submits, and one step is dispatched, prepared, granted and committed. *)
Definition until_commit : list (Action CpuDecodeExecutor) :=
  [AStart 1 wire_worker (new_cpu (mkId 1)); ADeliver 1; AClient 2; AClientFrame 2 submission; ATick;
   AWork 1; ADeliver 1; AWork 1].
Definition whole_run : list (Action CpuDecodeExecutor) := until_commit ++ [ADeliver 1].
Definition sys_committed : System CpuDecodeExecutor := run_system new_system whole_run.

Definition consumed_grant : GrantRecord :=
  default (mkGrantRecord (grant_for sc_prepared sc_prepared_member (mkId 1)) 0 None)
    (im_grant_ledger (fabric_of_system sys_committed) !! (mkId 1 : GrantId)).

Example system_decodes_a_token :
  s_generated (sc_seq (fabric_of_system sys_committed)) = 1 /\ length (sy_commits sys_committed) = 1%nat /\
  gr_status consumed_grant = 1.
Proof. by vm_compute. Qed.

Lemma commits_backed_by_workers_witness :
  exists rec, (gr_grant consumed_grant, rec) ∈ sy_commits sys_committed /\
    gr_receipt consumed_grant = Some (rec <| rc_committed_at := 0 |>).
Proof.
  destruct (commits_backed_by_workers whole_run) as [H _].
  - repeat constructor; try apply new_cpu_wf; discriminate.
  - vm_compute. reflexivity.
  - apply (H (mkId 1)); vm_compute; reflexivity.
Defined.

(** The connection is lost after the worker committed: the executor is one token ahead of the coordinator, whose
    sequence still holds the grant although no receipt can arrive any more. *)
Definition sys_lost : System CpuDecodeExecutor := run_system new_system (until_commit ++ [ALost 1]).
Example lost_receipt :
  length (sy_commits sys_lost) = 1%nat /\ s_generated (sc_seq (fabric_of_system sys_lost)) = 0 /\
  grant_status (mkId 1) (fabric_of_system sys_lost) = 0.
Proof. by vm_compute. Qed.
