(* ===== verification/CliScenario.v ===== *)
(** * Command lines evaluated

    The commands of cli/main.cpp on concrete arguments: what is dispatched, printed and returned. *)

From S2P Require Import Prelude Enums Errors Token StateMachine Ids Compatibility Types Binary Frame Messages Transport Double FabricState CLib FabricFrame FabricOps Schedule Transaction Executor CpuExecutor Pump Observability Distributed Persist FilePersist Programs System Cli Bench CliTheorems Scenario.
From Stdlib Require Import Ascii String.
Open Scope Z_scope.

#[local] Existing Instance canonical_order.
#[local] Instance cli_libm : Libm := {| lm_tanh := fun x => x; lm_sin := fun _ => d_zero; lm_nan_bits := 0x7FF8000000000000 |}.
#[local] Instance cli_steady : SteadyClock := fun n => 10 * Z.of_nat n.
#[local] Instance cli_ostream : Ostream := fun _ => "0"%string.
#[local] Instance cli_atoi : AtoiOverflow := fun _ => 0.
#[local] Instance cli_print : PrintFixed := fun _ _ => "0"%string.
#[local] Instance peer_clock : Clock := FixedClock 1000.

(** Too few arguments and unknown commands print the usage and exit with 2. *)
Example usage_cases :
  Forall (fun argv => command_of argv = CUsage)
    [[]; ["df"]; ["df"; "submit"; "h"; "1"; "2"; "3"]; ["df"; "status"; "h"]; ["df"; "cancel"; "h"; "1"]; ["df"; "recover"];
     ["df"; "Serve"]]%string.
Proof. repeat constructor. Qed.

Example dispatch_cases :
  command_of ["df"; "serve"; "9000"; "3"] = CServe ["df-coordinator"; "9000"; "3"] /\
  command_of ["df"; "worker"; "h"; "1"] = CWorker ["worker"; "h"; "1"] /\
  command_of ["df"; "stats"; "h"; "1"] = CStatus false /\ command_of ["df"; "snapshot"; "h"; "1"] = CStatus true /\
  command_of ["df"; "bench"] = CBench.
Proof. by vm_compute. Qed.

(** The last of repeated options wins; an option without a value is ignored; an option may be another's value. *)
Example option_cases :
  submit_options ["--model"; "5"; "--model"; "7"; "--rev"] 1 1 = (7, 1) /\
  submit_options ["--model"; "--rev"; "9"] 1 1 = (0, 9).
Proof. by vm_compute. Qed.

(** [recover] into an empty directory: three sequences, one step committed for each, recovered and ready again. *)
Definition image_size : nat := match serialize_state recover_fabric with Ok bs => List.length bs | Err _ => 0%nat end.

Definition persisted : Output := Stdout ("persisted state (1769 bytes) after partial generation" +:+ nl).

Example recover_evaluated :
  (cmd_recover (mkOutcomeFs true true image_size true true true) ∅).1 = (0, [persisted; Stdout ("recovered: ok active=3 ready=3" +:+ nl)]).
Proof. by vm_compute. Qed.

(** When the record could not be written the line about it is printed all the same. *)
Example recover_unwritten :
  (cmd_recover (mkOutcomeFs false true image_size true true true) ∅).1 =
  (0, [persisted; Stdout ("recover: no persisted state (record not found)" +:+ nl)]).
Proof. by vm_compute. Qed.

(** Closing the temporary file loses its tail unnoticed: the checksum finds it. *)
Example recover_short_write :
  (cmd_recover (mkOutcomeFs true true 100 true true true) ∅).1 =
  (0, [persisted; Stdout ("recovered: state checksum mismatch active=0 ready=0" +:+ nl)]).
Proof. by vm_compute. Qed.

(** [bench] runs every sequence to its budget. *)
Example bench_evaluated :
  cmd_bench 100 1000000000 ["df"; "bench"; "2"; "2"]%string =
  Some (0, [Stdout ("bench: sequences=2 budget=2 decode_steps=4 generated=4 elapsed=0s scheduler_ops_per_s=0" +:+ nl)]).
Proof. by vm_compute. Qed.

(** The benchmark with the sizes given, one of which is no number. *)
#[local] Instance bench_seconds : SecondsClock := fun n => d_of_Z (Z.of_nat n).
Example bench_main_evaluated :
  bench_sizes ["bench"; "0"; "x"]%string = [0; 0] /\
  bench_main 3 ["bench"; "0"; "x"]%string = Some (0, (fun i => Stdout
    ("bench n=0 budget=8 submit=0/s schedule+complete=0 steps/s (gen=0) serialize=0us recover=0us" +:+ nl)) <$> [0; 1]%nat).
Proof. by vm_compute. Qed.

(** ** Submitting to a coordinator *)

Definition served_fabric : Impl := (register_worker (cli_worker 100) (new_fabric default_config)).2.

Lemma cli_submit_exact_witness :
  let argv := submit_argv "h" "9000" 7 1 10 1 1 in
  cmd_submit argv (coordinator_peer served_fabric) = (0, [Stdout ("submitted seq=7 admitted=1 reason=admitted" +:+ nl)]) /\
  command_of argv = CSubmit /\
  is_Some (im_seqs (served served_fabric (FrameType.SubmitRequest, encode_submit_request (submit_request_of argv))) !! (mkId 7 : SequenceId)).
Proof.
  destruct (cli_submit_exact "h" "9000" 7 1 10 1 1 served_fabric ltac:(repeat constructor)) as (Hc & Hm & Ho & Ha).
  split; [rewrite Ho; vm_compute; reflexivity|]. split; [exact Hc|]. rewrite Hm. vm_compute. eauto.
Defined.

(** A second submission of the same number is refused; so is a zero budget. *)
Example resubmission_refused :
  let argv := submit_argv "h" "9000" 7 1 10 1 1 in
  let m := served served_fabric (FrameType.SubmitRequest, encode_submit_request (submit_request_of argv)) in
  cmd_submit argv (coordinator_peer m) = (1, [Stdout ("submitted seq=0 admitted=0 reason=duplicate_sequence_id" +:+ nl)]) /\
  cmd_submit (submit_argv "h" "9000" 8 1 0 1 1) (coordinator_peer m) =
    (1, [Stdout ("submitted seq=0 admitted=0 reason=maximum generation length must be > 0" +:+ nl)]).
Proof. by vm_compute. Qed.

(** Commands that do not look at the result of connecting fail at sending; a lost reply is not an error to them. *)
Definition no_peer : Peer := mkPeer (fun _ _ => net_error "connect failed") (fun _ => Ok tt) (fun _ => net_error "recv failed").
Definition mute_peer : Peer := mkPeer (fun _ _ => Ok tt) (fun _ => Ok tt) (fun _ => net_error "recv failed").
Example silent_commands :
  cmd_inspect ["df"; "inspect"; "h"; "1"; "7"]%string no_peer = (1, [Stderr ("inspect send failed" +:+ nl)]) /\
  cmd_inspect ["df"; "inspect"; "h"; "1"; "7"]%string mute_peer = (0, []) /\
  cmd_cancel ["df"; "cancel"; "h"; "1"; "7"]%string mute_peer = (0, [Stdout ("cancel request=7" +:+ nl)]).
Proof. by vm_compute. Qed.
