(* ===== verification/CudaScenario.v ===== *)
(** * The CUDA executor on failing runtimes

    The executor evaluated on a runtime whose calls fail where the scenario says, and the theorems of
    CudaTheorems.v at these inputs.  The single-precision library is that of Kernel.v's example, an
    identity in place of tanhf and sinf. *)

From S2P Require Import Prelude Enums Errors Ids Compatibility Types Double FabricState Transaction Executor CpuExecutor Kernel CudaExecutor CudaHost CudaTheorems.
From stdpp Require Import relations.
Open Scope Z_scope.

#[local] Instance sample_libm : Libm := {| lm_tanh := fun x => x; lm_sin := fun _ => d_zero; lm_nan_bits := 0x7FF8000000000000 |}.
#[local] Instance sample_steady : SteadyClock := fun n => 10 * Z.of_nat n.
#[local] Existing Instance plain_math.

(** The runtime on which exactly the calls of [bad] fail. *)
Definition failing (bad : list nat) : CudaRuntime.
Proof.
  refine {| cuda_error n := if bool_decide (n ∈ bad) then Some "out of memory"%string else None;
            cuda_garbage _ := replicate kStateSize f_zero; cuda_junk _ := 0 |}.
  intros n. apply length_replicate.
Defined.

Definition cu_spec (tokens attempt : Z) : DecodeMemberSpec :=
  mkMemberSpec (mkId 7) (mkId attempt) (mkId (tokens + 1)) (default_state_descriptor <| sd_id := mkId 70 |>) (10 + tokens) tokens 5 [].
Definition cu_req (tokens attempt : Z) : DecodeExecutionRequest :=
  mkExecRequest (mkId 1) (mkId 1) (mkId 5) (mkId 50) default_key (cuda_device (mkId 2) None) 1 [cu_spec tokens attempt] [] 0.
Definition cu0 : CudaDecodeExecutor := new_cuda (mkId 2) None.

(** The member a prepare returns, and the grant for it. *)
Definition first_member (res : Result PreparedDecode) : option PreparedMember :=
  match res with Ok pd => head (pd_members pd) | Err _ => None end.
Definition cu_grant (id : Z) (pm : PreparedMember) : CommitGrant :=
  mkGrant (mkId id) (pm_proposal pm) (pm_epoch pm) (pm_worker pm) (pm_worker_boot pm) (pm_sequence pm) (pm_state pm)
    (pm_attempt pm) (pm_generation pm) (pm_dispatch pm) (pm_committed_position_before pm) (pm_pre_state_digest pm)
    (pm_post_state_digest pm) (pm_delta_digest pm) MemberOutcomeKind.StepSuccessContinue false 0 0.

(** ** A kernel launch fails, the retry succeeds, and the step is committed *)

#[local] Instance launch_fails : CudaRuntime := failing [8%nat].
Definition cu1 : CudaDecodeExecutor := (cuda_prepare (cu_req 0 1) cu0).2.
Definition cu2 : CudaDecodeExecutor := (cuda_prepare (cu_req 0 1) cu1).2.
Definition cu_pm : option PreparedMember := first_member (cuda_prepare (cu_req 0 1) cu1).1.
Definition cu_pm0 : PreparedMember := default (mkPrepared null_id null_id null_id null_id null_id null_id null_id null_id null_id 0 0 0 default_outcome 0 0 0) cu_pm.
Definition cu3 : CudaDecodeExecutor := (cuda_commit (cu_grant 1 cu_pm0) cu2).2.

Example launch_failure_recovered :
  (cuda_prepare (cu_req 0 1) cu0).1 = failed ErrorCode.BackendError "kernel launch failed: out of memory" /\
  size (gpu_mem (cu_gpu cu1)) = 1%nat /\ is_Some cu_pm /\ size (gpu_mem (cu_gpu cu2)) = 2%nat /\
  cuda_committed_tokens (mkId 70) cu3 = 1 /\ size (gpu_mem (cu_gpu cu3)) = 1%nat.
Proof. vm_compute. split_and!; try reflexivity. by eexists. Qed.

Lemma cu2_reachable : cuda_reachable cu2.
Proof. exists (mkId 2), None. eapply rtc_l; [apply (cs_prepare (cu_req 0 1))|]. apply rtc_once, (cs_prepare (cu_req 0 1)). Qed.


(** The commit of the retried step, through the theorem. *)
Lemma cuda_transactional_witness : promotes (cu_grant 1 cu_pm0) cu2 cu3.
Proof.
  destruct (cuda_transactional cu2 (cu_req 0 1) (cu_grant 1 cu_pm0) (mkAbort null_id null_id null_id null_id null_id null_id null_id null_id null_id) cu2_reachable)
    as (_ & _ & H).
  assert (E : exists rec, cuda_commit (cu_grant 1 cu_pm0) cu2 = (Ok rec, cu3)).
  { exists (dev_receipt (cu_grant 1 cu_pm0) 0). vm_compute. reflexivity. }
  destruct E as [rec E]. rewrite E in H. destruct H as (_ & [[H _]|(_ & H & _)]); [|exact H].
  exfalso. assert (N : cu_receipts_by_grant cu2 !! g_grant_id (cu_grant 1 cu_pm0) = None) by (vm_compute; reflexivity). congruence.
Defined.

(** ** A failed reconstruction is taken for a finished one *)

(** The write-back of a reconstruction to position 2 fails.  The counters say 2, the buffer does not hold that
    state, and the next prepare of the same step succeeds from it: its pre-state digest is not the one an
    executor without failures computes. *)
Example failed_reconstruction_corrupts :
  let bad := failing [5%nat] in
  let good := failing [] in
  let c1 := (cuda_prepare (CR := bad) (cu_req 2 1) cu0).2 in
  (cuda_prepare (CR := bad) (cu_req 2 1) cu0).1 = failed ErrorCode.BackendError "cudaMemcpy reconstruction write failed" /\
  cuda_committed_tokens (mkId 70) c1 = 2 /\
  (fun pm => pm_committed_position_before pm) <$> first_member (cuda_prepare (CR := bad) (cu_req 2 1) c1).1 = Some 2 /\
  pm_pre_state_digest <$> first_member (cuda_prepare (CR := bad) (cu_req 2 1) c1).1 <>
  pm_pre_state_digest <$> first_member (cuda_prepare (CR := good) (cu_req 2 1) cu0).1.
Proof. vm_compute. split_and!; try reflexivity. discriminate. Qed.

(** ** Takeover on a device that computes as the host does *)

(** Two steps prepared and committed on one executor, and the third prepared by a fresh one: the same digests. *)
Example cuda_takeover :
  let good := failing [] in
  let run c tokens := (cuda_prepare (CR := good) (cu_req tokens 1) c) in
  let commit1 c tokens :=
    match first_member (run c tokens).1 with
    | Some pm => (cuda_commit (CR := good) (cu_grant (tokens + 1) pm) (run c tokens).2).2
    | None => c
    end in
  let c2 := commit1 (commit1 cu0 0) 1 in
  cuda_committed_tokens (mkId 70) c2 = 2 /\
  (fun pm => (pm_pre_state_digest pm, pm_post_state_digest pm)) <$> first_member (run c2 2).1 =
  (fun pm => (pm_pre_state_digest pm, pm_post_state_digest pm)) <$> first_member (run cu0 2).1.
Proof. by vm_compute. Qed.
