(* ===== verification/ExampleRuns.v ===== *)
(** * The example programs evaluated

    Programs of src/examples run to their end: what they print, and that they return 0.  (Those left out differ in
    the lengths of their runs.)  The numeric library is
    instantiated by an identity in place of tanh and a zero in place of sin; on the CUDA side no call fails. *)

From S2P Require Import Prelude Enums Errors Token StateMachine Ids Compatibility Types Binary Frame Messages Transport Double FabricState CLib FabricFrame FabricOps Schedule Transaction Executor CpuExecutor CpuTheorems Pump Kernel CudaExecutor Observability Distributed Persist FilePersist Programs System Cli CliTheorems Examples CudaScenario.
From Stdlib Require Import Ascii String.
Open Scope Z_scope.

#[local] Existing Instance canonical_order.
#[local] Existing Instance plain_math.
#[local] Instance run_clock : Clock := fun n => 1000 + Z.of_nat n.
#[local] Instance run_libm : Libm := {| lm_tanh := fun x => x; lm_sin := fun _ => d_zero; lm_nan_bits := 0x7FF8000000000000 |}.
#[local] Instance run_steady : SteadyClock := fun n => 10 * Z.of_nat n.
#[local] Instance run_ostream : Ostream := fun _ => "0"%string.
#[local] Instance run_atoi : AtoiOverflow := fun _ => 0.
#[local] Instance no_failures : CudaRuntime := failing [].

Definition says (code : Z) (line : string) : Z * list Output := (code, [Stdout (line +:+ nl)]).

Example cpu_examples_succeed :
  ex01 60 = Some (says 0 "01 basic_cpu_decode: admitted=1 generated=5 active=0") /\
  external_consumer 60 = Some (says 0 "external consumer: admitted=1 generated=5 active=0").
Proof. by vm_compute. Qed.

(** Groups shrink as their members complete: seven dispatches of 3, 3, 3, 2, 2, 1 and 1 members. *)
Example batching_example_succeeds :
  ex03 = says 0 "03 continuous_batching: dispatches=7 group-member-sum=15 done active=0".
Proof. by vm_compute. Qed.

Example cancellation_example_succeeds : ex08 = says 0 "08 cancellation_between_steps: cancel=1 stopped=1 generated=1".
Proof. by vm_compute. Qed.

(** A failed member is retried under a new attempt and loses no token. *)
Example retry_example_succeeds :
  ex09 60 = Some (says 0 "09 retry_after_member_failure: retries=1 generated=6 (new AttemptId, no rollback)").
Proof. by vm_compute. Qed.

Example persistence_example_succeeds :
  (ex10 (mkOutcomeFs true true 635 true true true) ∅).1 =
    (0, [Stdout ("10 persistence_recovery: persisted 635 bytes, generated=1" +:+ nl);
         Stdout ("10 persistence_recovery: recovered active=1 generated=1" +:+ nl)]).
Proof. by vm_compute. Qed.

Example cuda_example_succeeds :
  ex11 (Some (mkProp "gpu" 12 0 100000000)) 60 = Some (says 0 "11 cuda_decode: device=gpu cc=12.0 generated=8 active=0") /\
  ex11 None 60 = Some (says 2 "11 cuda_decode: no sm_120 device").
Proof. by vm_compute. Qed.

(** The client of a coordinator whose worker has registered, and one too few arguments. *)
Definition coordinator_fabric : Impl := (register_worker (cli_worker 100) (new_fabric default_config)).2.
Example client_example_succeeds :
  let m := served coordinator_fabric (FrameType.SubmitRequest, encode_submit_request (ex_req 100 1000 7 5 double_one)) in
  ex12 (coordinator_peer coordinator_fabric) (coordinator_peer m) ["ex12"; "127.0.0.1"; "9000"]%string =
    Some (0, [Stdout ("12 distributed: submitted seq=1000 admitted=1" +:+ nl); Stdout ("12 distributed: active=1 generated=0" +:+ nl)]) /\
  ex12 (coordinator_peer m) (coordinator_peer m) ["ex12"; "127.0.0.1"]%string =
    Some (says 2 "usage: ex12 <coordinator_host> <port>").
Proof. by vm_compute. Qed.
